(** * contrib/ltree/ltree_io.c: text input and output of ltree and lquery

    A shallow embedding of [count_lquery_parts_ors], [copy_unescaped],
    [copy_escaped], [ltree_in], [ltree_out] and [lquery_in], and the
    properties of the specification stated over it.

    Conventions of the embedding.
    - A C string is the list of its bytes, the terminating NUL left out;
      [char *] pointers into it are byte offsets ([nat]), or the suffix of
      the string that starts at the pointer.
    - C [int] values are [Z].  The text handed to the functions is smaller
      than the allocation limit of the host, so that the [int] counters
      ([pos], [levels], [totallen], ...) do not wrap.  The [uint16] values
      the source declares or casts to ([copied], [(uint16) lptr->len]) and
      the stores into the fields of 16 bits of the records of ltree.h
      ([numlevel], [firstgood], [numvar], [totallen], [low], [high]) wrap
      explicitly, by [uint16].  The flags are the bits that ltree.h
      defines, which their fields hold, and the length in bytes of a name
      is that of 255 characters at most.
    - [ereport(ERROR, ...)] and [elog(ERROR, ...)] leave the function: a
      function returns an [outcome], either its value, the error raised, or
      [Undefined] where the C program has no defined behaviour (a store
      outside an allocated array, a character that runs past the end of the
      string).
    - A buffer that a function fills from its start on is the list of the
      bytes stored.  [copy_unescaped] stores [max_len] bytes at most, by its
      own check, and its callers allocate as many for it; [copy_escaped] and
      [ltree_out] do not bound their stores, and take the number of bytes
      allocated ([room], [alloc]) to tell a store behind the buffer.
    - What ltree.h, c.h and the encoding and locale support declare is not
      part of this file: it is gathered in the record [host], over which all
      definitions are parametric. *)

From Stdlib Require Import ZArith List Ascii String Bool Lia Arith.
Import ListNotations.

Open Scope char_scope.
Open Scope Z_scope.

(** ** Bytes and texts *)

Definition text := list ascii.

Definition NUL : ascii := "000".

(** [*ptr], for the suffix [p] of a string: the terminating NUL at its end. *)
Definition deref (p : text) : ascii := hd NUL p.

(** ts_locale.h: [t_iseq(x,c)] compares the first byte of [x] with [c]. *)
Definition t_iseq (p : text) (c : ascii) : bool := Ascii.eqb (deref p) c.

(** [strchr(to_escape, c)] used as a truth value, for [c] other than NUL. *)
Definition strchr (to_escape : text) (c : ascii) : bool :=
  existsb (Ascii.eqb c) to_escape.

Definition isdigit (c : ascii) : bool :=
  (48 <=? nat_of_ascii c)%nat && (nat_of_ascii c <=? 57)%nat.

(** The value of the decimal digits at the head of [p]. *)
Fixpoint atoi_acc (p : text) (acc : Z) : Z :=
  match p with
  | c :: p' =>
      if isdigit c then atoi_acc p' (10 * acc + (Z.of_nat (nat_of_ascii c) - 48))
      else acc
  | [] => acc
  end.

(** A value stored in a field of 16 bits without sign. *)
Definition uint16 (x : Z) : Z := x mod 65536.

(** limits.h, for the [int] of 32 bits that PostgreSQL builds with. *)
Definition INT_MAX : Z := 2147483647.

(** ** The host: what the headers and the server declare *)

Record host := {
  (** [pg_mblen]: the length in bytes of the character that starts with the
      given byte, in the encoding of the database. *)
  mblen : ascii -> nat;
  (** [iswdigit] on a character of several bytes, by the locale. *)
  wide_isdigit : text -> bool;
  (** crc32.h *)
  ltree_crc32_sz : text -> Z;
  (** stdlib.h: what [atoi] returns for digits whose value is above
      [INT_MAX].  The C standard leaves that to the library. *)
  atoi_beyond_int : Z -> Z;
  (** c.h, memutils.h *)
  MAXIMUM_ALIGNOF : Z;
  MaxAllocSize : Z;
  sizeof_nodeitem : Z;
  sizeof_pointer : Z;
  (** ltree.h *)
  LEVEL_HDRSIZE : Z;
  LTREE_HDRSIZE : Z;
  LVAR_HDRSIZE : Z;
  LQL_HDRSIZE : Z;
  LQUERY_HDRSIZE : Z;
  LVAR_ANYEND : Z;
  LVAR_INCASE : Z;
  LVAR_SUBLEXEME : Z;
  LQL_NOT : Z;
  LQUERY_HASNOT : Z
}.

(** What the properties below assume of a host.  The encodings of the
    server keep the bytes below 128 for the characters of ASCII and have
    characters of at most MAX_MULTIBYTE_CHAR_LEN = 4 bytes. *)
Record host_ok (H : host) : Prop := {
  mblen_pos : forall c, (1 <= mblen H c)%nat;
  mblen_max : forall c, (mblen H c <= 4)%nat;
  mblen_ascii : forall c, (nat_of_ascii c < 128)%nat -> mblen H c = 1%nat;
  LQL_NOT_set : LQL_NOT H <> 0;
  levels_limit : 1 <= Z.quot (MaxAllocSize H) (sizeof_nodeitem H)
}.

(** ** Errors and outcomes *)

Inductive error :=
| SyntaxErrorAt (pos : Z)               (* UNCHAR: "syntax error at position %d" *)
| UnexpectedEnd                         (* "syntax error", "Unexpected end of line." *)
| LowGreaterThanUpper (low high : Z)    (* "syntax error", "Low limit(%d) is greater than upper(%d)." *)
| NameTooLong (wlen pos : Z)            (* ERRCODE_NAME_TOO_LONG *)
| TooManyLevels (levels maxlevels : Z)  (* ERRCODE_PROGRAM_LIMIT_EXCEEDED *)
| InternalError (msg : string).         (* elog(ERROR, msg) *)

Inductive undefined :=
| PastEndOfString      (* a character runs past the terminating NUL *)
| OutOfBounds          (* an access outside an allocated array *)
| NullPointer.

Inductive outcome (A : Type) :=
| Ok (a : A)
| Raise (e : error)
| Undefined (u : undefined)
| OutOfFuel.

Arguments Ok {A} a.
Arguments Raise {A} e.
Arguments Undefined {A} u.
Arguments OutOfFuel {A}.

Definition bind {A B} (m : outcome A) (k : A -> outcome B) : outcome B :=
  match m with
  | Ok a => k a
  | Raise e => Raise e
  | Undefined u => Undefined u
  | OutOfFuel => OutOfFuel
  end.

Notation "x <- m ;; k" := (bind m (fun x => k))
  (at level 61, m at next level, right associativity).
Notation "' pat <- m ;; k" := (bind m (fun x => match x with pat => k end))
  (at level 61, pat pattern, m at next level, right associativity).

(** Arrays: [a[i]] and [a[i] = f(a[i])], undefined outside the array. *)
Definition aget {A} (a : list A) (i : nat) : outcome A :=
  match nth_error a i with
  | Some x => Ok x
  | None => Undefined OutOfBounds
  end.

Fixpoint replace_nth {A} (a : list A) (i : nat) (x : A) : list A :=
  match a, i with
  | [], _ => []
  | _ :: a', O => x :: a'
  | y :: a', S i' => y :: replace_nth a' i' x
  end.

Definition aupd {A} (a : list A) (i : nat) (f : A -> A) : outcome (list A) :=
  match nth_error a i with
  | Some x => Ok (replace_nth a i (f x))
  | None => Undefined OutOfBounds
  end.

(** ** The scratch item of both parsers *)

Record nodeitem := {
  ni_start : nat;   (* char *start, as an offset into the input *)
  ni_len : Z;       (* length in bytes *)
  ni_flag : Z;
  ni_wlen : Z       (* length in characters *)
}.

Definition nodeitem0 : nodeitem :=
  {| ni_start := 0; ni_len := 0; ni_flag := 0; ni_wlen := 0 |}.

Definition set_start (s : nat) (it : nodeitem) : nodeitem :=
  {| ni_start := s; ni_len := ni_len it; ni_flag := ni_flag it; ni_wlen := ni_wlen it |}.
Definition set_len (l : Z) (it : nodeitem) : nodeitem :=
  {| ni_start := ni_start it; ni_len := l; ni_flag := ni_flag it; ni_wlen := ni_wlen it |}.
Definition set_flag (f : Z) (it : nodeitem) : nodeitem :=
  {| ni_start := ni_start it; ni_len := ni_len it; ni_flag := f; ni_wlen := ni_wlen it |}.
Definition set_wlen (w : Z) (it : nodeitem) : nodeitem :=
  {| ni_start := ni_start it; ni_len := ni_len it; ni_flag := ni_flag it; ni_wlen := w |}.

(** ** The binary records *)

Record ltree_level := {
  lv_len : Z;          (* uint16 len *)
  lv_name : text       (* the bytes stored at name *)
}.

Record ltree := {
  lt_vl_len : Z;       (* VARSIZE *)
  lt_numlevel : Z;     (* uint16 numlevel *)
  lt_levels : list ltree_level   (* the levels from LTREE_FIRST on, by LEVEL_NEXT *)
}.

Inductive ltprs := LTPRS_WAITNAME | LTPRS_WAITDELIM | LTPRS_WAITESCAPED.

(** The local variables of [ltree_in] that its first loop changes. *)
Record ltree_in_state := {
  lt_ptr : nat;              (* ptr - buf *)
  lt_state : ltprs;
  lt_list : list nodeitem;   (* the array at list *)
  lt_lptr : nat;             (* lptr - list *)
  lt_totallen : Z;
  lt_pos : Z;
  lt_escaped_count : Z
}.

Definition lt_set_ptr (x : nat) (st : ltree_in_state) : ltree_in_state :=
  {| lt_ptr := x; lt_state := lt_state st; lt_list := lt_list st;
     lt_lptr := lt_lptr st; lt_totallen := lt_totallen st; lt_pos := lt_pos st;
     lt_escaped_count := lt_escaped_count st |}.
Definition lt_set_state (x : ltprs) (st : ltree_in_state) : ltree_in_state :=
  {| lt_ptr := lt_ptr st; lt_state := x; lt_list := lt_list st;
     lt_lptr := lt_lptr st; lt_totallen := lt_totallen st; lt_pos := lt_pos st;
     lt_escaped_count := lt_escaped_count st |}.
Definition lt_set_list (x : list nodeitem) (st : ltree_in_state) : ltree_in_state :=
  {| lt_ptr := lt_ptr st; lt_state := lt_state st; lt_list := x;
     lt_lptr := lt_lptr st; lt_totallen := lt_totallen st; lt_pos := lt_pos st;
     lt_escaped_count := lt_escaped_count st |}.
Definition lt_set_lptr (x : nat) (st : ltree_in_state) : ltree_in_state :=
  {| lt_ptr := lt_ptr st; lt_state := lt_state st; lt_list := lt_list st;
     lt_lptr := x; lt_totallen := lt_totallen st; lt_pos := lt_pos st;
     lt_escaped_count := lt_escaped_count st |}.
Definition lt_set_totallen (x : Z) (st : ltree_in_state) : ltree_in_state :=
  {| lt_ptr := lt_ptr st; lt_state := lt_state st; lt_list := lt_list st;
     lt_lptr := lt_lptr st; lt_totallen := x; lt_pos := lt_pos st;
     lt_escaped_count := lt_escaped_count st |}.
Definition lt_set_pos (x : Z) (st : ltree_in_state) : ltree_in_state :=
  {| lt_ptr := lt_ptr st; lt_state := lt_state st; lt_list := lt_list st;
     lt_lptr := lt_lptr st; lt_totallen := lt_totallen st; lt_pos := x;
     lt_escaped_count := lt_escaped_count st |}.
Definition lt_set_escaped_count (x : Z) (st : ltree_in_state) : ltree_in_state :=
  {| lt_ptr := lt_ptr st; lt_state := lt_state st; lt_list := lt_list st;
     lt_lptr := lt_lptr st; lt_totallen := lt_totallen st; lt_pos := lt_pos st;
     lt_escaped_count := x |}.


(** ** lquery: records and parser states *)

Record lquery_variant := {
  lvar_val : Z;        (* int32 val *)
  lvar_len : Z;        (* uint16 len *)
  lvar_flag : Z;       (* uint8 flag *)
  lvar_name : text     (* the bytes stored at name *)
}.

Record lquery_level := {
  lql_totallen : Z;    (* uint16 totallen *)
  lql_flag : Z;        (* uint16 flag *)
  lql_numvar : Z;      (* uint16 numvar *)
  lql_low : Z;         (* uint16 low *)
  lql_high : Z;        (* uint16 high *)
  lql_variants : list lquery_variant   (* from LQL_FIRST on, by LVAR_NEXT *)
}.

Record lquery := {
  lq_vl_len : Z;       (* VARSIZE *)
  lq_numlevel : Z;     (* uint16 numlevel *)
  lq_firstgood : Z;    (* uint16 firstgood *)
  lq_flag : Z;         (* uint16 flag *)
  lq_levels : list lquery_level   (* from LQUERY_FIRST on, by LQL_NEXT *)
}.

Inductive lqprs :=
| LQPRS_WAITLEVEL | LQPRS_WAITDELIM | LQPRS_WAITOPEN | LQPRS_WAITFNUM
| LQPRS_WAITSNUM | LQPRS_WAITND | LQPRS_WAITCLOSE | LQPRS_WAITEND
| LQPRS_WAITVAR | LQPRS_WAITESCAPED.

(** An element of the array [tmpql]: the header of a [lquery_level], and
    after it the pointer that [GETVAR] reads, [None] for NULL. *)
Record tmp_level := {
  tq_flag : Z;
  tq_numvar : Z;
  tq_low : Z;
  tq_high : Z;
  tq_var : option (list nodeitem)
}.

Definition tmp_level0 : tmp_level :=
  {| tq_flag := 0; tq_numvar := 0; tq_low := 0; tq_high := 0; tq_var := None |}.

Definition tq_set_flag (x : Z) (q : tmp_level) : tmp_level :=
  {| tq_flag := x; tq_numvar := tq_numvar q; tq_low := tq_low q; tq_high := tq_high q; tq_var := tq_var q |}.
Definition tq_set_numvar (x : Z) (q : tmp_level) : tmp_level :=
  {| tq_flag := tq_flag q; tq_numvar := x; tq_low := tq_low q; tq_high := tq_high q; tq_var := tq_var q |}.
Definition tq_set_low (x : Z) (q : tmp_level) : tmp_level :=
  {| tq_flag := tq_flag q; tq_numvar := tq_numvar q; tq_low := x; tq_high := tq_high q; tq_var := tq_var q |}.
Definition tq_set_high (x : Z) (q : tmp_level) : tmp_level :=
  {| tq_flag := tq_flag q; tq_numvar := tq_numvar q; tq_low := tq_low q; tq_high := x; tq_var := tq_var q |}.
Definition tq_set_var (x : option (list nodeitem)) (q : tmp_level) : tmp_level :=
  {| tq_flag := tq_flag q; tq_numvar := tq_numvar q; tq_low := tq_low q; tq_high := tq_high q; tq_var := x |}.

(** The local variables of [lquery_in] that its first loop changes.  [lptr]
    points into the array of a level of [tmpql]: it is the index of that
    level and the index in the array. *)
Record lquery_in_state := {
  qs_ptr : nat;                 (* ptr - buf *)
  qs_state : lqprs;
  qs_tmpql : list tmp_level;
  qs_curqlevel : nat;           (* the index of curqlevel in tmpql *)
  qs_lptr : option (nat * nat);
  qs_hasnot : bool;
  qs_pos : Z;
  qs_escaped_count : Z
}.

Definition qs_set_ptr (x : nat) (st : lquery_in_state) : lquery_in_state :=
  {| qs_ptr := x; qs_state := qs_state st; qs_tmpql := qs_tmpql st; qs_curqlevel := qs_curqlevel st; qs_lptr := qs_lptr st; qs_hasnot := qs_hasnot st; qs_pos := qs_pos st; qs_escaped_count := qs_escaped_count st |}.
Definition qs_set_state (x : lqprs) (st : lquery_in_state) : lquery_in_state :=
  {| qs_ptr := qs_ptr st; qs_state := x; qs_tmpql := qs_tmpql st; qs_curqlevel := qs_curqlevel st; qs_lptr := qs_lptr st; qs_hasnot := qs_hasnot st; qs_pos := qs_pos st; qs_escaped_count := qs_escaped_count st |}.
Definition qs_set_tmpql (x : list tmp_level) (st : lquery_in_state) : lquery_in_state :=
  {| qs_ptr := qs_ptr st; qs_state := qs_state st; qs_tmpql := x; qs_curqlevel := qs_curqlevel st; qs_lptr := qs_lptr st; qs_hasnot := qs_hasnot st; qs_pos := qs_pos st; qs_escaped_count := qs_escaped_count st |}.
Definition qs_set_curqlevel (x : nat) (st : lquery_in_state) : lquery_in_state :=
  {| qs_ptr := qs_ptr st; qs_state := qs_state st; qs_tmpql := qs_tmpql st; qs_curqlevel := x; qs_lptr := qs_lptr st; qs_hasnot := qs_hasnot st; qs_pos := qs_pos st; qs_escaped_count := qs_escaped_count st |}.
Definition qs_set_lptr (x : option (nat * nat)) (st : lquery_in_state) : lquery_in_state :=
  {| qs_ptr := qs_ptr st; qs_state := qs_state st; qs_tmpql := qs_tmpql st; qs_curqlevel := qs_curqlevel st; qs_lptr := x; qs_hasnot := qs_hasnot st; qs_pos := qs_pos st; qs_escaped_count := qs_escaped_count st |}.
Definition qs_set_hasnot (x : bool) (st : lquery_in_state) : lquery_in_state :=
  {| qs_ptr := qs_ptr st; qs_state := qs_state st; qs_tmpql := qs_tmpql st; qs_curqlevel := qs_curqlevel st; qs_lptr := qs_lptr st; qs_hasnot := x; qs_pos := qs_pos st; qs_escaped_count := qs_escaped_count st |}.
Definition qs_set_pos (x : Z) (st : lquery_in_state) : lquery_in_state :=
  {| qs_ptr := qs_ptr st; qs_state := qs_state st; qs_tmpql := qs_tmpql st; qs_curqlevel := qs_curqlevel st; qs_lptr := qs_lptr st; qs_hasnot := qs_hasnot st; qs_pos := x; qs_escaped_count := qs_escaped_count st |}.
Definition qs_set_escaped_count (x : Z) (st : lquery_in_state) : lquery_in_state :=
  {| qs_ptr := qs_ptr st; qs_state := qs_state st; qs_tmpql := qs_tmpql st; qs_curqlevel := qs_curqlevel st; qs_lptr := qs_lptr st; qs_hasnot := qs_hasnot st; qs_pos := qs_pos st; qs_escaped_count := x |}.

Section WithHost.

Variable H : host.

Definition pg_mblen (p : text) : nat := mblen H (deref p).

(** c.h: [TYPEALIGN(MAXIMUM_ALIGNOF, LEN)]. *)
Definition MAXALIGN (x : Z) : Z :=
  Z.land (x + (MAXIMUM_ALIGNOF H - 1)) (Z.lnot (MAXIMUM_ALIGNOF H - 1)).

(** ts_locale.c: [isdigit] on a character of one byte, [iswdigit] otherwise. *)
Definition t_isdigit (p : text) : bool :=
  if (pg_mblen p =? 1)%nat then isdigit (deref p)
  else wide_isdigit H (firstn (pg_mblen p) p).

(** The [int] that [atoi] returns for digits of the value [v]: the value
    where an [int] holds it, and what the library of the host makes of it
    otherwise. *)
Definition atoi_value (v : Z) : Z :=
  if v <=? INT_MAX then v else atoi_beyond_int H v.

(** stdlib.h: [atoi] on the decimal digits at the head of [p].  Both calls
    follow a successful [t_isdigit(ptr)]: neither white space nor a sign is
    in front of the digits. *)
Definition atoi (p : text) : Z := atoi_value (atoi_acc p 0).

(** ** count_lquery_parts_ors *)

(** The loop; [ptr] is the rest of the string.  [count_ors] is [pORs != NULL]. *)
Fixpoint count_loop (fuel : nat) (count_ors : bool) (ptr : text)
    (escape_mode : bool) (levels ORs : Z) : outcome (Z * Z) :=
  match fuel with
  | O => OutOfFuel
  | S fuel' =>
      match ptr with
      | [] => Ok (levels, ORs)
      | c :: _ =>
          if Ascii.eqb c NUL then Ok (levels, ORs) else
          let charlen := pg_mblen ptr in
          if (List.length ptr <? charlen)%nat then Undefined PastEndOfString else
          if escape_mode then
            count_loop fuel' count_ors (skipn charlen ptr) false levels ORs
          else if (charlen =? 1)%nat then
            if t_iseq ptr "\" then
              count_loop fuel' count_ors (skipn charlen ptr) true levels ORs
            else if t_iseq ptr "." then
              count_loop fuel' count_ors (skipn charlen ptr) false (levels + 1) ORs
            else if t_iseq ptr "|" && count_ors then
              count_loop fuel' count_ors (skipn charlen ptr) false levels (ORs + 1)
            else
              count_loop fuel' count_ors (skipn charlen ptr) false levels ORs
          else
            count_loop fuel' count_ors (skipn charlen ptr) false levels ORs
      end
  end.

(** [*plevels] and [*pORs] are 0 at both calls. *)
Definition count_lquery_parts_ors (ptr : text) (count_ors : bool) : outcome (Z * Z) :=
  '(levels, ORs) <- count_loop (S (List.length ptr)) count_ors ptr false 0 0 ;;
  Ok (levels + 1, if count_ors then ORs + 1 else ORs).

(** ** copy_unescaped *)

(** Returns the bytes stored through [dst], in order. *)
Fixpoint copy_unescaped_loop (fuel : nat) (src : text) (max_len : Z)
    (copied : Z) (escaping : bool) (dst : text) : outcome text :=
  match fuel with
  | O => OutOfFuel
  | S fuel' =>
      if negb (Ascii.eqb (deref src) NUL) && (copied <? max_len) then
        let charlen := pg_mblen src in
        if (charlen =? 1)%nat && t_iseq src "\" && negb escaping then
          copy_unescaped_loop fuel' (tl src) max_len copied true dst
        else if max_len <? copied + Z.of_nat charlen then
          Raise (InternalError "internal error during splitting levels")
        else if (List.length src <? charlen)%nat then Undefined PastEndOfString
        else
          copy_unescaped_loop fuel' (skipn charlen src) max_len
            (uint16 (copied + Z.of_nat charlen)) false
            (dst ++ firstn charlen src)
      else Ok dst
  end.

Definition copy_unescaped (src : text) (max_len : Z) : outcome text :=
  copy_unescaped_loop (S (List.length src)) src max_len 0 false [].

(** ** copy_escaped *)

(** Returns the bytes stored through [buf], in order, and [escapes].
    [room] is the number of bytes that the caller has allocated from [dst]
    on; the function does not know it, and a store behind them is
    undefined. *)
Fixpoint copy_escaped_loop (fuel : nat) (src : text) (len : Z)
    (to_escape : text) (room : Z) (copied : Z) (escapes : Z) (buf : text)
    : outcome (text * Z) :=
  match fuel with
  | O => OutOfFuel
  | S fuel' =>
      if negb (Ascii.eqb (deref src) NUL) && (copied <? len) then
        let charlen := pg_mblen src in
        let esc := (charlen =? 1)%nat && strchr to_escape (deref src) in
        if esc && (room <? Z.of_nat (List.length buf) + 1) then
          Undefined OutOfBounds
        else
        let buf := if esc then buf ++ ["\"] else buf in
        let escapes := if esc then escapes + 1 else escapes in
        if len <? copied + Z.of_nat charlen then
          Raise (InternalError "internal error during merging levels")
        else if (List.length src <? charlen)%nat then Undefined PastEndOfString
        else if room <? Z.of_nat (List.length buf) + Z.of_nat charlen then
          Undefined OutOfBounds
        else
          copy_escaped_loop fuel' (skipn charlen src) len to_escape room
            (uint16 (copied + Z.of_nat charlen)) escapes
            (buf ++ firstn charlen src)
      else Ok (buf, escapes)
  end.

Definition copy_escaped (src : text) (len : Z) (to_escape : text) (room : Z)
    : outcome (text * Z) :=
  copy_escaped_loop (S (List.length src)) src len to_escape room 0 0 [].

(** ** ltree_in *)

(** The branches on [state] of lines 157-202. *)
Definition ltree_in_dispatch (buf : text) (st : ltree_in_state)
    : outcome ltree_in_state :=
  let ptr := skipn (lt_ptr st) buf in
  let charlen := pg_mblen ptr in
  match lt_state st with
  | LTPRS_WAITNAME =>
      lst <- aupd (lt_list st) (lt_lptr st)
               (fun it => set_wlen 0 (set_start (lt_ptr st) it)) ;;
      let st := lt_set_escaped_count 0
                  (lt_set_list lst (lt_set_state LTPRS_WAITDELIM st)) in
      if (charlen =? 1)%nat then
        if t_iseq ptr "." then Raise (SyntaxErrorAt (lt_pos st))
        else if t_iseq ptr "\" then Ok (lt_set_state LTPRS_WAITESCAPED st)
        else Ok st
      else Ok st
  | LTPRS_WAITESCAPED =>
      Ok (lt_set_escaped_count (lt_escaped_count st + 1)
            (lt_set_state LTPRS_WAITDELIM st))
  | LTPRS_WAITDELIM =>
      if (charlen =? 1)%nat && t_iseq ptr "." then
        it <- aget (lt_list st) (lt_lptr st) ;;
        let len := Z.of_nat (lt_ptr st) - Z.of_nat (ni_start it)
                   - lt_escaped_count st in
        lst <- aupd (lt_list st) (lt_lptr st) (set_len len) ;;
        if 255 <? ni_wlen it then
          Raise (NameTooLong (ni_wlen it) (lt_pos st))
        else
          Ok (lt_set_state LTPRS_WAITNAME
                (lt_set_lptr (S (lt_lptr st))
                   (lt_set_totallen
                      (lt_totallen st + MAXALIGN (len + LEVEL_HDRSIZE H))
                      (lt_set_list lst st))))
      else if (charlen =? 1)%nat && t_iseq ptr "\" then
        Ok (lt_set_state LTPRS_WAITESCAPED st)
      else Ok st
  end.

(** One turn of the loop of lines 154-207, for [*ptr] other than NUL: the
    branches, then lines 203-206. *)
Definition ltree_in_step (buf : text) (st : ltree_in_state)
    : outcome ltree_in_state :=
  let charlen := pg_mblen (skipn (lt_ptr st) buf) in
  st <- ltree_in_dispatch buf st ;;
  let st := lt_set_ptr (lt_ptr st + charlen)%nat st in
  st <- match lt_state st with
        | LTPRS_WAITDELIM =>
            lst <- aupd (lt_list st) (lt_lptr st)
                     (fun it => set_wlen (ni_wlen it + 1) it) ;;
            Ok (lt_set_list lst st)
        | _ => Ok st
        end ;;
  Ok (lt_set_pos (lt_pos st + 1) st).

(** [while ( *ptr) ...]: a character that runs past the terminating NUL
    leaves [ptr] outside the string. *)
Fixpoint ltree_in_loop (fuel : nat) (buf : text) (st : ltree_in_state)
    : outcome ltree_in_state :=
  match fuel with
  | O => OutOfFuel
  | S fuel' =>
      if (List.length buf <? lt_ptr st)%nat then Undefined PastEndOfString
      else if Ascii.eqb (deref (skipn (lt_ptr st) buf)) NUL then Ok st
      else
        st' <- ltree_in_step buf st ;;
        ltree_in_loop fuel' buf st'
  end.

(** Lines 209-227. *)
Definition ltree_in_finish (st : ltree_in_state) : outcome ltree_in_state :=
  match lt_state st with
  | LTPRS_WAITDELIM =>
      it <- aget (lt_list st) (lt_lptr st) ;;
      let len := Z.of_nat (lt_ptr st) - Z.of_nat (ni_start it)
                 - lt_escaped_count st in
      lst <- aupd (lt_list st) (lt_lptr st) (set_len len) ;;
      if 255 <? ni_wlen it then
        Raise (NameTooLong (ni_wlen it) (lt_pos st))
      else
        Ok (lt_set_lptr (S (lt_lptr st))
              (lt_set_totallen
                 (lt_totallen st + MAXALIGN (len + LEVEL_HDRSIZE H))
                 (lt_set_list lst st)))
  | LTPRS_WAITNAME =>
      if (lt_lptr st =? 0)%nat then Ok st else Raise UnexpectedEnd
  | LTPRS_WAITESCAPED => Raise UnexpectedEnd
  end.

(** Lines 233-243 over the items [lptr] runs through, [result->numlevel]
    of them; [curlevel] is the offset of the level written, and the offset
    reached is returned with the levels. *)
Fixpoint ltree_in_fill (buf : text) (items : list nodeitem) (curlevel : Z)
    : outcome (list ltree_level * Z) :=
  match items with
  | [] => Ok ([], curlevel)
  | lptr :: items' =>
      let len := uint16 (ni_len lptr) in
      name <- (if 0 <? ni_len lptr
               then copy_unescaped (skipn (ni_start lptr) buf) (ni_len lptr)
               else Ok []) ;;
      '(levels, last) <- ltree_in_fill buf items'
                           (curlevel + MAXALIGN (len + LEVEL_HDRSIZE H)) ;;
      Ok ({| lv_len := len; lv_name := name |} :: levels, last)
  end.

(** [result->numlevel = lptr - list] stores the number of labels in a field
    of 16 bits, and the loop of line 234 writes as many levels as the field
    says.

    The state at line 153.  [palloc] leaves the items of [list] unset: the
    model starts them at 0, and the loop writes [start] and [wlen] of an item
    in state WAITNAME and [len] at the end of its label, before it reads
    them; [flag] is not read. *)
Definition ltree_in_init (levels : Z) : ltree_in_state :=
  {| lt_ptr := 0; lt_state := LTPRS_WAITNAME;
     lt_list := repeat nodeitem0 (Z.to_nat levels); lt_lptr := 0;
     lt_totallen := 0; lt_pos := 0; lt_escaped_count := 0 |}.

Definition ltree_in (buf : text) : outcome ltree :=
  '(levels, _) <- count_lquery_parts_ors buf false ;;
  if Z.quot (MaxAllocSize H) (sizeof_nodeitem H) <? levels then
    Raise (TooManyLevels levels (Z.quot (MaxAllocSize H) (sizeof_nodeitem H)))
  else
    st <- ltree_in_loop (S (List.length buf)) buf (ltree_in_init levels) ;;
    st <- ltree_in_finish st ;;
    let numlevel := uint16 (Z.of_nat (lt_lptr st)) in
    '(levels, _) <- ltree_in_fill buf (firstn (Z.to_nat numlevel) (lt_list st))
                      (LTREE_HDRSIZE H) ;;
    Ok {| lt_vl_len := LTREE_HDRSIZE H + lt_totallen st;
          lt_numlevel := numlevel;
          lt_levels := levels |}.

(** ** ltree_out *)

(** [palloc(VARSIZE(in))], and the number of bytes that storing the text
    [out] and its NUL takes. *)
Definition ltree_out_alloc (r : ltree) : Z := lt_vl_len r.

Definition ltree_out_stored (out : text) : Z := Z.of_nat (List.length out) + 1.

(** The loop of lines 260-273 over the levels of the record; [alloc] is the
    size of [buf], and the bytes stored through [ptr] so far are [out].  A
    store behind the buffer is undefined.  [ptr] moves on by
    [curlevel->len + escapes]: were fewer bytes copied, bytes of the buffer
    that nothing has written would be part of the text. *)
Fixpoint ltree_out_loop (levels : list ltree_level) (i : Z) (alloc : Z)
    (out : text) : outcome text :=
  match levels with
  | [] => Ok out
  | curlevel :: levels' =>
      out <- (if negb (i =? 0) then
                if alloc <? Z.of_nat (List.length out) + 1
                then Undefined OutOfBounds
                else Ok (out ++ ["."])
              else Ok out) ;;
      out <- (if 0 <? lv_len curlevel then
                '(copy, escapes) <- copy_escaped (lv_name curlevel)
                                      (lv_len curlevel) ["\"; " "; "."]
                                      (alloc - Z.of_nat (List.length out)) ;;
                if Z.of_nat (List.length copy) =? lv_len curlevel + escapes
                then Ok (out ++ copy)
                else Undefined OutOfBounds
              else Ok out) ;;
      ltree_out_loop levels' (i + 1) alloc out
  end.

(** The text stored in [buf], the NUL that ends it (line 275) left out. *)
Definition ltree_out (r : ltree) : outcome text :=
  out <- ltree_out_loop (firstn (Z.to_nat (lt_numlevel r)) (lt_levels r)) 0
           (ltree_out_alloc r) [] ;;
  if ltree_out_alloc r <? ltree_out_stored out then Undefined OutOfBounds
  else Ok out.

(** ** lquery_in *)

Definition ITEMSIZE : Z := MAXALIGN (LQL_HDRSIZE H + sizeof_pointer H).

(** [*curqlevel] and [*lptr], read and written. *)
Definition cur_get (st : lquery_in_state) : outcome tmp_level :=
  aget (qs_tmpql st) (qs_curqlevel st).

Definition cur_upd (f : tmp_level -> tmp_level) (st : lquery_in_state)
    : outcome lquery_in_state :=
  a <- aupd (qs_tmpql st) (qs_curqlevel st) f ;;
  Ok (qs_set_tmpql a st).

Definition lptr_get (st : lquery_in_state) : outcome nodeitem :=
  match qs_lptr st with
  | None => Undefined NullPointer
  | Some (l, i) =>
      q <- aget (qs_tmpql st) l ;;
      match tq_var q with
      | None => Undefined NullPointer
      | Some a => aget a i
      end
  end.

Definition lptr_upd (f : nodeitem -> nodeitem) (st : lquery_in_state)
    : outcome lquery_in_state :=
  match qs_lptr st with
  | None => Undefined NullPointer
  | Some (l, i) =>
      q <- aget (qs_tmpql st) l ;;
      match tq_var q with
      | None => Undefined NullPointer
      | Some a =>
          a' <- aupd a i f ;;
          t <- aupd (qs_tmpql st) l (tq_set_var (Some a')) ;;
          Ok (qs_set_tmpql t st)
      end
  end.

(** [lptr++] *)
Definition lptr_next (st : lquery_in_state) : lquery_in_state :=
  qs_set_lptr (match qs_lptr st with
               | Some (l, i) => Some (l, S i)
               | None => None
               end) st.

(** [curqlevel = NEXTLEV(curqlevel)] *)
Definition NEXTLEV (st : lquery_in_state) : lquery_in_state :=
  qs_set_curqlevel (S (qs_curqlevel st)) st.

(** [GETVAR(curqlevel) = lptr = palloc0(sizeof(nodeitem) * numOR);
    lptr->start = start; curqlevel->numvar = 1; state = state'] *)
Definition open_variant (numOR : Z) (start : nat) (state' : lqprs)
    (st : lquery_in_state) : outcome lquery_in_state :=
  st <- cur_upd (tq_set_var (Some (repeat nodeitem0 (Z.to_nat numOR)))) st ;;
  let st := qs_set_lptr (Some (qs_curqlevel st, O)) st in
  st <- lptr_upd (set_start start) st ;;
  st <- cur_upd (tq_set_numvar 1) st ;;
  Ok (qs_set_state state' st).

Definition has_flag (flag bit : Z) : bool := negb (Z.land flag bit =? 0).

(** [ptr - lptr->start - escaped_count - ((lptr->flag & LVAR_SUBLEXEME) ? 1 : 0)
    - ((lptr->flag & LVAR_INCASE) ? 1 : 0) - ((lptr->flag & LVAR_ANYEND) ? 1 : 0)] *)
Definition variant_len (st : lquery_in_state) (it : nodeitem) : Z :=
  Z.of_nat (qs_ptr st) - Z.of_nat (ni_start it) - qs_escaped_count st
  - (if has_flag (ni_flag it) (LVAR_SUBLEXEME H) then 1 else 0)
  - (if has_flag (ni_flag it) (LVAR_INCASE H) then 1 else 0)
  - (if has_flag (ni_flag it) (LVAR_ANYEND H) then 1 else 0).

(** The three branches of lines 381-401, for the bit of the modifier. *)
Definition set_modifier (bit : Z) (st : lquery_in_state)
    : outcome lquery_in_state :=
  it <- lptr_get st ;;
  if (ni_start it =? qs_ptr st)%nat then Raise (SyntaxErrorAt (qs_pos st))
  else
    st <- lptr_upd (fun it => set_flag (Z.lor (ni_flag it) bit) it) st ;;
    cur_upd (fun q => tq_set_flag (Z.lor (tq_flag q) bit) q) st.

(** Lines 404-414 and 420-430: the length of the variant, and the check of
    its length in characters. *)
Definition close_variant (st : lquery_in_state) : outcome lquery_in_state :=
  it <- lptr_get st ;;
  st <- lptr_upd (set_len (variant_len st it)) st ;;
  if 255 <? ni_wlen it then Raise (NameTooLong (ni_wlen it) (qs_pos st))
  else Ok st.

(** The branches on [state] of lines 332-522. *)
Definition lquery_in_dispatch (buf : text) (numOR : Z) (st : lquery_in_state)
    : outcome lquery_in_state :=
  let ptr := skipn (qs_ptr st) buf in
  let charlen := pg_mblen ptr in
  let UNCHAR := Raise (SyntaxErrorAt (qs_pos st)) in
  match qs_state st with
  | LQPRS_WAITLEVEL =>
      let st := qs_set_escaped_count 0 st in
      if (charlen =? 1)%nat then
        if t_iseq ptr "!" then
          st <- open_variant numOR (S (qs_ptr st)) LQPRS_WAITDELIM st ;;
          st <- cur_upd (fun q => tq_set_flag (Z.lor (tq_flag q) (LQL_NOT H)) q) st ;;
          Ok (qs_set_hasnot true st)
        else if t_iseq ptr "*" then Ok (qs_set_state LQPRS_WAITOPEN st)
        else if t_iseq ptr "\" then
          open_variant numOR (qs_ptr st) LQPRS_WAITESCAPED st
        else if t_iseq ptr "." || t_iseq ptr "|" then UNCHAR
        else open_variant numOR (qs_ptr st) LQPRS_WAITDELIM st
      else open_variant numOR (qs_ptr st) LQPRS_WAITDELIM st
  | LQPRS_WAITVAR =>
      let st := lptr_next (qs_set_escaped_count 0 st) in
      st <- lptr_upd (set_start (qs_ptr st)) st ;;
      st <- cur_upd (fun q => tq_set_numvar (uint16 (tq_numvar q + 1)) q) st ;;
      if t_iseq ptr "." || t_iseq ptr "|" then UNCHAR
      else
        Ok (qs_set_state (if t_iseq ptr "\" then LQPRS_WAITESCAPED
                          else LQPRS_WAITDELIM) st)
  | LQPRS_WAITDELIM =>
      if (charlen =? 1)%nat && t_iseq ptr "@" then
        set_modifier (LVAR_INCASE H) st
      else if (charlen =? 1)%nat && t_iseq ptr "*" then
        set_modifier (LVAR_ANYEND H) st
      else if (charlen =? 1)%nat && t_iseq ptr "%" then
        set_modifier (LVAR_SUBLEXEME H) st
      else if (charlen =? 1)%nat && t_iseq ptr "|" then
        st <- close_variant st ;;
        Ok (qs_set_state LQPRS_WAITVAR st)
      else if (charlen =? 1)%nat && t_iseq ptr "." then
        st <- close_variant st ;;
        Ok (NEXTLEV (qs_set_state LQPRS_WAITLEVEL st))
      else if (charlen =? 1)%nat && t_iseq ptr "\" then
        it <- lptr_get st ;;
        if negb (ni_flag it =? 0) then UNCHAR
        else Ok (qs_set_state LQPRS_WAITESCAPED st)
      else
        it <- lptr_get st ;;
        if negb (ni_flag it =? 0) then UNCHAR else Ok st
  | LQPRS_WAITOPEN =>
      if (charlen =? 1)%nat && t_iseq ptr "{" then
        Ok (qs_set_state LQPRS_WAITFNUM st)
      else if (charlen =? 1)%nat && t_iseq ptr "." then
        st <- cur_upd (tq_set_low 0) st ;;
        st <- cur_upd (tq_set_high 65535) st ;;
        Ok (qs_set_state LQPRS_WAITLEVEL (NEXTLEV st))
      else UNCHAR
  | LQPRS_WAITFNUM =>
      if (charlen =? 1)%nat && t_iseq ptr "," then
        Ok (qs_set_state LQPRS_WAITSNUM st)
      else if t_isdigit ptr then
        st <- cur_upd (tq_set_low (uint16 (atoi ptr))) st ;;
        Ok (qs_set_state LQPRS_WAITND st)
      else UNCHAR
  | LQPRS_WAITSNUM =>
      if t_isdigit ptr then
        st <- cur_upd (tq_set_high (uint16 (atoi ptr))) st ;;
        Ok (qs_set_state LQPRS_WAITCLOSE st)
      else if (charlen =? 1)%nat && t_iseq ptr "}" then
        st <- cur_upd (tq_set_high 65535) st ;;
        Ok (qs_set_state LQPRS_WAITEND st)
      else UNCHAR
  | LQPRS_WAITCLOSE =>
      if (charlen =? 1)%nat && t_iseq ptr "}" then
        Ok (qs_set_state LQPRS_WAITEND st)
      else if negb (t_isdigit ptr) then UNCHAR
      else Ok st
  | LQPRS_WAITND =>
      if (charlen =? 1)%nat && t_iseq ptr "}" then
        st <- cur_upd (fun q => tq_set_high (tq_low q) q) st ;;
        Ok (qs_set_state LQPRS_WAITEND st)
      else if (charlen =? 1)%nat && t_iseq ptr "," then
        Ok (qs_set_state LQPRS_WAITSNUM st)
      else if negb (t_isdigit ptr) then UNCHAR
      else Ok st
  | LQPRS_WAITEND =>
      if (charlen =? 1)%nat && (t_iseq ptr "." || t_iseq ptr "|") then
        Ok (NEXTLEV (qs_set_state LQPRS_WAITLEVEL st))
      else UNCHAR
  | LQPRS_WAITESCAPED =>
      Ok (qs_set_escaped_count (qs_escaped_count st + 1)
            (qs_set_state LQPRS_WAITDELIM st))
  end.

(** One turn of the loop of lines 328-528, for [*ptr] other than NUL: the
    branches, then lines 524-527. *)
Definition lquery_in_step (buf : text) (numOR : Z) (st : lquery_in_state)
    : outcome lquery_in_state :=
  let charlen := pg_mblen (skipn (qs_ptr st) buf) in
  st <- lquery_in_dispatch buf numOR st ;;
  let st := qs_set_ptr (qs_ptr st + charlen)%nat st in
  st <- match qs_state st with
        | LQPRS_WAITDELIM =>
            lptr_upd (fun it => set_wlen (ni_wlen it + 1) it) st
        | _ => Ok st
        end ;;
  Ok (qs_set_pos (qs_pos st + 1) st).

Fixpoint lquery_in_loop (fuel : nat) (buf : text) (numOR : Z)
    (st : lquery_in_state) : outcome lquery_in_state :=
  match fuel with
  | O => OutOfFuel
  | S fuel' =>
      if (List.length buf <? qs_ptr st)%nat then Undefined PastEndOfString
      else if Ascii.eqb (deref (skipn (qs_ptr st) buf)) NUL then Ok st
      else
        st' <- lquery_in_step buf numOR st ;;
        lquery_in_loop fuel' buf numOR st'
  end.

(** Lines 530-567.  The last branch of the source, for WAITESCAPED, is
    behind the branch for every state but WAITEND. *)
Definition lquery_in_finish (st : lquery_in_state) : outcome lquery_in_state :=
  match qs_state st with
  | LQPRS_WAITDELIM =>
      it <- lptr_get st ;;
      if (ni_start it =? qs_ptr st)%nat then Raise UnexpectedEnd
      else
        let len := variant_len st it in
        st <- lptr_upd (set_len len) st ;;
        if len =? 0 then Raise UnexpectedEnd
        else if 255 <? ni_wlen it then
          Raise (NameTooLong (ni_wlen it) (qs_pos st))
        else Ok st
  | LQPRS_WAITOPEN => cur_upd (tq_set_high 65535) st
  | LQPRS_WAITEND => Ok st
  | _ => Raise UnexpectedEnd
  end.

(** The items [lptr] runs through in the loops of lines 578 and 611:
    [GETVAR(curqlevel)[0]] to [GETVAR(curqlevel)[numvar - 1]]. *)
Definition variants_of (q : tmp_level) : outcome (list nodeitem) :=
  match tq_var q with
  | None => Undefined NullPointer
  | Some a =>
      if Z.of_nat (List.length a) <? tq_numvar q then Undefined OutOfBounds
      else Ok (firstn (Z.to_nat (tq_numvar q)) a)
  end.

(** Lines 572-592, over the elements of [tmpql]. *)
Fixpoint lquery_in_size (levels : list tmp_level) (totallen : Z) : outcome Z :=
  match levels with
  | [] => Ok totallen
  | curqlevel :: levels' =>
      let totallen := totallen + LQL_HDRSIZE H in
      totallen <-
        (if negb (tq_numvar curqlevel =? 0) then
           items <- variants_of curqlevel ;;
           Ok (fold_left
                 (fun t lptr => t + MAXALIGN (LVAR_HDRSIZE H + ni_len lptr))
                 items totallen)
         else if tq_high curqlevel <? tq_low curqlevel then
           Raise (LowGreaterThanUpper (tq_low curqlevel) (tq_high curqlevel))
         else Ok totallen) ;;
      lquery_in_size levels' totallen
  end.

(** Lines 611-620; [totallen] is [cur->totallen], a field of 16 bits.
    [lrptr->len] holds [lptr->len], the bytes of a name that the checks of
    lines 408, 424 and 548 keep to 255 characters. *)
Fixpoint lquery_in_fill_variants (buf : text) (items : list nodeitem)
    (totallen : Z) : outcome (list lquery_variant * Z) :=
  match items with
  | [] => Ok ([], totallen)
  | lptr :: items' =>
      let totallen :=
        uint16 (totallen + MAXALIGN (LVAR_HDRSIZE H + ni_len lptr)) in
      name <- copy_unescaped (skipn (ni_start lptr) buf) (ni_len lptr) ;;
      '(variants, totallen) <- lquery_in_fill_variants buf items' totallen ;;
      Ok ({| lvar_val := ltree_crc32_sz H name;
             lvar_len := ni_len lptr;
             lvar_flag := ni_flag lptr;
             lvar_name := name |} :: variants, totallen)
  end.

(** Lines 603-631, over the elements of [tmpql]; [cur] is the offset of the
    level written.  Returns the levels, [result->firstgood] and the offset
    reached.  [cur->totallen] and [result->firstgood] are fields of 16 bits,
    and [LQL_NEXT] moves [cur] on by the [totallen] that the field holds:
    the levels are listed in the order in which the loop stores them, each
    with the variants stored for it, and the level behind one whose size
    the field does not hold is stored inside the bytes of its variants. *)
Fixpoint lquery_in_fill (buf : text) (levels : list tmp_level) (cur : Z)
    (wasbad : bool) (firstgood : Z) : outcome (list lquery_level * Z * Z) :=
  match levels with
  | [] => Ok ([], firstgood, cur)
  | curqlevel :: levels' =>
      if negb (tq_numvar curqlevel =? 0) then
        items <- variants_of curqlevel ;;
        '(variants, totallen) <-
           lquery_in_fill_variants buf items (uint16 (LQL_HDRSIZE H)) ;;
        let level := {| lql_totallen := totallen;
                        lql_flag := tq_flag curqlevel;
                        lql_numvar := tq_numvar curqlevel;
                        lql_low := tq_low curqlevel;
                        lql_high := tq_high curqlevel;
                        lql_variants := variants |} in
        let bad := (1 <? lql_numvar level) || negb (lql_flag level =? 0) in
        let firstgood := if bad then firstgood
                         else if wasbad then firstgood
                         else uint16 (firstgood + 1) in
        '(rest, firstgood, last) <-
           lquery_in_fill buf levels' (cur + MAXALIGN totallen)
             (wasbad || bad) firstgood ;;
        Ok (level :: rest, firstgood, last)
      else
        let level := {| lql_totallen := uint16 (LQL_HDRSIZE H);
                        lql_flag := tq_flag curqlevel;
                        lql_numvar := tq_numvar curqlevel;
                        lql_low := tq_low curqlevel;
                        lql_high := tq_high curqlevel;
                        lql_variants := [] |} in
        '(rest, firstgood, last) <-
           lquery_in_fill buf levels' (cur + MAXALIGN (uint16 (LQL_HDRSIZE H)))
             true firstgood ;;
        Ok (level :: rest, firstgood, last)
  end.

Definition lquery_in_init (levels : Z) : lquery_in_state :=
  {| qs_ptr := 0; qs_state := LQPRS_WAITLEVEL;
     qs_tmpql := repeat tmp_level0 (Z.to_nat levels); qs_curqlevel := 0;
     qs_lptr := None; qs_hasnot := false; qs_pos := 0;
     qs_escaped_count := 0 |}.

(** The parser proper, lines 318-567: the counts and the state after the
    checks at the end of the text. *)
Definition lquery_in_scan (buf : text) : outcome (Z * lquery_in_state) :=
  '(levels, numOR) <- count_lquery_parts_ors buf true ;;
  if Z.quot (MaxAllocSize H) ITEMSIZE <? levels then
    Raise (TooManyLevels levels (Z.quot (MaxAllocSize H) ITEMSIZE))
  else
    st <- lquery_in_loop (S (List.length buf)) buf numOR
            (lquery_in_init levels) ;;
    st <- lquery_in_finish st ;;
    Ok (levels, st).

Definition lquery_in (buf : text) : outcome lquery :=
  '(levels, st) <- lquery_in_scan buf ;;
  totallen <- lquery_in_size (qs_tmpql st) (LQUERY_HDRSIZE H) ;;
  '(lqlevels, firstgood, _) <-
     lquery_in_fill buf (qs_tmpql st) (LQUERY_HDRSIZE H) false 0 ;;
  Ok {| lq_vl_len := totallen;
        lq_numlevel := uint16 levels;
        lq_firstgood := firstgood;
        lq_flag := if qs_hasnot st then Z.lor 0 (LQUERY_HASNOT H) else 0;
        lq_levels := lqlevels |}.

(** ** Turns of the loops, and characters *)

(** The state after [n] turns of the loop of [ltree_in], or at its end if
    it ends before. *)
Fixpoint ltree_in_turns (n : nat) (buf : text) (st : ltree_in_state)
    : outcome ltree_in_state :=
  match n with
  | O => Ok st
  | S n' =>
      if (List.length buf <? lt_ptr st)%nat then Undefined PastEndOfString
      else if Ascii.eqb (deref (skipn (lt_ptr st) buf)) NUL then Ok st
      else
        st' <- ltree_in_step buf st ;;
        ltree_in_turns n' buf st'
  end.

(** The same for the loop of [lquery_in]. *)
Fixpoint lquery_in_turns (n : nat) (buf : text) (numOR : Z)
    (st : lquery_in_state) : outcome lquery_in_state :=
  match n with
  | O => Ok st
  | S n' =>
      if (List.length buf <? qs_ptr st)%nat then Undefined PastEndOfString
      else if Ascii.eqb (deref (skipn (qs_ptr st) buf)) NUL then Ok st
      else
        st' <- lquery_in_step buf numOR st ;;
        lquery_in_turns n' buf numOR st'
  end.

(** [mbchars s n]: the bytes [s] are [n] characters of the encoding, each as
    long as [pg_mblen] says at its first byte. *)
Inductive mbchars : text -> nat -> Prop :=
| mbchars_nil : mbchars [] O
| mbchars_cons c s n :
    c <> [] -> List.length c = pg_mblen c -> mbchars s n ->
    mbchars (c ++ s) (S n).

(** An error that reports the position [pos]. *)
Definition positional (pos : Z) (e : error) : Prop :=
  e = SyntaxErrorAt pos \/ exists w, e = NameTooLong w pos.

(** The loop of [lquery_in] ends in [st]. *)
Definition at_end_q (buf : text) (st : lquery_in_state) : Prop :=
  (qs_ptr st <= List.length buf)%nat /\ deref (skipn (qs_ptr st) buf) = NUL.

(** ** Positions *)

(** [st] is the state after some turns of the loop from [st0], which have
    read as many characters and counted them in [pos]. *)
Definition reached_q buf numOR st0 (st : lquery_in_state) : Prop :=
  exists n, lquery_in_turns n buf numOR st0 = Ok st /\
    mbchars (firstn (qs_ptr st) buf) n /\ qs_pos st = qs_pos st0 + Z.of_nat n.

Definition reached_t buf st0 (st : ltree_in_state) : Prop :=
  exists n, ltree_in_turns n buf st0 = Ok st /\
    mbchars (firstn (lt_ptr st) buf) n /\ lt_pos st = lt_pos st0 + Z.of_nat n.

(** The loop of [ltree_in] ends in [st]. *)
Definition at_end_t (buf : text) (st : ltree_in_state) : Prop :=
  (lt_ptr st <= List.length buf)%nat /\ deref (skipn (lt_ptr st) buf) = NUL.

(** The turn of the loop of [ltree_in] that raises the error at position [p]
    comes after [n] turns, which have read [n] characters; [p] is [n + base]. *)
Definition ltree_error_index (buf : text) (p base : Z) : Prop :=
  exists levels n st,
    ltree_in_turns n buf (ltree_in_init levels) = Ok st /\
    mbchars (firstn (lt_ptr st) buf) n /\
    (lt_ptr st < List.length buf)%nat /\
    ltree_in_step buf st = Raise (SyntaxErrorAt p) /\
    p = Z.of_nat n + base.

Definition lquery_error_index (buf : text) (p base : Z) : Prop :=
  exists levels numOR n st,
    lquery_in_turns n buf numOR (lquery_in_init levels) = Ok st /\
    mbchars (firstn (qs_ptr st) buf) n /\
    (qs_ptr st < List.length buf)%nat /\
    lquery_in_step buf numOR st = Raise (SyntaxErrorAt p) /\
    p = Z.of_nat n + base.

(** ** Plain levels *)

(** A level of a pattern is plain: it is no quantifier, it has one
    alternative, no alternative has a modifier, and it is not negated. *)
Definition plain_level (l : lquery_level) : bool :=
  negb (lql_numvar l =? 0)
  && (List.length (lql_variants l) =? 1)%nat
  && forallb (fun v => lvar_flag v =? 0) (lql_variants l)
  && (Z.land (lql_flag l) (LQL_NOT H) =? 0).

(** The length of the longest prefix of plain levels. *)
Fixpoint plain_prefix (levels : list lquery_level) : Z :=
  match levels with
  | l :: levels' => if plain_level l then 1 + plain_prefix levels' else 0
  | [] => 0
  end.


(** ** The invariant of the loop of lquery_in *)

Definition lor_flags (a : list nodeitem) : Z :=
  fold_right (fun it acc => Z.lor (ni_flag it) acc) 0 a.

Definition negbit (neg : bool) : Z := if neg then LQL_NOT H else 0.

Definition alt_cur (cur : nat) (lptr : option (nat * nat)) (q : tmp_level) : Prop :=
  exists i a neg,
    lptr = Some (cur, i) /\ tq_var q = Some a /\
    tq_numvar q = uint16 (Z.of_nat i + 1) /\ (i < List.length a)%nat /\
    tq_flag q = Z.lor (lor_flags a) (negbit neg) /\
    (forall k x, (i < k)%nat -> nth_error a k = Some x -> x = nodeitem0).

Definition quant_cur (q : tmp_level) : Prop :=
  tq_numvar q = 0 /\ tq_var q = None /\ tq_flag q = 0.

Definition cur_ok (st : lquery_in_state) (q : tmp_level) : Prop :=
  match qs_state st with
  | LQPRS_WAITLEVEL | LQPRS_WAITOPEN | LQPRS_WAITFNUM => q = tmp_level0
  | LQPRS_WAITND | LQPRS_WAITSNUM => quant_cur q /\ tq_high q = 0
  | LQPRS_WAITCLOSE | LQPRS_WAITEND => quant_cur q
  | LQPRS_WAITDELIM | LQPRS_WAITESCAPED | LQPRS_WAITVAR =>
      alt_cur (qs_curqlevel st) (qs_lptr st) q
  end.

Definition cur_present (st : lquery_in_state) : Prop :=
  match qs_state st with
  | LQPRS_WAITLEVEL | LQPRS_WAITOPEN | LQPRS_WAITFNUM | LQPRS_WAITSNUM => True
  | _ => (qs_curqlevel st < List.length (qs_tmpql st))%nat
  end.

(** A level behind which the parser has moved on: [n] of the items of its
    array have been read, [numvar] is what its 16 bits hold of [n], and the
    flags of the level are those of the items read. *)
Definition level_wf (q : tmp_level) : Prop :=
  tq_numvar q = 0 \/
  exists a neg n, tq_var q = Some a /\
    (1 <= n <= List.length a)%nat /\ tq_numvar q = uint16 (Z.of_nat n) /\
    tq_flag q = Z.lor (lor_flags (firstn n a)) (negbit neg).

(** A level whose [numvar] is the number of the items read: 16 bits hold
    it. *)
Definition level_exact (q : tmp_level) : Prop :=
  tq_numvar q = 0 \/
  exists a neg, tq_var q = Some a /\
    1 <= tq_numvar q <= Z.of_nat (List.length a) /\
    tq_flag q = Z.lor (lor_flags (firstn (Z.to_nat (tq_numvar q)) a)) (negbit neg).



Record lq_inv (st : lquery_in_state) : Prop := {
  inv_done : forall j q, (j < qs_curqlevel st)%nat ->
             nth_error (qs_tmpql st) j = Some q -> level_wf q;
  inv_cur : forall q, nth_error (qs_tmpql st) (qs_curqlevel st) = Some q -> cur_ok st q;
  inv_fresh : forall j q, (qs_curqlevel st < j)%nat ->
              nth_error (qs_tmpql st) j = Some q -> q = tmp_level0;
  inv_present : cur_present st
}.


Definition alt_state (s : lqprs) : Prop :=
  s = LQPRS_WAITDELIM \/ s = LQPRS_WAITESCAPED \/ s = LQPRS_WAITVAR.

(** ** Quantifiers *)

(** The number that the digits [ds] write. *)
Definition decimal (ds : text) : Z :=
  fold_left (fun acc c => 10 * acc + (Z.of_nat (nat_of_ascii c) - 48)) ds 0.

Definition digits (ds : text) : Prop :=
  ds <> [] /\ Forall (fun c => isdigit c = true) ds.

(** The limit that the parser stores for the digits [ds]: what the 16 bits
    of the field hold of the [int] that [atoi] returns for them. *)
Definition limit_read (ds : text) : Z := uint16 (atoi_value (decimal ds)).



(** A quantifier level of [tmpql]. *)
Definition quant_level (low high : Z) : tmp_level :=
  {| tq_flag := 0; tq_numvar := 0; tq_low := low; tq_high := high; tq_var := None |}.





(** ** Label paths as characters *)

(** The texts and records that the round trip of [ltree_in] and [ltree_out]
    is stated and proved with; none of them is code of ltree_io.c. *)

(** A character of a label as the text has it: after a backslash or not. *)
Definition render_unit (u : bool * text) : text :=
  if fst u then "\" :: snd u else snd u.

Definition render (us : list (bool * text)) : text := List.concat (map render_unit us).

Definition name_of (us : list (bool * text)) : text := List.concat (map snd us).

Definition escapes_of (us : list (bool * text)) : nat :=
  List.length (filter fst us).

(** The bytes [c] are one character that does not start with NUL. *)
Definition wf_char (c : text) : Prop :=
  c <> [] /\ List.length c = pg_mblen c /\ deref c <> NUL.

Definition unit_ok (u : bool * text) : Prop :=
  wf_char (snd u) /\ (fst u = false -> snd u <> ["\"] /\ snd u <> ["."]).

Definition label_ok (us : list (bool * text)) : Prop :=
  us <> [] /\ Forall unit_ok us /\ (List.length us <= 255)%nat.

(** The labels with dots between them. *)
Fixpoint join (labels : list (list (bool * text))) : text :=
  match labels with
  | [] => []
  | [us] => render us
  | us :: labels' => render us ++ "." :: join labels'
  end.

Definition level_of (nm : text) : ltree_level :=
  {| lv_len := Z.of_nat (List.length nm); lv_name := nm |}.

(** The record of the labels [names]. *)
Definition mk_ltree (names : list text) : ltree :=
  {| lt_vl_len :=
       LTREE_HDRSIZE H
       + fold_left (fun t nm => t + MAXALIGN (Z.of_nat (List.length nm) + LEVEL_HDRSIZE H))
           names 0;
     lt_numlevel := Z.of_nat (List.length names);
     lt_levels := map level_of names |}.

(** The record that [ltree_in] returns for the labels [names]: its size is
    that of all the labels, [numlevel] is what 16 bits hold of their
    number, and that many levels are written. *)
Definition ltree_stored (names : list text) : ltree :=
  let numlevel := uint16 (Z.of_nat (List.length names)) in
  {| lt_vl_len := lt_vl_len (mk_ltree names);
     lt_numlevel := numlevel;
     lt_levels := map level_of (firstn (Z.to_nat numlevel) names) |}.

(** The escapes of [ltree_out]. *)
Definition is_special (c : text) : bool :=
  match c with
  | [x] => strchr ["\"; " "; "."] x
  | _ => false
  end.

Definition canon (cs : list text) : list (bool * text) :=
  map (fun c => (is_special c, c)) cs.

(** [c] is the one byte [a]. *)
Definition single (c : text) (a : ascii) : bool :=
  (List.length c =? 1)%nat && Ascii.eqb (deref c) a.

(** The characters [cs] are the name of a label. *)
Definition name_ok (cs : list text) : Prop :=
  cs <> [] /\ Forall wf_char cs /\ (List.length cs <= 255)%nat.

(** The labels, each after a dot. *)
Definition dotted (labels : list (list (bool * text))) : text :=
  List.concat (map (fun us => "." :: render us) labels).

(** The labels closed by a dot. *)
Definition closed (labels : list (list (bool * text))) : text :=
  List.concat (map (fun us => render us ++ ["."]) labels).

(** What the loop of [ltree_in] has read when it is in [st]: the labels
    [done], each with its dot, and the characters [cur] of the label at
    [lptr], which [wlen] counts. *)
Definition scanned (buf : text) (st : ltree_in_state) : Prop :=
  exists done cur,
    firstn (lt_ptr st) buf
    = closed done ++ render cur
      ++ match lt_state st with LTPRS_WAITESCAPED => ["\"] | _ => [] end /\
    Forall label_ok done /\ Forall unit_ok cur /\
    lt_lptr st = List.length done /\
    match lt_state st with
    | LTPRS_WAITNAME => cur = []
    | LTPRS_WAITDELIM =>
        cur <> [] /\ exists it, nth_error (lt_list st) (lt_lptr st) = Some it /\
                                ni_wlen it = Z.of_nat (List.length cur)
    | LTPRS_WAITESCAPED =>
        exists it, nth_error (lt_list st) (lt_lptr st) = Some it /\
                   ni_wlen it = Z.of_nat (List.length cur)
    end.

Definition item (start : nat) (len wlen : Z) : nodeitem :=
  {| ni_start := start; ni_len := len; ni_flag := 0; ni_wlen := wlen |}.

(** The state of the loop with the items [done] behind [lptr] and the item
    at [lptr] started at [start] with [wlen] characters. *)
Definition lt_at (state : ltprs) (done : list nodeitem) (start : nat) (wlen : Z)
    (k : nat) (off : nat) (total pos esc : Z) : ltree_in_state :=
  {| lt_ptr := off; lt_state := state;
     lt_list := done ++ item start 0 wlen :: repeat nodeitem0 k;
     lt_lptr := List.length done; lt_totallen := total; lt_pos := pos;
     lt_escaped_count := esc |}.

(** From [st] the loop comes to [st'], whatever the fuel. *)
Definition runs_to (buf : text) (st st' : ltree_in_state) : Prop :=
  forall fuel, (List.length buf - lt_ptr st < fuel)%nat ->
  exists fuel', (List.length buf - lt_ptr st' < fuel')%nat /\
    ltree_in_loop fuel buf st = ltree_in_loop fuel' buf st'.

(** The items of the labels of a text that starts at [off]. *)
Fixpoint items_of (off : nat) (labels : list (list (bool * text))) : list nodeitem :=
  match labels with
  | [] => []
  | us :: labels' =>
      item off (Z.of_nat (List.length (name_of us))) (Z.of_nat (List.length us))
      :: items_of (off + List.length (render us) + 1) labels'
  end.

Definition total_of (labels : list (list (bool * text))) (total : Z) : Z :=
  fold_left (fun t nm => t + MAXALIGN (Z.of_nat (List.length nm) + LEVEL_HDRSIZE H))
    (map name_of labels) total.

(** The loop from [st] and what follows it at the end of the text give [stf]. *)
Definition finishes (buf : text) (st stf : ltree_in_state) : Prop :=
  forall fuel, (List.length buf - lt_ptr st < fuel)%nat ->
  (s <- ltree_in_loop fuel buf st ;; ltree_in_finish s) = Ok stf.

(** The dots that [count_lquery_parts_ors] counts in the characters [cs];
    [escape_mode] says whether the first of them follows a backslash. *)
Fixpoint dots_in (cs : list text) (escape_mode : bool) : nat :=
  match cs with
  | [] => O
  | c :: cs' =>
      if escape_mode then dots_in cs' false
      else if single c "\" then dots_in cs' true
      else if single c "." then S (dots_in cs' false)
      else dots_in cs' false
  end.

(** The errors of the decoders that report on the text given. *)
Definition classified (e : error) : Prop :=
  match e with
  | InternalError _ => False
  | _ => True
  end.

Definition escaped_next (state : ltprs) : bool :=
  match state with LTPRS_WAITESCAPED => true | _ => false end.

(** The offset that LEVEL_NEXT reaches from [off] over [levels]. *)
Definition ltree_end (levels : list ltree_level) (off : Z) : Z :=
  fold_left (fun t lv => t + MAXALIGN (lv_len lv + LEVEL_HDRSIZE H)) levels off.

End WithHost.

(** ** A host: UTF-8, 8-byte alignment *)

(** The host of the examples: a server of 64 bits with a database in UTF-8.
    The sizes and flags are those that ltree.h, c.h and memutils.h of
    PostgreSQL give there ([LTREE_HDRSIZE] is MAXALIGN of the 6 bytes in
    front of [data], [LEVEL_HDRSIZE] the 2 bytes of [len]); [mblen] is
    [pg_utf_mblen] of wchar.c, [atoi] that of glibc.  No example depends on
    [wide_isdigit] or on the values of [ltree_crc32_sz]. *)
Definition pg_utf_mblen (c : ascii) : nat :=
  let n := nat_of_ascii c in
  if (n <? 128)%nat then 1%nat
  else if (n <? 192)%nat then 1%nat
  else if (n <? 224)%nat then 2%nat
  else if (n <? 240)%nat then 3%nat
  else if (n <? 248)%nat then 4%nat
  else 1%nat.

(** [atoi] of glibc is [(int) strtol(nptr, NULL, 10)]: [strtol] stops at
    [LONG_MAX], of 64 bits, and the conversion to [int] keeps the 32 bits
    at the low end, read with their sign. *)
Definition glibc_atoi (v : Z) : Z :=
  let l := Z.min v 9223372036854775807 in
  (l + 2147483648) mod 4294967296 - 2147483648.

Definition pg_host : host := {|
  mblen := pg_utf_mblen;
  wide_isdigit := fun _ => false;
  ltree_crc32_sz := fun name => Z.of_nat (List.length name);
  atoi_beyond_int := glibc_atoi;
  MAXIMUM_ALIGNOF := 8;
  MaxAllocSize := 1073741823;
  sizeof_nodeitem := 24;
  sizeof_pointer := 8;
  LEVEL_HDRSIZE := 2;
  LTREE_HDRSIZE := 8;
  LVAR_HDRSIZE := 8;
  LQL_HDRSIZE := 16;
  LQUERY_HDRSIZE := 16;
  LVAR_ANYEND := 1;
  LVAR_INCASE := 2;
  LVAR_SUBLEXEME := 4;
  LQL_NOT := 16;
  LQUERY_HASNOT := 1
|}.

Definition txt (s : string) : text := list_ascii_of_string s.

(** The text of 65536 labels [a] with dots between them. *)
Definition many_labels : text :=
  List.concat (repeat (txt "a.") (Z.to_nat 65535)) ++ txt "a".


(** A label of sixteen dots, as the decoder returns it for sixteen escaped
    dots. *)
Definition sixteen_dots : ltree :=
  {| lt_vl_len := 32; lt_numlevel := 1;
     lt_levels := [{| lv_len := 16; lv_name := repeat "." 16 |}] |}.


(** ** Texts of labels *)

(** The characters, backslashes and dots among them, of labels that each
    end with a dot. *)
Definition chars_read (labels : list (list (bool * text))) : nat :=
  list_sum (map (fun us => List.length us + escapes_of us + 1)%nat labels).

(** The host [pg_host] with room for two items of [ltree_in] only. *)
Definition small_host : host := {|
  mblen := mblen pg_host;
  wide_isdigit := wide_isdigit pg_host;
  ltree_crc32_sz := ltree_crc32_sz pg_host;
  atoi_beyond_int := atoi_beyond_int pg_host;
  MAXIMUM_ALIGNOF := MAXIMUM_ALIGNOF pg_host;
  MaxAllocSize := 48;
  sizeof_nodeitem := sizeof_nodeitem pg_host;
  sizeof_pointer := sizeof_pointer pg_host;
  LEVEL_HDRSIZE := LEVEL_HDRSIZE pg_host;
  LTREE_HDRSIZE := LTREE_HDRSIZE pg_host;
  LVAR_HDRSIZE := LVAR_HDRSIZE pg_host;
  LQL_HDRSIZE := LQL_HDRSIZE pg_host;
  LQUERY_HDRSIZE := LQUERY_HDRSIZE pg_host;
  LVAR_ANYEND := LVAR_ANYEND pg_host;
  LVAR_INCASE := LVAR_INCASE pg_host;
  LVAR_SUBLEXEME := LVAR_SUBLEXEME pg_host;
  LQL_NOT := LQL_NOT pg_host;
  LQUERY_HASNOT := LQUERY_HASNOT pg_host
|}.

(** ** Escaped texts *)

(** The character [c] is one that [copy_escaped] puts a backslash in front
    of: one byte of [to_escape]. *)
Definition is_escaped (to_escape : text) (c : text) : bool :=
  match c with
  | [x] => strchr to_escape x
  | _ => false
  end.

Definition escape_chars (to_escape : text) (cs : list text) : list (bool * text) :=
  map (fun c => (is_escaped to_escape c, c)) cs.

(** ** Sizes *)

Section Sizes.

Variable H : host.

(** c.h takes [MAXIMUM_ALIGNOF] from the platform; it is a power of two. *)
Definition aligned_host : Prop :=
  exists k, 0 <= k /\ MAXIMUM_ALIGNOF H = 2 ^ k.

(** The backslashes that [ltree_out] writes for the names [css]. *)
Definition escapes_in (css : list (list text)) : nat :=
  list_sum (map (fun cs => escapes_of (canon cs)) css).

End Sizes.

(** ** The layout of an lquery *)

Section LqueryLayout.

Variable H : host.

(** The bytes of a level: its header, and its variants by [LVAR_NEXT]. *)
Definition level_size (l : lquery_level) : Z :=
  fold_left (fun t v => t + MAXALIGN H (LVAR_HDRSIZE H + lvar_len v))
    (lql_variants l) (LQL_HDRSIZE H).

(** Where [LQL_NEXT] leads from the offset [off], over [levels]. *)
Definition lquery_end (levels : list lquery_level) (off : Z) : Z :=
  fold_left (fun t l => t + MAXALIGN H (lql_totallen l)) levels off.

(** A level holds as many variants as [numvar] says, [totallen] is what
    its 16 bits hold of the size of the level, and the limits of a level
    without variants are in order. *)
Definition level_formed (l : lquery_level) : Prop :=
  lql_numvar l = Z.of_nat (List.length (lql_variants l)) /\
  lql_totallen l = uint16 (level_size l) /\
  (lql_numvar l = 0 -> lql_low l <= lql_high l).

End LqueryLayout.

(** ** lquery_out *)

(** [sprintf] with [%d]: the decimal digits of the number, after a minus
    sign if it is below 0.  [fuel] bounds the number of digits. *)
Definition digit_char (d : Z) : ascii := ascii_of_nat (48 + Z.to_nat d).

Fixpoint print_digits (fuel : nat) (n : Z) (acc : text) : text :=
  match fuel with
  | O => acc
  | S fuel' =>
      let acc := digit_char (n mod 10) :: acc in
      if n <? 10 then acc else print_digits fuel' (n / 10) acc
  end.

Definition print_int (z : Z) : text :=
  let fuel := S (Z.to_nat (Z.log2 (Z.abs z))) in
  if z <? 0 then "-" :: print_digits fuel (- z) []
  else print_digits fuel z [].

(** [*ptr = c; ptr++] for the bytes [cs], one after the other: [room] is
    the size of [buf], [out] the bytes stored through [ptr] so far. *)
Definition put (room : Z) (out cs : text) : outcome text :=
  if room <? Z.of_nat (List.length out) + Z.of_nat (List.length cs)
  then Undefined OutOfBounds
  else Ok (out ++ cs).

(** [sprintf(ptr, ...)] for the text [s], then [ptr = strchr(ptr, '\0')]:
    the text and its NUL are stored, and [ptr] is left at the NUL.  Lines
    716-717 do the same for the text of one star. *)
Definition put_string (room : Z) (out s : text) : outcome text :=
  if room <? Z.of_nat (List.length out) + Z.of_nat (List.length s) + 1
  then Undefined OutOfBounds
  else Ok (out ++ s).

Section LqueryOut.

Variable H : host.

(** The levels that the loops of lines 650 and 662 visit, [in->numlevel] of
    them, and the variants that the loop of line 677 visits. *)
Definition levels_of (r : lquery) : outcome (list lquery_level) :=
  if Z.of_nat (List.length (lq_levels r)) <? lq_numlevel r then Undefined OutOfBounds
  else Ok (firstn (Z.to_nat (lq_numlevel r)) (lq_levels r)).

Definition variants_in (curqlevel : lquery_level) : outcome (list lquery_variant) :=
  if Z.of_nat (List.length (lql_variants curqlevel)) <? lql_numvar curqlevel
  then Undefined OutOfBounds
  else Ok (firstn (Z.to_nat (lql_numvar curqlevel)) (lql_variants curqlevel)).

(** Lines 650-658: the size of the buffer. *)
Fixpoint lquery_out_size (levels : list lquery_level) (totallen : Z) : Z :=
  match levels with
  | [] => totallen
  | curqlevel :: levels' =>
      let totallen := totallen + 1 in
      let totallen :=
        if negb (lql_numvar curqlevel =? 0) then
          totallen + (1 + lql_numvar curqlevel * 4 + lql_totallen curqlevel)
        else totallen + (2 * 11 + 4) in
      lquery_out_size levels' totallen
  end.

(** Lines 677-704.  As in [ltree_out], [ptr] moves on by the length of the
    name and the number of backslashes, whatever [copy_escaped] has
    stored. *)
Fixpoint lquery_out_variants (variants : list lquery_variant) (j : Z)
    (room : Z) (out : text) : outcome text :=
  match variants with
  | [] => Ok out
  | curtlevel :: variants' =>
      out <- (if negb (j =? 0) then put room out ["|"] else Ok out) ;;
      '(copy, escapes) <- copy_escaped H (lvar_name curtlevel) (lvar_len curtlevel)
                            ["\"; " "; "."; "|"]
                            (room - Z.of_nat (List.length out)) ;;
      out <- (if Z.of_nat (List.length copy) =? lvar_len curtlevel + escapes
              then Ok (out ++ copy)
              else Undefined OutOfBounds) ;;
      out <- (if has_flag (lvar_flag curtlevel) (LVAR_SUBLEXEME H)
              then put room out ["%"] else Ok out) ;;
      out <- (if has_flag (lvar_flag curtlevel) (LVAR_INCASE H)
              then put room out ["@"] else Ok out) ;;
      out <- (if has_flag (lvar_flag curtlevel) (LVAR_ANYEND H)
              then put room out ["*"] else Ok out) ;;
      lquery_out_variants variants' (j + 1) room out
  end.

(** Lines 708-728: the text of a level without variants. *)
Definition quantifier_text (low high : Z) : text :=
  if low =? high then "*" :: "{" :: print_int low ++ ["}"]
  else if low =? 0 then
    if high =? 65535 then ["*"]
    else "*" :: "{" :: "," :: print_int high ++ ["}"]
  else if high =? 65535 then "*" :: "{" :: print_int low ++ [","; "}"]
  else "*" :: "{" :: print_int low ++ "," :: print_int high ++ ["}"].

(** Lines 662-732. *)
Fixpoint lquery_out_loop (levels : list lquery_level) (i : Z) (room : Z)
    (out : text) : outcome text :=
  match levels with
  | [] => Ok out
  | curqlevel :: levels' =>
      out <- (if negb (i =? 0) then put room out ["."] else Ok out) ;;
      out <- (if negb (lql_numvar curqlevel =? 0) then
                out <- (if has_flag (lql_flag curqlevel) (LQL_NOT H)
                        then put room out ["!"] else Ok out) ;;
                variants <- variants_in curqlevel ;;
                lquery_out_variants variants 0 room out
              else
                put_string room out
                  (quantifier_text (lql_low curqlevel) (lql_high curqlevel))) ;;
      lquery_out_loop levels' (i + 1) room out
  end.

(** [palloc(totallen)] of line 660. *)
Definition lquery_out_alloc (r : lquery) : outcome Z :=
  levels <- levels_of r ;;
  Ok (lquery_out_size levels 1).

(** The text stored in [buf], the NUL that ends it (line 734) left out. *)
Definition lquery_out (r : lquery) : outcome text :=
  levels <- levels_of r ;;
  let totallen := lquery_out_size levels 1 in
  out <- lquery_out_loop levels 0 totallen [] ;;
  put_string totallen out [].

(** ** Patterns as characters *)

(** The texts and records that the properties of [lquery_out] are stated
    with; none of them is code of ltree_io.c. *)

(** A level of a pattern: a quantifier, or variants, each the characters of
    its name and its flags, negated or not. *)
Inductive pattern_level :=
| Star (low high : Z)
| Alts (neg : bool) (vs : list (list text * Z)).

Definition mk_variant (v : list text * Z) : lquery_variant :=
  {| lvar_val := ltree_crc32_sz H (List.concat (fst v));
     lvar_len := Z.of_nat (List.length (List.concat (fst v)));
     lvar_flag := snd v;
     lvar_name := List.concat (fst v) |}.

(** The level as [lquery_in] lays it out. *)
Definition mk_level (p : pattern_level) : lquery_level :=
  match p with
  | Star low high =>
      {| lql_totallen := LQL_HDRSIZE H; lql_flag := 0; lql_numvar := 0;
         lql_low := low; lql_high := high; lql_variants := [] |}
  | Alts neg vs =>
      {| lql_totallen :=
           fold_left (fun t v => t + MAXALIGN H (LVAR_HDRSIZE H + lvar_len v))
             (map mk_variant vs) (LQL_HDRSIZE H);
         lql_flag := Z.lor (fold_right (fun v acc => Z.lor (snd v) acc) 0 vs)
                       (if neg then LQL_NOT H else 0);
         lql_numvar := Z.of_nat (List.length vs);
         lql_low := 0; lql_high := 0;
         lql_variants := map mk_variant vs |}
  end.

Definition flags_text (flag : Z) : text :=
  (if has_flag flag (LVAR_SUBLEXEME H) then ["%"] else [])
  ++ (if has_flag flag (LVAR_INCASE H) then ["@"] else [])
  ++ (if has_flag flag (LVAR_ANYEND H) then ["*"] else []).

Definition variant_text (v : list text * Z) : text :=
  render (escape_chars ["\"; " "; "."; "|"] (fst v)) ++ flags_text (snd v).

(** The texts [ts], the byte [sep] between them. *)
Fixpoint sep_by (sep : ascii) (ts : list text) : text :=
  match ts with
  | [] => []
  | [t] => t
  | t :: ts' => t ++ sep :: sep_by sep ts'
  end.

Definition level_text (p : pattern_level) : text :=
  match p with
  | Star low high => quantifier_text low high
  | Alts neg vs => (if neg then ["!"] else []) ++ sep_by "|" (map variant_text vs)
  end.

Definition pattern_text (ps : list pattern_level) : text :=
  sep_by "." (map level_text ps).

(** The variants from the one of index [j] on, each after its bar. *)
Fixpoint bar_text (j : Z) (vs : list (list text * Z)) : text :=
  match vs with
  | [] => []
  | v :: vs' => (if negb (j =? 0) then ["|"] else []) ++ variant_text v ++ bar_text (j + 1) vs'
  end.

(** The levels from the one of index [i] on, each after its dot. *)
Fixpoint dot_text (i : Z) (ps : list pattern_level) : text :=
  match ps with
  | [] => []
  | p :: ps' => (if negb (i =? 0) then ["."] else []) ++ level_text p ++ dot_text (i + 1) ps'
  end.

(** The backslashes in the text of a level. *)
Definition level_escapes (p : pattern_level) : nat :=
  match p with
  | Star _ _ => 0
  | Alts _ vs =>
      list_sum (map (fun v => escapes_of (escape_chars ["\"; " "; "."; "|"] (fst v))) vs)
  end.

(** The name of a variant is characters of the encoding, and its flags
    do not have the bit of [LQL_NOT]. *)
Definition variant_chars (v : list text * Z) : Prop :=
  Forall (wf_char H) (fst v) /\
  Z.of_nat (List.length (List.concat (fst v))) < 65536 /\
  Z.land (snd v) (LQL_NOT H) = 0.

Definition level_chars (p : pattern_level) : Prop :=
  match p with
  | Star _ _ => True
  | Alts _ vs => vs <> [] /\ Forall variant_chars vs
  end.

(** What [lquery_out_fits] asks of a level: limits of 16 bits, and no more
    backslashes than the headers of the level and of its variants have
    bytes. *)
Definition level_fits (p : pattern_level) : Prop :=
  level_chars p /\
  match p with
  | Star low high => 0 <= low <= 65535 /\ 0 <= high <= 65535
  | Alts _ vs =>
      Z.of_nat (level_escapes p)
      <= LQL_HDRSIZE H + Z.of_nat (List.length vs) * LVAR_HDRSIZE H
  end.

End LqueryOut.

(** ** Patterns that lquery_out writes *)

(** The states of the loop of [lquery_in] that the properties of its runs
    are stated with; none of them is code of ltree_io.c. *)

Section LqueryRuns.

Variable H : host.

(** The level at [curqlevel] while its variants are read: the items [done]
    in front of [lptr], the item [it] at [lptr], and [m] items behind it;
    [numvar] is what its 16 bits hold of the number of the items read. *)
Definition alts_at (flag : Z) (done : list nodeitem) (it : nodeitem) (m : nat)
    : tmp_level :=
  {| tq_flag := flag; tq_numvar := uint16 (Z.of_nat (List.length done) + 1);
     tq_low := 0; tq_high := 0;
     tq_var := Some (done ++ it :: repeat nodeitem0 m) |}.

(** The state of the loop with the levels [dlev] in front of [curqlevel],
    the level [cur] at it and [k] levels behind it. *)
Definition lq_at (state : lqprs) (dlev : list tmp_level) (cur : tmp_level) (k : nat)
    (lptr : option (nat * nat)) (hasnot : bool) (off : nat) (pos esc : Z)
    : lquery_in_state :=
  {| qs_ptr := off; qs_state := state;
     qs_tmpql := dlev ++ cur :: repeat tmp_level0 k;
     qs_curqlevel := List.length dlev; qs_lptr := lptr; qs_hasnot := hasnot;
     qs_pos := pos; qs_escaped_count := esc |}.

Definition qitem (start : nat) (len flag wlen : Z) : nodeitem :=
  {| ni_start := start; ni_len := len; ni_flag := flag; ni_wlen := wlen |}.

(** The length that lines 404-407 give the item that ends at [off]. *)
Definition item_len (off start : nat) (esc flag : Z) : Z :=
  Z.of_nat off - Z.of_nat start - esc
  - (if has_flag flag (LVAR_SUBLEXEME H) then 1 else 0)
  - (if has_flag flag (LVAR_INCASE H) then 1 else 0)
  - (if has_flag flag (LVAR_ANYEND H) then 1 else 0).

(** The flags [f] and those of the modifiers that [lquery_out] writes for
    the flags [vflag], set in the order in which it writes them. *)
Definition flags_acc (f vflag : Z) : Z :=
  let f := if has_flag vflag (LVAR_SUBLEXEME H) then Z.lor f (LVAR_SUBLEXEME H) else f in
  let f := if has_flag vflag (LVAR_INCASE H) then Z.lor f (LVAR_INCASE H) else f in
  if has_flag vflag (LVAR_ANYEND H) then Z.lor f (LVAR_ANYEND H) else f.

(** A character that is part of a name as it is, in state WAITDELIM. *)
Definition plain_char (c : text) : Prop :=
  single c "@" = false /\ single c "*" = false /\ single c "%" = false /\
  single c "|" = false /\ single c "." = false /\ single c "\" = false.

Definition punit_ok (u : bool * text) : Prop :=
  wf_char H (snd u) /\ (fst u = false -> plain_char (snd u)).

(** The item [it] of the array of a level is that of the variant [v]: its
    length and flags, and the text of the name where it starts. *)
Definition item_for (buf : text) (it : nodeitem) (v : list text * Z) : Prop :=
  ni_len it = Z.of_nat (List.length (List.concat (fst v))) /\
  ni_flag it = snd v /\
  exists rest,
    skipn (ni_start it) buf = render (escape_chars ["\"; " "; "."; "|"] (fst v)) ++ rest.

(** The item at [lptr] when the name and the modifiers of the variant [v]
    have been read, up to the offset [off]. *)
Definition open_item (buf : text) (off : nat) (esc : Z) (it : nodeitem)
    (v : list text * Z) : Prop :=
  ni_flag it = snd v /\ ni_wlen it <= 255 /\ (ni_start it < off)%nat /\
  item_len off (ni_start it) esc (snd v) = Z.of_nat (List.length (List.concat (fst v))) /\
  exists rest,
    skipn (ni_start it) buf = render (escape_chars ["\"; " "; "."; "|"] (fst v)) ++ rest.

(** The element [q] of [tmpql] is that of the level [p]. *)
Definition level_for (buf : text) (q : tmp_level) (p : pattern_level) : Prop :=
  match p with
  | Star low high => q = quant_level low high
  | Alts neg vs =>
      exists items zs,
        q = {| tq_flag := lql_flag (mk_level H (Alts neg vs));
               tq_numvar := uint16 (Z.of_nat (List.length vs));
               tq_low := 0; tq_high := 0; tq_var := Some (items ++ zs) |} /\
        Forall2 (item_for buf) items vs
  end.

(** The flags of a level after the variants [vs]. *)
Definition vars_flag (flag : Z) (vs : list (list text * Z)) : Z :=
  fold_left (fun f v => flags_acc f (snd v)) vs flag.

(** The variants [vs], each after a bar. *)
Definition barred (vs : list (list text * Z)) : text :=
  List.concat (map (fun v => "|" :: variant_text H v) vs).

(** The name and the flags of a variant as [lquery_out] writes them: a
    name of characters none of which is a modifier, and flags that are
    those of the modifiers. *)
Definition name_canon (v : list text * Z) : Prop :=
  fst v <> [] /\ Forall (wf_char H) (fst v) /\
  Forall (fun c => single c "@" = false /\ single c "*" = false /\
                   single c "%" = false) (fst v) /\
  snd v = flags_acc 0 (snd v).

(** A variant that [lquery_in] reads as [lquery_out] writes it: a name of
    characters none of which is a modifier, flags that are those of the
    modifiers, and no more than 255 characters with the [lead] in front
    of them. *)
Definition variant_canon (lead : nat) (v : list text * Z) : Prop :=
  fst v <> [] /\ Forall (wf_char H) (fst v) /\
  Forall (fun c => single c "@" = false /\ single c "*" = false /\
                   single c "%" = false) (fst v) /\
  snd v = flags_acc 0 (snd v) /\
  (lead + List.length (fst v) + List.length (flags_text H (snd v)) <= 255)%nat.

(** A level that [lquery_in] reads as [lquery_out] writes it: limits in
    order and of 16 bits; variants as above, the first of a level that is
    not negated not one that starts with [!]. *)
Definition level_canon (p : pattern_level) : Prop :=
  match p with
  | Star low high => 0 <= low <= high /\ high <= 65535
  | Alts neg vs =>
      match vs with
      | [] => False
      | v :: vs' =>
          variant_canon (if neg then 1 else 0)%nat v /\
          (neg = false -> single (hd [] (fst v)) "!" = false) /\
          Forall (variant_canon 0) vs'
      end
  end.

Definition is_neg (p : pattern_level) : bool :=
  match p with
  | Star _ _ => false
  | Alts neg _ => neg
  end.

(** The variants of a level: the items that the parser needs for it. *)
Definition level_vars (p : pattern_level) : nat :=
  match p with
  | Star _ _ => 0
  | Alts _ vs => List.length vs
  end.

(** From [st] the loop comes to [st'], whatever the fuel, over the
    characters [cs], which [pos] counts. *)
Definition qruns_to (buf : text) (numOR : Z) (st st' : lquery_in_state) : Prop :=
  (forall fuel, (List.length buf - qs_ptr st < fuel)%nat ->
   exists fuel', (List.length buf - qs_ptr st' < fuel')%nat /\
     lquery_in_loop H fuel buf numOR st = lquery_in_loop H fuel' buf numOR st') /\
  exists cs, Forall (wf_char H) cs /\
    skipn (qs_ptr st) buf = List.concat cs ++ skipn (qs_ptr st') buf /\
    qs_pos st' = qs_pos st + Z.of_nat (List.length cs).

(** The characters of the text [t], each as long as [pg_mblen] says. *)
Fixpoint nchars (fuel : nat) (t : text) : nat :=
  match fuel with
  | O => O
  | S fuel' =>
      match t with
      | [] => O
      | _ :: _ => S (nchars fuel' (skipn (pg_mblen H t) t))
      end
  end.

Definition chars_in (t : text) : nat := nchars (List.length t) t.

(** The loop from [st] and the checks at the end of the text give [stf]. *)
Definition qfinishes (buf : text) (numOR : Z) (st stf : lquery_in_state) : Prop :=
  forall fuel, (List.length buf - qs_ptr st < fuel)%nat ->
  (s <- lquery_in_loop H fuel buf numOR st ;; lquery_in_finish H s) = Ok stf.

(** [count_lquery_parts_ors] counts [d] dots and [b] bars in the text [t],
    whatever follows it. *)
Definition counts (t : text) (d b : nat) : Prop :=
  forall fuel rest levels ORs, (List.length t + List.length rest < fuel)%nat ->
  exists fuel', (List.length rest < fuel')%nat /\
    count_loop H fuel true (t ++ rest) false levels ORs
    = count_loop H fuel' true rest false (levels + Z.of_nat d) (ORs + Z.of_nat b).

(** The bars in the text of the levels [ps]. *)
Definition pattern_bars (ps : list pattern_level) : nat :=
  list_sum (map (fun p => pred (level_vars p)) ps).

(** The record of the levels [ps], as [lquery_in] lays it out. *)
Definition mk_lquery (ps : list pattern_level) : lquery :=
  {| lq_vl_len := fold_left (fun t l => t + lql_totallen l) (map (mk_level H) ps)
                    (LQUERY_HDRSIZE H);
     lq_numlevel := Z.of_nat (List.length ps);
     lq_firstgood := plain_prefix H (map (mk_level H) ps);
     lq_flag := if existsb is_neg ps then LQUERY_HASNOT H else 0;
     lq_levels := map (mk_level H) ps |}.

(** The fields of 16 bits of a level hold the number of its variants and
    its size. *)
Definition level_held (p : pattern_level) : Prop :=
  Z.of_nat (level_vars p) <= 65535 /\ 0 <= lql_totallen (mk_level H p) <= 65535.

(** The record that [lquery_in] returns for the levels [ps], where the
    fields of each level hold its variants and its size: [numlevel] and
    [firstgood] are what their 16 bits hold of the number of the levels
    and of the plain levels in front. *)
Definition lquery_stored (ps : list pattern_level) : lquery :=
  {| lq_vl_len := lq_vl_len (mk_lquery ps);
     lq_numlevel := uint16 (Z.of_nat (List.length ps));
     lq_firstgood := uint16 (plain_prefix H (map (mk_level H) ps));
     lq_flag := lq_flag (mk_lquery ps);
     lq_levels := map (mk_level H) ps |}.

(** The bars that [count_lquery_parts_ors] counts in the characters [cs];
    [escape_mode] says whether the first of them follows a backslash. *)
Fixpoint bars_in (cs : list text) (escape_mode : bool) : nat :=
  match cs with
  | [] => O
  | c :: cs' =>
      if escape_mode then bars_in cs' false
      else if single c "\" then bars_in cs' true
      else if single c "." then bars_in cs' false
      else if single c "|" then S (bars_in cs' false)
      else bars_in cs' false
  end.

(** The levels [ps], each with the dot that ends it. *)
Definition dotted_levels (ps : list pattern_level) : text :=
  List.concat (map (fun p => level_text H p ++ ["."]) ps).

(** The loop from [st], or the checks at the end of the text, raise [e]. *)
Definition qraises (buf : text) (numOR : Z) (st : lquery_in_state) (e : error) : Prop :=
  forall fuel, (List.length buf - qs_ptr st < fuel)%nat ->
  (s <- lquery_in_loop H fuel buf numOR st ;; lquery_in_finish H s) = Raise e.

(** What the passes behind the loop ask of a level. *)
Definition level_sized (p : pattern_level) : Prop :=
  match p with
  | Star low high => low <= high
  | Alts _ vs =>
      vs <> [] /\
      Forall (fun v => Forall (wf_char H) (fst v) /\ (List.length (fst v) <= 255)%nat) vs
  end.

End LqueryRuns.

(** * Properties *)

(** ** Outcomes and arrays *)

Lemma bind_Ok {A B} (m : outcome A) (k : A -> outcome B) b :
  bind m k = Ok b -> exists a, m = Ok a /\ k a = Ok b.
Proof. destruct m; simpl; try discriminate. eauto. Qed.

Lemma nth_error_replace_nth_eq {A} (a : list A) i x y :
  nth_error a i = Some x -> nth_error (replace_nth a i y) i = Some y.
Proof.
  revert i; induction a as [|z a IH]; intros [|i]; simpl; try discriminate; auto.
Qed.

Lemma nth_error_replace_nth_neq {A} (a : list A) i j y :
  i <> j -> nth_error (replace_nth a i y) j = nth_error a j.
Proof.
  revert i j; induction a as [|z a IH]; intros [|i] [|j] Hne; simpl; auto.
  - congruence.
Qed.

Lemma length_replace_nth {A} (a : list A) i y :
  List.length (replace_nth a i y) = List.length a.
Proof. revert i; induction a as [|z a IH]; intros [|i]; simpl; auto. Qed.

Lemma aupd_Ok {A} (a a' : list A) i f :
  aupd a i f = Ok a' -> exists x, nth_error a i = Some x /\ a' = replace_nth a i (f x).
Proof. unfold aupd. destruct (nth_error a i); intros E; inversion E; eauto. Qed.

Lemma aget_Ok {A} (a : list A) i x : aget a i = Ok x -> nth_error a i = Some x.
Proof. unfold aget. destruct (nth_error a i); intros E; inversion E; auto. Qed.


Lemma replace_nth_twice {A} (a : list A) i x y :
  replace_nth (replace_nth a i x) i y = replace_nth a i y.
Proof. revert i; induction a as [|z a IH]; intros [|i]; simpl; auto. f_equal; auto. Qed.

Lemma cur_upd_Ok f st st' :
  cur_upd f st = Ok st' ->
  exists q, nth_error (qs_tmpql st) (qs_curqlevel st) = Some q /\
    st' = qs_set_tmpql (replace_nth (qs_tmpql st) (qs_curqlevel st) (f q)) st.
Proof.
  unfold cur_upd. intros E. apply bind_Ok in E. destruct E as (a & E1 & E2).
  apply aupd_Ok in E1. destruct E1 as (q & E1 & ->). inversion E2. eauto.
Qed.

Lemma lptr_get_Ok st it :
  lptr_get st = Ok it ->
  exists l i q a, qs_lptr st = Some (l, i) /\ nth_error (qs_tmpql st) l = Some q /\
    tq_var q = Some a /\ nth_error a i = Some it.
Proof.
  unfold lptr_get. destruct (qs_lptr st) as [[l i]|]; try discriminate.
  intros E. apply bind_Ok in E. destruct E as (q & E1 & E2).
  apply aget_Ok in E1. destruct (tq_var q) as [a|] eqn:Ev; try discriminate.
  apply aget_Ok in E2. eauto 10.
Qed.

Lemma lptr_upd_Ok f st st' :
  lptr_upd f st = Ok st' ->
  exists l i q a x, qs_lptr st = Some (l, i) /\ nth_error (qs_tmpql st) l = Some q /\
    tq_var q = Some a /\ nth_error a i = Some x /\
    st' = qs_set_tmpql (replace_nth (qs_tmpql st) l
                          (tq_set_var (Some (replace_nth a i (f x))) q)) st.
Proof.
  unfold lptr_upd. destruct (qs_lptr st) as [[l i]|]; try discriminate.
  intros E. apply bind_Ok in E. destruct E as (q & E1 & E2).
  apply aget_Ok in E1. destruct (tq_var q) as [a|] eqn:Ev; try discriminate.
  apply bind_Ok in E2. destruct E2 as (a' & E2 & E3).
  apply aupd_Ok in E2. destruct E2 as (x & E2 & ->).
  apply bind_Ok in E3. destruct E3 as (t & E3 & E4).
  apply aupd_Ok in E3. destruct E3 as (q' & E3 & ->).
  inversion E4. rewrite E1 in E3. inversion E3; subst q'. eauto 10.
Qed.



(** Tactics: the fields of a state, the steps of a computation that returns [Ok]. *)
Ltac simpl_st :=
  cbn [qs_ptr qs_state qs_tmpql qs_curqlevel qs_lptr qs_hasnot qs_pos qs_escaped_count
       qs_set_ptr qs_set_state qs_set_tmpql qs_set_curqlevel qs_set_lptr qs_set_hasnot
       qs_set_pos qs_set_escaped_count NEXTLEV lptr_next
       tq_flag tq_numvar tq_low tq_high tq_var
       tq_set_flag tq_set_numvar tq_set_low tq_set_high tq_set_var
       ni_start ni_len ni_flag ni_wlen set_start set_len set_flag set_wlen] in *.

Ltac ok_step :=
  match goal with
  | E : bind _ _ = Ok _ |- _ =>
      let a := fresh "s" in let E1 := fresh "E" in
      apply bind_Ok in E; destruct E as (a & E1 & E)
  | E : Ok _ = Ok _ |- _ => inversion E; subst; clear E
  | E : Raise _ = Ok _ |- _ => discriminate E
  | E : Undefined _ = Ok _ |- _ => discriminate E
  | E : cur_upd _ _ _ = Ok _ |- _ => fail
  | E : (if ?c then _ else _) = Ok _ |- _ =>
      let C := fresh "C" in destruct c eqn:C
  | E : (let _ := _ in _) = Ok _ |- _ => cbv zeta in E
  end.

Ltac prim_step :=
  match goal with
  | E : cur_upd _ ?st = Ok _ |- _ =>
      let q := fresh "q" in let Hq := fresh "Hq" in
      apply cur_upd_Ok in E; destruct E as (q & Hq & ->)
  | E : lptr_upd _ ?st = Ok _ |- _ =>
      let l := fresh "l" in let i := fresh "i" in let q := fresh "q" in
      let a := fresh "a" in let x := fresh "x" in
      let H1 := fresh "Hl" in let H2 := fresh "Hq" in let H3 := fresh "Hv" in
      let H4 := fresh "Hx" in
      apply lptr_upd_Ok in E; destruct E as (l & i & q & a & x & H1 & H2 & H3 & H4 & ->)
  | E : lptr_get ?st = Ok _ |- _ =>
      let l := fresh "l" in let i := fresh "i" in let q := fresh "q" in
      let a := fresh "a" in
      let H1 := fresh "Hl" in let H2 := fresh "Hq" in let H3 := fresh "Hv" in
      let H4 := fresh "Hx" in
      apply lptr_get_Ok in E; destruct E as (l & i & q & a & H1 & H2 & H3 & H4)
  end.

Lemma nth_error_replace_nth_inv {A} (a : list A) i y z :
  nth_error (replace_nth a i y) i = Some z -> z = y.
Proof.
  revert i; induction a as [|w a IH]; intros [|i]; simpl; try discriminate.
  - intros E; inversion E; auto.
  - apply IH.
Qed.

Ltac norm :=
  simpl_st;
  repeat (match goal with
          | E : nth_error (replace_nth _ ?i _) ?i = Some _ |- _ =>
              apply nth_error_replace_nth_inv in E; subst
          | E : Some _ = Some _ |- _ => inversion E; subst; clear E
          | E1 : ?x = Some _, E2 : ?x = Some _ |- _ => rewrite E1 in E2
          | _ => progress (rewrite replace_nth_twice in * )
          end; simpl_st).

Lemma bind_Raise {A B} (m : outcome A) (k : A -> outcome B) e :
  bind m k = Raise e -> m = Raise e \/ exists a, m = Ok a /\ k a = Raise e.
Proof. destruct m; simpl; try discriminate; eauto. intros E; inversion E; auto. Qed.

Ltac raise_step :=
  match goal with
  | E : bind _ _ = Raise _ |- _ =>
      let a := fresh "s" in let E1 := fresh "E" in
      apply bind_Raise in E; destruct E as [E | (a & E1 & E)]
  | E : Raise _ = Raise _ |- _ => inversion E; subst; clear E
  | E : Ok _ = Raise _ |- _ => discriminate E
  | E : Undefined _ = Raise _ |- _ => discriminate E
  | E : OutOfFuel = Raise _ |- _ => discriminate E
  | E : (if ?c then _ else _) = Raise _ |- _ =>
      let C := fresh "C" in destruct c eqn:C
  | E : (let _ := _ in _) = Raise _ |- _ => cbv zeta in E
  | E : match ?x with Some _ => _ | None => _ end = Raise _ |- _ =>
      let C := fresh "C" in destruct x eqn:C
  | E : match ?x with (_, _) => _ end = Raise _ |- _ =>
      let C := fresh "C" in destruct x eqn:C
  end.

Lemma aupd_not_Raise {A} (a : list A) i f e : aupd a i f <> Raise e.
Proof. unfold aupd. destruct (nth_error a i); discriminate. Qed.

Lemma aget_not_Raise {A} (a : list A) i e : aget a i <> Raise e.
Proof. unfold aget. destruct (nth_error a i); discriminate. Qed.

Lemma cur_upd_not_Raise f st e : cur_upd f st <> Raise e.
Proof.
  unfold cur_upd. intros E. repeat raise_step. eapply aupd_not_Raise; eauto.
Qed.

Lemma lptr_get_not_Raise st e : lptr_get st <> Raise e.
Proof.
  unfold lptr_get. intros E. repeat raise_step. 
  - eapply aget_not_Raise; eauto.
  - eapply aget_not_Raise; eauto.
Qed.

Lemma lptr_upd_not_Raise f st e : lptr_upd f st <> Raise e.
Proof.
  unfold lptr_upd. intros E. repeat raise_step;
    solve [eapply aget_not_Raise; eauto | eapply aupd_not_Raise; eauto].
Qed.

Lemma open_variant_not_Raise numOR start s' st e : open_variant numOR start s' st <> Raise e.
Proof.
  unfold open_variant. intros E. repeat raise_step;
    solve [eapply cur_upd_not_Raise; eauto | eapply lptr_upd_not_Raise; eauto].
Qed.

Ltac no_raise :=
  solve [ exfalso; eapply cur_upd_not_Raise; eauto
        | exfalso; eapply lptr_upd_not_Raise; eauto
        | exfalso; eapply lptr_get_not_Raise; eauto
        | exfalso; eapply open_variant_not_Raise; eauto ].

(** The host [pg_host] is as assumed. *)
Lemma pg_host_ok : host_ok pg_host.
Proof.
  split.
  - intros c. unfold pg_host, mblen, pg_utf_mblen.
    repeat match goal with |- context [if ?b then _ else _] => destruct b end; lia.
  - intros c. unfold pg_host, mblen, pg_utf_mblen.
    repeat match goal with |- context [if ?b then _ else _] => destruct b end; lia.
  - intros c Hc. unfold pg_host, mblen, pg_utf_mblen.
    apply Nat.ltb_lt in Hc. rewrite Hc. reflexivity.
  - discriminate.
  - vm_compute. discriminate.
Qed.

Lemma uint16_succ a : uint16 (uint16 a + 1) = uint16 (a + 1).
Proof. unfold uint16. apply Z.add_mod_idemp_l. lia. Qed.

Lemma uint16_small a : 0 <= a < 65536 -> uint16 a = a.
Proof. unfold uint16. apply Z.mod_small. Qed.

Lemma uint16_range a : 0 <= uint16 a < 65536.
Proof. unfold uint16. apply Z.mod_pos_bound. lia. Qed.

Lemma uint16_le a : 0 <= a -> uint16 a <= a.
Proof. unfold uint16. intros. apply Z.mod_le; lia. Qed.

Section LqueryInvariant.

Variable H : host.

Lemma lor_flags_replace_same a i x y :
  nth_error a i = Some x -> ni_flag y = ni_flag x ->
  lor_flags (replace_nth a i y) = lor_flags a.
Proof.
  revert i; induction a as [|z a IH]; intros [|i]; simpl; try discriminate.
  - intros E; inversion E; subst. intros ->. reflexivity.
  - intros E Hf. rewrite (IH _ E Hf). reflexivity.
Qed.

Lemma lor_flags_replace_lor a i x bit :
  nth_error a i = Some x ->
  lor_flags (replace_nth a i (set_flag (Z.lor (ni_flag x) bit) x)) = Z.lor (lor_flags a) bit.
Proof.
  revert i; induction a as [|z a IH]; intros [|i]; simpl; try discriminate.
  - intros E; inversion E; subst.
    rewrite <- !Z.lor_assoc. f_equal. apply Z.lor_comm.
  - intros E. rewrite (IH _ E). rewrite Z.lor_assoc. reflexivity.
Qed.

Lemma lor_flags_repeat0 n : lor_flags (repeat nodeitem0 n) = 0.
Proof. induction n; simpl; auto. Qed.

Lemma nth_error_repeat {A} (x y : A) n k : nth_error (repeat x n) k = Some y -> y = x.
Proof.
  revert k; induction n; intros [|k]; simpl; try discriminate.
  - intros E; inversion E; auto.
  - apply IHn.
Qed.

Lemma lq_inv_init levels : lq_inv H (lquery_in_init levels).
Proof.
  unfold lquery_in_init. split; cbn [qs_tmpql qs_curqlevel].
  - intros j q Hj; lia.
  - intros q Hq. apply nth_error_repeat in Hq. exact Hq.
  - intros j q _ Hq. apply nth_error_repeat in Hq. exact Hq.
  - exact I.
Qed.

(* Changes that keep tmpql, curqlevel *)
Lemma lq_inv_same st st' :
  lq_inv H st ->
  qs_tmpql st' = qs_tmpql st -> qs_curqlevel st' = qs_curqlevel st ->
  (forall q, nth_error (qs_tmpql st) (qs_curqlevel st) = Some q -> cur_ok H st q -> cur_ok H st' q) ->
  cur_present st' ->
  lq_inv H st'.
Proof.
  intros [I1 I2 I3 I4] Ht Hc Hok Hp. split; rewrite ?Ht, ?Hc; auto.
Qed.

(* A store into the current level *)
Lemma lq_inv_store st st' q q' :
  lq_inv H st ->
  nth_error (qs_tmpql st) (qs_curqlevel st) = Some q ->
  qs_tmpql st' = replace_nth (qs_tmpql st) (qs_curqlevel st) q' ->
  qs_curqlevel st' = qs_curqlevel st ->
  cur_ok H st' q' ->
  lq_inv H st'.
Proof.
  intros [I1 I2 I3 I4] Hq Ht Hc Hok. split; rewrite ?Ht, ?Hc.
  - intros j q0 Hj. rewrite nth_error_replace_nth_neq by lia. eauto.
  - rewrite (nth_error_replace_nth_eq _ _ _ _ Hq). intros q0 E; inversion E; subst; auto.
  - intros j q0 Hj. rewrite nth_error_replace_nth_neq by lia. eauto.
  - assert (qs_curqlevel st' < List.length (qs_tmpql st'))%nat.
    { rewrite Ht, Hc, length_replace_nth. apply nth_error_Some. congruence. }
    unfold cur_present. destruct (qs_state st'); auto.
Qed.

(* The move to the next level *)
Lemma lq_inv_next st st' :
  lq_inv H st ->
  qs_tmpql st' = qs_tmpql st -> qs_curqlevel st' = S (qs_curqlevel st) ->
  qs_state st' = LQPRS_WAITLEVEL ->
  (forall q, nth_error (qs_tmpql st) (qs_curqlevel st) = Some q -> level_wf H q) ->
  lq_inv H st'.
Proof.
  intros [I1 I2 I3 I4] Ht Hc Hs Hwf. split; rewrite ?Ht, ?Hc.
  - intros j q Hj Hq. destruct (Nat.eq_dec j (qs_curqlevel st)) as [->|Hne].
    + auto.
    + apply (I1 j); auto. lia.
  - intros q Hq. unfold cur_ok. rewrite Hs. apply (I3 (S (qs_curqlevel st))); auto.
  - intros j q Hj. apply I3. lia.
  - unfold cur_present. rewrite Hs. exact I.
Qed.



Lemma open_variant_Ok numOR start s' st st' :
  open_variant numOR start s' st = Ok st' ->
  exists q x, nth_error (qs_tmpql st) (qs_curqlevel st) = Some q /\
    nth_error (repeat nodeitem0 (Z.to_nat numOR)) 0 = Some x /\
    st' = qs_set_state s'
            (qs_set_tmpql
               (replace_nth (qs_tmpql st) (qs_curqlevel st)
                  (tq_set_numvar 1
                     (tq_set_var
                        (Some (replace_nth (repeat nodeitem0 (Z.to_nat numOR)) 0
                                 (set_start start x))) q)))
               (qs_set_lptr (Some (qs_curqlevel st, O)) st)).
Proof.
  unfold open_variant. intros E.
  repeat ok_step. repeat prim_step. norm.
  eauto.
Qed.

Lemma alt_cur_fresh start numOR x cur :
  nth_error (repeat nodeitem0 (Z.to_nat numOR)) 0 = Some x ->
  alt_cur H cur (Some (cur, O))
    (tq_set_numvar 1
       (tq_set_var (Some (replace_nth (repeat nodeitem0 (Z.to_nat numOR)) 0
                            (set_start start x))) tmp_level0)).
Proof.
  intros Hx. assert (x = nodeitem0) by (eapply nth_error_repeat; eauto). subst x.
  exists O, (replace_nth (repeat nodeitem0 (Z.to_nat numOR)) 0 (set_start start nodeitem0)), false.
  simpl_st. repeat split; auto.
  - rewrite length_replace_nth. apply nth_error_Some. congruence.
  - rewrite (lor_flags_replace_same _ _ _ _ Hx) by reflexivity.
    rewrite lor_flags_repeat0. reflexivity.
  - intros k y Hk. rewrite nth_error_replace_nth_neq by lia. apply nth_error_repeat.
Qed.

Lemma open_variant_inv numOR start s' st st' :
  lq_inv H st -> qs_state st = LQPRS_WAITLEVEL ->
  s' = LQPRS_WAITDELIM \/ s' = LQPRS_WAITESCAPED ->
  open_variant numOR start s' st = Ok st' ->
  lq_inv H st' /\ qs_state st' = s'.
Proof.
  intros Hinv Hs Hs' E. apply open_variant_Ok in E. destruct E as (q & x & Hq & Hx & ->).
  pose proof (inv_cur _ _ Hinv _ Hq) as Hc. unfold cur_ok in Hc. rewrite Hs in Hc. subst q.
  split; [|reflexivity].
  eapply lq_inv_store; eauto; simpl_st; try reflexivity.
  unfold cur_ok; simpl_st.
  destruct Hs' as [-> | ->]; apply alt_cur_fresh; auto.
Qed.


Lemma cur_ok_alt st q : alt_state (qs_state st) -> cur_ok H st q ->
  alt_cur H (qs_curqlevel st) (qs_lptr st) q.
Proof. unfold cur_ok. intros [-> | [-> | ->]]; auto. Qed.

Lemma alt_cur_ok st q : alt_state (qs_state st) ->
  alt_cur H (qs_curqlevel st) (qs_lptr st) q -> cur_ok H st q.
Proof. unfold cur_ok. intros [-> | [-> | ->]]; auto. Qed.

Lemma inv_alt_cur st :
  lq_inv H st -> alt_state (qs_state st) ->
  exists q, nth_error (qs_tmpql st) (qs_curqlevel st) = Some q /\
            alt_cur H (qs_curqlevel st) (qs_lptr st) q.
Proof.
  intros Hinv Hs. pose proof (inv_present _ _ Hinv) as Hp.
  assert (qs_curqlevel st < List.length (qs_tmpql st))%nat as Hlt.
  { unfold cur_present in Hp. destruct Hs as [E | [E | E]]; rewrite E in Hp; auto. }
  apply nth_error_Some in Hlt.
  destruct (nth_error (qs_tmpql st) (qs_curqlevel st)) as [q|] eqn:Hq; [|congruence].
  exists q; split; auto. apply cur_ok_alt; auto. apply (inv_cur _ _ Hinv); auto.
Qed.

(* an update of the item at lptr that keeps its flag *)
Lemma lptr_upd_inv f st st' :
  lq_inv H st -> alt_state (qs_state st) ->
  (forall x, ni_flag (f x) = ni_flag x) ->
  lptr_upd f st = Ok st' ->
  lq_inv H st' /\ qs_state st' = qs_state st /\ qs_curqlevel st' = qs_curqlevel st
  /\ qs_lptr st' = qs_lptr st.
Proof.
  intros Hinv Hs Hf E. destruct (inv_alt_cur _ Hinv Hs) as (q & Hq & Halt).
  destruct Halt as (i0 & a0 & neg & Hl0 & Hv0 & Hn & Hi & Hfl & Hz).
  prim_step. norm. split; [|auto].
  eapply lq_inv_store; eauto; simpl_st; try reflexivity.
  apply alt_cur_ok; simpl_st; auto.
  exists i0, (replace_nth a0 i0 (f x)), neg. simpl_st.
  repeat split; auto.
  - rewrite length_replace_nth; auto.
  - rewrite (lor_flags_replace_same _ _ _ _ Hx); auto.
  - intros k y Hk. rewrite nth_error_replace_nth_neq by lia. apply Hz; auto.
Qed.

Lemma set_modifier_inv bit st st' :
  lq_inv H st -> alt_state (qs_state st) ->
  set_modifier bit st = Ok st' ->
  lq_inv H st' /\ qs_state st' = qs_state st.
Proof.
  intros Hinv Hs E. destruct (inv_alt_cur _ Hinv Hs) as (q & Hq & Halt).
  unfold set_modifier in E. repeat ok_step. clear E0.
  destruct Halt as (i0 & a0 & neg & Hl0 & Hv0 & Hn & Hi & Hfl & Hz).
  repeat prim_step. norm. split; [|auto].
  eapply lq_inv_store with (st := st) (q := q);
    [exact Hinv | eassumption | simpl_st; reflexivity | reflexivity | ].
  - apply alt_cur_ok; simpl_st; auto.
    exists i0, (replace_nth a0 i0 (set_flag (Z.lor (ni_flag x) bit) x)), neg. simpl_st.
    repeat split; auto.
    + rewrite length_replace_nth; auto.
    + rewrite (lor_flags_replace_lor _ _ _ _ Hx). rewrite Hfl.
      rewrite <- !Z.lor_assoc. f_equal. apply Z.lor_comm.
    + intros k y Hk. rewrite nth_error_replace_nth_neq by lia. apply Hz; auto.
Qed.

Lemma cur_upd_not_inv st st' :
  lq_inv H st -> alt_state (qs_state st) ->
  cur_upd (fun q => tq_set_flag (Z.lor (tq_flag q) (LQL_NOT H)) q) st = Ok st' ->
  lq_inv H st' /\ qs_state st' = qs_state st.
Proof.
  intros Hinv Hs E. destruct (inv_alt_cur _ Hinv Hs) as (q & Hq & Halt).
  destruct Halt as (i0 & a0 & neg & Hl0 & Hv0 & Hn & Hi & Hfl & Hz).
  prim_step. norm. split; [|auto].
  eapply lq_inv_store with (st := st) (q := q);
    [exact Hinv | eassumption | simpl_st; reflexivity | reflexivity | ].
  apply alt_cur_ok; simpl_st; auto.
  exists i0, a0, true. simpl_st. repeat split; auto.
  rewrite Hfl. rewrite <- Z.lor_assoc. f_equal.
  destruct neg; simpl; [apply Z.lor_diag | apply Z.lor_0_l].
Qed.

Lemma close_variant_inv st st' :
  lq_inv H st -> alt_state (qs_state st) ->
  close_variant H st = Ok st' ->
  lq_inv H st' /\ qs_state st' = qs_state st /\ qs_curqlevel st' = qs_curqlevel st
  /\ qs_lptr st' = qs_lptr st.
Proof.
  intros Hinv Hs E. unfold close_variant in E. repeat ok_step. clear E0.
  eapply lptr_upd_inv; eauto. intros; reflexivity.
Qed.

Lemma lor_flags_all0 a :
  (forall k x, nth_error a k = Some x -> x = nodeitem0) -> lor_flags a = 0.
Proof.
  induction a as [|z a IH]; intros Hz; auto. simpl.
  rewrite (Hz O z eq_refl). simpl. apply IH.
  intros k x E. apply (Hz (S k)); auto.
Qed.

Lemma lor_flags_firstn a i :
  (forall k x, (i < k)%nat -> nth_error a k = Some x -> x = nodeitem0) ->
  lor_flags (firstn (S i) a) = lor_flags a.
Proof.
  revert i; induction a as [|z a IH]; intros i Hz; auto.
  cbn [firstn lor_flags fold_right]. f_equal. destruct i.
  - simpl. symmetry. apply lor_flags_all0.
    intros k x E. apply (Hz (S k)); auto. lia.
  - apply IH. intros k x Hk E. apply (Hz (S k)); auto. lia.
Qed.

Lemma alt_cur_wf cur lptr q : alt_cur H cur lptr q -> level_wf H q.
Proof.
  intros (i & a & neg & Hl & Hv & Hn & Hi & Hfl & Hz). right.
  exists a, neg, (S i). repeat split; auto; try lia.
  - rewrite Hn. f_equal. lia.
  - rewrite lor_flags_firstn; auto.
Qed.



Lemma lq_inv_store_next st st' q q' :
  lq_inv H st ->
  nth_error (qs_tmpql st) (qs_curqlevel st) = Some q ->
  qs_tmpql st' = replace_nth (qs_tmpql st) (qs_curqlevel st) q' ->
  qs_curqlevel st' = S (qs_curqlevel st) ->
  qs_state st' = LQPRS_WAITLEVEL ->
  level_wf H q' ->
  lq_inv H st'.
Proof.
  intros [I1 I2 I3 I4] Hq Ht Hc Hs Hwf. split; rewrite ?Ht, ?Hc.
  - intros j q0 Hj Hq0. destruct (Nat.eq_dec j (qs_curqlevel st)) as [->|Hne].
    + apply nth_error_replace_nth_inv in Hq0. subst; auto.
    + rewrite nth_error_replace_nth_neq in Hq0 by lia. apply (I1 j); auto. lia.
  - intros q0. rewrite nth_error_replace_nth_neq by lia. intros Hq0.
    unfold cur_ok. rewrite Hs. apply (I3 (S (qs_curqlevel st))); auto.
  - intros j q0 Hj. rewrite nth_error_replace_nth_neq by lia. apply I3. lia.
  - unfold cur_present. rewrite Hs. exact I.
Qed.

Lemma quant_cur_wf q : quant_cur q -> level_wf H q.
Proof. intros (Hn & _). left; auto. Qed.

Lemma level0_wf : level_wf H tmp_level0.
Proof. left; reflexivity. Qed.

Ltac inv_same Hinv Hs :=
  eapply lq_inv_same;
  [ exact Hinv | reflexivity | reflexivity
  | unfold cur_ok; simpl_st; rewrite ?Hs; simpl_st
  | unfold cur_present; simpl_st; rewrite ?Hs; simpl_st;
    try exact I;
    try (let P := fresh in pose proof (inv_present _ _ Hinv) as P;
         unfold cur_present in P; rewrite Hs in P; exact P) ].

Lemma lquery_in_dispatch_inv buf numOR st st1 :
  lq_inv H st -> lquery_in_dispatch H buf numOR st = Ok st1 -> lq_inv H st1.
Proof.
  intros Hinv E. unfold lquery_in_dispatch in E. cbv zeta in E.
  destruct (qs_state st) eqn:Hs.
  - (* WAITLEVEL *)
    assert (lq_inv H (qs_set_escaped_count 0 st)) as Hinv0.
    { inv_same Hinv Hs; auto. }
    repeat ok_step.
    + eapply open_variant_inv in E0 as [Hi1 Hs1]; eauto.
      eapply cur_upd_not_inv in E1 as [Hi2 Hs2]; [| exact Hi1 | rewrite Hs1; left; reflexivity].
      inv_same Hi2 Hs2; auto.
    + inv_same Hinv Hs; auto.
    + eapply open_variant_inv in E as [? _]; eauto.
    + eapply open_variant_inv in E as [? _]; eauto.
    + eapply open_variant_inv in E as [? _]; eauto.
  - (* WAITDELIM *)
    assert (alt_state (qs_state st)) as Ha by (rewrite Hs; left; reflexivity).
    repeat ok_step.
    + eapply set_modifier_inv; eauto.
    + eapply set_modifier_inv; eauto.
    + eapply set_modifier_inv; eauto.
    + eapply close_variant_inv in E0 as (Hi1 & Hs1 & Hc1 & Hl1); eauto.
      rewrite Hs in Hs1. inv_same Hi1 Hs1; auto.
    + eapply close_variant_inv in E0 as (Hi1 & Hs1 & Hc1 & Hl1); eauto.
      rewrite Hs in Hs1.
      eapply lq_inv_next; [exact Hi1 | reflexivity | reflexivity | reflexivity | ].
      intros q Hq. eapply alt_cur_wf. apply cur_ok_alt; [rewrite Hs1; left; reflexivity|].
      apply (inv_cur _ _ Hi1); auto.
    + inv_same Hinv Hs; auto.
    + exact Hinv.
  - (* WAITOPEN *)
    repeat ok_step.
    + inv_same Hinv Hs; auto.
    + repeat prim_step. norm.
      pose proof (inv_cur _ _ Hinv _ Hq0) as Hc. unfold cur_ok in Hc. rewrite Hs in Hc. subst.
      eapply lq_inv_store_next with (st := st); simpl_st; eauto.
      left; reflexivity.
  - (* WAITFNUM *)
    repeat ok_step.
    + inv_same Hinv Hs; auto. intros q _ ->. repeat split; reflexivity.
    + prim_step.
      pose proof (inv_cur _ _ Hinv _ Hq) as Hc. unfold cur_ok in Hc. rewrite Hs in Hc. subst.
      eapply lq_inv_store with (st := st); simpl_st; eauto.
      unfold cur_ok; simpl_st. repeat split; reflexivity.
  - (* WAITSNUM *)
    repeat ok_step.
    + prim_step.
      pose proof (inv_cur _ _ Hinv _ Hq) as Hc. unfold cur_ok in Hc. rewrite Hs in Hc.
      eapply lq_inv_store with (st := st); simpl_st; eauto.
      unfold cur_ok; simpl_st. destruct Hc as ((? & ? & ?) & ?). repeat split; auto.
    + prim_step.
      pose proof (inv_cur _ _ Hinv _ Hq) as Hc. unfold cur_ok in Hc. rewrite Hs in Hc.
      eapply lq_inv_store with (st := st); simpl_st; eauto.
      unfold cur_ok; simpl_st. destruct Hc as ((? & ? & ?) & ?). repeat split; auto.
  - (* WAITND *)
    repeat ok_step.
    + prim_step.
      pose proof (inv_cur _ _ Hinv _ Hq) as Hc. unfold cur_ok in Hc. rewrite Hs in Hc.
      eapply lq_inv_store with (st := st); simpl_st; eauto.
      unfold cur_ok; simpl_st. destruct Hc as ((? & ? & ?) & ?). repeat split; auto.
    + inv_same Hinv Hs; auto.
    + exact Hinv.
  - (* WAITCLOSE *)
    repeat ok_step.
    + inv_same Hinv Hs; auto.
    + exact Hinv.
  - (* WAITEND *)
    repeat ok_step.
    eapply lq_inv_next; [exact Hinv | reflexivity | reflexivity | reflexivity | ].
    intros q Hq. apply quant_cur_wf.
    pose proof (inv_cur _ _ Hinv _ Hq) as Hc. unfold cur_ok in Hc. rewrite Hs in Hc. exact Hc.
  - (* WAITVAR *)
    assert (alt_state (qs_state st)) as Ha by (rewrite Hs; right; right; reflexivity).
    destruct (inv_alt_cur _ Hinv Ha) as (q & Hq & Halt).
    destruct Halt as (i0 & a0 & neg & Hl0 & Hv0 & Hn & Hi & Hfl & Hz).
    repeat ok_step. repeat prim_step. unfold lptr_next in *. norm.
    rewrite Hl0 in *. norm.
    assert (x = nodeitem0) by (apply (Hz (S i0)); auto). subst x.
    eapply lq_inv_store with (st := st) (q := q);
      [exact Hinv | eassumption | simpl_st; reflexivity | reflexivity | ].
    apply alt_cur_ok; simpl_st.
    { destruct (t_iseq _ "\"); [right; left | left]; reflexivity. }
    exists (S i0), (replace_nth a0 (S i0) (set_start (qs_ptr st) nodeitem0)), neg.
    simpl_st. repeat split; auto.
    + rewrite Hn, uint16_succ. f_equal. lia.
    + rewrite length_replace_nth. apply nth_error_Some. congruence.
    + rewrite (lor_flags_replace_same _ _ _ _ Hx); auto.
    + intros k y Hk. rewrite nth_error_replace_nth_neq by lia. apply Hz; lia.
  - (* WAITESCAPED *)
    repeat ok_step. inv_same Hinv Hs; auto.
Qed.


(** *** Errors and positions of a turn *)


Lemma set_modifier_Raise bit st e :
  set_modifier bit st = Raise e -> e = SyntaxErrorAt (qs_pos st).
Proof.
  unfold set_modifier. intros E. repeat raise_step; auto; no_raise.
Qed.

Lemma close_variant_Raise st e :
  close_variant H st = Raise e -> exists w, e = NameTooLong w (qs_pos st).
Proof.
  unfold close_variant. intros E. repeat raise_step; try no_raise.
  apply lptr_upd_Ok in E1. destruct E1 as (? & ? & ? & ? & ? & ? & ? & ? & ? & ->).
  simpl. eauto.
Qed.

Lemma lquery_in_dispatch_Raise buf numOR st e :
  lquery_in_dispatch H buf numOR st = Raise e -> positional (qs_pos st) e.
Proof.
  unfold lquery_in_dispatch, positional. intros E. cbv zeta in E.
  destruct (qs_state st);
    repeat raise_step; auto; try no_raise;
    try (apply set_modifier_Raise in E; auto);
    try (apply close_variant_Raise in E; auto).
Qed.

Lemma lquery_in_step_Raise buf numOR st e :
  lquery_in_step H buf numOR st = Raise e -> positional (qs_pos st) e.
Proof.
  unfold lquery_in_step. intros E. cbv zeta in E. repeat raise_step.
  - eapply lquery_in_dispatch_Raise; eauto.
  - destruct (qs_state _); try discriminate. no_raise.
Qed.



Lemma set_modifier_ptr bit st st' :
  set_modifier bit st = Ok st' -> qs_ptr st' = qs_ptr st /\ qs_pos st' = qs_pos st.
Proof.
  unfold set_modifier. intros E. repeat ok_step. repeat prim_step. norm. auto.
Qed.

Lemma close_variant_ptr st st' :
  close_variant H st = Ok st' -> qs_ptr st' = qs_ptr st /\ qs_pos st' = qs_pos st.
Proof.
  unfold close_variant. intros E. repeat ok_step. repeat prim_step. norm. auto.
Qed.

Lemma open_variant_ptr numOR start s' st st' :
  open_variant numOR start s' st = Ok st' -> qs_ptr st' = qs_ptr st /\ qs_pos st' = qs_pos st.
Proof.
  intros E. apply open_variant_Ok in E as (? & ? & ? & ? & ->). auto.
Qed.

Lemma lquery_in_dispatch_ptr buf numOR st st' :
  lquery_in_dispatch H buf numOR st = Ok st' ->
  qs_ptr st' = qs_ptr st /\ qs_pos st' = qs_pos st.
Proof.
  unfold lquery_in_dispatch. intros E. cbv zeta in E.
  destruct (qs_state st); repeat ok_step;
    try (apply set_modifier_ptr in E; exact E);
    try (apply close_variant_ptr in E0; destruct E0; simpl_st; auto);
    try (apply open_variant_ptr in E; exact E);
    try (apply open_variant_ptr in E0; destruct E0);
    repeat prim_step; unfold lptr_next in *; norm; auto.
Qed.

Lemma lquery_in_step_ptr buf numOR st st' :
  lquery_in_step H buf numOR st = Ok st' ->
  qs_ptr st' = (qs_ptr st + pg_mblen H (skipn (qs_ptr st) buf))%nat /\
  qs_pos st' = qs_pos st + 1.
Proof.
  unfold lquery_in_step. intros E. cbv zeta in E. repeat ok_step.
  apply lquery_in_dispatch_ptr in E0 as [Hp Hq].
  destruct (qs_state _) eqn:Hs in E1; repeat ok_step; repeat prim_step; norm;
    rewrite Hp, Hq; auto.
Qed.

Lemma lquery_in_step_inv buf numOR st st' :
  lq_inv H st -> lquery_in_step H buf numOR st = Ok st' -> lq_inv H st'.
Proof.
  unfold lquery_in_step. intros Hinv E. cbv zeta in E. repeat ok_step.
  apply lquery_in_dispatch_inv in E0; auto.
  assert (lq_inv H (qs_set_ptr (qs_ptr s + pg_mblen H (skipn (qs_ptr st) buf)) s)) as Hinv1.
  { destruct E0 as [I1 I2 I3 I4]. split; auto. }
  assert (lq_inv H s0) as Hinv2.
  { destruct (qs_state _) eqn:Hs in E1; repeat ok_step; auto.
    eapply lptr_upd_inv in E1 as [? _]; eauto.
    left. exact Hs. }
  destruct Hinv2 as [I1 I2 I3 I4]. split; auto.
Qed.

Lemma lquery_in_loop_ind (P : lquery_in_state -> Prop) buf numOR :
  (forall st st', P st -> (qs_ptr st < List.length buf)%nat ->
     deref (skipn (qs_ptr st) buf) <> NUL ->
     lquery_in_step H buf numOR st = Ok st' ->
     (qs_ptr st' <= List.length buf)%nat -> P st') ->
  forall fuel st, P st ->
  match lquery_in_loop H fuel buf numOR st with
  | Ok st' => P st' /\ at_end_q buf st'
  | Raise e => exists st', P st' /\ (qs_ptr st' < List.length buf)%nat /\
                 lquery_in_step H buf numOR st' = Raise e
  | _ => True
  end.
Proof.
  intros Hstep. induction fuel as [|fuel IH]; intros st HP; simpl; auto.
  destruct (List.length buf <? qs_ptr st)%nat eqn:Hlen; auto.
  apply Nat.ltb_ge in Hlen.
  destruct (Ascii.eqb (deref (skipn (qs_ptr st) buf)) NUL) eqn:Hnul.
  { split; auto. split; auto. apply Ascii.eqb_eq; auto. }
  assert (qs_ptr st < List.length buf)%nat as Hlt.
  { destruct (Nat.eq_dec (qs_ptr st) (List.length buf)) as [Heq|]; [|lia].
    rewrite Heq, skipn_all in Hnul. discriminate. }
  destruct (lquery_in_step H buf numOR st) as [st'| e | u |] eqn:Hst; simpl; auto.
  - specialize (IH st').
    destruct (le_lt_dec (qs_ptr st') (List.length buf)) as [Hle|Hgt].
    + apply IH. eapply Hstep; eauto.
      intros Hn. rewrite Hn in Hnul. discriminate.
    + destruct fuel; simpl; auto.
      apply Nat.ltb_lt in Hgt. rewrite Hgt. auto.
  - exists st. auto.
Qed.


(** *** The levels after the parser, the sizing loop and the fill loop *)


Lemma lq_inv_wf st j q :
  lq_inv H st -> nth_error (qs_tmpql st) j = Some q -> level_wf H q.
Proof.
  intros Hinv Hq.
  destruct (lt_eq_lt_dec j (qs_curqlevel st)) as [[Hlt | ->] | Hgt].
  - eapply inv_done; eauto.
  - pose proof (inv_cur _ _ Hinv _ Hq) as Hc. unfold cur_ok in Hc.
    destruct (qs_state st); subst;
      try (left; reflexivity);
      try (eapply alt_cur_wf; eassumption);
      try (apply quant_cur_wf; tauto).
  - rewrite (inv_fresh _ _ Hinv j q); auto. left; reflexivity.
Qed.

Lemma lquery_in_loop_inv fuel buf numOR st st' :
  lq_inv H st -> lquery_in_loop H fuel buf numOR st = Ok st' -> lq_inv H st'.
Proof.
  intros Hinv E.
  pose proof (lquery_in_loop_ind (lq_inv H) buf numOR) as IH.
  specialize (IH (fun s s' Hs _ _ Hst _ => lquery_in_step_inv buf numOR s s' Hs Hst) fuel st Hinv).
  rewrite E in IH. tauto.
Qed.

Lemma lquery_in_finish_wf st st' j q :
  lq_inv H st -> lquery_in_finish H st = Ok st' ->
  nth_error (qs_tmpql st') j = Some q -> level_wf H q.
Proof.
  intros Hinv E. unfold lquery_in_finish in E.
  destruct (qs_state st) eqn:Hs; try discriminate.
  - apply bind_Ok in E as (it & E0 & E).
    destruct (ni_start it =? qs_ptr st)%nat; [discriminate|]. cbv zeta in E.
    apply bind_Ok in E as (s & E1 & E).
    assert (s = st') as ->.
    { destruct (_ =? 0); [discriminate|]. destruct (255 <? _); [discriminate|].
      inversion E; auto. }
    assert (lq_inv H st') as Hi.
    { eapply (lptr_upd_inv _ st st') in E1 as [Hi _]; auto. left; auto. }
    apply lq_inv_wf; auto.
  - prim_step. norm. intros Hj.
    destruct (Nat.eq_dec j (qs_curqlevel st)) as [->|Hne].
    + apply nth_error_replace_nth_inv in Hj. subst. left.
      pose proof (inv_cur _ _ Hinv _ Hq) as Hc. unfold cur_ok in Hc. rewrite Hs in Hc.
      subst. reflexivity.
    + rewrite nth_error_replace_nth_neq in Hj by auto. eapply lq_inv_wf; eauto.
  - inversion E; subst. apply lq_inv_wf; auto.
Qed.

Lemma lquery_in_scan_wf buf levels st :
  lquery_in_scan H buf = Ok (levels, st) -> Forall (level_wf H) (qs_tmpql st).
Proof.
  unfold lquery_in_scan. intros E. repeat ok_step. destruct s as [lv numOR].
  repeat ok_step.
  apply lquery_in_loop_inv in E1; [|apply lq_inv_init].
  apply Forall_forall. intros q Hq. apply In_nth_error in Hq as [j Hj].
  eapply lquery_in_finish_wf; eauto.
Qed.


(** *** The arrays of the levels keep the size of their allocation *)












Lemma variants_of_wf q :
  level_wf H q -> tq_numvar q <> 0 ->
  exists a neg n, tq_var q = Some a /\
    (1 <= n <= List.length a)%nat /\ tq_numvar q = uint16 (Z.of_nat n) /\
    tq_flag q = Z.lor (lor_flags (firstn n a)) (negbit H neg) /\
    variants_of q = Ok (firstn (Z.to_nat (tq_numvar q)) a).
Proof.
  intros [Hz | (a & neg & n & Hv & Hn & Hnv & Hf)] Hnz; [contradiction|].
  exists a, neg, n. repeat split; auto; try lia.
  unfold variants_of. rewrite Hv.
  pose proof (uint16_le (Z.of_nat n) ltac:(lia)).
  destruct (Z.ltb_spec (Z.of_nat (List.length a)) (tq_numvar q)); auto. lia.
Qed.




Lemma count_loop_not_Raise fuel b ptr esc levels ORs e :
  count_loop H fuel b ptr esc levels ORs <> Raise e.
Proof.
  revert ptr esc levels ORs. induction fuel as [|fuel IH]; intros; simpl; try discriminate.
  destruct ptr as [|c ptr]; try discriminate.
  repeat match goal with
         | |- (if ?b then _ else _) <> _ => destruct b
         end; try discriminate; apply IH.
Qed.

Lemma count_lquery_parts_ors_not_Raise ptr b e :
  count_lquery_parts_ors H ptr b <> Raise e.
Proof.
  unfold count_lquery_parts_ors. intros E. repeat raise_step.
  eapply count_loop_not_Raise; eauto.
Qed.

Lemma lquery_in_finish_Raise st e :
  lquery_in_finish H st = Raise e ->
  e = UnexpectedEnd \/ exists w, e = NameTooLong w (qs_pos st).
Proof.
  unfold lquery_in_finish. intros E.
  destruct (qs_state st); repeat raise_step; auto; try no_raise.
  apply lptr_upd_Ok in E1 as (? & ? & ? & ? & ? & ? & ? & ? & ? & ->). simpl. eauto.
Qed.



Lemma lquery_in_fill_variants_flags buf items totallen vs t :
  lquery_in_fill_variants H buf items totallen = Ok (vs, t) ->
  map lvar_flag vs = map ni_flag items.
Proof.
  revert totallen vs t. induction items as [|it items IH]; intros totallen vs t E; simpl in E.
  - inversion E; auto.
  - repeat ok_step. destruct s0 as [vs' t']. inversion E; subst.
    simpl. f_equal. eapply IH; eauto.
Qed.

Lemma lor_flags_0 a : lor_flags a = 0 <-> Forall (fun f => f = 0) (map ni_flag a).
Proof.
  induction a as [|x a IH]; simpl.
  - split; auto.
  - rewrite Z.lor_eq_0_iff, IH. split.
    + intros [? ?]; constructor; auto.
    + intros F; inversion F; auto.
Qed.

Lemma forallb_flags vs :
  forallb (fun v => lvar_flag v =? 0) vs = true <->
  Forall (fun f => f = 0) (map lvar_flag vs).
Proof.
  induction vs as [|v vs IH]; simpl.
  - split; auto.
  - rewrite andb_true_iff, IH, Z.eqb_eq. split.
    + intros [? ?]; constructor; auto.
    + intros F; inversion F; auto.
Qed.

Lemma plain_level_bad (Hnot : LQL_NOT H <> 0) q items vs totallen :
  tq_numvar q <> 0 ->
  List.length vs = Z.to_nat (tq_numvar q) -> 1 <= tq_numvar q ->
  map lvar_flag vs = map ni_flag items ->
  (exists neg, tq_flag q = Z.lor (lor_flags items) (negbit H neg)) ->
  plain_level H {| lql_totallen := totallen; lql_flag := tq_flag q;
                   lql_numvar := tq_numvar q; lql_low := tq_low q;
                   lql_high := tq_high q; lql_variants := vs |}
  = negb ((1 <? tq_numvar q) || negb (tq_flag q =? 0)).
Proof.
  intros Hnz Hlen Hn Hfl (neg & Hflag).
  unfold plain_level. cbn [lql_numvar lql_variants lql_flag].
  destruct (Z.eqb_spec (tq_numvar q) 0) as [|_]; [contradiction|]. cbn [negb andb].
  rewrite Hlen.
  destruct (Z.ltb_spec 1 (tq_numvar q)) as [Hgt|Hle]; cbn [orb negb].
  - destruct (Nat.eqb_spec (Z.to_nat (tq_numvar q)) 1); auto. lia.
  - replace (Z.to_nat (tq_numvar q)) with 1%nat by lia. cbn [Nat.eqb andb].
    destruct (Z.eqb_spec (tq_flag q) 0) as [Hz|Hnz0]; cbn [negb].
    + rewrite Hz. rewrite Z.land_0_l. cbn. rewrite andb_true_r.
      apply forallb_flags. rewrite Hfl. apply lor_flags_0.
      rewrite Hz in Hflag. symmetry in Hflag. apply Z.lor_eq_0_iff in Hflag. tauto.
    + apply andb_false_iff.
      destruct (forallb (fun v => lvar_flag v =? 0) vs) eqn:Hall; auto. right.
      apply forallb_flags in Hall. rewrite Hfl in Hall. apply lor_flags_0 in Hall.
      rewrite Hall, Z.lor_0_l in Hflag. destruct neg; simpl in Hflag; [|contradiction].
      rewrite Hflag, Z.land_diag. apply Z.eqb_neq; auto.
Qed.

Lemma lquery_in_fill_variants_length buf items totallen vs t :
  lquery_in_fill_variants H buf items totallen = Ok (vs, t) ->
  List.length vs = List.length items.
Proof.
  intros E. apply lquery_in_fill_variants_flags in E.
  rewrite <- (length_map lvar_flag), E, length_map. reflexivity.
Qed.


Lemma variants_of_exact q :
  level_exact H q -> tq_numvar q <> 0 ->
  exists a neg, tq_var q = Some a /\
    1 <= tq_numvar q <= Z.of_nat (List.length a) /\
    tq_flag q = Z.lor (lor_flags (firstn (Z.to_nat (tq_numvar q)) a)) (negbit H neg) /\
    variants_of q = Ok (firstn (Z.to_nat (tq_numvar q)) a).
Proof.
  intros [Hz | (a & neg & Hv & Hn & Hf)] Hnz; [contradiction|].
  exists a, neg. repeat split; auto; try lia.
  unfold variants_of. rewrite Hv.
  destruct (Z.ltb_spec (Z.of_nat (List.length a)) (tq_numvar q)); auto. lia.
Qed.

(** [firstgood] counts the plain levels in front, in its 16 bits. *)
Lemma lquery_in_fill_firstgood (Hnot : LQL_NOT H <> 0) buf levels :
  Forall (level_exact H) levels ->
  forall cur wasbad firstgood lqlevels firstgood' last,
  lquery_in_fill H buf levels cur wasbad (uint16 firstgood)
  = Ok (lqlevels, firstgood', last) ->
  firstgood' = uint16 (firstgood + (if wasbad then 0 else plain_prefix H lqlevels)) /\
  0 <= plain_prefix H lqlevels <= Z.of_nat (List.length levels).
Proof.
  intros Hwf. induction Hwf as [|q levels Hq Hwf IH];
    intros cur wasbad fg ls fg' last E; cbn [lquery_in_fill] in E.
  - inversion E; subst. cbn [plain_prefix List.length].
    destruct wasbad; rewrite Z.add_0_r; split; try reflexivity; lia.
  - cbn [List.length].
    destruct (Z.eqb_spec (tq_numvar q) 0) as [Hz|Hnz]; cbn [negb] in E.
    + repeat ok_step. destruct s as [[ls' fg1] e1]. inversion E; subst.
      apply IH in E0. destruct E0 as [-> Hp].
      cbn [plain_prefix]. unfold plain_level at 1 2 3. cbn [lql_numvar]. rewrite Hz.
      cbn [Z.eqb negb andb].
      destruct wasbad; rewrite ?Z.add_0_r; split; try reflexivity; lia.
    + destruct (variants_of_exact q Hq Hnz) as (a & neg & Hv & Hn & Hfl & Hvo).
      rewrite Hvo in E. cbn [bind] in E.
      repeat ok_step. destruct s as [vs t]. repeat ok_step.
      destruct s as [[ls' fg1] e1]. inversion E; subst. clear E.
      pose proof (lquery_in_fill_variants_flags _ _ _ _ _ E0) as Hflags.
      pose proof (lquery_in_fill_variants_length _ _ _ _ _ E0) as Hlv.
      rewrite length_firstn in Hlv.
      cbn [plain_prefix lql_numvar lql_flag] in *.
      rewrite (plain_level_bad Hnot q (firstn (Z.to_nat (tq_numvar q)) a) vs t); auto; try lia.
      2:{ exists neg; auto. }
      destruct ((1 <? tq_numvar q) || negb (tq_flag q =? 0)); cbn [negb orb] in *.
      * rewrite orb_true_r in E1. apply IH in E1. destruct E1 as [-> Hp].
        rewrite Z.add_0_r. destruct wasbad; rewrite ?Z.add_0_r; split; try reflexivity; lia.
      * rewrite orb_false_r in E1. destruct wasbad.
        -- apply IH in E1. destruct E1 as [-> Hp]. split; [reflexivity | lia].
        -- rewrite uint16_succ in E1.
           apply IH in E1. destruct E1 as [-> Hp]. split; [f_equal; lia | lia].
Qed.

End LqueryInvariant.



(** ** The position of a syntax error *)

Ltac simpl_lt :=
  cbn [lt_ptr lt_state lt_list lt_lptr lt_totallen lt_pos lt_escaped_count
       lt_set_ptr lt_set_state lt_set_list lt_set_lptr lt_set_totallen lt_set_pos
       lt_set_escaped_count
       ni_start ni_len ni_flag ni_wlen set_start set_len set_flag set_wlen] in *.

Section Positions.

Variable H : host.
Hypothesis Hok : host_ok H.

Lemma firstn_plus {A} (l : list A) n m :
  firstn (n + m) l = firstn n l ++ firstn m (skipn n l).
Proof.
  revert l; induction n as [|n IH]; intros [|x l]; simpl; auto.
  - rewrite firstn_nil. reflexivity.
  - f_equal. apply IH.
Qed.

Lemma mbchars_snoc s n c :
  mbchars H s n -> c <> [] -> List.length c = pg_mblen H c -> mbchars H (s ++ c) (S n).
Proof.
  induction 1 as [|c0 s n Hc0 Hl0 Hs IH]; intros Hc Hl.
  - simpl. rewrite <- (app_nil_r c). constructor; auto. constructor.
  - rewrite <- app_assoc. constructor; auto.
Qed.

(** The character at [ptr], when it lies within the text. *)
Lemma mbchars_next buf ptr n :
  mbchars H (firstn ptr buf) n -> (ptr < List.length buf)%nat ->
  (ptr + pg_mblen H (skipn ptr buf) <= List.length buf)%nat ->
  mbchars H (firstn (ptr + pg_mblen H (skipn ptr buf)) buf) (S n).
Proof.
  intros Hm Hlt Hle. rewrite firstn_plus.
  destruct (skipn ptr buf) as [|x l] eqn:Hsk.
  { apply skipn_all_iff in Hsk. lia. }
  assert (List.length (x :: l) = List.length buf - ptr)%nat as Hlen.
  { rewrite <- Hsk. apply length_skipn. }
  unfold pg_mblen, deref in *. cbn [hd] in *.
  pose proof (mblen_pos H Hok x) as Hpos.
  destruct (mblen H x) as [|k] eqn:Hk; [lia|].
  apply mbchars_snoc; auto.
  - cbn. discriminate.
  - rewrite length_firstn. cbn [firstn hd]. unfold pg_mblen, deref. cbn [hd].
    rewrite Hk. lia.
Qed.

(** *** lquery_in *)

Lemma lquery_in_turns_snoc buf numOR n st0 st st' :
  lquery_in_turns H n buf numOR st0 = Ok st ->
  (qs_ptr st <= List.length buf)%nat ->
  deref (skipn (qs_ptr st) buf) <> NUL ->
  lquery_in_step H buf numOR st = Ok st' ->
  lquery_in_turns H (S n) buf numOR st0 = Ok st'.
Proof.
  revert st0. induction n as [|n IH]; intros st0 E Hle Hnn Hst.
  - simpl in E. inversion E; subst. simpl.
    destruct (Nat.ltb_spec (List.length buf) (qs_ptr st)); [lia|].
    destruct (Ascii.eqb_spec (deref (skipn (qs_ptr st) buf)) NUL); [contradiction|].
    rewrite Hst. reflexivity.
  - cbn [lquery_in_turns] in E. cbn [lquery_in_turns].
    destruct (List.length buf <? qs_ptr st0)%nat; [discriminate|].
    destruct (Ascii.eqb_spec (deref (skipn (qs_ptr st0) buf)) NUL) as [Hn0|Hn0].
    + inversion E; subst. contradiction.
    + destruct (lquery_in_step H buf numOR st0) as [st1| | |]; try discriminate.
      cbn [bind] in *. apply IH; auto.
Qed.

Lemma lquery_in_loop_reached buf numOR fuel st0 e :
  (qs_ptr st0 <= List.length buf)%nat ->
  mbchars H (firstn (qs_ptr st0) buf) O ->
  lquery_in_loop H fuel buf numOR st0 = Raise e ->
  exists st, reached_q H buf numOR st0 st /\ (qs_ptr st < List.length buf)%nat /\
    lquery_in_step H buf numOR st = Raise e.
Proof.
  intros Hp0 Hm0 E.
  pose proof (lquery_in_loop_ind H (fun st => reached_q H buf numOR st0 st /\
      (qs_ptr st <= List.length buf)%nat) buf numOR) as IH.
  match type of IH with ?A -> _ => assert A as Hstep end.
  { intros st st' [(n & Ht & Hm & Hpos) Hle] Hlt Hn0 Hst Hle'.
    split; auto.
    destruct (lquery_in_step_ptr H _ _ _ _ Hst) as [Hp Hq].
    exists (S n). split; [eapply lquery_in_turns_snoc; eauto|].
    split.
    + rewrite Hp. apply mbchars_next; auto. lia.
    + rewrite Hq, Hpos. lia. }
  specialize (IH Hstep fuel st0).
  rewrite E in IH. destruct IH as (st & [Hr _] & Hlt & Hst).
  - split; auto. exists O. simpl. repeat split; auto. lia.
  - eauto.
Qed.

(** *** ltree_in *)

Lemma ltree_in_dispatch_Raise buf st e :
  ltree_in_dispatch H buf st = Raise e -> positional (lt_pos st) e.
Proof.
  unfold ltree_in_dispatch, positional. intros E. cbv zeta in E.
  destruct (lt_state st); repeat raise_step; auto;
    try (exfalso; eapply aupd_not_Raise; eauto; fail);
    try (exfalso; eapply aget_not_Raise; eauto; fail).
  right. eauto.
Qed.

Lemma ltree_in_step_Raise buf st e :
  ltree_in_step H buf st = Raise e -> positional (lt_pos st) e.
Proof.
  unfold ltree_in_step. intros E. cbv zeta in E. repeat raise_step.
  - eapply ltree_in_dispatch_Raise; eauto.
  - destruct (lt_state _); try discriminate. repeat raise_step.
    exfalso; eapply aupd_not_Raise; eauto.
Qed.

Lemma ltree_in_dispatch_ptr buf st st' :
  ltree_in_dispatch H buf st = Ok st' ->
  lt_ptr st' = lt_ptr st /\ lt_pos st' = lt_pos st.
Proof.
  unfold ltree_in_dispatch. intros E. cbv zeta in E.
  destruct (lt_state st); repeat ok_step; simpl_lt; auto.
Qed.

Lemma ltree_in_step_ptr buf st st' :
  ltree_in_step H buf st = Ok st' ->
  lt_ptr st' = (lt_ptr st + pg_mblen H (skipn (lt_ptr st) buf))%nat /\
  lt_pos st' = lt_pos st + 1.
Proof.
  unfold ltree_in_step. intros E. cbv zeta in E. repeat ok_step.
  apply ltree_in_dispatch_ptr in E0 as [Hp Hq].
  destruct (lt_state _) eqn:Hs in E1; repeat ok_step; simpl_lt;
    rewrite Hp, Hq; auto.
Qed.

Lemma ltree_in_loop_ind (P : ltree_in_state -> Prop) buf :
  (forall st st', P st -> (lt_ptr st < List.length buf)%nat ->
     deref (skipn (lt_ptr st) buf) <> NUL ->
     ltree_in_step H buf st = Ok st' ->
     (lt_ptr st' <= List.length buf)%nat -> P st') ->
  forall fuel st, P st ->
  match ltree_in_loop H fuel buf st with
  | Ok st' => P st' /\ at_end_t buf st'
  | Raise e => exists st', P st' /\ (lt_ptr st' < List.length buf)%nat /\
                 ltree_in_step H buf st' = Raise e
  | _ => True
  end.
Proof.
  intros Hstep. induction fuel as [|fuel IH]; intros st HP; simpl; auto.
  destruct (List.length buf <? lt_ptr st)%nat eqn:Hlen; auto.
  apply Nat.ltb_ge in Hlen.
  destruct (Ascii.eqb (deref (skipn (lt_ptr st) buf)) NUL) eqn:Hnul.
  { split; auto. split; auto. apply Ascii.eqb_eq; auto. }
  assert (lt_ptr st < List.length buf)%nat as Hlt.
  { destruct (Nat.eq_dec (lt_ptr st) (List.length buf)) as [Heq|]; [|lia].
    rewrite Heq, skipn_all in Hnul. discriminate. }
  destruct (ltree_in_step H buf st) as [st'| e | u |] eqn:Hst; simpl; auto.
  - specialize (IH st').
    destruct (le_lt_dec (lt_ptr st') (List.length buf)) as [Hle|Hgt].
    + apply IH. eapply Hstep; eauto.
      intros Hn. rewrite Hn in Hnul. discriminate.
    + destruct fuel; simpl; auto.
      apply Nat.ltb_lt in Hgt. rewrite Hgt. auto.
  - exists st. auto.
Qed.

Lemma ltree_in_turns_snoc buf n st0 st st' :
  ltree_in_turns H n buf st0 = Ok st ->
  (lt_ptr st <= List.length buf)%nat ->
  deref (skipn (lt_ptr st) buf) <> NUL ->
  ltree_in_step H buf st = Ok st' ->
  ltree_in_turns H (S n) buf st0 = Ok st'.
Proof.
  revert st0. induction n as [|n IH]; intros st0 E Hle Hnn Hst.
  - simpl in E. inversion E; subst. simpl.
    destruct (Nat.ltb_spec (List.length buf) (lt_ptr st)); [lia|].
    destruct (Ascii.eqb_spec (deref (skipn (lt_ptr st) buf)) NUL); [contradiction|].
    rewrite Hst. reflexivity.
  - cbn [ltree_in_turns] in E. cbn [ltree_in_turns].
    destruct (List.length buf <? lt_ptr st0)%nat; [discriminate|].
    destruct (Ascii.eqb_spec (deref (skipn (lt_ptr st0) buf)) NUL) as [Hn0|Hn0].
    + inversion E; subst. contradiction.
    + destruct (ltree_in_step H buf st0) as [st1| | |]; try discriminate.
      cbn [bind] in *. apply IH; auto.
Qed.

Lemma ltree_in_loop_reached buf fuel st0 e :
  (lt_ptr st0 <= List.length buf)%nat ->
  mbchars H (firstn (lt_ptr st0) buf) O ->
  ltree_in_loop H fuel buf st0 = Raise e ->
  exists st, reached_t H buf st0 st /\ (lt_ptr st < List.length buf)%nat /\
    ltree_in_step H buf st = Raise e.
Proof.
  intros Hp0 Hm0 E.
  pose proof (ltree_in_loop_ind (fun st => reached_t H buf st0 st /\
      (lt_ptr st <= List.length buf)%nat) buf) as IH.
  match type of IH with ?A -> _ => assert A as Hstep end.
  { intros st st' [(n & Ht & Hm & Hpos) Hle] Hlt Hn0 Hst Hle'.
    split; auto.
    destruct (ltree_in_step_ptr _ _ _ Hst) as [Hp Hq].
    exists (S n). split; [eapply ltree_in_turns_snoc; eauto|].
    split.
    + rewrite Hp. apply mbchars_next; auto. lia.
    + rewrite Hq, Hpos. lia. }
  specialize (IH Hstep fuel st0).
  rewrite E in IH. destruct IH as (st & [Hr _] & Hlt & Hst).
  - split; auto. exists O. simpl. repeat split; auto. lia.
  - eauto.
Qed.



(** *** The errors of the other parts *)

Lemma copy_unescaped_loop_Raise fuel src max_len copied escaping dst e :
  copy_unescaped_loop H fuel src max_len copied escaping dst = Raise e ->
  exists msg, e = InternalError msg.
Proof.
  revert src copied escaping dst. induction fuel as [|fuel IH]; intros; simpl in *;
    try discriminate.
  repeat raise_step; eauto.
Qed.

Lemma copy_unescaped_Raise src max_len e :
  copy_unescaped H src max_len = Raise e -> exists msg, e = InternalError msg.
Proof. apply copy_unescaped_loop_Raise. Qed.

Lemma ltree_in_fill_Raise buf items curlevel e :
  ltree_in_fill H buf items curlevel = Raise e -> exists msg, e = InternalError msg.
Proof.
  revert curlevel. induction items as [|it items IH]; intros curlevel E; simpl in E;
    try discriminate.
  repeat raise_step; eauto.
  eapply copy_unescaped_Raise; eauto.
Qed.

Lemma ltree_in_finish_Raise st e :
  ltree_in_finish H st = Raise e ->
  e = UnexpectedEnd \/ exists w, e = NameTooLong w (lt_pos st).
Proof.
  unfold ltree_in_finish. intros E.
  destruct (lt_state st); repeat raise_step; auto;
    try (exfalso; eapply aupd_not_Raise; eauto; fail);
    try (exfalso; eapply aget_not_Raise; eauto; fail).
  eauto.
Qed.

Lemma lquery_in_fill_variants_Raise buf items totallen e :
  lquery_in_fill_variants H buf items totallen = Raise e ->
  exists msg, e = InternalError msg.
Proof.
  revert totallen. induction items as [|it items IH]; intros totallen E; simpl in E;
    try discriminate.
  repeat raise_step; eauto.
  eapply copy_unescaped_Raise; eauto.
Qed.

Lemma variants_of_not_Raise q e : variants_of q <> Raise e.
Proof.
  unfold variants_of. destruct (tq_var q); try discriminate.
  destruct (_ <? _); discriminate.
Qed.

Lemma lquery_in_fill_Raise buf levels cur wasbad firstgood e :
  lquery_in_fill H buf levels cur wasbad firstgood = Raise e ->
  exists msg, e = InternalError msg.
Proof.
  revert cur wasbad firstgood.
  induction levels as [|q levels IH]; intros cur wasbad firstgood E; simpl in E;
    try discriminate.
  repeat raise_step; eauto.
  - exfalso; eapply variants_of_not_Raise; eauto.
  - eapply lquery_in_fill_variants_Raise; eauto.
Qed.

Lemma lquery_in_size_Raise levels totallen e :
  lquery_in_size H levels totallen = Raise e ->
  exists low high, e = LowGreaterThanUpper low high.
Proof.
  revert totallen.
  induction levels as [|q levels IH]; intros totallen E; simpl in E;
    try discriminate.
  repeat raise_step; eauto.
  exfalso; eapply variants_of_not_Raise; eauto.
Qed.

(** *** The theorem *)

(** C9, as the source has it: a syntax error at a character reports the
    number of characters, not of bytes, in front of that character, which is
    its index counted from 0. *)
Theorem syntax_error_position buf p :
  (ltree_in H buf = Raise (SyntaxErrorAt p) -> ltree_error_index H buf p 0) /\
  (lquery_in H buf = Raise (SyntaxErrorAt p) -> lquery_error_index H buf p 0).
Proof.
  split.
  - unfold ltree_in. intros E. repeat raise_step.
    + exfalso; eapply count_lquery_parts_ors_not_Raise; eauto.
    + apply ltree_in_loop_reached in E as (st & (n & Ht & Hm & Hpos) & Hlt & Hst).
      * exists z, n, st. repeat split; auto.
        apply ltree_in_step_Raise in Hst as Hp.
        destruct Hp as [Hp | (w & Hp)]; inversion Hp. simpl in Hpos. lia.
      * simpl; lia.
      * simpl. constructor.
    + apply ltree_in_finish_Raise in E as [E | (w & E)]; discriminate.
    + apply ltree_in_fill_Raise in E as (msg & E); discriminate.
  - unfold lquery_in, lquery_in_scan. intros E. repeat raise_step.
    + exfalso; eapply count_lquery_parts_ors_not_Raise; eauto.
    + apply lquery_in_loop_reached in E as (st & (n & Ht & Hm & Hpos) & Hlt & Hst).
      * exists z, z0, n, st. repeat split; auto.
        apply lquery_in_step_Raise in Hst as Hp.
        destruct Hp as [Hp | (w & Hp)]; inversion Hp. simpl in Hpos. lia.
      * simpl; lia.
      * simpl. constructor.
    + apply lquery_in_finish_Raise in E as [E | (w & E)]; discriminate.
    + apply lquery_in_size_Raise in E as (lo & hi & E); discriminate.
    + apply lquery_in_fill_Raise in E as (msg & E); discriminate.
Qed.

End Positions.

(** The second dot of [a..b], and the dot of [a|.]. *)
Lemma syntax_error_position_witness :
  ltree_error_index pg_host (txt "a..b") 2 0 /\
  lquery_error_index pg_host (txt "a|.") 2 0.
Proof.
  split.
  - apply (syntax_error_position pg_host pg_host_ok (txt "a..b") 2). reflexivity.
  - apply (syntax_error_position pg_host pg_host_ok (txt "a|.") 2). reflexivity.
Defined.

(** C9 as the specification states it, with positions counted from 1, fails:
    for the text of one dot the position reported is 0. *)
Lemma syntax_error_position_not_one_based :
  ~ (forall buf p, ltree_in pg_host buf = Raise (SyntaxErrorAt p) ->
       ltree_error_index pg_host buf p 1).
Proof.
  intros Hall. destruct (Hall (txt ".") 0 eq_refl) as (levels & n & st & _ & _ & _ & _ & Hp).
  lia.
Qed.

(** ** Quantifier levels *)

Lemma isdigit_ascii c : isdigit c = true -> (nat_of_ascii c < 128)%nat.
Proof.
  unfold isdigit. intros E. apply andb_true_iff in E as [_ E].
  apply Nat.leb_le in E. lia.
Qed.

Lemma isdigit_neq c d : isdigit c = true -> isdigit d = false -> Ascii.eqb c d = false.
Proof.
  intros Hc Hd. destruct (Ascii.eqb_spec c d); auto. subst. congruence.
Qed.

Lemma atoi_acc_digits ds rest acc :
  Forall (fun c => isdigit c = true) ds ->
  isdigit (deref rest) = false ->
  atoi_acc (ds ++ rest) acc
  = fold_left (fun acc c => 10 * acc + (Z.of_nat (nat_of_ascii c) - 48)) ds acc.
Proof.
  intros Hds Hr. revert acc. induction Hds as [|d ds Hd Hds IH]; intros acc;
    cbn [app fold_left atoi_acc].
  - destruct rest as [|c rest]; cbn [atoi_acc]; auto. cbn in Hr. rewrite Hr. reflexivity.
  - rewrite Hd. apply IH.
Qed.

Lemma decimal_nonneg_acc ds acc :
  Forall (fun c => isdigit c = true) ds -> 0 <= acc ->
  0 <= fold_left (fun acc c => 10 * acc + (Z.of_nat (nat_of_ascii c) - 48)) ds acc.
Proof.
  intros Hds. revert acc. induction Hds as [|d ds Hd Hds IH]; intros acc Ha;
    cbn [fold_left]; auto.
  apply IH. unfold isdigit in Hd. apply andb_true_iff in Hd as [Hd _].
  apply Nat.leb_le in Hd. lia.
Qed.

Lemma atoi_limit_read (H : host) ds rest :
  Forall (fun c => isdigit c = true) ds ->
  isdigit (deref rest) = false ->
  uint16 (atoi H (ds ++ rest)) = limit_read H ds.
Proof.
  intros Hds Hr. unfold atoi, limit_read. rewrite atoi_acc_digits; auto.
Qed.

Lemma limit_read_int (H : host) ds :
  Forall (fun c => isdigit c = true) ds -> decimal ds <= INT_MAX ->
  limit_read H ds = decimal ds mod 65536.
Proof.
  intros Hds Hle. unfold limit_read, atoi_value.
  destruct (Z.leb_spec (decimal ds) INT_MAX); [reflexivity | lia].
Qed.

Lemma limit_read_small (H : host) ds :
  Forall (fun c => isdigit c = true) ds -> decimal ds <= 65535 ->
  limit_read H ds = decimal ds.
Proof.
  intros Hds Hle. rewrite limit_read_int; auto; [|unfold INT_MAX; lia].
  apply Z.mod_small.
  pose proof (decimal_nonneg_acc ds 0 Hds). unfold decimal in *. lia.
Qed.

Lemma atoi_digits (H : host) ds rest :
  Forall (fun c => isdigit c = true) ds ->
  isdigit (deref rest) = false -> decimal ds <= 65535 ->
  uint16 (atoi H (ds ++ rest)) = decimal ds.
Proof.
  intros Hds Hr Hle. rewrite atoi_limit_read; auto. apply limit_read_small; auto.
Qed.



Ltac splits := repeat match goal with |- _ /\ _ => split end.



Section Quantifiers.

Variable H : host.
Hypothesis Hok : host_ok H.










Lemma isdigit_not_NUL c : isdigit c = true -> c <> NUL.
Proof. intros Hd ->. discriminate. Qed.




(** *** The levels in front of the current one are not written *)








(** *** From the parser to the result *)






(** *** The forms of a quantifier *)













End Quantifiers.



(** ** The round trip of label paths *)

Section RoundTrip.

Variable H : host.
Hypothesis Hok : host_ok H.

Lemma firstn_app_exact {A} (l1 l2 : list A) : firstn (List.length l1) (l1 ++ l2) = l1.
Proof.
  rewrite firstn_app, Nat.sub_diag, firstn_all. cbn. apply app_nil_r.
Qed.

Lemma skipn_app_exact {A} (l1 l2 : list A) : skipn (List.length l1) (l1 ++ l2) = l2.
Proof.
  rewrite skipn_app, Nat.sub_diag, skipn_all. reflexivity.
Qed.

Lemma wf_char_len c : wf_char H c -> (1 <= List.length c <= 4)%nat.
Proof.
  intros (Hne & Hl & Hn). rewrite Hl. unfold pg_mblen.
  pose proof (mblen_pos H Hok (deref c)). pose proof (mblen_max H Hok (deref c)). lia.
Qed.

Lemma wf_char_ascii a : a <> NUL -> (nat_of_ascii a < 128)%nat -> wf_char H [a].
Proof.
  intros Ha Hlt. unfold wf_char, pg_mblen. cbn. rewrite (mblen_ascii H Hok a Hlt).
  repeat split; auto. discriminate.
Qed.

Lemma wf_char_backslash : wf_char H ["\"].
Proof. apply wf_char_ascii; [discriminate | cbn; lia]. Qed.

Lemma wf_char_dot : wf_char H ["."].
Proof. apply wf_char_ascii; [discriminate | cbn; lia]. Qed.

(** What the code reads at the head of a character [c] followed by [rest]. *)
Lemma head_deref c rest : wf_char H c -> deref (c ++ rest) = deref c.
Proof. intros (Hne & _). destruct c; [contradiction | reflexivity]. Qed.

Lemma head_mblen c rest : wf_char H c -> pg_mblen H (c ++ rest) = List.length c.
Proof.
  intros Hc. unfold pg_mblen. rewrite head_deref by assumption.
  destruct Hc as (_ & Hl & _). symmetry. exact Hl.
Qed.

Lemma head_iseq c rest a : wf_char H c -> t_iseq (c ++ rest) a = Ascii.eqb (deref c) a.
Proof. intros Hc. unfold t_iseq. rewrite head_deref by assumption. reflexivity. Qed.

Lemma head_not_NUL c rest : wf_char H c -> Ascii.eqb (deref (c ++ rest)) NUL = false.
Proof.
  intros Hc. rewrite head_deref by assumption. destruct Hc as (_ & _ & Hn).
  apply Ascii.eqb_neq. exact Hn.
Qed.

Lemma head_fits (c rest : text) : (List.length (c ++ rest) <? List.length c)%nat = false.
Proof. apply Nat.ltb_ge. rewrite length_app. lia. Qed.

Lemma single_true c a : single c a = true -> c = [a].
Proof.
  unfold single. intros E. apply andb_prop in E as [E1 E2].
  apply Nat.eqb_eq in E1. apply Ascii.eqb_eq in E2.
  destruct c as [|x [|y c]]; try discriminate. cbn in E2. congruence.
Qed.

Lemma single_false c a : single c a = false -> c <> [a].
Proof.
  unfold single. intros E ->. cbn in E. rewrite Ascii.eqb_refl in E. discriminate.
Qed.

Lemma single_refl a : single [a] a = true.
Proof. unfold single. cbn. apply Ascii.eqb_refl. Qed.

Lemma single_neq c a : c <> [a] -> wf_char H c -> single c a = false.
Proof.
  intros Hne Hc. destruct (single c a) eqn:E; auto. apply single_true in E. contradiction.
Qed.

(** *** copy_unescaped *)

Lemma copy_unescaped_loop_end fuel src max_len copied escaping dst :
  max_len <= copied ->
  copy_unescaped_loop H (S fuel) src max_len copied escaping dst = Ok dst.
Proof.
  intros Hle. cbn [copy_unescaped_loop].
  replace (copied <? max_len) with false by (symmetry; apply Z.ltb_ge; lia).
  rewrite andb_false_r. reflexivity.
Qed.

Lemma copy_unescaped_loop_char fuel c rest max_len copied escaping dst :
  wf_char H c -> copied < max_len ->
  copy_unescaped_loop H (S fuel) (c ++ rest) max_len copied escaping dst =
  if single c "\" && negb escaping then
    copy_unescaped_loop H fuel (tl (c ++ rest)) max_len copied true dst
  else if max_len <? copied + Z.of_nat (List.length c) then
    Raise (InternalError "internal error during splitting levels")
  else
    copy_unescaped_loop H fuel rest max_len
      (uint16 (copied + Z.of_nat (List.length c))) false (dst ++ c).
Proof.
  intros Hc Hlt. cbn [copy_unescaped_loop].
  rewrite head_not_NUL by assumption.
  replace (copied <? max_len) with true by (symmetry; apply Z.ltb_lt; lia).
  cbn [negb andb]. rewrite head_mblen, head_iseq by assumption.
  fold (single c "\"). rewrite head_fits, firstn_app_exact, skipn_app_exact.
  reflexivity.
Qed.

Lemma name_of_cons u us : name_of (u :: us) = snd u ++ name_of us.
Proof. reflexivity. Qed.

Lemma render_cons u us : render (u :: us) = render_unit u ++ render us.
Proof. reflexivity. Qed.

Lemma name_of_length_le us :
  Forall (unit_ok H) us -> (List.length (name_of us) <= 4 * List.length us)%nat.
Proof.
  induction 1 as [|u us [Hu _] Hus IH]; cbn [List.length]; [cbn; lia|].
  rewrite name_of_cons, length_app. apply wf_char_len in Hu. lia.
Qed.

Lemma name_of_length_ge us :
  Forall (unit_ok H) us -> (List.length us <= List.length (name_of us))%nat.
Proof.
  induction 1 as [|u us [Hu _] Hus IH]; cbn [List.length]; [cbn; lia|].
  rewrite name_of_cons, length_app. apply wf_char_len in Hu. lia.
Qed.

Lemma render_length us :
  List.length (render us) = (List.length (name_of us) + escapes_of us)%nat.
Proof.
  induction us as [|[e c] us IH]; [reflexivity|].
  rewrite render_cons, name_of_cons, !length_app, IH. unfold escapes_of.
  destruct e; cbn; lia.
Qed.

(** [copy_unescaped] over the text of a label stores its name. *)
Lemma copy_unescaped_loop_render us : forall fuel rest max_len copied dst,
  Forall (unit_ok H) us ->
  (List.length (render us) < fuel)%nat ->
  0 <= copied -> max_len = copied + Z.of_nat (List.length (name_of us)) ->
  max_len < 65536 ->
  copy_unescaped_loop H fuel (render us ++ rest) max_len copied false dst
  = Ok (dst ++ name_of us).
Proof.
  induction us as [|[e c] us IH]; intros fuel rest max_len copied dst Hus Hfuel Hc Hmax Hlt.
  - destruct fuel; [cbn in Hfuel; lia|]. cbn in Hmax.
    rewrite copy_unescaped_loop_end by lia. cbn. rewrite app_nil_r. reflexivity.
  - apply Forall_cons_iff in Hus as [[Hwf Hplain] Hus]. cbn [fst snd] in *.
    rewrite name_of_cons, length_app in Hmax. cbn [snd] in Hmax.
    pose proof (wf_char_len c Hwf) as Hcl.
    rewrite render_cons, length_app in Hfuel.
    assert (uint16 (copied + Z.of_nat (List.length c)) = copied + Z.of_nat (List.length c)) as Hu
      by (unfold uint16; apply Z.mod_small; lia).
    rewrite render_cons, name_of_cons, <- app_assoc. cbn [snd].
    destruct e; cbn [render_unit fst snd] in *.
    + destruct fuel as [|[|fuel]]; cbn [List.length] in Hfuel; try lia.
      change (("\" :: c) ++ render us ++ rest) with (["\"] ++ c ++ render us ++ rest).
      rewrite copy_unescaped_loop_char by (auto using wf_char_backslash; lia).
      rewrite single_refl. cbn [negb andb tl app].
      rewrite copy_unescaped_loop_char by (auto; lia).
      rewrite andb_false_r.
      replace (max_len <? copied + Z.of_nat (List.length c)) with false
        by (symmetry; apply Z.ltb_ge; lia).
      rewrite Hu, IH; auto; try lia. rewrite app_assoc. reflexivity.
    + destruct (Hplain eq_refl) as [Hnb Hnd].
      destruct fuel as [|fuel]; [lia|].
      rewrite copy_unescaped_loop_char by (auto; lia).
      rewrite (single_neq c "\") by assumption. cbn [andb].
      replace (max_len <? copied + Z.of_nat (List.length c)) with false
        by (symmetry; apply Z.ltb_ge; lia).
      rewrite Hu, IH; auto; try lia. rewrite app_assoc. reflexivity.
Qed.

Lemma copy_unescaped_render us rest :
  Forall (unit_ok H) us -> (List.length us <= 255)%nat ->
  copy_unescaped H (render us ++ rest) (Z.of_nat (List.length (name_of us)))
  = Ok (name_of us).
Proof.
  intros Hus Hlen. unfold copy_unescaped.
  pose proof (name_of_length_le us Hus).
  rewrite copy_unescaped_loop_render; auto; try lia.
  rewrite length_app. lia.
Qed.

(** *** copy_escaped *)

Lemma copy_escaped_loop_end fuel src len sp room copied escapes buf :
  len <= copied ->
  copy_escaped_loop H (S fuel) src len sp room copied escapes buf = Ok (buf, escapes).
Proof.
  intros Hle. cbn [copy_escaped_loop].
  replace (copied <? len) with false by (symmetry; apply Z.ltb_ge; lia).
  rewrite andb_false_r. reflexivity.
Qed.

Lemma is_special_spec c :
  wf_char H c ->
  (List.length c =? 1)%nat && strchr ["\"; " "; "."] (deref c) = is_special c.
Proof.
  intros _. destruct c as [|x [|y c]]; reflexivity.
Qed.

Lemma copy_escaped_loop_char fuel c rest len room copied escapes buf :
  wf_char H c -> copied + Z.of_nat (List.length c) <= len ->
  copy_escaped_loop H (S fuel) (c ++ rest) len ["\"; " "; "."] room copied escapes buf =
  if room <? Z.of_nat (List.length (buf ++ render_unit (is_special c, c))) then
    Undefined OutOfBounds
  else
    copy_escaped_loop H fuel rest len ["\"; " "; "."] room
      (uint16 (copied + Z.of_nat (List.length c)))
      (if is_special c then escapes + 1 else escapes)
      (buf ++ render_unit (is_special c, c)).
Proof.
  intros Hc Hle. pose proof (wf_char_len c Hc). cbn [copy_escaped_loop].
  rewrite head_not_NUL by assumption.
  replace (copied <? len) with true by (symmetry; apply Z.ltb_lt; lia).
  cbn [negb andb]. rewrite head_mblen, head_deref by assumption.
  rewrite is_special_spec by assumption.
  replace (len <? copied + Z.of_nat (List.length c)) with false
    by (symmetry; apply Z.ltb_ge; lia).
  rewrite head_fits, firstn_app_exact, skipn_app_exact.
  unfold render_unit. cbn [fst snd].
  destruct (is_special c); cbn [andb].
  - rewrite !length_app. cbn [List.length].
    destruct (room <? Z.of_nat (List.length buf) + 1) eqn:E1.
    + apply Z.ltb_lt in E1.
      replace (room <? _) with true by (symmetry; apply Z.ltb_lt; lia). reflexivity.
    + replace (Z.of_nat (List.length buf + 1) + Z.of_nat (List.length c))
        with (Z.of_nat (List.length buf + S (List.length c))) by lia.
      clear E1. destruct (room <? _); [reflexivity|]. rewrite <- app_assoc. reflexivity.
  - rewrite length_app.
    replace (Z.of_nat (List.length buf) + Z.of_nat (List.length c))
      with (Z.of_nat (List.length buf + List.length c)) by lia.
    reflexivity.
Qed.

Lemma copy_escaped_loop_chars cs : forall fuel len room copied escapes buf,
  Forall (wf_char H) cs ->
  (List.length (List.concat cs) < fuel)%nat ->
  0 <= copied -> len = copied + Z.of_nat (List.length (List.concat cs)) ->
  len < 65536 -> Z.of_nat (List.length buf) <= room ->
  copy_escaped_loop H fuel (List.concat cs) len ["\"; " "; "."] room copied escapes buf
  = if room <? Z.of_nat (List.length (buf ++ render (canon cs))) then
      Undefined OutOfBounds
    else Ok (buf ++ render (canon cs), escapes + Z.of_nat (escapes_of (canon cs))).
Proof.
  induction cs as [|c cs IH];
    intros fuel len room copied escapes buf Hcs Hfuel Hc Hlen Hlt Hroom.
  - destruct fuel; [cbn in Hfuel; lia|]. cbn in Hlen.
    rewrite copy_escaped_loop_end by lia. cbn [canon map render List.concat].
    rewrite app_nil_r, Z.add_0_r.
    replace (room <? _) with false by (symmetry; apply Z.ltb_ge; lia). reflexivity.
  - apply Forall_cons_iff in Hcs as [Hwf Hcs]. cbn [List.concat] in *.
    rewrite length_app in Hfuel, Hlen. pose proof (wf_char_len c Hwf).
    destruct fuel as [|fuel]; [lia|].
    rewrite copy_escaped_loop_char by (auto; lia).
    assert (uint16 (copied + Z.of_nat (List.length c)) = copied + Z.of_nat (List.length c)) as Hu
      by (unfold uint16; apply Z.mod_small; lia).
    cbn [canon map]. fold (canon cs). rewrite render_cons, app_assoc.
    destruct (room <? Z.of_nat (List.length (buf ++ render_unit (is_special c, c)))) eqn:E1.
    + apply Z.ltb_lt in E1.
      replace (room <? _) with true
        by (symmetry; apply Z.ltb_lt; rewrite (length_app (_ ++ _)); lia).
      reflexivity.
    + apply Z.ltb_ge in E1. rewrite Hu, IH; auto; try lia.
      destruct (room <? _); [reflexivity|]. f_equal. f_equal.
      unfold escapes_of. cbn [filter fst].
      destruct (is_special c); cbn [List.length]; lia.
Qed.

Lemma join_cons us labels : join (us :: labels) = render us ++ dotted labels.
Proof.
  revert us. induction labels as [|us' labels IH]; intros us.
  - cbn. rewrite app_nil_r. reflexivity.
  - change (join (us :: us' :: labels)) with (render us ++ "." :: join (us' :: labels)).
    rewrite IH. reflexivity.
Qed.

Lemma name_of_canon cs : name_of (canon cs) = List.concat cs.
Proof. unfold name_of, canon. rewrite map_map. cbn [snd]. rewrite map_id. reflexivity. Qed.

Lemma canon_unit_ok c : wf_char H c -> unit_ok H (is_special c, c).
Proof.
  intros Hc. split; [exact Hc|]. cbn [fst snd]. intros E.
  split; intros ->; discriminate E.
Qed.

Lemma canon_label_ok cs : name_ok H cs -> label_ok H (canon cs).
Proof.
  intros (Hne & Hcs & Hlen). unfold label_ok, canon. rewrite length_map. splits; auto.
  - destruct cs; [contradiction | discriminate].
  - apply Forall_map. eapply Forall_impl; [|exact Hcs]. apply canon_unit_ok.
Qed.

Lemma label_ok_name us : label_ok H us -> name_ok H (map snd us).
Proof.
  intros (Hne & Hus & Hlen). unfold name_ok. rewrite length_map. splits; auto.
  - destruct us; [contradiction | discriminate].
  - apply Forall_map. eapply Forall_impl; [|exact Hus]. intros u [Hu _]. exact Hu.
Qed.

Lemma concat_chars_length cs :
  Forall (wf_char H) cs ->
  (List.length cs <= List.length (List.concat cs) <= 4 * List.length cs)%nat.
Proof.
  induction 1 as [|c cs Hc Hcs IH]; cbn [List.concat List.length]; [lia|].
  rewrite length_app. apply wf_char_len in Hc; auto. lia.
Qed.

Lemma ltree_out_level cs room :
  name_ok H cs ->
  (0 <? lv_len (level_of (List.concat cs))) = true /\
  copy_escaped H (lv_name (level_of (List.concat cs))) (lv_len (level_of (List.concat cs)))
    ["\"; " "; "."] room
  = (if room <? Z.of_nat (List.length (render (canon cs))) then Undefined OutOfBounds
     else Ok (render (canon cs), Z.of_nat (escapes_of (canon cs)))) /\
  (Z.of_nat (List.length (render (canon cs)))
   =? lv_len (level_of (List.concat cs)) + Z.of_nat (escapes_of (canon cs))) = true.
Proof.
  intros (Hne & Hcs & Hlen). pose proof (concat_chars_length cs Hcs) as Hl.
  assert (1 <= List.length cs)%nat by (destruct cs; [contradiction | cbn; lia]).
  cbn [level_of lv_len lv_name]. splits.
  - apply Z.ltb_lt. lia.
  - unfold copy_escaped. destruct cs as [|c cs]; [contradiction|].
    apply Forall_cons_iff in Hcs as [Hc Hcs]. cbn [List.concat List.length] in *.
    rewrite length_app in Hl. pose proof (wf_char_len c Hc).
    rewrite copy_escaped_loop_char by (auto; rewrite length_app; lia).
    cbn [canon map]. fold (canon cs). rewrite render_cons. cbn [app].
    destruct (room <? Z.of_nat (List.length (render_unit (is_special c, c)))) eqn:E1.
    + apply Z.ltb_lt in E1.
      replace (room <? _) with true
        by (symmetry; apply Z.ltb_lt; rewrite length_app; lia).
      reflexivity.
    + apply Z.ltb_ge in E1.
      rewrite copy_escaped_loop_chars; auto; try (rewrite ?length_app; lia).
      * destruct (room <? _); [reflexivity|]. f_equal. f_equal.
        unfold escapes_of. cbn [filter fst].
        destruct (is_special c); cbn [List.length]; lia.
      * unfold uint16. rewrite Z.mod_small; rewrite ?length_app; lia.
      * unfold uint16. rewrite Z.mod_small; rewrite ?length_app; lia.
  - apply Z.eqb_eq. rewrite render_length, name_of_canon. lia.
Qed.

Lemma ltree_out_loop_dotted css : forall i alloc out,
  Forall (name_ok H) css -> 0 < i -> Z.of_nat (List.length out) <= alloc ->
  ltree_out_loop H (map level_of (map (@List.concat ascii) css)) i alloc out
  = if alloc <? Z.of_nat (List.length (out ++ dotted (map canon css))) then
      Undefined OutOfBounds
    else Ok (out ++ dotted (map canon css)).
Proof.
  induction css as [|cs css IH]; intros i alloc out Hcss Hi Hout.
  - cbn. rewrite app_nil_r.
    replace (alloc <? _) with false by (symmetry; apply Z.ltb_ge; lia). reflexivity.
  - apply Forall_cons_iff in Hcss as [Hcs Hcss].
    destruct (ltree_out_level cs (alloc - Z.of_nat (List.length (out ++ ["."]))) Hcs)
      as (E1 & E2 & E3).
    cbn [map ltree_out_loop].
    replace (i =? 0) with false by (symmetry; apply Z.eqb_neq; lia). cbn [negb].
    unfold dotted. cbn [map List.concat]. fold (dotted (map canon css)).
    rewrite !length_app. cbn [List.length].
    destruct (alloc <? Z.of_nat (List.length out) + 1) eqn:C1; cbn [bind].
    { apply Z.ltb_lt in C1.
      replace (alloc <? _) with true by (symmetry; apply Z.ltb_lt; lia). reflexivity. }
    apply Z.ltb_ge in C1. rewrite E1, E2.
    rewrite length_app in *. cbn [List.length] in *.
    destruct (_ <? Z.of_nat (List.length (render (canon cs)))) eqn:C2; cbn [bind].
    { apply Z.ltb_lt in C2.
      replace (alloc <? _) with true by (symmetry; apply Z.ltb_lt; lia). reflexivity. }
    apply Z.ltb_ge in C2. rewrite E3. cbn [bind].
    rewrite IH by (auto; rewrite ?length_app; cbn [List.length]; lia).
    rewrite <- !app_assoc. cbn [app]. rewrite !length_app. cbn [List.length].
    rewrite length_app. reflexivity.
Qed.

(** [ltree_out] writes the labels with the three special characters after
    a backslash, where its buffer has room for them and for the NUL. *)
Lemma ltree_out_mk_ltree css :
  Forall (name_ok H) css ->
  ltree_out H (mk_ltree H (map (@List.concat ascii) css))
  = if ltree_out_alloc (mk_ltree H (map (@List.concat ascii) css))
       <? ltree_out_stored (join (map canon css))
    then Undefined OutOfBounds
    else Ok (join (map canon css)).
Proof.
  intros Hcss. unfold ltree_out, ltree_out_stored.
  generalize (ltree_out_alloc (mk_ltree H (map (@List.concat ascii) css))) as alloc.
  intros alloc. unfold mk_ltree. cbn [lt_numlevel lt_levels].
  rewrite Nat2Z.id. rewrite <- (length_map level_of), firstn_all.
  destruct css as [|cs css]; [reflexivity|].
  apply Forall_cons_iff in Hcss as [Hcs Hcss].
  destruct (ltree_out_level cs (alloc - Z.of_nat (List.length (@nil ascii))) Hcs)
    as (E1 & E2 & E3).
  cbn [map ltree_out_loop]. cbn [Z.eqb negb bind]. rewrite E1, E2.
  rewrite join_cons, length_app. cbn [List.length] in *.
  destruct (_ <? Z.of_nat (List.length (render (canon cs)))) eqn:C2; cbn [bind].
  { apply Z.ltb_lt in C2.
    replace (alloc <? _) with true by (symmetry; apply Z.ltb_lt; lia). reflexivity. }
  apply Z.ltb_ge in C2. rewrite E3. cbn [bind app].
  rewrite ltree_out_loop_dotted by (auto; lia). rewrite length_app.
  destruct (alloc <? Z.of_nat (_ + _)) eqn:C3; cbn [bind].
  { apply Z.ltb_lt in C3.
    replace (alloc <? _) with true by (symmetry; apply Z.ltb_lt; lia). reflexivity. }
  rewrite length_app. reflexivity.
Qed.

(** The branches of [ltree_in_dispatch] at the character [c]. *)
Lemma ltree_in_dispatch_char buf st c rest :
  skipn (lt_ptr st) buf = c ++ rest -> wf_char H c ->
  ltree_in_dispatch H buf st =
  match lt_state st with
  | LTPRS_WAITNAME =>
      lst <- aupd (lt_list st) (lt_lptr st)
               (fun it => set_wlen 0 (set_start (lt_ptr st) it)) ;;
      let st := lt_set_escaped_count 0
                  (lt_set_list lst (lt_set_state LTPRS_WAITDELIM st)) in
      if single c "." then Raise (SyntaxErrorAt (lt_pos st))
      else if single c "\" then Ok (lt_set_state LTPRS_WAITESCAPED st)
      else Ok st
  | LTPRS_WAITESCAPED =>
      Ok (lt_set_escaped_count (lt_escaped_count st + 1)
            (lt_set_state LTPRS_WAITDELIM st))
  | LTPRS_WAITDELIM =>
      if single c "." then
        it <- aget (lt_list st) (lt_lptr st) ;;
        let len := Z.of_nat (lt_ptr st) - Z.of_nat (ni_start it)
                   - lt_escaped_count st in
        lst <- aupd (lt_list st) (lt_lptr st) (set_len len) ;;
        if 255 <? ni_wlen it then
          Raise (NameTooLong (ni_wlen it) (lt_pos st))
        else
          Ok (lt_set_state LTPRS_WAITNAME
                (lt_set_lptr (S (lt_lptr st))
                   (lt_set_totallen
                      (lt_totallen st + MAXALIGN H (len + LEVEL_HDRSIZE H))
                      (lt_set_list lst st))))
      else if single c "\" then
        Ok (lt_set_state LTPRS_WAITESCAPED st)
      else Ok st
  end.
Proof.
  intros Hs Hc. unfold ltree_in_dispatch. rewrite Hs.
  rewrite head_mblen, !head_iseq by assumption. unfold single.
  destruct (lt_state st); try reflexivity.
  destruct (List.length c =? 1)%nat; reflexivity.
Qed.

Lemma ltree_in_step_char buf st c rest :
  skipn (lt_ptr st) buf = c ++ rest -> wf_char H c ->
  ltree_in_step H buf st =
  (st <- ltree_in_dispatch H buf st ;;
   let st := lt_set_ptr (lt_ptr st + List.length c)%nat st in
   st <- match lt_state st with
         | LTPRS_WAITDELIM =>
             lst <- aupd (lt_list st) (lt_lptr st)
                      (fun it => set_wlen (ni_wlen it + 1) it) ;;
             Ok (lt_set_list lst st)
         | _ => Ok st
         end ;;
   Ok (lt_set_pos (lt_pos st + 1) st)).
Proof.
  intros Hs Hc. unfold ltree_in_step. rewrite Hs, head_mblen by assumption. reflexivity.
Qed.

(** The character at an offset within the text. *)
Lemma char_at buf ptr :
  (ptr < List.length buf)%nat -> deref (skipn ptr buf) <> NUL ->
  (ptr + pg_mblen H (skipn ptr buf) <= List.length buf)%nat ->
  exists c rest, skipn ptr buf = c ++ rest /\ wf_char H c /\
    List.length c = pg_mblen H (skipn ptr buf) /\
    firstn (ptr + List.length c) buf = firstn ptr buf ++ c.
Proof.
  intros Hlt Hnn Hle.
  pose proof (mblen_pos H Hok (deref (skipn ptr buf))) as Hpos.
  fold (pg_mblen H (skipn ptr buf)) in Hpos.
  assert (pg_mblen H (skipn ptr buf) = mblen H (deref (skipn ptr buf))) as Hm by reflexivity.
  remember (pg_mblen H (skipn ptr buf)) as n eqn:Hn. clear Hn.
  exists (firstn n (skipn ptr buf)), (skipn n (skipn ptr buf)).
  assert (List.length (firstn n (skipn ptr buf)) = n) as Hl.
  { rewrite length_firstn, length_skipn. lia. }
  assert (deref (firstn n (skipn ptr buf)) = deref (skipn ptr buf)) as Hd.
  { destruct n; [lia|]. destruct (skipn ptr buf); reflexivity. }
  splits.
  - symmetry. apply firstn_skipn.
  - unfold wf_char. splits.
    + intros E. rewrite E in Hl. cbn in Hl. lia.
    + rewrite Hl. unfold pg_mblen. rewrite Hd. exact Hm.
    + rewrite Hd. exact Hnn.
  - exact Hl.
  - rewrite Hl. apply (firstn_plus buf ptr).
Qed.

Lemma join_snoc labels us : join (labels ++ [us]) = closed labels ++ render us.
Proof.
  induction labels as [|us' labels IH]; [reflexivity|].
  cbn [app]. unfold closed. cbn [map List.concat]. fold (closed labels).
  rewrite <- !app_assoc, <- IH. destruct labels; reflexivity.
Qed.

Lemma closed_snoc labels us : closed (labels ++ [us]) = closed labels ++ render us ++ ["."].
Proof.
  unfold closed. rewrite map_app, concat_app. cbn. rewrite app_nil_r. reflexivity.
Qed.

Lemma render_snoc us u : render (us ++ [u]) = render us ++ render_unit u.
Proof.
  unfold render. rewrite map_app, concat_app. cbn. rewrite app_nil_r. reflexivity.
Qed.

Ltac arr_step :=
  match goal with
  | E : aupd _ _ _ = Ok _ |- _ =>
      let x := fresh "it" in let Hx := fresh "Hit" in
      apply aupd_Ok in E; destruct E as (x & Hx & ->)
  | E : aget _ _ = Ok _ |- _ => apply aget_Ok in E
  end.

Ltac run_step Est :=
  repeat first [ ok_step | arr_step | progress simpl_lt | progress (rewrite Est in * ) ].

Ltac same_item :=
  repeat match goal with
         | E1 : ?x = Some _, E2 : ?x = Some _ |- _ =>
             rewrite E1 in E2; inversion E2; subst; clear E2
         end.

Ltac text_eq :=
  rewrite ?render_snoc, ?closed_snoc; cbn [render render_unit fst snd List.concat map];
  rewrite ?app_nil_r, <- ?app_assoc; cbn [app]; try reflexivity.

Ltac item_ex :=
  repeat match goal with
         | E : nth_error (replace_nth _ ?i _) ?i = Some _ |- _ =>
             apply nth_error_replace_nth_inv in E; subst
         end;
  eexists; split;
  [ rewrite ?replace_nth_twice; eapply nth_error_replace_nth_eq; eassumption
  | simpl_lt; rewrite ?length_app; cbn [List.length]; try lia ].

Lemma ltree_in_step_scanned buf st st' :
  scanned H buf st -> (lt_ptr st < List.length buf)%nat ->
  deref (skipn (lt_ptr st) buf) <> NUL ->
  ltree_in_step H buf st = Ok st' ->
  (lt_ptr st' <= List.length buf)%nat -> scanned H buf st'.
Proof.
  intros (done & cur & Hpre & Hdone & Hcur & Hlptr & Hst) Hlt Hnn Hstep Hle.
  destruct (ltree_in_step_ptr H buf st st' Hstep) as [Hptr _].
  rewrite Hptr in Hle.
  destruct (char_at buf (lt_ptr st) Hlt Hnn Hle) as (c & rest & Hs & Hc & Hl & Hf).
  rewrite <- Hl in Hptr. unfold scanned. rewrite Hptr, Hf, Hpre. clear Hf Hpre Hptr.
  rewrite (ltree_in_step_char buf st c rest Hs Hc) in Hstep.
  rewrite (ltree_in_dispatch_char buf st c rest Hs Hc) in Hstep.
  cbv zeta in Hstep.
  destruct (lt_state st) eqn:Est.
  - (* WAITNAME *)
    subst cur. destruct (single c ".") eqn:Edot; [repeat ok_step|].
    destruct (single c "\") eqn:Ebs; run_step Est.
    + apply single_true in Ebs. subst c.
      exists done, []. splits; auto; try solve [text_eq | item_ex | discriminate | eauto].
    + exists done, [(false, c)]. splits; auto; try solve [text_eq | item_ex | discriminate | eauto].
      constructor; [|constructor]. split; [exact Hc|]. intros _.
      split; apply single_false; assumption.
  - (* WAITDELIM *)
    destruct Hst as (Hne & it & Hit & Hw).
    destruct (single c ".") eqn:Edot.
    + apply single_true in Edot. subst c.
      run_step Est.
      same_item.
      exists (done ++ [cur]), []. splits; auto;
        try solve [text_eq | item_ex | discriminate | eauto | rewrite length_app; cbn; lia].
      apply Forall_app; split; auto. constructor; [|constructor].
      unfold label_ok. splits; auto. apply Z.ltb_ge in C. lia.
    + destruct (single c "\") eqn:Ebs;
        run_step Est.
      * apply single_true in Ebs. subst c.
        exists done, cur. splits; auto; try solve [text_eq | item_ex | discriminate | eauto].
      * same_item.
        exists done, (cur ++ [(false, c)]). splits; auto; try solve [text_eq | item_ex | discriminate | eauto].
        -- apply Forall_app; split; auto. constructor; [|constructor].
           split; [exact Hc|]. intros _. split; apply single_false; assumption.
        -- intros E. apply app_eq_nil in E as [_ E]. discriminate.
  - (* WAITESCAPED *)
    destruct Hst as (it & Hit & Hw).
    run_step Est.
    same_item.
    exists done, (cur ++ [(true, c)]). splits; auto; try solve [text_eq | item_ex | discriminate | eauto].
    + apply Forall_app; split; auto. constructor; [|constructor].
      split; [exact Hc|]. discriminate.
    + intros E. apply app_eq_nil in E as [_ E]. discriminate.
Qed.

Lemma scanned_init buf levels : scanned H buf (ltree_in_init levels).
Proof.
  exists [], []. cbn. splits; auto.
Qed.

Lemma join_cons_ne us labels :
  labels <> [] -> join (us :: labels) = render us ++ "." :: join labels.
Proof. destruct labels; [contradiction | reflexivity]. Qed.

Lemma ltree_in_Ok_inv buf r :
  ltree_in H buf = Ok r ->
  exists levels ORs st1 st2 lv last,
    count_lquery_parts_ors H buf false = Ok (levels, ORs) /\
    (Z.quot (MaxAllocSize H) (sizeof_nodeitem H) <? levels) = false /\
    ltree_in_loop H (S (List.length buf)) buf (ltree_in_init levels) = Ok st1 /\
    ltree_in_finish H st1 = Ok st2 /\
    ltree_in_fill H buf
      (firstn (Z.to_nat (uint16 (Z.of_nat (lt_lptr st2)))) (lt_list st2))
      (LTREE_HDRSIZE H)
    = Ok (lv, last) /\
    r = {| lt_vl_len := LTREE_HDRSIZE H + lt_totallen st2;
           lt_numlevel := uint16 (Z.of_nat (lt_lptr st2));
           lt_levels := lv |}.
Proof.
  unfold ltree_in. intros E. cbv zeta in E.
  destruct (count_lquery_parts_ors H buf false) as [[levels ORs]| | |] eqn:Ecount;
    try discriminate. cbn [bind] in E.
  destruct (_ <? levels) eqn:Elim; [discriminate|].
  destruct (ltree_in_loop H _ buf _) as [st1| | |] eqn:Eloop; try discriminate.
  cbn [bind] in E.
  destruct (ltree_in_finish H st1) as [st2| | |] eqn:Efin; try discriminate.
  cbn [bind] in E. cbv zeta in E.
  destruct (ltree_in_fill H buf _ _) as [[lv last]| | |] eqn:Efill; try discriminate.
  cbn [bind] in E. inversion E. exists levels, ORs, st1, st2, lv, last. splits; auto.
Qed.

(** The text that the loop of [ltree_in] and lines 209-227 go through
    without error is labels with dots between them, up to the NUL that ends
    it. *)
Lemma ltree_in_scan_labels buf levels st1 st2 :
  ltree_in_loop H (S (List.length buf)) buf (ltree_in_init levels) = Ok st1 ->
  ltree_in_finish H st1 = Ok st2 ->
  exists labels tail,
    buf = join labels ++ tail /\ deref tail = NUL /\ Forall (label_ok H) labels.
Proof.
  intros Eloop Efin.
  pose proof (ltree_in_loop_ind H (scanned H buf) buf (ltree_in_step_scanned buf)
                (S (List.length buf)) (ltree_in_init levels) (scanned_init buf levels)) as Hl.
  rewrite Eloop in Hl.
  destruct Hl as [(done & cur & Hpre & Hdone & Hcur & Hlptr & Hst) [Hle Hend]].
  exists (match lt_state st1 with LTPRS_WAITDELIM => done ++ [cur] | _ => [] end),
         (skipn (lt_ptr st1) buf).
  rewrite <- (firstn_skipn (lt_ptr st1) buf) at 1. rewrite Hpre.
  unfold ltree_in_finish in Efin.
  destruct (lt_state st1) eqn:Est.
  - destruct (lt_lptr st1 =? 0)%nat eqn:C0; [|discriminate].
    apply Nat.eqb_eq in C0. rewrite C0 in Hlptr. symmetry in Hlptr.
    apply length_zero_iff_nil in Hlptr. subst. cbn. auto.
  - destruct Hst as (Hne & it & Hit & Hw).
    unfold aget in Efin. rewrite Hit in Efin. cbn [bind] in Efin.
    destruct (aupd _ _ _); try discriminate. cbn [bind] in Efin.
    destruct (255 <? ni_wlen it) eqn:C0; [discriminate|].
    rewrite join_snoc, app_nil_r. splits; auto.
    apply Forall_app; split; auto. constructor; [|constructor].
    unfold label_ok. splits; auto. apply Z.ltb_ge in C0. lia.
  - discriminate.
Qed.

Lemma ltree_in_Ok_labels buf r :
  ltree_in H buf = Ok r ->
  exists labels tail,
    buf = join labels ++ tail /\ deref tail = NUL /\ Forall (label_ok H) labels.
Proof.
  intros E. apply ltree_in_Ok_inv in E.
  destruct E as (levels & ORs & st1 & st2 & lv & last & _ & _ & Eloop & Efin & _).
  eapply ltree_in_scan_labels; eauto.
Qed.

(** *** The count of the levels *)

Lemma count_loop_end fuel tail escape_mode levels ORs :
  deref tail = NUL ->
  count_loop H (S fuel) false tail escape_mode levels ORs = Ok (levels, ORs).
Proof.
  intros Ht. destruct tail as [|x tail]; [reflexivity|]. cbn in Ht. subst x. reflexivity.
Qed.

Lemma count_loop_char fuel c rest escape_mode levels ORs :
  wf_char H c ->
  count_loop H (S fuel) false (c ++ rest) escape_mode levels ORs =
  if escape_mode then count_loop H fuel false rest false levels ORs
  else if single c "\" then count_loop H fuel false rest true levels ORs
  else if single c "." then count_loop H fuel false rest false (levels + 1) ORs
  else count_loop H fuel false rest false levels ORs.
Proof.
  intros Hc. pose proof (head_not_NUL c rest Hc) as Hn.
  pose proof (head_mblen c rest Hc) as Hm. pose proof (head_fits c rest) as Hf.
  pose proof (skipn_app_exact c rest) as Hsk.
  pose proof (head_iseq c rest "\" Hc) as Hb. pose proof (head_iseq c rest "." Hc) as Hd.
  unfold single. destruct (c ++ rest) as [|x p] eqn:Ep.
  { destruct Hc as (Hne & _). destruct c; [contradiction | discriminate]. }
  cbn [count_loop]. cbn [deref hd] in Hn. rewrite Hn, Hm, Hf, Hsk, Hb, Hd.
  rewrite andb_false_r. destruct escape_mode; [reflexivity|].
  destruct (List.length c =? 1)%nat; cbn [andb]; [|reflexivity].
  destruct (Ascii.eqb (deref c) "\"); [reflexivity|].
  destruct (Ascii.eqb (deref c) "."); reflexivity.
Qed.

Lemma count_loop_render us : forall fuel n rest levels,
  Forall (unit_ok H) us -> (List.length (render us) + n < fuel)%nat ->
  exists fuel', (n < fuel')%nat /\
    count_loop H fuel false (render us ++ rest) false levels 0
    = count_loop H fuel' false rest false levels 0.
Proof.
  induction us as [|[e c] us IH]; intros fuel n rest levels Hus Hfuel.
  - exists fuel. cbn in *. split; [lia | reflexivity].
  - apply Forall_cons_iff in Hus as [[Hc Hplain] Hus]. cbn [fst snd] in *.
    rewrite render_cons, length_app in Hfuel. rewrite render_cons, <- app_assoc.
    pose proof (wf_char_len c Hc).
    destruct e; cbn [render_unit fst snd] in *.
    + destruct fuel as [|[|fuel]]; cbn [List.length] in Hfuel; try lia.
      change (("\" :: c) ++ render us ++ rest) with (["\"] ++ c ++ render us ++ rest).
      rewrite count_loop_char by apply wf_char_backslash. rewrite single_refl.
      rewrite count_loop_char by assumption.
      apply IH; auto. lia.
    + destruct (Hplain eq_refl) as [Hnb Hnd].
      destruct fuel as [|fuel]; [lia|].
      rewrite count_loop_char by assumption.
      rewrite (single_neq c "\"), (single_neq c ".") by assumption.
      apply IH; auto. lia.
Qed.

Lemma count_loop_join labels : forall fuel tail levels,
  labels <> [] -> Forall (label_ok H) labels -> deref tail = NUL ->
  (List.length (join labels) < fuel)%nat ->
  count_loop H fuel false (join labels ++ tail) false levels 0
  = Ok (levels + Z.of_nat (List.length labels) - 1, 0).
Proof.
  induction labels as [|us labels IH]; intros fuel tail levels Hne Hl Ht Hfuel;
    [contradiction|].
  apply Forall_cons_iff in Hl as [(_ & Hus & _) Hl].
  destruct labels as [|us' labels].
  - cbn [join] in *.
    destruct (count_loop_render us fuel 0%nat tail levels Hus) as (fuel' & Hf & ->); [lia|].
    destruct fuel'; [lia|]. rewrite count_loop_end by assumption.
    f_equal. f_equal. cbn [List.length]. lia.
  - rewrite join_cons_ne in * by discriminate. rewrite length_app in Hfuel.
    cbn [List.length] in Hfuel. rewrite <- app_assoc.
    destruct (count_loop_render us fuel (S (List.length (join (us' :: labels))))
                (("." :: join (us' :: labels)) ++ tail) levels Hus)
      as (fuel' & Hf & ->); [lia|].
    destruct fuel'; [lia|].
    change (("." :: join (us' :: labels)) ++ tail)
      with (["."] ++ join (us' :: labels) ++ tail).
    rewrite count_loop_char by apply wf_char_dot.
    replace (single ["."] "\") with false by reflexivity. rewrite single_refl.
    rewrite IH; auto; try discriminate; try lia.
    f_equal. f_equal. cbn [List.length]. lia.
Qed.

Lemma count_lquery_parts_ors_join labels tail :
  Forall (label_ok H) labels -> deref tail = NUL ->
  count_lquery_parts_ors H (join labels ++ tail) false
  = Ok (Z.max 1 (Z.of_nat (List.length labels)), 0).
Proof.
  intros Hl Ht. unfold count_lquery_parts_ors.
  destruct labels as [|us labels].
  - cbn [join app]. rewrite count_loop_end by assumption. reflexivity.
  - rewrite count_loop_join; auto; try discriminate.
    + cbn [bind]. f_equal. f_equal. cbn [List.length]. lia.
    + rewrite length_app. lia.
Qed.

(** *** The run of the loop over labels *)

Lemma aupd_mid {A} (done : list A) x zs f :
  aupd (done ++ x :: zs) (List.length done) f = Ok (done ++ f x :: zs).
Proof.
  unfold aupd. rewrite nth_error_app2, Nat.sub_diag by lia. cbn. f_equal.
  induction done as [|y done IH]; cbn; [reflexivity|]. f_equal. exact IH.
Qed.

Lemma aget_mid {A} (done : list A) x zs :
  aget (done ++ x :: zs) (List.length done) = Ok x.
Proof. unfold aget. rewrite nth_error_app2, Nat.sub_diag by lia. reflexivity. Qed.

Lemma skipn_plus_app {A} (l pre rest : list A) off :
  skipn off l = pre ++ rest -> skipn (off + List.length pre) l = rest.
Proof.
  intros E. rewrite Nat.add_comm, <- skipn_skipn, E. apply skipn_app_exact.
Qed.

Lemma skipn_some_lt {A} (l : list A) off x rest :
  skipn off l = x :: rest -> (off < List.length l)%nat.
Proof.
  intros E. destruct (Nat.lt_ge_cases off (List.length l)) as [|Hge]; auto.
  rewrite skipn_all2 in E by assumption. discriminate.
Qed.

Lemma wf_char_skipn buf off c rest :
  skipn off buf = c ++ rest -> wf_char H c ->
  (off + List.length c <= List.length buf)%nat /\ (off < List.length buf)%nat.
Proof.
  intros E Hc. pose proof (wf_char_len c Hc). 
  assert (List.length (skipn off buf) = List.length (c ++ rest)) as Hl by (rewrite E; reflexivity).
  rewrite length_skipn, length_app in Hl. lia.
Qed.

Lemma runs_to_refl buf st : runs_to H buf st st.
Proof. intros fuel Hf. exists fuel. auto. Qed.

Lemma runs_to_trans buf st1 st2 st3 :
  runs_to H buf st1 st2 -> runs_to H buf st2 st3 -> runs_to H buf st1 st3.
Proof.
  intros H12 H23 fuel Hf. destruct (H12 fuel Hf) as (f2 & Hf2 & ->).
  destruct (H23 f2 Hf2) as (f3 & Hf3 & ->). exists f3. auto.
Qed.

Lemma runs_to_step buf st st' c rest :
  skipn (lt_ptr st) buf = c ++ rest -> wf_char H c ->
  ltree_in_step H buf st = Ok st' -> runs_to H buf st st'.
Proof.
  intros Hs Hc Hstep fuel Hf.
  destruct (wf_char_skipn buf (lt_ptr st) c rest Hs Hc) as [Hle Hlt].
  destruct (ltree_in_step_ptr H buf st st' Hstep) as [Hptr _].
  pose proof (mblen_pos H Hok (deref (skipn (lt_ptr st) buf))) as Hpos.
  fold (pg_mblen H (skipn (lt_ptr st) buf)) in Hpos.
  destruct fuel as [|fuel]; [lia|]. exists fuel. split; [lia|].
  cbn [ltree_in_loop].
  replace (List.length buf <? lt_ptr st)%nat with false by (symmetry; apply Nat.ltb_ge; lia).
  rewrite Hs, head_not_NUL, Hstep by assumption. reflexivity.
Qed.

Lemma ltree_in_loop_end buf st fuel :
  (lt_ptr st <= List.length buf)%nat -> deref (skipn (lt_ptr st) buf) = NUL ->
  ltree_in_loop H (S fuel) buf st = Ok st.
Proof.
  intros Hle Hn. cbn [ltree_in_loop].
  replace (List.length buf <? lt_ptr st)%nat with false by (symmetry; apply Nat.ltb_ge; lia).
  rewrite Hn. reflexivity.
Qed.

Ltac exact_step Hs Hc :=
  match goal with
  | |- ltree_in_step _ ?b ?st = _ =>
      rewrite (ltree_in_step_char b st _ _ Hs Hc), (ltree_in_dispatch_char b st _ _ Hs Hc)
  end;
  unfold lt_at, item; cbv zeta; simpl_lt;
  repeat progress
    (cbn [bind]; simpl_lt; rewrite ?aupd_mid, ?aget_mid;
     repeat match goal with E : single _ _ = _ |- _ => rewrite E end).

Section Steps.
Variables (buf : text) (done : list nodeitem) (k off : nat) (total pos esc : Z).
Variables (start : nat) (wlen : Z) (c rest : text).
Hypothesis Hs : skipn off buf = c ++ rest.
Hypothesis Hc : wf_char H c.

Lemma ltree_in_step_name_plain :
  single c "." = false -> single c "\" = false ->
  ltree_in_step H buf (lt_at LTPRS_WAITNAME done start wlen k off total pos esc)
  = Ok (lt_at LTPRS_WAITDELIM done off 1 k (off + List.length c) total (pos + 1) 0).
Proof. intros Ed Eb. exact_step Hs Hc. reflexivity. Qed.

Lemma ltree_in_step_name_backslash :
  single c "." = false -> single c "\" = true ->
  ltree_in_step H buf (lt_at LTPRS_WAITNAME done start wlen k off total pos esc)
  = Ok (lt_at LTPRS_WAITESCAPED done off 0 k (off + List.length c) total (pos + 1) 0).
Proof. intros Ed Eb. exact_step Hs Hc. reflexivity. Qed.

Lemma ltree_in_step_escaped :
  ltree_in_step H buf (lt_at LTPRS_WAITESCAPED done start wlen k off total pos esc)
  = Ok (lt_at LTPRS_WAITDELIM done start (wlen + 1) k (off + List.length c) total
          (pos + 1) (esc + 1)).
Proof. exact_step Hs Hc. reflexivity. Qed.

Lemma ltree_in_step_delim_plain :
  single c "." = false -> single c "\" = false ->
  ltree_in_step H buf (lt_at LTPRS_WAITDELIM done start wlen k off total pos esc)
  = Ok (lt_at LTPRS_WAITDELIM done start (wlen + 1) k (off + List.length c) total
          (pos + 1) esc).
Proof. intros Ed Eb. exact_step Hs Hc. reflexivity. Qed.

Lemma ltree_in_step_delim_backslash :
  single c "." = false -> single c "\" = true ->
  ltree_in_step H buf (lt_at LTPRS_WAITDELIM done start wlen k off total pos esc)
  = Ok (lt_at LTPRS_WAITESCAPED done start wlen k (off + List.length c) total
          (pos + 1) esc).
Proof. intros Ed Eb. exact_step Hs Hc. reflexivity. Qed.

Lemma ltree_in_step_delim_dot :
  single c "." = true -> wlen <= 255 ->
  ltree_in_step H buf (lt_at LTPRS_WAITDELIM done start wlen (S k) off total pos esc)
  = Ok (lt_at LTPRS_WAITNAME
          (done ++ [item start (Z.of_nat off - Z.of_nat start - esc) wlen]) 0 0 k
          (off + List.length c)
          (total + MAXALIGN H (Z.of_nat off - Z.of_nat start - esc + LEVEL_HDRSIZE H))
          (pos + 1) esc).
Proof.
  intros Ed Hw. exact_step Hs Hc.
  replace (255 <? wlen) with false by (symmetry; apply Z.ltb_ge; lia).
  cbn [bind]. simpl_lt. unfold set_len. simpl_lt.
  rewrite <- app_assoc, length_app. cbn [List.length app repeat].
  rewrite Nat.add_1_r. reflexivity.
Qed.

End Steps.

Lemma runs_to_eq buf st st1 st2 : runs_to H buf st st1 -> st1 = st2 -> runs_to H buf st st2.
Proof. intros Hr <-. exact Hr. Qed.

Lemma single_backslash_dot : single ["\"] "." = false.
Proof. reflexivity. Qed.

Lemma escapes_of_cons e c us :
  escapes_of ((e, c) :: us) = ((if e then 1 else 0) + escapes_of us)%nat.
Proof. unfold escapes_of. cbn [filter fst]. destruct e; reflexivity. Qed.

(** The characters of a label after its first. *)
Lemma runs_to_units buf done k total start us :
  forall off wlen pos esc rest,
  Forall (unit_ok H) us -> skipn off buf = render us ++ rest ->
  runs_to H buf
    (lt_at LTPRS_WAITDELIM done start wlen k off total pos esc)
    (lt_at LTPRS_WAITDELIM done start (wlen + Z.of_nat (List.length us)) k
       (off + List.length (render us)) total
       (pos + Z.of_nat (List.length us + escapes_of us))
       (esc + Z.of_nat (escapes_of us))).
Proof.
  induction us as [|[e c] us IH]; intros off wlen pos esc rest Hus Hs.
  - eapply runs_to_eq; [apply runs_to_refl|]. cbn. f_equal; lia.
  - apply Forall_cons_iff in Hus as [[Hc Hplain] Hus]. cbn [fst snd] in *.
    rewrite render_cons, <- app_assoc in Hs. rewrite render_cons, length_app.
    rewrite escapes_of_cons. cbn [List.length].
    destruct e; cbn [render_unit fst snd] in *.
    + change (("\" :: c) ++ render us ++ rest) with (["\"] ++ c ++ render us ++ rest) in Hs.
      pose proof (skipn_plus_app _ _ _ _ Hs) as Hs1.
      pose proof (skipn_plus_app _ _ _ _ Hs1) as Hs2.
      eapply runs_to_trans.
      { eapply runs_to_step; [exact Hs | apply wf_char_backslash|].
        apply ltree_in_step_delim_backslash with (c := ["\"]) (rest := c ++ render us ++ rest);
          auto using wf_char_backslash, single_refl; try eassumption. }
      eapply runs_to_trans.
      { eapply runs_to_step; [exact Hs1 | exact Hc|].
        apply ltree_in_step_escaped with (c := c) (rest := render us ++ rest); auto; try eassumption. }
      eapply runs_to_eq; [eapply IH; eauto|].
      cbn [List.length]. f_equal; lia.
    + destruct (Hplain eq_refl) as [Hnb Hnd].
      pose proof (skipn_plus_app _ _ _ _ Hs) as Hs1.
      eapply runs_to_trans.
      { eapply runs_to_step; [exact Hs | exact Hc|].
        apply ltree_in_step_delim_plain with (c := c) (rest := render us ++ rest);
          auto using single_neq; try eassumption. }
      eapply runs_to_eq; [eapply IH; eauto|].
      f_equal; lia.
Qed.

(** A label, from its first character. *)
Lemma runs_to_label buf done k total start wlen us off pos esc rest :
  us <> [] -> Forall (unit_ok H) us -> skipn off buf = render us ++ rest ->
  runs_to H buf
    (lt_at LTPRS_WAITNAME done start wlen k off total pos esc)
    (lt_at LTPRS_WAITDELIM done off (Z.of_nat (List.length us)) k
       (off + List.length (render us)) total
       (pos + Z.of_nat (List.length us + escapes_of us))
       (Z.of_nat (escapes_of us))).
Proof.
  intros Hne Hus Hs. destruct us as [|[e c] us]; [contradiction|]. clear Hne.
  apply Forall_cons_iff in Hus as [[Hc Hplain] Hus]. cbn [fst snd] in *.
  rewrite render_cons, <- app_assoc in Hs. rewrite render_cons, length_app.
  rewrite escapes_of_cons. cbn [List.length].
  destruct e; cbn [render_unit fst snd] in *.
  - change (("\" :: c) ++ render us ++ rest) with (["\"] ++ c ++ render us ++ rest) in Hs.
    pose proof (skipn_plus_app _ _ _ _ Hs) as Hs1.
    pose proof (skipn_plus_app _ _ _ _ Hs1) as Hs2.
    eapply runs_to_trans.
    { eapply runs_to_step; [exact Hs | apply wf_char_backslash|].
      apply ltree_in_step_name_backslash with (c := ["\"]) (rest := c ++ render us ++ rest);
        auto using wf_char_backslash, single_refl; try eassumption. }
    eapply runs_to_trans.
    { eapply runs_to_step; [exact Hs1 | exact Hc|].
      apply ltree_in_step_escaped with (c := c) (rest := render us ++ rest); auto; try eassumption. }
    eapply runs_to_eq; [eapply runs_to_units; eauto|].
    cbn [List.length]. f_equal; lia.
  - destruct (Hplain eq_refl) as [Hnb Hnd].
    pose proof (skipn_plus_app _ _ _ _ Hs) as Hs1.
    eapply runs_to_trans.
    { eapply runs_to_step; [exact Hs | exact Hc|].
      apply ltree_in_step_name_plain with (c := c) (rest := render us ++ rest);
        auto using single_neq; try eassumption. }
    eapply runs_to_eq; [eapply runs_to_units; eauto|].
    f_equal; lia.
Qed.

Lemma items_of_length labels : forall off,
  List.length (items_of off labels) = List.length labels.
Proof. induction labels as [|us labels IH]; intros off; cbn; auto. Qed.

Lemma runs_to_finishes buf st st' stf :
  runs_to H buf st st' -> finishes H buf st' stf -> finishes H buf st stf.
Proof.
  intros Hr Hf fuel Hfuel. destruct (Hr fuel Hfuel) as (fuel' & Hfuel' & ->).
  apply Hf. exact Hfuel'.
Qed.

Lemma ltree_in_finish_delim done start wlen k off total pos esc :
  wlen <= 255 ->
  ltree_in_finish H (lt_at LTPRS_WAITDELIM done start wlen k off total pos esc)
  = Ok {| lt_ptr := off; lt_state := LTPRS_WAITDELIM;
          lt_list := done ++ item start (Z.of_nat off - Z.of_nat start - esc) wlen
                            :: repeat nodeitem0 k;
          lt_lptr := S (List.length done);
          lt_totallen := total + MAXALIGN H (Z.of_nat off - Z.of_nat start - esc
                                             + LEVEL_HDRSIZE H);
          lt_pos := pos; lt_escaped_count := esc |}.
Proof.
  intros Hw. unfold ltree_in_finish, lt_at, item. simpl_lt.
  rewrite aget_mid. cbn [bind]. simpl_lt. rewrite aupd_mid. cbn [bind].
  replace (255 <? wlen) with false by (symmetry; apply Z.ltb_ge; lia).
  reflexivity.
Qed.

Lemma label_len us :
  Z.of_nat (List.length (render us)) - Z.of_nat (escapes_of us)
  = Z.of_nat (List.length (name_of us)).
Proof. rewrite render_length. lia. Qed.

Lemma finishes_labels buf labels :
  forall done k off total pos esc start wlen tail,
  labels <> [] -> Forall (label_ok H) labels ->
  skipn off buf = join labels ++ tail -> deref tail = NUL ->
  (List.length labels <= S k)%nat ->
  exists stf,
    finishes H buf (lt_at LTPRS_WAITNAME done start wlen k off total pos esc) stf /\
    lt_list stf = done ++ items_of off labels
                  ++ repeat nodeitem0 (S k - List.length labels) /\
    lt_lptr stf = (List.length done + List.length labels)%nat /\
    lt_totallen stf = total_of H labels total.
Proof.
  induction labels as [|us labels IH];
    intros done k off total pos esc start wlen tail Hne Hl Hs Ht Hk; [contradiction|].
  apply Forall_cons_iff in Hl as [(Hune & Hus & Hlen) Hl].
  destruct labels as [|us' labels].
  - cbn [join] in Hs.
    pose proof (runs_to_label buf done k total start wlen us off pos esc tail Hune Hus Hs)
      as Hrun.
    pose proof (skipn_plus_app _ _ _ _ Hs) as Hs1.
    eexists. split.
    { eapply runs_to_finishes; [exact Hrun|]. intros fuel Hfuel.
      destruct fuel as [|fuel]; [lia|].
      rewrite ltree_in_loop_end.
      - cbn [bind]. apply ltree_in_finish_delim. lia.
      - unfold lt_at. simpl_lt.
        assert (List.length (skipn off buf) = List.length (render us ++ tail)) as E
          by (rewrite Hs; reflexivity).
        rewrite length_skipn, length_app in E.
        assert (1 <= List.length us)%nat by (destruct us; [contradiction | cbn; lia]).
        pose proof (render_length us). pose proof (name_of_length_ge us Hus). lia.
      - unfold lt_at. simpl_lt. rewrite Hs1. exact Ht. }
    simpl_lt. cbn [items_of List.length app]. 
    replace (Z.of_nat (off + List.length (render us)) - Z.of_nat off
             - Z.of_nat (escapes_of us))
      with (Z.of_nat (List.length (name_of us)))
      by (pose proof (label_len us); lia).
    splits.
    + replace (S k - 1)%nat with k by lia. reflexivity.
    + lia.
    + reflexivity.
  - rewrite join_cons_ne in Hs by discriminate.
    change (render us ++ "." :: join (us' :: labels))
      with (render us ++ ["."] ++ join (us' :: labels)) in Hs.
    rewrite <- !app_assoc in Hs.
    pose proof (runs_to_label buf done k total start wlen us off pos esc _ Hune Hus Hs)
      as Hrun.
    pose proof (skipn_plus_app _ _ _ _ Hs) as Hs1.
    pose proof (skipn_plus_app _ _ _ _ Hs1) as Hs2.
    destruct k as [|k]; [cbn [List.length] in Hk; lia|].
    destruct (IH (done ++ [item off (Z.of_nat (List.length (name_of us)))
                             (Z.of_nat (List.length us))])
                 k (off + List.length (render us) + 1)%nat
                 (total + MAXALIGN H (Z.of_nat (List.length (name_of us)) + LEVEL_HDRSIZE H))
                 (pos + Z.of_nat (List.length us + escapes_of us) + 1)
                 (Z.of_nat (escapes_of us)) 0%nat 0 tail)
      as (stf & Hfin & Hlist & Hlptr & Htot); auto; try discriminate.
    { cbn [List.length] in *. lia. }
    exists stf. splits.
    + eapply runs_to_finishes; [exact Hrun|].
      eapply runs_to_finishes; [|exact Hfin].
      eapply runs_to_eq.
      { eapply runs_to_step; [exact Hs1 | apply wf_char_dot|].
        apply ltree_in_step_delim_dot with (c := ["."]) (rest := join (us' :: labels) ++ tail);
          auto using wf_char_dot, single_refl. lia. }
      replace (Z.of_nat (off + List.length (render us)) - Z.of_nat off
               - Z.of_nat (escapes_of us))
        with (Z.of_nat (List.length (name_of us)))
        by (pose proof (label_len us); lia).
      reflexivity.
    + rewrite Hlist, <- app_assoc. reflexivity.
    + rewrite Hlptr, length_app. cbn [List.length]. lia.
    + rewrite Htot. reflexivity.
Qed.

Lemma ltree_in_fill_items buf labels : forall n off curlevel tail,
  Forall (label_ok H) labels ->
  (labels <> [] -> skipn off buf = join labels ++ tail) ->
  exists last,
    ltree_in_fill H buf (firstn n (items_of off labels)) curlevel
    = Ok (map level_of (firstn n (map name_of labels)), last).
Proof.
  induction labels as [|us labels IH]; intros n off curlevel tail Hl Hs0.
  - exists curlevel. destruct n; reflexivity.
  - destruct n as [|n]; [exists curlevel; reflexivity|].
    apply Forall_cons_iff in Hl as [(Hune & Hus & Hlen) Hl].
    specialize (Hs0 ltac:(discriminate)).
    pose proof Hs0 as Hs. rewrite join_cons, <- app_assoc in Hs.
    assert (1 <= List.length us)%nat by (destruct us; [contradiction | cbn; lia]).
    pose proof (name_of_length_ge us Hus). pose proof (name_of_length_le us Hus).
    cbn [items_of map firstn ltree_in_fill]. unfold item. simpl_lt.
    replace (0 <? Z.of_nat (List.length (name_of us))) with true
      by (symmetry; apply Z.ltb_lt; lia).
    rewrite Hs, copy_unescaped_render by assumption. cbn [bind].
    replace (uint16 (Z.of_nat (List.length (name_of us))))
      with (Z.of_nat (List.length (name_of us)))
      by (unfold uint16; rewrite Z.mod_small; lia).
    destruct (IH n (off + List.length (render us) + 1)%nat
                 (curlevel + MAXALIGN H (Z.of_nat (List.length (name_of us))
                                         + LEVEL_HDRSIZE H)) tail Hl)
      as (last & ->).
    + intros Hne. rewrite join_cons_ne in Hs0 by assumption.
      change (render us ++ "." :: join labels)
        with (render us ++ ["."] ++ join labels) in Hs0.
      rewrite <- !app_assoc in Hs0.
      pose proof (skipn_plus_app _ _ _ _ Hs0) as Hs1.
      exact (skipn_plus_app _ _ _ _ Hs1).
    + cbn [bind]. exists last. reflexivity.
Qed.

(** [ltree_in] on labels with dots between them. *)
Lemma ltree_in_join labels tail :
  Forall (label_ok H) labels -> deref tail = NUL ->
  Z.of_nat (List.length labels) <= Z.quot (MaxAllocSize H) (sizeof_nodeitem H) ->
  ltree_in H (join labels ++ tail) = Ok (ltree_stored H (map name_of labels)).
Proof.
  intros Hl Ht Hlim. pose proof (levels_limit H Hok) as Hlim1.
  unfold ltree_in. rewrite count_lquery_parts_ors_join by assumption. cbn [bind].
  replace (_ <? Z.max 1 (Z.of_nat (List.length labels))) with false
    by (symmetry; apply Z.ltb_ge; lia).
  unfold ltree_in_init.
  destruct (Z.to_nat (Z.max 1 (Z.of_nat (List.length labels)))) as [|k] eqn:Ek; [lia|].
  cbn [repeat]. destruct labels as [|us labels].
  - cbn [join app]. rewrite ltree_in_loop_end; simpl_lt; [|lia|exact Ht].
    reflexivity.
  - destruct (finishes_labels (join (us :: labels) ++ tail) (us :: labels)
                [] k 0%nat 0 0 0 0%nat 0 tail) as (stf & Hfin & Hlist & Hlptr & Htot);
      auto; try discriminate; [lia|].
    specialize (Hfin (S (List.length (join (us :: labels) ++ tail)))).
    unfold lt_at, item in Hfin. cbn [app List.length] in Hfin.
    specialize (Hfin ltac:(simpl_lt; lia)).
    apply bind_Ok in Hfin as (st1 & Eloop & Efin).
    change nodeitem0 with {| ni_start := 0; ni_len := 0; ni_flag := 0; ni_wlen := 0 |} at 1.
    rewrite Eloop. cbn [bind]. rewrite Efin. cbn [bind].
    cbv zeta. rewrite Hlist, Hlptr, Htot. cbn [app List.length Nat.add].
    change (S (List.length labels)) with (List.length (us :: labels)).
    pose proof (uint16_le (Z.of_nat (List.length (us :: labels))) ltac:(lia)) as Hle.
    pose proof (uint16_range (Z.of_nat (List.length (us :: labels)))) as Hrg.
    rewrite firstn_app, items_of_length.
    replace (Z.to_nat (uint16 (Z.of_nat (List.length (us :: labels))))
             - List.length (us :: labels))%nat with 0%nat by lia.
    cbn [firstn]. rewrite app_nil_r.
    destruct (ltree_in_fill_items (join (us :: labels) ++ tail) (us :: labels)
                (Z.to_nat (uint16 (Z.of_nat (List.length (us :: labels))))) 0%nat
                (LTREE_HDRSIZE H) tail Hl) as (last & ->); [reflexivity|].
    cbn [bind]. unfold ltree_stored, mk_ltree. cbn [lt_vl_len].
    rewrite length_map. reflexivity.
Qed.

Lemma ltree_stored_small names :
  Z.of_nat (List.length names) <= 65535 -> ltree_stored H names = mk_ltree H names.
Proof.
  intros Hn. unfold ltree_stored, mk_ltree. cbn [lt_vl_len].
  rewrite uint16_small by lia. rewrite Nat2Z.id, firstn_all. reflexivity.
Qed.

Lemma ltree_in_join_small labels tail :
  Forall (label_ok H) labels -> deref tail = NUL ->
  Z.of_nat (List.length labels) <= Z.quot (MaxAllocSize H) (sizeof_nodeitem H) ->
  Z.of_nat (List.length labels) <= 65535 ->
  ltree_in H (join labels ++ tail) = Ok (mk_ltree H (map name_of labels)).
Proof.
  intros Hl Ht Hlim Hn. rewrite ltree_in_join by assumption.
  rewrite ltree_stored_small; [reflexivity | rewrite length_map; exact Hn].
Qed.

Lemma ltree_in_Ok_limit labels tail r :
  Forall (label_ok H) labels -> deref tail = NUL ->
  ltree_in H (join labels ++ tail) = Ok r ->
  Z.of_nat (List.length labels) <= Z.quot (MaxAllocSize H) (sizeof_nodeitem H).
Proof.
  intros Hl Ht E. apply ltree_in_Ok_inv in E.
  destruct E as (levels & ORs & st1 & st2 & lv & last & Ecount & Elim & _).
  rewrite count_lquery_parts_ors_join in Ecount by assumption.
  inversion Ecount; subst. apply Z.ltb_ge in Elim. lia.
Qed.

(** The round trip: a text that [ltree_in] accepts, of no more levels than
    the 16 bits of [numlevel] hold, gives a record that [ltree_in] gives
    again for the text [out] of its labels with backslash, space and dot
    escaped; [ltree_out] writes that text where the VARSIZE(in) bytes of its
    buffer have room for it and its NUL, and stores behind the buffer where
    they have not. *)
Lemma ltree_in_out_in buf r levels ORs :
  ltree_in H buf = Ok r ->
  count_lquery_parts_ors H buf false = Ok (levels, ORs) -> levels <= 65535 ->
  exists out, ltree_in H out = Ok r /\
    ltree_out H r = if ltree_out_alloc r <? ltree_out_stored out
                    then Undefined OutOfBounds else Ok out.
Proof.
  intros E Ec Hlev.
  destruct (ltree_in_Ok_labels buf r E) as (labels & tail & -> & Ht & Hl).
  pose proof (ltree_in_Ok_limit labels tail r Hl Ht E) as Hlim.
  rewrite count_lquery_parts_ors_join in Ec by assumption.
  inversion Ec; subst levels ORs; clear Ec.
  assert (Z.of_nat (List.length labels) <= 65535) as Hsmall by lia.
  rewrite ltree_in_join_small in E by assumption. inversion E as [Er]. clear E.
  assert (map name_of labels = map (@List.concat ascii) (map (map snd) labels)) as Hn
    by (rewrite map_map; reflexivity).
  assert (Forall (name_ok H) (map (map snd) labels)) as Hcs.
  { apply Forall_map. eapply Forall_impl; [|exact Hl]. apply label_ok_name. }
  exists (join (map canon (map (map snd) labels))). split.
  - rewrite <- (app_nil_r (join _)). rewrite ltree_in_join_small.
    + rewrite Hn, map_map. f_equal. f_equal. apply map_ext. intros cs.
      apply name_of_canon.
    + apply Forall_map. eapply Forall_impl; [|exact Hcs]. apply canon_label_ok.
    + reflexivity.
    + rewrite !length_map. exact Hlim.
    + rewrite !length_map. exact Hsmall.
  - rewrite Hn. apply ltree_out_mk_ltree. exact Hcs.
Qed.

(** *** The outcomes of [ltree_in] *)

Lemma count_loop_chars cs : forall fuel escape_mode levels,
  Forall (wf_char H) cs -> (List.length (List.concat cs) < fuel)%nat ->
  count_loop H fuel false (List.concat cs) escape_mode levels 0
  = Ok (levels + Z.of_nat (dots_in cs escape_mode), 0).
Proof.
  induction cs as [|c cs IH]; intros fuel escape_mode levels Hcs Hfuel.
  - destruct fuel; [cbn in Hfuel; lia|]. cbn. f_equal. f_equal. lia.
  - apply Forall_cons_iff in Hcs as [Hc Hcs]. cbn [List.concat] in *.
    rewrite length_app in Hfuel. pose proof (wf_char_len c Hc).
    destruct fuel as [|fuel]; [lia|].
    rewrite count_loop_char by assumption. cbn [dots_in].
    destruct escape_mode; [apply IH; auto; lia|].
    destruct (single c "\"); [apply IH; auto; lia|].
    destruct (single c "."); rewrite IH by (auto; lia); f_equal; f_equal; lia.
Qed.

Lemma nth_error_in_bounds {A} (l : list A) i :
  (i < List.length l)%nat -> exists x, nth_error l i = Some x.
Proof.
  intros Hlt. destruct (nth_error l i) eqn:E; eauto.
  apply nth_error_None in E. lia.
Qed.

(** A turn of the loop with the item at [lptr] inside the array. *)
Lemma ltree_in_step_bounds buf st c cs :
  skipn (lt_ptr st) buf = c ++ List.concat cs -> wf_char H c ->
  (lt_lptr st + dots_in (c :: cs) (escaped_next (lt_state st))
   < List.length (lt_list st))%nat ->
  match ltree_in_step H buf st with
  | Ok st' =>
      lt_ptr st' = (lt_ptr st + List.length c)%nat /\
      (lt_lptr st' + dots_in cs (escaped_next (lt_state st'))
       < List.length (lt_list st'))%nat
  | Raise e => classified e
  | _ => False
  end.
Proof.
  intros Hs Hc Hb.
  destruct (nth_error_in_bounds (lt_list st) (lt_lptr st)) as (it & Hit); [lia|].
  rewrite (ltree_in_step_char buf st c _ Hs Hc), (ltree_in_dispatch_char buf st c _ Hs Hc).
  cbv zeta. unfold aupd, aget. cbn [dots_in] in Hb.
  destruct (single c "\") eqn:Eb; destruct (single c ".") eqn:Ed;
    try (apply single_true in Eb; apply single_true in Ed; congruence);
    destruct (lt_state st) eqn:Est; cbn [escaped_next] in Hb;
    repeat progress (cbn [bind]; simpl_lt; rewrite ?Est;
                     rewrite ?(nth_error_replace_nth_eq _ _ _ _ Hit); rewrite ?Hit;
                     cbn [escaped_next]; rewrite ?length_replace_nth);
    try exact I; try (split; [reflexivity | lia]).
  all: destruct (255 <? ni_wlen it);
    repeat progress (cbn [bind]; simpl_lt; cbn [escaped_next];
                     rewrite ?length_replace_nth);
    try exact I; split; [reflexivity | lia].
Qed.

Lemma ltree_in_loop_bounds buf cs : forall fuel st,
  skipn (lt_ptr st) buf = List.concat cs -> Forall (wf_char H) cs ->
  (lt_ptr st <= List.length buf)%nat ->
  (lt_lptr st + dots_in cs (escaped_next (lt_state st)) < List.length (lt_list st))%nat ->
  (List.length (List.concat cs) < fuel)%nat ->
  match ltree_in_loop H fuel buf st with
  | Ok st' => (lt_lptr st' < List.length (lt_list st'))%nat
  | Raise e => classified e
  | _ => False
  end.
Proof.
  induction cs as [|c cs IH]; intros fuel st Hs Hcs Hle Hb Hfuel;
    (destruct fuel as [|fuel]; [lia|]).
  - rewrite ltree_in_loop_end; auto; [cbn in Hb; lia|].
    cbn in Hs. rewrite Hs. reflexivity.
  - apply Forall_cons_iff in Hcs as [Hc Hcs]. cbn [List.concat] in *.
    rewrite length_app in Hfuel.
    destruct (wf_char_skipn buf (lt_ptr st) c _ Hs Hc) as [Hle' Hlt].
    pose proof (wf_char_len c Hc). cbn [ltree_in_loop].
    replace (List.length buf <? lt_ptr st)%nat with false
      by (symmetry; apply Nat.ltb_ge; lia).
    rewrite Hs, head_not_NUL by assumption.
    pose proof (ltree_in_step_bounds buf st c cs Hs Hc Hb) as Hstep.
    destruct (ltree_in_step H buf st) as [st'| e | u |]; cbn [bind]; auto.
    destruct Hstep as [Hptr Hb']. apply IH; auto; try lia.
    rewrite Hptr. apply skipn_plus_app. exact Hs.
Qed.

Lemma ltree_in_finish_bounds st :
  (lt_lptr st < List.length (lt_list st))%nat ->
  match ltree_in_finish H st with
  | Ok _ => True
  | Raise e => classified e
  | _ => False
  end.
Proof.
  intros Hb. destruct (nth_error_in_bounds _ _ Hb) as (it & Hit).
  unfold ltree_in_finish, aget, aupd. rewrite Hit.
  destruct (lt_state st); cbn [bind]; auto.
  - destruct (lt_lptr st =? 0)%nat; exact I.
  - destruct (255 <? ni_wlen it); exact I.
  - exact I.
Qed.

Lemma ltree_in_fill_last buf items : forall curlevel lv last,
  ltree_in_fill H buf items curlevel = Ok (lv, last) -> last = ltree_end H lv curlevel.
Proof.
  induction items as [|it items IH]; intros curlevel lv last E; cbn [ltree_in_fill] in E.
  - inversion E. reflexivity.
  - cbv zeta in E. apply bind_Ok in E as (name & _ & E).
    apply bind_Ok in E as ([lv' last'] & E1 & E). inversion E; subst.
    apply IH in E1. subst. reflexivity.
Qed.

Lemma ltree_in_unfold buf :
  ltree_in H buf =
  ('(levels, _) <- count_lquery_parts_ors H buf false ;;
   if Z.quot (MaxAllocSize H) (sizeof_nodeitem H) <? levels then
     Raise (TooManyLevels levels (Z.quot (MaxAllocSize H) (sizeof_nodeitem H)))
   else
     st <- (st <- ltree_in_loop H (S (List.length buf)) buf (ltree_in_init levels) ;;
            ltree_in_finish H st) ;;
     '(levels, _) <- ltree_in_fill H buf
                       (firstn (Z.to_nat (uint16 (Z.of_nat (lt_lptr st)))) (lt_list st))
                       (LTREE_HDRSIZE H) ;;
     Ok {| lt_vl_len := LTREE_HDRSIZE H + lt_totallen st;
           lt_numlevel := uint16 (Z.of_nat (lt_lptr st));
           lt_levels := levels |}).
Proof.
  unfold ltree_in. destruct (count_lquery_parts_ors H buf false) as [[levels ORs]| | |];
    cbn [bind]; auto.
  destruct (_ <? levels); auto.
  destruct (ltree_in_loop H _ buf _); reflexivity.
Qed.

Lemma ltree_end_shift levels a b :
  ltree_end H levels (a + b) = a + ltree_end H levels b.
Proof.
  revert b. induction levels as [|lv levels IH]; intros b; cbn; [reflexivity|].
  unfold ltree_end in IH. rewrite <- IH. f_equal. lia.
Qed.

Lemma mk_ltree_end names :
  lt_vl_len (mk_ltree H names)
  = ltree_end H (lt_levels (mk_ltree H names)) (LTREE_HDRSIZE H).
Proof.
  unfold mk_ltree. cbn [lt_vl_len lt_levels].
  rewrite <- (Z.add_0_r (LTREE_HDRSIZE H)) at 2. rewrite ltree_end_shift. f_equal.
  unfold ltree_end. generalize 0. induction names as [|nm names IH]; intros z;
    cbn [map fold_left]; [reflexivity|]. apply IH.
Qed.

Lemma ltree_in_cases cs :
  Forall (wf_char H) cs ->
  (exists e, ltree_in H (List.concat cs) = Raise e /\ classified e) \/
  (exists labels, Forall (label_ok H) labels /\
     Z.of_nat (List.length labels) <= Z.of_nat (dots_in cs false) + 1 /\
     ltree_in H (List.concat cs) = Ok (ltree_stored H (map name_of labels))).
Proof.
  intros Hcs.
  assert (count_lquery_parts_ors H (List.concat cs) false
          = Ok (Z.of_nat (dots_in cs false) + 1, 0)) as Ecount.
  { unfold count_lquery_parts_ors. rewrite count_loop_chars by (auto; lia). reflexivity. }
  destruct (Z.quot (MaxAllocSize H) (sizeof_nodeitem H) <? Z.of_nat (dots_in cs false) + 1)
    eqn:Elim.
  { left. eexists. rewrite ltree_in_unfold, Ecount. cbn [bind]. rewrite Elim.
    split; [reflexivity | exact I]. }
  pose proof (ltree_in_loop_bounds (List.concat cs) cs (S (List.length (List.concat cs)))
                (ltree_in_init (Z.of_nat (dots_in cs false) + 1)) eq_refl Hcs) as Hloop.
  cbn [ltree_in_init lt_ptr lt_lptr lt_list lt_state escaped_next] in Hloop.
  rewrite repeat_length in Hloop.
  specialize (Hloop ltac:(lia) ltac:(lia) ltac:(lia)).
  fold (ltree_in_init (Z.of_nat (dots_in cs false) + 1)) in Hloop.
  destruct (ltree_in_loop H _ _ _) as [st1| e | u |] eqn:Eloop; try contradiction.
  2:{ left. exists e. rewrite ltree_in_unfold, Ecount. cbn [bind]. rewrite Elim, Eloop.
      auto. }
  pose proof (ltree_in_finish_bounds st1 Hloop) as Hfin.
  destruct (ltree_in_finish H st1) as [st2| e | u |] eqn:Efin; try contradiction.
  2:{ left. exists e. rewrite ltree_in_unfold, Ecount. cbn [bind].
      rewrite Elim, Eloop. cbn [bind]. rewrite Efin. auto. }
  right.
  destruct (ltree_in_scan_labels _ _ _ _ Eloop Efin) as (labels & tail & Hbuf & Ht & Hl).
  exists labels. split; [exact Hl|]. rewrite Hbuf in Ecount |- *.
  rewrite count_lquery_parts_ors_join in Ecount by assumption.
  inversion Ecount as [Elev]. apply Z.ltb_ge in Elim.
  split; [lia|]. apply ltree_in_join; auto. lia.
Qed.

(** X6: [ltree_in] on a text of characters of the encoding: a record, or an
    error that reports on the text.  The record of a text of no more than
    65535 levels, which the 16 bits of [numlevel] hold, ends where the
    levels written end. *)
Lemma ltree_in_outcome cs :
  Forall (wf_char H) cs ->
  match ltree_in H (List.concat cs) with
  | Ok r =>
      forall levels ORs,
        count_lquery_parts_ors H (List.concat cs) false = Ok (levels, ORs) ->
        levels <= 65535 ->
        lt_vl_len r = ltree_end H (lt_levels r) (LTREE_HDRSIZE H)
  | Raise e => classified e
  | _ => False
  end.
Proof.
  intros Hcs. destruct (ltree_in_cases cs Hcs) as [(e & -> & He)|(labels & _ & Hn & ->)].
  - exact He.
  - intros levels ORs Ec Hlev.
    unfold count_lquery_parts_ors in Ec. rewrite count_loop_chars in Ec by (auto; lia).
    cbn [bind] in Ec. inversion Ec; subst levels ORs; clear Ec.
    rewrite ltree_stored_small by (rewrite length_map; lia).
    apply mk_ltree_end.
Qed.

(** C10: the label-path decoder accepts the empty text and returns the
    LabelPath of zero levels, a record of the size of its header alone. *)
Theorem ltree_in_empty :
  ltree_in H []
  = Ok {| lt_vl_len := LTREE_HDRSIZE H; lt_numlevel := 0; lt_levels := [] |}.
Proof.
  pose proof (levels_limit H Hok) as Hlim.
  pose proof (ltree_in_join_small [] [] (Forall_nil _) eq_refl) as E.
  cbn [join app List.length map] in E. rewrite E by (cbn; lia).
  unfold mk_ltree. cbn [map fold_left List.length]. rewrite Z.add_0_r. reflexivity.
Qed.

End RoundTrip.

Lemma ltree_in_empty_witness :
  ltree_in pg_host (txt "")
  = Ok {| lt_vl_len := LTREE_HDRSIZE pg_host; lt_numlevel := 0; lt_levels := [] |}.
Proof. apply (ltree_in_empty pg_host pg_host_ok). Defined.

(** ** The buffer of the label-path encoder *)

(** C1: for the label of sixteen dots the encoder allocates VARSIZE(in) = 32
    bytes; the loop stores 32 bytes in them, each dot with its backslash,
    and the NUL of line 275 is stored behind the buffer. *)
Theorem ltree_out_overruns_buffer :
  ltree_in pg_host (txt "\.\.\.\.\.\.\.\.\.\.\.\.\.\.\.\.") = Ok sixteen_dots /\
  ltree_out_alloc sixteen_dots = 32 /\
  ltree_out_loop pg_host (lt_levels sixteen_dots) 0 32 []
  = Ok (txt "\.\.\.\.\.\.\.\.\.\.\.\.\.\.\.\.") /\
  ltree_out_stored (txt "\.\.\.\.\.\.\.\.\.\.\.\.\.\.\.\.") = 33 /\
  ltree_out pg_host sixteen_dots = Undefined OutOfBounds.
Proof. repeat split; vm_compute; reflexivity. Qed.

(** ** Braces after a name *)

(** C7, as the source has it: the braces are characters of the name, and
    the pattern [a{1,2}] is one level of one alternative of six bytes. *)
Theorem lquery_in_brace_in_name :
  exists val totallen vl_len,
    lquery_in pg_host (txt "a{1,2}")
    = Ok {| lq_vl_len := vl_len; lq_numlevel := 1; lq_firstgood := 1;
            lq_flag := 0;
            lq_levels :=
              [{| lql_totallen := totallen; lql_flag := 0; lql_numvar := 1;
                  lql_low := 0; lql_high := 0;
                  lql_variants :=
                    [{| lvar_val := val; lvar_len := 6; lvar_flag := 0;
                        lvar_name := txt "a{1,2}" |}] |}] |}.
Proof. do 3 eexists. vm_compute. reflexivity. Qed.

(** C7 as the specification states it fails: the decoder raises no error
    on [a{1,2}]. *)
Lemma lquery_in_brace_no_error :
  ~ (exists e, lquery_in pg_host (txt "a{1,2}") = Raise e).
Proof. intros [e He]. vm_compute in He. discriminate. Qed.

(** ** A modifier given twice *)

(** C8: for [a@@] the decoder stores the name [a@] of two bytes, for [a@] the
    name [a] of one byte; the flags are the same. *)
Theorem lquery_in_modifier_twice :
  (exists r v, lquery_in pg_host (txt "a@@") = Ok r /\
     map lql_variants (lq_levels r) = [[v]] /\
     lvar_name v = txt "a@" /\ lvar_len v = 2 /\ lvar_flag v = LVAR_INCASE pg_host) /\
  (exists r v, lquery_in pg_host (txt "a@") = Ok r /\
     map lql_variants (lq_levels r) = [[v]] /\
     lvar_name v = txt "a" /\ lvar_len v = 1 /\ lvar_flag v = LVAR_INCASE pg_host).
Proof.
  split; do 2 eexists; (split; [vm_compute; reflexivity|]); cbn;
    repeat split; reflexivity.
Qed.

(** ** A separator after a quantifier *)

(** C4: for [*{1}|a] the array [tmpql] has one element, as the text has no
    dot; the parser moves on to a second level at the bar and stores its
    header behind the array. *)
Theorem lquery_in_store_outside_tmpql :
  count_lquery_parts_ors pg_host (txt "*{1}|a") true = Ok (1, 2) /\
  lquery_in pg_host (txt "*{1}|a") = Undefined OutOfBounds.
Proof. split; reflexivity. Qed.

Section LtreeInTexts.

Variable H : host.
Hypothesis Hok : host_ok H.

(** *** The texts that ltree_in accepts *)

(** X1: [ltree_in] accepts the texts of labels with dots between them, up to
    the NUL that ends the text, and no other: a label is 1 to 255
    characters, each escaped by a backslash or, where it is no backslash
    and no dot, as it is; the labels are no more than the limit of the
    allocation.  The result is the record of the names without their
    backslashes: its size is that of all the names, [numlevel] is what 16
    bits hold of their number, and that many levels are written, which
    are all of them where the labels are fewer than 65536. *)
Theorem ltree_in_accepts buf r :
  ltree_in H buf = Ok r <->
  exists labels tail,
    buf = join labels ++ tail /\ deref tail = NUL /\
    Forall (label_ok H) labels /\
    Z.of_nat (List.length labels) <= Z.quot (MaxAllocSize H) (sizeof_nodeitem H) /\
    r = ltree_stored H (map name_of labels) /\
    (Z.of_nat (List.length labels) <= 65535 -> r = mk_ltree H (map name_of labels)).
Proof.
  split.
  - intros E.
    destruct (ltree_in_Ok_labels H Hok buf r E) as (labels & tail & -> & Ht & Hl).
    pose proof (ltree_in_Ok_limit H Hok labels tail r Hl Ht E) as Hlim.
    rewrite (ltree_in_join H Hok) in E by assumption. inversion E.
    exists labels, tail. splits; auto.
    intros Hn. apply ltree_stored_small. rewrite length_map. exact Hn.
  - intros (labels & tail & -> & Ht & Hl & Hlim & -> & _).
    apply (ltree_in_join H Hok); assumption.
Qed.

(** *** Labels that end with a dot *)

Lemma closed_cons us labels : closed (us :: labels) = render us ++ ["."] ++ closed labels.
Proof. unfold closed. cbn [map List.concat]. rewrite <- app_assoc. reflexivity. Qed.

Lemma chars_read_cons us labels :
  chars_read (us :: labels) = (List.length us + escapes_of us + 1 + chars_read labels)%nat.
Proof. reflexivity. Qed.

Lemma count_loop_closed labels : forall fuel n rest levels,
  Forall (label_ok H) labels ->
  (List.length (closed labels) + n < fuel)%nat ->
  exists fuel', (n < fuel')%nat /\
    count_loop H fuel false (closed labels ++ rest) false levels 0
    = count_loop H fuel' false rest false (levels + Z.of_nat (List.length labels)) 0.
Proof.
  induction labels as [|us labels IH]; intros fuel n rest levels Hl Hfuel.
  - exists fuel. cbn in *. rewrite Z.add_0_r. split; [lia | reflexivity].
  - apply Forall_cons_iff in Hl as [(_ & Hus & _) Hl].
    rewrite closed_cons, !length_app in Hfuel. cbn [List.length] in Hfuel.
    rewrite closed_cons, <- !app_assoc.
    destruct (count_loop_render H Hok us fuel (S (List.length (closed labels) + n))
                (["."] ++ closed labels ++ rest) levels Hus)
      as (f1 & Hf1 & ->); [lia|].
    destruct f1 as [|f1]; [lia|].
    rewrite (count_loop_char H) by apply (wf_char_dot H Hok).
    replace (single ["."] "\") with false by reflexivity. rewrite single_refl.
    destruct (IH f1 n rest (levels + 1) Hl) as (f2 & Hf2 & ->); [lia|].
    exists f2. split; [exact Hf2|]. f_equal. cbn [List.length]. lia.
Qed.

(** The loop over labels that end with a dot: their items are written, and
    the loop waits for the name of the next label. *)
Lemma runs_to_closed buf labels : forall done k off total pos esc rest,
  Forall (label_ok H) labels ->
  skipn off buf = closed labels ++ rest ->
  (List.length labels <= k)%nat ->
  exists esc',
    runs_to H buf
      (lt_at LTPRS_WAITNAME done 0 0 k off total pos esc)
      (lt_at LTPRS_WAITNAME (done ++ items_of off labels) 0 0
         (k - List.length labels) (off + List.length (closed labels))
         (total_of H labels total) (pos + Z.of_nat (chars_read labels)) esc').
Proof.
  induction labels as [|us labels IH]; intros done k off total pos esc rest Hl Hs Hk.
  - exists esc. eapply runs_to_eq; [apply runs_to_refl|].
    cbn [items_of closed map List.concat List.length total_of fold_left].
    rewrite app_nil_r, Nat.sub_0_r, Nat.add_0_r. unfold chars_read.
    cbn [map list_sum fold_right]. rewrite Z.add_0_r. reflexivity.
  - apply Forall_cons_iff in Hl as [(Hune & Hus & Hlen) Hl].
    rewrite closed_cons, <- !app_assoc in Hs.
    pose proof (runs_to_label H Hok buf done k total 0%nat 0 us off pos esc _ Hune Hus Hs)
      as Hrun.
    pose proof (skipn_plus_app _ _ _ _ Hs) as Hs1.
    pose proof (skipn_plus_app _ _ _ _ Hs1) as Hs2.
    cbn [List.length] in Hk. destruct k as [|k]; [lia|].
    destruct (IH (done ++ [item off (Z.of_nat (List.length (name_of us)))
                             (Z.of_nat (List.length us))])
                 k (off + List.length (render us) + 1)%nat
                 (total + MAXALIGN H (Z.of_nat (List.length (name_of us)) + LEVEL_HDRSIZE H))
                 (pos + Z.of_nat (List.length us + escapes_of us) + 1)
                 (Z.of_nat (escapes_of us)) rest Hl Hs2) as (esc' & Hrest); [lia|].
    exists esc'.
    eapply runs_to_trans; [exact Hrun|].
    eapply runs_to_trans.
    { eapply runs_to_eq.
      { eapply (runs_to_step H Hok); [exact Hs1 | apply (wf_char_dot H Hok)|].
        apply ltree_in_step_delim_dot with (c := ["."]) (rest := closed labels ++ rest);
          auto using wf_char_dot, single_refl. lia. }
      replace (Z.of_nat (off + List.length (render us)) - Z.of_nat off
               - Z.of_nat (escapes_of us))
        with (Z.of_nat (List.length (name_of us)))
        by (pose proof (label_len us); lia).
      reflexivity. }
    eapply runs_to_eq; [exact Hrest|].
    rewrite closed_cons, chars_read_cons, !length_app. cbn [List.length items_of].
    rewrite <- app_assoc. cbn [app]. f_equal; try lia.
Qed.

Lemma count_loop_chars_tail cs : forall fuel escape_mode levels tail,
  Forall (wf_char H) cs -> deref tail = NUL ->
  (List.length (List.concat cs) < fuel)%nat ->
  count_loop H fuel false (List.concat cs ++ tail) escape_mode levels 0
  = Ok (levels + Z.of_nat (dots_in cs escape_mode), 0).
Proof.
  induction cs as [|c cs IH]; intros fuel escape_mode levels tail Hcs Ht Hfuel.
  - destruct fuel; [cbn in Hfuel; lia|]. cbn [List.concat app dots_in].
    rewrite (count_loop_end H) by assumption. f_equal. f_equal. lia.
  - apply Forall_cons_iff in Hcs as [Hc Hcs]. cbn [List.concat] in *.
    rewrite length_app in Hfuel. pose proof (wf_char_len H Hok c Hc).
    destruct fuel as [|fuel]; [lia|]. rewrite <- app_assoc.
    rewrite (count_loop_char H) by assumption. cbn [dots_in].
    destruct escape_mode; [apply IH; auto; lia|].
    destruct (single c "\"); [apply IH; auto; lia|].
    destruct (single c "."); rewrite IH by (auto; lia); f_equal; f_equal; lia.
Qed.

(** The levels counted in a text: labels that end with a dot, characters of
    a label, and the characters that follow them. *)
Lemma count_lquery_parts_ors_text labels us cs tail :
  Forall (label_ok H) labels -> Forall (unit_ok H) us -> Forall (wf_char H) cs ->
  deref tail = NUL ->
  count_lquery_parts_ors H (closed labels ++ render us ++ List.concat cs ++ tail) false
  = Ok (Z.of_nat (List.length labels + dots_in cs false) + 1, 0).
Proof.
  intros Hl Hus Hcs Ht. unfold count_lquery_parts_ors.
  rewrite !length_app.
  destruct (count_loop_closed labels
              (S (List.length (closed labels) + (List.length (render us)
                    + (List.length (List.concat cs) + List.length tail))))
              (List.length (render us) + List.length (List.concat cs))%nat
              (render us ++ List.concat cs ++ tail) 0 Hl) as (f1 & Hf1 & ->); [lia|].
  destruct (count_loop_render H Hok us f1 (List.length (List.concat cs))
              (List.concat cs ++ tail) (0 + Z.of_nat (List.length labels)) Hus)
    as (f2 & Hf2 & ->); [lia|].
  rewrite count_loop_chars_tail by assumption. cbn [bind]. f_equal. f_equal. lia.
Qed.

Lemma ltree_in_init_at levels :
  1 <= levels ->
  ltree_in_init levels = lt_at LTPRS_WAITNAME [] 0 0 (Z.to_nat levels - 1) 0 0 0 0.
Proof.
  intros Hl. unfold ltree_in_init, lt_at. cbn [app List.length].
  destruct (Z.to_nat levels) as [|n] eqn:E; [lia|].
  cbn [repeat]. rewrite Nat.sub_succ, Nat.sub_0_r. reflexivity.
Qed.

(** An error of the loop or of the checks after it, in a state that the
    loop comes to, is the error of [ltree_in]. *)
Lemma ltree_in_Raise_at buf levels ORs st e :
  count_lquery_parts_ors H buf false = Ok (levels, ORs) ->
  levels <= Z.quot (MaxAllocSize H) (sizeof_nodeitem H) ->
  runs_to H buf (ltree_in_init levels) st ->
  (forall fuel, (List.length buf - lt_ptr st < fuel)%nat ->
     (s <- ltree_in_loop H fuel buf st ;; ltree_in_finish H s) = Raise e) ->
  ltree_in H buf = Raise e.
Proof.
  intros Ecount Hlim Hrun Hraise. rewrite ltree_in_unfold, Ecount. cbn [bind].
  replace (_ <? levels) with false by (symmetry; apply Z.ltb_ge; lia).
  destruct (Hrun (S (List.length buf))) as (fuel' & Hf & ->).
  { unfold ltree_in_init. cbn [lt_ptr]. lia. }
  rewrite (Hraise fuel' Hf). reflexivity.
Qed.

(** The state after the labels [labels], each with its dot. *)
Lemma ltree_in_runs_closed labels rest levels :
  Forall (label_ok H) labels ->
  (List.length labels < Z.to_nat levels)%nat ->
  exists esc,
    runs_to H (closed labels ++ rest) (ltree_in_init levels)
      (lt_at LTPRS_WAITNAME (items_of 0 labels) 0 0
         (Z.to_nat levels - 1 - List.length labels) (List.length (closed labels))
         (total_of H labels 0) (Z.of_nat (chars_read labels)) esc).
Proof.
  intros Hl Hlev. rewrite ltree_in_init_at by lia.
  destruct (runs_to_closed (closed labels ++ rest) labels [] (Z.to_nat levels - 1)
              0%nat 0 0 0 rest Hl eq_refl) as (esc & Hrun); [lia|].
  exists esc. exact Hrun.
Qed.

Lemma ltree_in_loop_step buf st c rest fuel :
  skipn (lt_ptr st) buf = c ++ rest -> wf_char H c ->
  ltree_in_loop H (S fuel) buf st
  = (st' <- ltree_in_step H buf st ;; ltree_in_loop H fuel buf st').
Proof.
  intros Hs Hc. destruct (wf_char_skipn H Hok buf (lt_ptr st) c rest Hs Hc) as [_ Hlt].
  cbn [ltree_in_loop].
  replace (List.length buf <? lt_ptr st)%nat with false by (symmetry; apply Nat.ltb_ge; lia).
  rewrite Hs, (head_not_NUL H) by assumption. reflexivity.
Qed.

(** The loop raises the error of the turn at [st]. *)
Lemma raise_by_step buf st c rest e :
  skipn (lt_ptr st) buf = c ++ rest -> wf_char H c ->
  ltree_in_step H buf st = Raise e ->
  forall fuel, (List.length buf - lt_ptr st < fuel)%nat ->
  (s <- ltree_in_loop H fuel buf st ;; ltree_in_finish H s) = Raise e.
Proof.
  intros Hs Hc Hstep fuel Hf. destruct fuel as [|fuel]; [lia|].
  rewrite (ltree_in_loop_step buf st c rest) by assumption. rewrite Hstep. reflexivity.
Qed.

(** The loop ends at [st], and the checks after it raise the error. *)
Lemma raise_by_finish buf st e :
  (lt_ptr st <= List.length buf)%nat -> deref (skipn (lt_ptr st) buf) = NUL ->
  ltree_in_finish H st = Raise e ->
  forall fuel, (List.length buf - lt_ptr st < fuel)%nat ->
  (s <- ltree_in_loop H fuel buf st ;; ltree_in_finish H s) = Raise e.
Proof.
  intros Hle Hn Hfin fuel Hf. destruct fuel as [|fuel]; [lia|].
  rewrite (ltree_in_loop_end H) by assumption. exact Hfin.
Qed.

Lemma skipn_app_bound {A} (buf pre rest : list A) off :
  skipn off buf = pre ++ rest -> pre <> [] ->
  (off + List.length pre <= List.length buf)%nat.
Proof.
  intros Hs Hne.
  assert (List.length (skipn off buf) = List.length (pre ++ rest)) as Hl
    by (rewrite Hs; reflexivity).
  rewrite length_skipn, length_app in Hl.
  destruct pre; [contradiction|]. cbn [List.length] in *. lia.
Qed.

Ltac step_at Hs Hc :=
  match goal with
  | |- context [ltree_in_step ?h ?b ?st] =>
      rewrite (ltree_in_step_char h b st _ _ Hs Hc),
              (ltree_in_dispatch_char h b st _ _ Hs Hc)
  end;
  unfold lt_at, item; cbv zeta; simpl_lt;
  repeat progress (cbn [bind]; simpl_lt; rewrite ?aupd_mid, ?aget_mid).

(** *** A dot where a label starts *)

(** X2: a dot at the start of the text or after the dot that ends a label is a
    syntax error at the position of that dot, the number of characters in
    front of it. *)
Theorem ltree_in_empty_label labels cs tail :
  Forall (label_ok H) labels -> Forall (wf_char H) cs -> deref tail = NUL ->
  Z.of_nat (List.length labels + dots_in cs false) + 2
  <= Z.quot (MaxAllocSize H) (sizeof_nodeitem H) ->
  ltree_in H (closed labels ++ ["."] ++ List.concat cs ++ tail)
  = Raise (SyntaxErrorAt (Z.of_nat (chars_read labels))).
Proof.
  intros Hl Hcs Ht Hlim.
  pose proof (count_lquery_parts_ors_text labels [] (["."] :: cs) tail Hl
                (Forall_nil _) (Forall_cons _ (wf_char_dot H Hok) Hcs) Ht) as Ecount.
  cbn [dots_in] in Ecount.
  replace (single ["."] "\") with false in Ecount by reflexivity.
  rewrite single_refl in Ecount.
  change (render [] ++ List.concat (["."] :: cs) ++ tail)
    with (["."] ++ List.concat cs ++ tail) in Ecount.
  destruct (ltree_in_runs_closed labels (["."] ++ List.concat cs ++ tail)
              (Z.of_nat (List.length labels + S (dots_in cs false)) + 1) Hl)
    as (esc & Hrun); [lia|].
  eapply ltree_in_Raise_at; [exact Ecount | lia | exact Hrun|].
  pose proof (skipn_app_exact (closed labels) (["."] ++ List.concat cs ++ tail)) as Hs.
  eapply raise_by_step; [exact Hs | apply (wf_char_dot H Hok)|].
  step_at Hs (wf_char_dot H Hok). rewrite single_refl. reflexivity.
Qed.

(** *** The end of the text where a character is to come *)

(** X3: a text that ends after the dot of a label, or after a backslash, is a
    syntax error: unexpected end of line. *)
Theorem ltree_in_unexpected_end labels us tail :
  Forall (label_ok H) labels -> Forall (unit_ok H) us -> deref tail = NUL ->
  Z.of_nat (List.length labels) + 1 <= Z.quot (MaxAllocSize H) (sizeof_nodeitem H) ->
  (labels <> [] -> ltree_in H (closed labels ++ tail) = Raise UnexpectedEnd) /\
  ltree_in H (closed labels ++ render us ++ ["\"] ++ tail) = Raise UnexpectedEnd.
Proof.
  intros Hl Hus Ht Hlim. split.
  - intros Hne.
    pose proof (count_lquery_parts_ors_text labels [] [] tail Hl
                  (Forall_nil _) (Forall_nil _) Ht) as Ecount.
    change (render [] ++ List.concat [] ++ tail) with tail in Ecount.
    cbn [dots_in] in Ecount. rewrite Nat.add_0_r in Ecount.
    destruct (ltree_in_runs_closed labels tail (Z.of_nat (List.length labels) + 1) Hl)
      as (esc & Hrun); [lia|].
    eapply ltree_in_Raise_at; [exact Ecount | lia | exact Hrun|].
    apply raise_by_finish; unfold lt_at; simpl_lt.
    + rewrite length_app. lia.
    + rewrite skipn_app_exact. exact Ht.
    + unfold ltree_in_finish. simpl_lt. rewrite items_of_length.
      destruct labels; [contradiction | reflexivity].
  - pose proof (count_lquery_parts_ors_text labels us [["\"]] tail Hl Hus
                  (Forall_cons _ (wf_char_backslash H Hok) (Forall_nil _)) Ht) as Ecount.
    cbn [dots_in] in Ecount. rewrite single_refl in Ecount.
    cbn [dots_in] in Ecount. rewrite Nat.add_0_r in Ecount.
    change (List.concat [["\"]] ++ tail) with (["\"] ++ tail) in Ecount.
    destruct (ltree_in_runs_closed labels (render us ++ ["\"] ++ tail)
                (Z.of_nat (List.length labels) + 1) Hl) as (esc & Hrun); [lia|].
    pose proof (skipn_app_exact (closed labels) (render us ++ ["\"] ++ tail)) as Hs.
    set (buf := closed labels ++ render us ++ ["\"] ++ tail) in *.
    destruct us as [|u us].
    + change (render [] ++ ["\"] ++ tail) with (["\"] ++ tail) in Hs.
      pose proof (skipn_plus_app _ _ _ _ Hs) as Hs1.
      pose proof (skipn_app_bound _ _ _ _ Hs ltac:(discriminate)) as Hb.
      eapply ltree_in_Raise_at; [exact Ecount | lia | |].
      { eapply runs_to_trans; [exact Hrun|].
        eapply (runs_to_step H Hok); [exact Hs | apply (wf_char_backslash H Hok)|].
        apply ltree_in_step_name_backslash with (c := ["\"]) (rest := tail);
          auto using wf_char_backslash, single_refl. }
      apply raise_by_finish; unfold lt_at; simpl_lt; auto.
      rewrite Hs1. exact Ht.
    + pose proof (runs_to_label H Hok buf (items_of 0 labels)
                    (Z.to_nat (Z.of_nat (List.length labels) + 1) - 1 - List.length labels)
                    (total_of H labels 0) 0%nat 0 (u :: us) (List.length (closed labels))
                    (Z.of_nat (chars_read labels)) esc _ ltac:(discriminate) Hus Hs) as Hrun1.
      pose proof (skipn_plus_app _ _ _ _ Hs) as Hs1.
      pose proof (skipn_plus_app _ _ _ _ Hs1) as Hs2.
      pose proof (skipn_app_bound _ _ _ _ Hs1 ltac:(discriminate)) as Hb.
      eapply ltree_in_Raise_at; [exact Ecount | lia | |].
      { eapply runs_to_trans; [exact Hrun|].
        eapply runs_to_trans; [exact Hrun1|].
        eapply (runs_to_step H Hok); [exact Hs1 | apply (wf_char_backslash H Hok)|].
        apply ltree_in_step_delim_backslash with (c := ["\"]) (rest := tail);
          auto using wf_char_backslash, single_refl. }
      apply raise_by_finish; unfold lt_at; simpl_lt; auto.
      rewrite Hs2. exact Ht.
Qed.

(** *** A label of more than 255 characters *)

(** X4: a label of more than 255 characters, at the end of the text or in front
    of a dot, raises the error of a name too long, which reports the number
    of its characters and the position of its end. *)
Theorem ltree_in_name_too_long labels us cs tail :
  Forall (label_ok H) labels -> Forall (unit_ok H) us -> (255 < List.length us)%nat ->
  Forall (wf_char H) cs -> match cs with [] => True | c :: _ => c = ["."] end ->
  deref tail = NUL ->
  Z.of_nat (List.length labels + dots_in cs false) + 1
  <= Z.quot (MaxAllocSize H) (sizeof_nodeitem H) ->
  ltree_in H (closed labels ++ render us ++ List.concat cs ++ tail)
  = Raise (NameTooLong (Z.of_nat (List.length us))
             (Z.of_nat (chars_read labels + List.length us + escapes_of us))).
Proof.
  intros Hl Hus Hlong Hcs Hdot Ht Hlim.
  pose proof (count_lquery_parts_ors_text labels us cs tail Hl Hus Hcs Ht) as Ecount.
  destruct (ltree_in_runs_closed labels (render us ++ List.concat cs ++ tail)
              (Z.of_nat (List.length labels + dots_in cs false) + 1) Hl)
    as (esc & Hrun); [lia|].
  pose proof (skipn_app_exact (closed labels) (render us ++ List.concat cs ++ tail)) as Hs.
  set (buf := closed labels ++ render us ++ List.concat cs ++ tail) in *.
  assert (us <> []) as Hne by (destruct us; [cbn in Hlong; lia | discriminate]).
  pose proof (runs_to_label H Hok buf (items_of 0 labels)
                (Z.to_nat (Z.of_nat (List.length labels + dots_in cs false) + 1) - 1
                 - List.length labels)
                (total_of H labels 0) 0%nat 0 us (List.length (closed labels))
                (Z.of_nat (chars_read labels)) esc _ Hne Hus Hs) as Hrun1.
  pose proof (skipn_plus_app _ _ _ _ Hs) as Hs1.
  assert (render us <> []) as Hrne.
  { intros E. pose proof (render_length us) as Hrl. rewrite E in Hrl.
    pose proof (name_of_length_ge H Hok us Hus). cbn in Hrl. lia. }
  pose proof (skipn_app_bound _ _ _ _ Hs Hrne) as Hb.
  eapply ltree_in_Raise_at; [exact Ecount | lia | |].
  { eapply runs_to_trans; [exact Hrun | exact Hrun1]. }
  replace (Z.of_nat (chars_read labels + List.length us + escapes_of us))
    with (Z.of_nat (chars_read labels) + Z.of_nat (List.length us + escapes_of us)) by lia.
  destruct cs as [|c cs].
  - apply raise_by_finish; unfold lt_at; simpl_lt; auto.
    + rewrite Hs1. exact Ht.
    + unfold ltree_in_finish, item. simpl_lt. rewrite aget_mid. cbn [bind]. simpl_lt.
      rewrite aupd_mid. cbn [bind].
      replace (255 <? Z.of_nat (List.length us)) with true
        by (symmetry; apply Z.ltb_lt; lia).
      reflexivity.
  - subst c. change (List.concat (["."] :: cs) ++ tail)
      with (["."] ++ List.concat cs ++ tail) in Hs1.
    eapply raise_by_step; [exact Hs1 | apply (wf_char_dot H Hok)|].
    step_at Hs1 (wf_char_dot H Hok). rewrite single_refl.
    repeat progress (cbn [bind]; simpl_lt; rewrite ?aupd_mid, ?aget_mid).
    replace (255 <? Z.of_nat (List.length us)) with true
      by (symmetry; apply Z.ltb_lt; lia).
    reflexivity.
Qed.

(** *** More levels than can be allocated *)

(** X5: a text with more levels than [MaxAllocSize / sizeof(nodeitem)] raises
    the error of the limit, before a character of it is read: the levels
    are the dots that no backslash escapes, and one. *)
Theorem ltree_in_too_many_levels cs tail :
  Forall (wf_char H) cs -> deref tail = NUL ->
  Z.quot (MaxAllocSize H) (sizeof_nodeitem H) < Z.of_nat (dots_in cs false) + 1 ->
  ltree_in H (List.concat cs ++ tail)
  = Raise (TooManyLevels (Z.of_nat (dots_in cs false) + 1)
             (Z.quot (MaxAllocSize H) (sizeof_nodeitem H))).
Proof.
  intros Hcs Ht Hlim.
  pose proof (count_lquery_parts_ors_text [] [] cs tail (Forall_nil _) (Forall_nil _)
                Hcs Ht) as Ecount.
  change (closed [] ++ render [] ++ List.concat cs ++ tail)
    with (List.concat cs ++ tail) in Ecount.
  cbn [List.length Nat.add] in Ecount.
  rewrite ltree_in_unfold, Ecount. cbn [bind].
  replace (_ <? _) with true by (symmetry; apply Z.ltb_lt; lia). reflexivity.
Qed.

End LtreeInTexts.

Lemma small_host_ok : host_ok small_host.
Proof.
  split.
  - apply (mblen_pos pg_host pg_host_ok).
  - apply (mblen_max pg_host pg_host_ok).
  - apply (mblen_ascii pg_host pg_host_ok).
  - discriminate.
  - vm_compute. discriminate.
Qed.

(** A character of ASCII other than backslash and dot, as it is in a label. *)
Lemma unit_ok_plain H (Hok : host_ok H) a :
  a <> NUL -> (nat_of_ascii a < 128)%nat -> a <> "\" -> a <> "." ->
  unit_ok H (false, [a]).
Proof.
  intros Hn Ha Hb Hd. split; cbn [fst snd].
  - apply (wf_char_ascii H Hok); assumption.
  - intros _. split; congruence.
Qed.

Lemma label_ok_a : label_ok pg_host [(false, ["a"])].
Proof.
  split; [discriminate|]. split; [|cbn; lia].
  constructor; [|constructor].
  apply (unit_ok_plain pg_host pg_host_ok); try discriminate. vm_compute. lia.
Qed.

(** *** The round trip of a label path *)

Lemma join_repeat us n :
  join (repeat us (S n)) = List.concat (repeat (render us ++ ["."]) n) ++ render us.
Proof.
  induction n as [|n IH]; [cbn [repeat join List.concat app]; reflexivity|].
  change (repeat us (S (S n))) with (us :: repeat us (S n)).
  change (join (us :: repeat us (S n)))
    with (render us ++ "." :: join (repeat us (S n))).
  rewrite IH. cbn [repeat List.concat]. rewrite <- !app_assoc. reflexivity.
Qed.

Lemma mk_ltree_size_repeat (H : host) (nm : text) n a :
  fold_left (fun t nm => t + MAXALIGN H (Z.of_nat (List.length nm) + LEVEL_HDRSIZE H))
    (repeat nm n) a
  = a + Z.of_nat n * MAXALIGN H (Z.of_nat (List.length nm) + LEVEL_HDRSIZE H).
Proof.
  revert a. induction n as [|n IH]; intros a; [cbn [repeat fold_left]; lia|].
  cbn [repeat fold_left]. rewrite IH. lia.
Qed.

Lemma many_labels_record :
  ltree_in pg_host many_labels
  = Ok {| lt_vl_len := 524296; lt_numlevel := 0; lt_levels := [] |}.
Proof.
  assert (many_labels = join (repeat [(false, ["a"])] (Z.to_nat 65536)) ++ []) as ->.
  { rewrite app_nil_r. change (Z.to_nat 65536) with (S (Z.to_nat 65535)).
    rewrite join_repeat. reflexivity. }
  rewrite (ltree_in_join pg_host pg_host_ok).
  - unfold ltree_stored, mk_ltree. cbn [lt_vl_len].
    rewrite map_repeat, repeat_length, mk_ltree_size_repeat.
    rewrite Z2Nat.id by lia. reflexivity.
  - apply Forall_forall. intros us Hus. apply repeat_spec in Hus. subst us.
    exact label_ok_a.
  - reflexivity.
  - rewrite repeat_length, Z2Nat.id by lia.
    replace (Z.quot (MaxAllocSize pg_host) (sizeof_nodeitem pg_host)) with 44739242
      by reflexivity.
    lia.
Qed.

(** C3: a text that [ltree_in] accepts, of no more levels than the 16 bits of
    [numlevel] hold, is read back to the same record from the text that
    [ltree_out] writes for the record, in every case in which the buffer of
    [ltree_out] has room for that text and its NUL; it has not for the text
    of sixteen escaped dots, for the record of which [ltree_out] stores
    behind its buffer.  The text of 65536 labels is accepted as well: its
    record has the size of all the labels and [numlevel] 0, [ltree_out]
    writes the empty text for it, and the record of the empty text is
    another. *)
Theorem ltree_round_trip :
  (forall H, host_ok H -> forall buf r levels ORs, ltree_in H buf = Ok r ->
     count_lquery_parts_ors H buf false = Ok (levels, ORs) -> levels <= 65535 ->
     exists out, ltree_in H out = Ok r /\
       ltree_out H r = if ltree_out_alloc r <? ltree_out_stored out
                       then Undefined OutOfBounds else Ok out) /\
  (exists r, ltree_in pg_host (txt "\.\.\.\.\.\.\.\.\.\.\.\.\.\.\.\.") = Ok r /\
     ltree_out pg_host r = Undefined OutOfBounds) /\
  (ltree_in pg_host many_labels
   = Ok {| lt_vl_len := 524296; lt_numlevel := 0; lt_levels := [] |} /\
   ltree_out pg_host {| lt_vl_len := 524296; lt_numlevel := 0; lt_levels := [] |}
   = Ok [] /\
   ltree_in pg_host []
   = Ok {| lt_vl_len := 8; lt_numlevel := 0; lt_levels := [] |}).
Proof.
  split; [|split].
  - intros H Hok buf r levels ORs. apply ltree_in_out_in. exact Hok.
  - eexists. split; vm_compute; reflexivity.
  - split; [exact many_labels_record|]. split; reflexivity.
Qed.

Lemma ltree_round_trip_witness :
  exists r, ltree_in pg_host (txt "a\.b c.d") = Ok r /\
    exists out, ltree_in pg_host out = Ok r /\
      ltree_out pg_host r = if ltree_out_alloc r <? ltree_out_stored out
                            then Undefined OutOfBounds else Ok out.
Proof.
  eexists. split; [vm_compute; reflexivity|].
  apply (proj1 ltree_round_trip pg_host pg_host_ok (txt "a\.b c.d") _ 2 0).
  - vm_compute. reflexivity.
  - vm_compute. reflexivity.
  - vm_compute. discriminate.
Defined.

Lemma ltree_in_accepts_witness :
  exists r, ltree_in pg_host (txt "a\.b.c") = Ok r /\
  exists labels tail,
    txt "a\.b.c" = join labels ++ tail /\ deref tail = NUL /\
    Forall (label_ok pg_host) labels /\
    Z.of_nat (List.length labels)
    <= Z.quot (MaxAllocSize pg_host) (sizeof_nodeitem pg_host) /\
    r = ltree_stored pg_host (map name_of labels) /\
    (Z.of_nat (List.length labels) <= 65535 ->
     r = mk_ltree pg_host (map name_of labels)).
Proof.
  eexists. split; [vm_compute; reflexivity|].
  apply (proj1 (ltree_in_accepts pg_host pg_host_ok (txt "a\.b.c") _)).
  vm_compute. reflexivity.
Defined.

Lemma ltree_in_empty_label_witness :
  ltree_in pg_host (txt "a..b") = Raise (SyntaxErrorAt 2).
Proof.
  apply (ltree_in_empty_label pg_host pg_host_ok [[(false, ["a"])]] [["b"]] []).
  - constructor; [apply label_ok_a | constructor].
  - constructor; [|constructor].
    apply (wf_char_ascii pg_host pg_host_ok); [discriminate | vm_compute; lia].
  - reflexivity.
  - vm_compute. discriminate.
Defined.

Lemma ltree_in_unexpected_end_witness :
  ltree_in pg_host (txt "a.") = Raise UnexpectedEnd /\
  ltree_in pg_host (txt "a.a\") = Raise UnexpectedEnd.
Proof.
  destruct (ltree_in_unexpected_end pg_host pg_host_ok
              [[(false, ["a"])]] [(false, ["a"])] []) as [E1 E2].
  - constructor; [apply label_ok_a | constructor].
  - apply label_ok_a.
  - reflexivity.
  - vm_compute. discriminate.
  - split; [apply E1; discriminate | exact E2].
Defined.

Lemma ltree_in_name_too_long_witness :
  ltree_in pg_host (repeat "a" 256 ++ txt ".b") = Raise (NameTooLong 256 256).
Proof.
  apply (ltree_in_name_too_long pg_host pg_host_ok [] (repeat (false, ["a"]) 256)
           [["."]; ["b"]] []).
  - constructor.
  - apply Forall_forall. intros u Hu. apply repeat_spec in Hu. subst u.
    apply (unit_ok_plain pg_host pg_host_ok); try discriminate. vm_compute. lia.
  - rewrite repeat_length. lia.
  - repeat constructor; try discriminate; vm_compute; lia.
  - reflexivity.
  - reflexivity.
  - vm_compute. discriminate.
Defined.

Lemma ltree_in_too_many_levels_witness :
  ltree_in small_host (txt "a.b.c") = Raise (TooManyLevels 3 2).
Proof.
  apply (ltree_in_too_many_levels small_host small_host_ok
           [["a"]; ["."]; ["b"]; ["."]; ["c"]] []).
  - repeat constructor; try discriminate; vm_compute; lia.
  - reflexivity.
  - vm_compute. reflexivity.
Defined.

Section CopyFunctions.

Variable H : host.
Hypothesis Hok : host_ok H.

(** *** The bytes that copy_unescaped stores *)

Lemma copy_unescaped_loop_length fuel : forall src max_len copied escaping dst out,
  max_len < 65536 -> Z.of_nat (List.length dst) <= copied <= max_len ->
  copy_unescaped_loop H fuel src max_len copied escaping dst = Ok out ->
  Z.of_nat (List.length out) <= max_len.
Proof.
  induction fuel as [|fuel IH]; intros src max_len copied escaping dst out Hmax Hc E;
    cbn [copy_unescaped_loop] in E; [discriminate|].
  destruct (negb (Ascii.eqb (deref src) NUL) && (copied <? max_len)) eqn:C.
  2:{ inversion E; subst. lia. }
  apply andb_prop in C as [_ C]. apply Z.ltb_lt in C. cbv zeta in E.
  destruct ((pg_mblen H src =? 1)%nat && t_iseq src "\" && negb escaping).
  { eapply IH; eauto. }
  destruct (max_len <? copied + Z.of_nat (pg_mblen H src)) eqn:C1; [discriminate|].
  apply Z.ltb_ge in C1.
  destruct (List.length src <? pg_mblen H src)%nat eqn:C2; [discriminate|].
  eapply IH in E; eauto.
  unfold uint16. rewrite Z.mod_small by lia. rewrite length_app, length_firstn. lia.
Qed.

(** X7: [copy_unescaped] stores [max_len] bytes at most: the destination that
    its callers size by [max_len] is not overrun. *)
Theorem copy_unescaped_length src max_len out :
  0 <= max_len < 65536 ->
  copy_unescaped H src max_len = Ok out ->
  Z.of_nat (List.length out) <= max_len.
Proof.
  intros Hmax E. unfold copy_unescaped in E.
  eapply copy_unescaped_loop_length in E; eauto; cbn; lia.
Qed.

(** *** The bytes that copy_escaped stores *)

Lemma copy_escaped_loop_length fuel :
  forall src len to_escape room copied escapes buf out e,
  len < 65536 -> 0 <= escapes <= copied -> copied <= len ->
  Z.of_nat (List.length buf) <= copied + escapes ->
  Z.of_nat (List.length buf) <= room ->
  copy_escaped_loop H fuel src len to_escape room copied escapes buf = Ok (out, e) ->
  Z.of_nat (List.length out) <= len + e /\ 0 <= e <= len /\
  Z.of_nat (List.length out) <= room.
Proof.
  induction fuel as [|fuel IH];
    intros src len to_escape room copied escapes buf out e Hlen He Hc Hb Hr E;
    cbn [copy_escaped_loop] in E; [discriminate|].
  destruct (negb (Ascii.eqb (deref src) NUL) && (copied <? len)) eqn:C.
  2:{ inversion E; subst. lia. }
  apply andb_prop in C as [_ C]. apply Z.ltb_lt in C. cbv zeta in E.
  destruct ((pg_mblen H src =? 1)%nat && strchr to_escape (deref src)) eqn:Cesc.
  - cbn [andb] in E.
    destruct (room <? Z.of_nat (List.length buf) + 1) eqn:C0; [discriminate|].
    apply Z.ltb_ge in C0.
    destruct (len <? copied + Z.of_nat (pg_mblen H src)) eqn:C1; [discriminate|].
    apply Z.ltb_ge in C1.
    destruct (List.length src <? pg_mblen H src)%nat eqn:C2; [discriminate|].
    destruct (room <? _) eqn:C3; [discriminate|]. apply Z.ltb_ge in C3.
    apply andb_prop in Cesc as [Cone _]. apply Nat.eqb_eq in Cone. rewrite Cone in *.
    eapply IH in E; eauto;
      unfold uint16; rewrite ?Z.mod_small by lia;
      rewrite ?length_app, ?length_firstn in *; cbn [List.length] in *; try lia.
  - cbn [andb] in E.
    destruct (len <? copied + Z.of_nat (pg_mblen H src)) eqn:C1; [discriminate|].
    apply Z.ltb_ge in C1.
    destruct (List.length src <? pg_mblen H src)%nat eqn:C2; [discriminate|].
    destruct (room <? _) eqn:C3; [discriminate|]. apply Z.ltb_ge in C3.
    eapply IH in E; eauto;
      unfold uint16; rewrite ?Z.mod_small by lia;
      rewrite ?length_app, ?length_firstn in *; try lia.
Qed.

(** X8: [copy_escaped] stores [len + escapes] bytes at most, of which
    [escapes], no more than [len], are backslashes: twice [len] bytes are
    room enough for it, and it returns no result where it has stored
    behind the [room] it has. *)
Theorem copy_escaped_length src len to_escape room out e :
  0 <= len < 65536 -> 0 <= room ->
  copy_escaped H src len to_escape room = Ok (out, e) ->
  Z.of_nat (List.length out) <= len + e /\ 0 <= e <= len /\
  Z.of_nat (List.length out) <= room.
Proof.
  intros Hlen Hroom E. unfold copy_escaped in E.
  eapply copy_escaped_loop_length in E; eauto; cbn; lia.
Qed.

(** *** copy_escaped, then copy_unescaped *)

Lemma is_escaped_spec to_escape c :
  (List.length c =? 1)%nat && strchr to_escape (deref c) = is_escaped to_escape c.
Proof. destruct c as [|x [|y c]]; reflexivity. Qed.

Lemma escape_chars_name to_escape cs :
  name_of (escape_chars to_escape cs) = List.concat cs.
Proof.
  unfold name_of, escape_chars. rewrite map_map. cbn [snd]. rewrite map_id. reflexivity.
Qed.

Lemma copy_escaped_loop_char_any fuel c rest len to_escape room copied escapes buf :
  wf_char H c -> copied + Z.of_nat (List.length c) <= len ->
  copy_escaped_loop H (S fuel) (c ++ rest) len to_escape room copied escapes buf =
  if room <? Z.of_nat (List.length (buf ++ render_unit (is_escaped to_escape c, c))) then
    Undefined OutOfBounds
  else
    copy_escaped_loop H fuel rest len to_escape room
      (uint16 (copied + Z.of_nat (List.length c)))
      (if is_escaped to_escape c then escapes + 1 else escapes)
      (buf ++ render_unit (is_escaped to_escape c, c)).
Proof.
  intros Hc Hle. pose proof (wf_char_len H Hok c Hc). cbn [copy_escaped_loop].
  rewrite (head_not_NUL H) by assumption.
  replace (copied <? len) with true by (symmetry; apply Z.ltb_lt; lia).
  cbn [negb andb]. rewrite (head_mblen H), (head_deref H) by assumption.
  rewrite is_escaped_spec.
  replace (len <? copied + Z.of_nat (List.length c)) with false
    by (symmetry; apply Z.ltb_ge; lia).
  rewrite head_fits, firstn_app_exact, skipn_app_exact.
  unfold render_unit. cbn [fst snd].
  destruct (is_escaped to_escape c); cbn [andb].
  - rewrite !length_app. cbn [List.length].
    destruct (room <? Z.of_nat (List.length buf) + 1) eqn:E1.
    + apply Z.ltb_lt in E1.
      replace (room <? _) with true by (symmetry; apply Z.ltb_lt; lia). reflexivity.
    + replace (Z.of_nat (List.length buf + 1) + Z.of_nat (List.length c))
        with (Z.of_nat (List.length buf + S (List.length c))) by lia.
      clear E1. destruct (room <? _); [reflexivity|]. rewrite <- app_assoc. reflexivity.
  - rewrite length_app.
    replace (Z.of_nat (List.length buf) + Z.of_nat (List.length c))
      with (Z.of_nat (List.length buf + List.length c)) by lia.
    reflexivity.
Qed.

Lemma copy_escaped_loop_chars_any to_escape cs :
  forall fuel len room copied escapes buf,
  Forall (wf_char H) cs ->
  (List.length (List.concat cs) < fuel)%nat ->
  0 <= copied -> len = copied + Z.of_nat (List.length (List.concat cs)) ->
  len < 65536 -> Z.of_nat (List.length buf) <= room ->
  copy_escaped_loop H fuel (List.concat cs) len to_escape room copied escapes buf
  = if room <? Z.of_nat (List.length (buf ++ render (escape_chars to_escape cs))) then
      Undefined OutOfBounds
    else Ok (buf ++ render (escape_chars to_escape cs),
             escapes + Z.of_nat (escapes_of (escape_chars to_escape cs))).
Proof.
  induction cs as [|c cs IH];
    intros fuel len room copied escapes buf Hcs Hfuel Hc Hlen Hlt Hroom.
  - destruct fuel; [cbn in Hfuel; lia|]. cbn in Hlen.
    rewrite copy_escaped_loop_end by lia. cbn [escape_chars map render List.concat].
    rewrite app_nil_r, Z.add_0_r.
    replace (room <? _) with false by (symmetry; apply Z.ltb_ge; lia). reflexivity.
  - apply Forall_cons_iff in Hcs as [Hwf Hcs]. cbn [List.concat] in *.
    rewrite length_app in Hfuel, Hlen. pose proof (wf_char_len H Hok c Hwf).
    destruct fuel as [|fuel]; [lia|].
    rewrite copy_escaped_loop_char_any by (auto; lia).
    assert (uint16 (copied + Z.of_nat (List.length c)) = copied + Z.of_nat (List.length c)) as Hu
      by (unfold uint16; apply Z.mod_small; lia).
    cbn [escape_chars map]. fold (escape_chars to_escape cs).
    rewrite render_cons, app_assoc.
    destruct (room <? Z.of_nat (List.length (buf ++ render_unit (is_escaped to_escape c, c))))
      eqn:E1.
    + apply Z.ltb_lt in E1.
      replace (room <? _) with true
        by (symmetry; apply Z.ltb_lt; rewrite (length_app (_ ++ _)); lia).
      reflexivity.
    + apply Z.ltb_ge in E1. rewrite Hu, IH; auto; try lia.
      destruct (room <? _); [reflexivity|]. f_equal. f_equal.
      unfold escapes_of. cbn [filter fst].
      destruct (is_escaped to_escape c); cbn [List.length]; lia.
Qed.

(** [copy_unescaped] over characters, escaped or not: a character that is
    not escaped is no backslash. *)
Lemma copy_unescaped_loop_units us : forall fuel rest max_len copied dst,
  Forall (fun u => wf_char H (snd u) /\ (fst u = false -> snd u <> ["\"])) us ->
  (List.length (render us) < fuel)%nat ->
  0 <= copied -> max_len = copied + Z.of_nat (List.length (name_of us)) ->
  max_len < 65536 ->
  copy_unescaped_loop H fuel (render us ++ rest) max_len copied false dst
  = Ok (dst ++ name_of us).
Proof.
  induction us as [|[e c] us IH]; intros fuel rest max_len copied dst Hus Hfuel Hc Hmax Hlt.
  - destruct fuel; [cbn in Hfuel; lia|]. cbn in Hmax.
    rewrite copy_unescaped_loop_end by lia. cbn. rewrite app_nil_r. reflexivity.
  - apply Forall_cons_iff in Hus as [[Hwf Hplain] Hus]. cbn [fst snd] in *.
    rewrite name_of_cons, length_app in Hmax. cbn [snd] in Hmax.
    pose proof (wf_char_len H Hok c Hwf) as Hcl.
    rewrite render_cons, length_app in Hfuel.
    assert (uint16 (copied + Z.of_nat (List.length c)) = copied + Z.of_nat (List.length c)) as Hu
      by (unfold uint16; apply Z.mod_small; lia).
    rewrite render_cons, name_of_cons, <- app_assoc. cbn [snd].
    destruct e; cbn [render_unit fst snd] in *.
    + destruct fuel as [|[|fuel]]; cbn [List.length] in Hfuel; try lia.
      change (("\" :: c) ++ render us ++ rest) with (["\"] ++ c ++ render us ++ rest).
      rewrite (copy_unescaped_loop_char H) by (auto using wf_char_backslash; lia).
      rewrite single_refl. cbn [negb andb tl app].
      rewrite (copy_unescaped_loop_char H) by (auto; lia).
      rewrite andb_false_r.
      replace (max_len <? copied + Z.of_nat (List.length c)) with false
        by (symmetry; apply Z.ltb_ge; lia).
      rewrite Hu, IH; auto; try lia. rewrite app_assoc. reflexivity.
    + destruct fuel as [|fuel]; [lia|].
      rewrite (copy_unescaped_loop_char H) by (auto; lia).
      rewrite (single_neq H c "\") by auto. cbn [andb].
      replace (max_len <? copied + Z.of_nat (List.length c)) with false
        by (symmetry; apply Z.ltb_ge; lia).
      rewrite Hu, IH; auto; try lia. rewrite app_assoc. reflexivity.
Qed.

Lemma escape_chars_units to_escape cs :
  Forall (wf_char H) cs -> strchr to_escape "\" = true ->
  Forall (fun u => wf_char H (snd u) /\ (fst u = false -> snd u <> ["\"]))
    (escape_chars to_escape cs).
Proof.
  intros Hcs Hb. unfold escape_chars. apply Forall_map.
  eapply Forall_impl; [|exact Hcs]. intros c Hc. cbn [fst snd]. split; [exact Hc|].
  intros E ->. cbn in E. congruence.
Qed.

(** X9: where [to_escape] has the backslash in it, [copy_unescaped] gives back
    the characters that [copy_escaped] has written with their backslashes,
    and [len + escapes] is the number of bytes written. *)
Theorem copy_escaped_unescaped cs to_escape room out e :
  Forall (wf_char H) cs -> strchr to_escape "\" = true ->
  Z.of_nat (List.length (List.concat cs)) < 65536 ->
  copy_escaped H (List.concat cs) (Z.of_nat (List.length (List.concat cs))) to_escape room
  = Ok (out, e) ->
  copy_unescaped H out (Z.of_nat (List.length (List.concat cs))) = Ok (List.concat cs) /\
  Z.of_nat (List.length out) = Z.of_nat (List.length (List.concat cs)) + e.
Proof.
  intros Hcs Hb Hlen E. unfold copy_escaped in E.
  destruct (Z.ltb_spec room 0) as [Hneg|Hroom].
  { (* no room at all: nothing can have been stored *)
    destruct cs as [|c cs].
    - cbn in E. inversion E; subst. split; reflexivity.
    - apply Forall_cons_iff in Hcs as [Hc Hcs']. cbn [List.concat] in *.
      rewrite length_app in Hlen.
      rewrite copy_escaped_loop_char_any in E by (auto; rewrite ?length_app; lia).
      replace (room <? _) with true in E by (symmetry; apply Z.ltb_lt; lia).
      discriminate. }
  rewrite (copy_escaped_loop_chars_any to_escape cs) in E by (auto; cbn; lia).
  destruct (room <? _); [discriminate|]. cbn [app] in E. inversion E; subst. clear E.
  split.
  - unfold copy_unescaped. rewrite <- (app_nil_r (render _)).
    rewrite copy_unescaped_loop_units; rewrite ?escape_chars_name;
      auto using escape_chars_units; try lia.
    rewrite app_nil_r. lia.
  - rewrite render_length, escape_chars_name. lia.
Qed.

End CopyFunctions.

Lemma copy_unescaped_length_witness :
  copy_unescaped pg_host (txt "a\.b.c") 3 = Ok (txt "a.b") /\
  Z.of_nat (List.length (txt "a.b")) <= 3.
Proof.
  split; [vm_compute; reflexivity|].
  apply (copy_unescaped_length pg_host (txt "a\.b.c") 3 (txt "a.b")).
  - lia.
  - vm_compute. reflexivity.
Defined.

Lemma copy_escaped_length_witness :
  copy_escaped pg_host (txt "a.b c") 3 (txt "\ .") 6 = Ok (txt "a\.b", 1) /\
  (Z.of_nat (List.length (txt "a\.b")) <= 3 + 1 /\ 0 <= 1 <= 3 /\
   Z.of_nat (List.length (txt "a\.b")) <= 6).
Proof.
  split; [vm_compute; reflexivity|].
  apply (copy_escaped_length pg_host (txt "a.b c") 3 (txt "\ .") 6 (txt "a\.b") 1).
  - lia.
  - lia.
  - vm_compute. reflexivity.
Defined.

Lemma copy_escaped_unescaped_witness :
  copy_escaped pg_host (txt "a.b\c") 5 (txt "\ .") 10 = Ok (txt "a\.b\\c", 2) /\
  (copy_unescaped pg_host (txt "a\.b\\c") 5 = Ok (txt "a.b\c") /\
   Z.of_nat (List.length (txt "a\.b\\c")) = 5 + 2).
Proof.
  split; [vm_compute; reflexivity|].
  apply (copy_escaped_unescaped pg_host pg_host_ok
           (map (fun a => [a]) (txt "a.b\c")) (txt "\ .") 10 (txt "a\.b\\c") 2).
  - repeat constructor; try discriminate; vm_compute; lia.
  - reflexivity.
  - vm_compute. reflexivity.
  - vm_compute. reflexivity.
Defined.

Section LtreeOutRoom.

Variable H : host.
Hypothesis Hok : host_ok H.

Lemma MAXALIGN_div k x :
  0 <= k -> MAXIMUM_ALIGNOF H = 2 ^ k ->
  MAXALIGN H x = (x + (2 ^ k - 1)) / 2 ^ k * 2 ^ k.
Proof.
  intros Hk E. unfold MAXALIGN. rewrite E.
  replace (2 ^ k - 1) with (Z.ones k) by (rewrite Z.ones_equiv; lia).
  rewrite <- Z.ldiff_land, Z.ldiff_ones_r, Z.shiftr_div_pow2, Z.shiftl_mul_pow2 by lia.
  reflexivity.
Qed.

(** MAXALIGN rounds up. *)
Lemma MAXALIGN_ge x : aligned_host H -> x <= MAXALIGN H x.
Proof.
  intros (k & Hk & E). rewrite (MAXALIGN_div k x Hk E).
  assert (0 < 2 ^ k) as Hp by (apply Z.pow_pos_nonneg; lia).
  pose proof (Z.div_mod (x + (2 ^ k - 1)) (2 ^ k) ltac:(lia)) as Hd.
  pose proof (Z.mod_pos_bound (x + (2 ^ k - 1)) (2 ^ k) Hp) as Hm.
  nia.
Qed.

Lemma dotted_length labels :
  List.length (dotted labels)
  = list_sum (map (fun us => S (List.length (render us))) labels).
Proof.
  unfold dotted. induction labels as [|us labels IH]; [reflexivity|].
  cbn [map List.concat list_sum fold_right]. rewrite length_app. cbn [List.length].
  rewrite IH. reflexivity.
Qed.

Lemma join_length labels :
  labels <> [] ->
  S (List.length (join labels))
  = list_sum (map (fun us => S (List.length (render us))) labels).
Proof.
  destruct labels as [|us labels]; [contradiction|]. intros _.
  rewrite join_cons, length_app, dotted_length. reflexivity.
Qed.

Lemma mk_ltree_size_ge css : forall a,
  aligned_host H ->
  a + Z.of_nat (list_sum (map (fun cs => List.length (List.concat cs)) css))
    + Z.of_nat (List.length css) * LEVEL_HDRSIZE H
  <= fold_left (fun t nm => t + MAXALIGN H (Z.of_nat (List.length nm) + LEVEL_HDRSIZE H))
       (map (@List.concat ascii) css) a.
Proof.
  induction css as [|cs css IH]; intros a Ha; cbn [map fold_left list_sum fold_right List.length].
  - lia.
  - specialize (IH (a + MAXALIGN H (Z.of_nat (List.length (List.concat cs)) + LEVEL_HDRSIZE H)) Ha).
    pose proof (MAXALIGN_ge (Z.of_nat (List.length (List.concat cs)) + LEVEL_HDRSIZE H) Ha).
    fold (list_sum (map (fun cs0 : list (list ascii) => List.length (List.concat cs0)) css)) in *.
    lia.
Qed.

Lemma canon_render_sum css :
  list_sum (map (fun us => S (List.length (render us))) (map canon css))
  = (list_sum (map (fun cs => List.length (List.concat cs)) css)
     + escapes_in css + List.length css)%nat.
Proof.
  unfold escapes_in. induction css as [|cs css IH]; [reflexivity|].
  cbn [map list_sum fold_right List.length].
  fold (list_sum (map (fun us => S (List.length (render us))) (map canon css))).
  fold (list_sum (map (fun cs0 : list (list ascii) => List.length (List.concat cs0)) css)).
  fold (list_sum (map (fun cs0 => escapes_of (canon cs0)) css)).
  rewrite IH, render_length, name_of_canon. lia.
Qed.

(** X10: the buffer of [ltree_out] has room for the text of a record whose
    names need few backslashes: no more than the bytes of the header of
    the record and, for each level, the bytes of its header but one. *)
Theorem ltree_out_fits css :
  Forall (name_ok H) css -> aligned_host H -> 1 <= LTREE_HDRSIZE H ->
  Z.of_nat (escapes_in css)
  <= LTREE_HDRSIZE H + Z.of_nat (List.length css) * (LEVEL_HDRSIZE H - 1) ->
  ltree_out H (mk_ltree H (map (@List.concat ascii) css)) = Ok (join (map canon css)).
Proof.
  intros Hcss Ha Hhdr Hesc. rewrite (ltree_out_mk_ltree H Hok) by assumption.
  replace (_ <? _) with false; [reflexivity|]. symmetry. apply Z.ltb_ge.
  unfold ltree_out_alloc, ltree_out_stored, mk_ltree. cbn [lt_vl_len].
  pose proof (mk_ltree_size_ge css 0 Ha) as Hsize.
  destruct css as [|cs css].
  - cbn. lia.
  - pose proof (join_length (map canon (cs :: css)) ltac:(discriminate)) as Hj.
    rewrite canon_render_sum in Hj.
    remember (cs :: css) as l eqn:El. clear El Hcss.
    remember (fold_left _ _ 0) as total eqn:Et. clear Et.
    remember (List.length (join (map canon l))) as stored eqn:Es. clear Es.
    unfold text in *. nia.
Qed.

End LtreeOutRoom.

Lemma pg_host_aligned : aligned_host pg_host.
Proof. exists 3. split; [lia | reflexivity]. Qed.

Lemma name_ok_ascii H (Hok : host_ok H) (s : text) :
  s <> [] -> (List.length s <= 255)%nat ->
  Forall (fun a => a <> NUL /\ (nat_of_ascii a < 128)%nat) s ->
  name_ok H (map (fun a => [a]) s).
Proof.
  intros Hne Hlen Hs. split; [destruct s; [contradiction | discriminate]|].
  split; [|rewrite length_map; exact Hlen].
  apply Forall_map. eapply Forall_impl; [|exact Hs].
  intros a [Ha Hl]. apply (wf_char_ascii H Hok); assumption.
Qed.

Lemma ltree_out_fits_witness :
  ltree_out pg_host (mk_ltree pg_host [txt "a b"; txt "c."])
  = Ok (txt "a\ b.c\.").
Proof.
  apply (ltree_out_fits pg_host pg_host_ok
           [map (fun a => [a]) (txt "a b"); map (fun a => [a]) (txt "c.")]).
  - repeat constructor; try discriminate; vm_compute; lia.
  - apply pg_host_aligned.
  - vm_compute. discriminate.
  - vm_compute. discriminate.
Defined.

Lemma ltree_in_outcome_witness :
  (exists r, ltree_in pg_host (txt "a.b") = Ok r /\
     lt_vl_len r = ltree_end pg_host (lt_levels r) (LTREE_HDRSIZE pg_host)) /\
  (exists e, ltree_in pg_host (txt "a..b") = Raise e /\ classified e).
Proof.
  split.
  - assert (Forall (wf_char pg_host) (map (fun a => [a]) (txt "a.b"))) as Hcs
      by (repeat constructor; try discriminate; vm_compute; lia).
    pose proof (ltree_in_outcome pg_host pg_host_ok _ Hcs) as Hout.
    destruct (ltree_in pg_host (List.concat (map (fun a => [a]) (txt "a.b"))))
      as [r| | |] eqn:E; vm_compute in E; try discriminate.
    exists r. split; [vm_compute; exact E|].
    apply (Hout 2 0); [vm_compute; reflexivity | vm_compute; discriminate].
  - assert (Forall (wf_char pg_host) (map (fun a => [a]) (txt "a..b"))) as Hcs
      by (repeat constructor; try discriminate; vm_compute; lia).
    pose proof (ltree_in_outcome pg_host pg_host_ok _ Hcs) as Hout.
    destruct (ltree_in pg_host (List.concat (map (fun a => [a]) (txt "a..b"))))
      as [| e | |] eqn:E; vm_compute in E; try discriminate.
    exists e. split; [vm_compute; exact E | exact Hout].
Defined.

(** ** The records that lquery_in returns *)

Section LqueryFormed.

Variable H : host.
Hypothesis Hok : host_ok H.




(** *** The array tmpql keeps its length *)












(** *** The sizing loop and the loop that fills the record *)

Lemma uint16_add a b : uint16 (uint16 a + b) = uint16 (a + b).
Proof. unfold uint16. apply Z.add_mod_idemp_l. lia. Qed.

Lemma lquery_in_fill_variants_size buf items : forall t vs t',
  lquery_in_fill_variants H buf items (uint16 t) = Ok (vs, t') ->
  t' = uint16 (fold_left (fun t v => t + MAXALIGN H (LVAR_HDRSIZE H + lvar_len v)) vs t) /\
  fold_left (fun t v => t + MAXALIGN H (LVAR_HDRSIZE H + lvar_len v)) vs t
  = fold_left (fun t lptr => t + MAXALIGN H (LVAR_HDRSIZE H + ni_len lptr)) items t.
Proof.
  induction items as [|it items IH]; intros t vs t' E; cbn [lquery_in_fill_variants] in E.
  - inversion E. split; reflexivity.
  - cbv zeta in E. rewrite uint16_add in E.
    repeat ok_step. destruct s0 as [vs0 t0]. inversion E; subst; clear E.
    apply IH in E1 as [E1 E2]. cbn [fold_left lvar_len]. split; assumption.
Qed.

Lemma lquery_in_fill_formed buf levels :
  Forall (level_wf H) levels ->
  forall cur wasbad firstgood lqlevels fg last t t',
  lquery_in_size H levels t = Ok t' ->
  lquery_in_fill H buf levels cur wasbad firstgood = Ok (lqlevels, fg, last) ->
  List.length lqlevels = List.length levels /\
  Forall (level_formed H) lqlevels /\
  t' = fold_left (fun t l => t + level_size H l) lqlevels t /\
  last = lquery_end H lqlevels cur.
Proof.
  induction 1 as [|q levels Hq Hwf IH];
    intros cur wasbad firstgood ls fg last t t' Es E.
  - cbn in E, Es. inversion E; inversion Es; subst. repeat split. constructor.
  - cbn [lquery_in_fill lquery_in_size] in E, Es. cbv zeta in Es.
    destruct (negb (tq_numvar q =? 0)) eqn:Cn.
    + apply negb_true_iff, Z.eqb_neq in Cn.
      destruct (variants_of_wf H q Hq Cn) as (a & neg & n & Hv & Hn & Hnv & _ & Ev).
      rewrite Ev in E, Es. cbn [bind] in E, Es.
      apply bind_Ok in E as ([vs tl] & Ef & E).
      apply bind_Ok in E as ([[ls' fg'] last'] & Er & E).
      inversion E; subst; clear E.
      pose proof (lquery_in_fill_variants_length H _ _ _ _ _ Ef) as Hlen.
      apply lquery_in_fill_variants_size in Ef as [Et1 Et2].
      rewrite length_firstn in Hlen.
      pose proof (uint16_le (Z.of_nat n) ltac:(lia)) as Hle.
      pose proof (uint16_range (Z.of_nat n)) as Hrg.
      destruct (IH _ _ _ _ _ _ _ _ Es Er) as (Hl & Hf & Ht & Hlast).
      split; [cbn [List.length]; lia|]. split; [|split].
      * constructor; [|exact Hf]. unfold level_formed, level_size.
        cbn [lql_numvar lql_variants lql_totallen lql_low lql_high].
        split; [lia|]. split; [exact Et1|]. intros E0. contradiction.
      * cbn [fold_left]. rewrite Ht. f_equal. unfold level_size at 1.
        cbn [lql_variants]. rewrite Et2. clear.
        generalize (LQL_HDRSIZE H). generalize t.
        induction (firstn (Z.to_nat (tq_numvar q)) a) as [|it items IHi];
          intros t0 z; cbn [fold_left]; [reflexivity|].
        rewrite <- Z.add_assoc. apply IHi.
      * cbn [lquery_end fold_left lql_totallen]. exact Hlast.
    + apply negb_false_iff, Z.eqb_eq in Cn.
      destruct (tq_high q <? tq_low q) eqn:Cl; [discriminate|]. apply Z.ltb_ge in Cl.
      cbn [bind] in Es.
      apply bind_Ok in E as ([[ls' fg'] last'] & Er & E).
      inversion E; subst; clear E.
      destruct (IH _ _ _ _ _ _ _ _ Es Er) as (Hl & Hf & Ht & Hlast).
      split; [cbn [List.length]; lia|]. split; [|split].
      * constructor; [|exact Hf]. unfold level_formed, level_size.
        cbn [lql_numvar lql_variants lql_totallen lql_low lql_high List.length fold_left].
        repeat split; auto.
      * cbn [fold_left]. exact Ht.
      * cbn [lquery_end fold_left lql_totallen]. exact Hlast.
Qed.

Lemma lquery_in_Ok_inv buf r :
  lquery_in H buf = Ok r ->
  exists levels st firstgood last,
    lquery_in_scan H buf = Ok (levels, st) /\ lq_numlevel r = uint16 levels /\
    lquery_in_size H (qs_tmpql st) (LQUERY_HDRSIZE H) = Ok (lq_vl_len r) /\
    lquery_in_fill H buf (qs_tmpql st) (LQUERY_HDRSIZE H) false 0
    = Ok (lq_levels r, firstgood, last) /\
    lq_firstgood r = firstgood.
Proof.
  unfold lquery_in. intros E. apply bind_Ok in E as ([levels st] & Es & E).
  apply bind_Ok in E as (totallen & Et & E).
  apply bind_Ok in E as ([[ls fg] last] & Ef & E). inversion E; subst; clear E.
  cbn [lq_numlevel lq_levels lq_vl_len lq_firstgood]. eauto 10.
Qed.



(** *** The end of the record *)

Lemma MAXALIGN_aligned x y :
  aligned_host H -> MAXALIGN H x = x -> MAXALIGN H (x + MAXALIGN H y) = x + MAXALIGN H y.
Proof.
  intros (k & Hk & E) Hx.
  rewrite (MAXALIGN_div H k _ Hk E) in Hx.
  rewrite !(MAXALIGN_div H k _ Hk E).
  assert (0 < 2 ^ k) as Hp by (apply Z.pow_pos_nonneg; lia).
  set (m := 2 ^ k) in *. set (b := (y + (m - 1)) / m) in *.
  set (a := (x + (m - 1)) / m) in *. rewrite <- Hx.
  replace (a * m + b * m + (m - 1)) with ((m - 1) + (a + b) * m) by lia.
  rewrite Z.div_add by lia. rewrite (Z.div_small (m - 1) m) by lia. lia.
Qed.

Lemma level_size_aligned l :
  aligned_host H -> MAXALIGN H (LQL_HDRSIZE H) = LQL_HDRSIZE H ->
  MAXALIGN H (level_size H l) = level_size H l.
Proof.
  intros Ha Hh. unfold level_size. generalize (LQL_HDRSIZE H) Hh.
  induction (lql_variants l) as [|v vs IH]; intros z Hz; cbn [fold_left]; [exact Hz|].
  apply IH. apply MAXALIGN_aligned; assumption.
Qed.

(** X12: where the header of a level is of aligned size, as ltree.h defines it,
    and the size of no level is more than the 16 bits of [totallen] hold,
    the levels of the record that [lquery_in] returns end, by [LQL_NEXT],
    where the record ends. *)
Theorem lquery_in_end buf r :
  aligned_host H -> MAXALIGN H (LQL_HDRSIZE H) = LQL_HDRSIZE H ->
  lquery_in H buf = Ok r ->
  Forall (fun l => 0 <= level_size H l <= 65535) (lq_levels r) ->
  lq_vl_len r = lquery_end H (lq_levels r) (LQUERY_HDRSIZE H).
Proof.
  intros Ha Hh E Hsmall.
  apply lquery_in_Ok_inv in E as (levels & st & fg & last & Es & _ & Et & Ef & _).
  pose proof (lquery_in_scan_wf H _ _ _ Es) as Hwf.
  destruct (lquery_in_fill_formed _ _ Hwf _ _ _ _ _ _ _ _ Et Ef) as (_ & Hf & Hv & _).
  rewrite Hv. clear Hv Ef Et Es Hwf. unfold lquery_end. generalize (LQUERY_HDRSIZE H).
  induction Hf as [|l ls (_ & Hl & _) _ IH]; intros z; cbn [fold_left]; [reflexivity|].
  inversion Hsmall as [|? ? Hs Hsmall']; subst.
  rewrite IH by assumption. f_equal. f_equal.
  rewrite Hl, uint16_small by lia. rewrite level_size_aligned; auto.
Qed.

(** *** The empty pattern *)

(** X13: the empty text is no pattern: [lquery_in] raises the error of an
    unexpected end, where [ltree_in] returns the path without labels. *)
Theorem lquery_in_empty :
  1 <= Z.quot (MaxAllocSize H) (ITEMSIZE H) ->
  lquery_in H [] = Raise UnexpectedEnd.
Proof.
  intros Hlim. unfold lquery_in, lquery_in_scan. cbn [count_lquery_parts_ors count_loop
    List.length bind Z.add].
  replace (_ <? 1) with false by (symmetry; apply Z.ltb_ge; lia).
  reflexivity.
Qed.

End LqueryFormed.


Lemma lquery_in_end_witness :
  exists r, lquery_in pg_host (txt "a|b.*{2,5}.!c") = Ok r /\
    lq_vl_len r = lquery_end pg_host (lq_levels r) (LQUERY_HDRSIZE pg_host).
Proof.
  eexists. split; [vm_compute; reflexivity|].
  apply (lquery_in_end pg_host (txt "a|b.*{2,5}.!c")).
  - apply pg_host_aligned.
  - reflexivity.
  - vm_compute. reflexivity.
  - repeat constructor; vm_compute; discriminate.
Defined.

Lemma lquery_in_empty_witness : lquery_in pg_host [] = Raise UnexpectedEnd.
Proof. apply (lquery_in_empty pg_host). vm_compute. discriminate. Defined.

(** ** The text that lquery_out stores *)

Lemma bind_assoc {A B C} (m : outcome A) (f : A -> outcome B) (g : B -> outcome C) :
  (y <- (x <- m ;; f x) ;; g y) = (x <- m ;; y <- f x ;; g y).
Proof. destruct m; reflexivity. Qed.

(** A store, then stores that end in the store of the text [t] and a NUL. *)
Lemma put_then room out a (f : text -> outcome text) t :
  (forall out', Z.of_nat (List.length out') <= room -> f out' = put_string room out' t) ->
  (x <- put room out a ;; f x) = put_string room out (a ++ t).
Proof.
  intros Hf. unfold put.
  destruct (room <? Z.of_nat (List.length out) + Z.of_nat (List.length a)) eqn:E.
  - apply Z.ltb_lt in E. unfold put_string. rewrite length_app.
    replace (room <? _) with true by (symmetry; apply Z.ltb_lt; lia). reflexivity.
  - apply Z.ltb_ge in E. cbn [bind]. rewrite Hf by (rewrite length_app; lia).
    unfold put_string. rewrite !length_app, app_assoc.
    replace (Z.of_nat (List.length out + List.length a) + Z.of_nat (List.length t))
      with (Z.of_nat (List.length out) + Z.of_nat (List.length a + List.length t)) by lia.
    reflexivity.
Qed.

Lemma put_if_then room out (b : bool) c (f : text -> outcome text) t :
  Z.of_nat (List.length out) <= room ->
  (forall out', Z.of_nat (List.length out') <= room -> f out' = put_string room out' t) ->
  (x <- (if b then put room out [c] else Ok out) ;; f x)
  = put_string room out ((if b then [c] else []) ++ t).
Proof.
  intros Hout Hf. destruct b.
  - apply put_then. exact Hf.
  - cbn [bind app]. apply Hf. exact Hout.
Qed.

Lemma put_string_then room out s (f : text -> outcome text) t :
  (forall out', Z.of_nat (List.length out') <= room -> f out' = put_string room out' t) ->
  (x <- put_string room out s ;; f x) = put_string room out (s ++ t).
Proof.
  intros Hf. unfold put_string at 1.
  destruct (room <? Z.of_nat (List.length out) + Z.of_nat (List.length s) + 1) eqn:E.
  - apply Z.ltb_lt in E. unfold put_string. rewrite length_app.
    replace (room <? _) with true by (symmetry; apply Z.ltb_lt; lia). reflexivity.
  - apply Z.ltb_ge in E. cbn [bind]. rewrite Hf by (rewrite length_app; lia).
    unfold put_string. rewrite !length_app, app_assoc.
    replace (Z.of_nat (List.length out + List.length s) + Z.of_nat (List.length t))
      with (Z.of_nat (List.length out) + Z.of_nat (List.length s + List.length t)) by lia.
    reflexivity.
Qed.

Section LqueryOutText.

Variable H : host.
Hypothesis Hok : host_ok H.

Lemma copy_escaped_chars cs to_escape room :
  Forall (wf_char H) cs -> Z.of_nat (List.length (List.concat cs)) < 65536 ->
  0 <= room ->
  copy_escaped H (List.concat cs) (Z.of_nat (List.length (List.concat cs))) to_escape room
  = if room <? Z.of_nat (List.length (render (escape_chars to_escape cs)))
    then Undefined OutOfBounds
    else Ok (render (escape_chars to_escape cs),
             Z.of_nat (escapes_of (escape_chars to_escape cs))).
Proof.
  intros Hcs Hlen Hroom. unfold copy_escaped.
  rewrite (copy_escaped_loop_chars_any H Hok to_escape cs) by (auto; cbn; lia).
  reflexivity.
Qed.

Lemma lquery_out_variants_then vs : forall j room out (f : text -> outcome text) t,
  Forall (variant_chars H) vs -> Z.of_nat (List.length out) <= room ->
  (forall out', Z.of_nat (List.length out') <= room -> f out' = put_string room out' t) ->
  (x <- lquery_out_variants H (map (mk_variant H) vs) j room out ;; f x)
  = put_string room out (bar_text H j vs ++ t).
Proof.
  induction vs as [|v vs IH]; intros j room out f t Hvs Hout Hf.
  - cbn [map lquery_out_variants bind bar_text app]. apply Hf. exact Hout.
  - apply Forall_cons_iff in Hvs as [(Hcs & Hlen & _) Hvs].
    cbn [map lquery_out_variants bar_text]. rewrite !bind_assoc.
    rewrite <- !app_assoc.
    apply put_if_then; [exact Hout|]. intros out1 Hout1.
    unfold mk_variant at 1 2 3 4 5. cbn [lvar_name lvar_len lvar_flag].
    rewrite copy_escaped_chars by (auto; lia).
    unfold variant_text. rewrite <- !app_assoc.
    set (r := render (escape_chars ["\"; " "; "."; "|"] (fst v))).
    set (rest := flags_text H (snd v) ++ bar_text H (j + 1) vs ++ t).
    destruct (room - Z.of_nat (List.length out1) <? Z.of_nat (List.length r)) eqn:E.
    { apply Z.ltb_lt in E. cbn [bind]. unfold put_string. rewrite length_app.
      replace (room <? _) with true by (symmetry; apply Z.ltb_lt; lia). reflexivity. }
    apply Z.ltb_ge in E. cbn [bind].
    replace (Z.of_nat (List.length r) =? _) with true.
    2:{ symmetry. apply Z.eqb_eq. subst r. rewrite render_length, escape_chars_name. lia. }
    cbn [bind].
    assert (Z.of_nat (List.length (out1 ++ r)) <= room) as Hout2
      by (rewrite length_app; lia).
    transitivity (put_string room (out1 ++ r) rest).
    2:{ unfold put_string. rewrite !length_app, <- app_assoc.
        replace (Z.of_nat (List.length out1 + List.length r) + Z.of_nat (List.length rest))
          with (Z.of_nat (List.length out1) + Z.of_nat (List.length r + List.length rest)) by lia.
        reflexivity. }
    subst rest. unfold flags_text. rewrite <- !app_assoc. generalize (out1 ++ r) Hout2.
    clear out1 Hout1 E Hout2. intros out2 Hout2.
    rewrite !bind_assoc. apply put_if_then; [exact Hout2|]. intros out3 Hout3.
    rewrite !bind_assoc. apply put_if_then; [exact Hout3|]. intros out4 Hout4.
    rewrite !bind_assoc. apply put_if_then; [exact Hout4|]. intros out5 Hout5.
    apply IH; auto.
Qed.

Lemma bar_text_next vs : forall j k,
  0 < j -> 0 < k -> bar_text H j vs = bar_text H k vs.
Proof.
  induction vs as [|v vs IH]; intros j k Hj Hk; [reflexivity|].
  cbn [bar_text]. replace (j =? 0) with false by (symmetry; apply Z.eqb_neq; lia).
  replace (k =? 0) with false by (symmetry; apply Z.eqb_neq; lia).
  f_equal. f_equal. apply IH; lia.
Qed.

Lemma bar_text_sep v vs :
  sep_by "|" (map (variant_text H) (v :: vs)) = variant_text H v ++ bar_text H 1 vs.
Proof.
  revert v. induction vs as [|v' vs IH]; intros v.
  - cbn. rewrite app_nil_r. reflexivity.
  - change (sep_by "|" (map (variant_text H) (v :: v' :: vs)))
      with (variant_text H v ++ "|" :: sep_by "|" (map (variant_text H) (v' :: vs))).
    rewrite IH. cbn [bar_text]. cbn [Z.eqb negb app].
    rewrite (bar_text_next vs (1 + 1) 1) by lia. reflexivity.
Qed.

Lemma bar_text_0 vs : bar_text H 0 vs = sep_by "|" (map (variant_text H) vs).
Proof.
  destruct vs as [|v vs]; [reflexivity|]. rewrite bar_text_sep. cbn [bar_text].
  cbn [Z.eqb negb app]. reflexivity.
Qed.

Lemma lor_flags_land vs bit :
  Forall (fun v => Z.land (snd v) bit = 0) vs ->
  Z.land (fold_right (fun (v : list text * Z) acc => Z.lor (snd v) acc) 0 vs) bit = 0.
Proof.
  induction 1 as [|v vs Hv _ IH]; cbn [fold_right]; [reflexivity|].
  rewrite Z.land_lor_distr_l, Hv, IH. reflexivity.
Qed.

Lemma mk_level_not neg vs :
  Forall (variant_chars H) vs ->
  has_flag (lql_flag (mk_level H (Alts neg vs))) (LQL_NOT H) = neg.
Proof.
  intros Hvs. unfold has_flag. cbn [mk_level lql_flag].
  rewrite Z.land_lor_distr_l, lor_flags_land.
  2:{ eapply Forall_impl; [|exact Hvs]. intros v (_ & _ & Hv). exact Hv. }
  destruct neg.
  - rewrite Z.land_diag. cbn [Z.lor].
    pose proof (LQL_NOT_set H Hok). destruct (LQL_NOT H =? 0) eqn:E; [|reflexivity].
    apply Z.eqb_eq in E. contradiction.
  - reflexivity.
Qed.

Lemma lquery_out_loop_then ps : forall i room out,
  Forall (level_chars H) ps -> Z.of_nat (List.length out) <= room ->
  (x <- lquery_out_loop H (map (mk_level H) ps) i room out ;; put_string room x [])
  = put_string room out (dot_text H i ps).
Proof.
  induction ps as [|p ps IH]; intros i room out Hps Hout.
  - reflexivity.
  - apply Forall_cons_iff in Hps as [Hp Hps].
    cbn [map lquery_out_loop dot_text]. rewrite !bind_assoc.
    apply put_if_then; [exact Hout|]. intros out1 Hout1.
    rewrite !bind_assoc. destruct p as [low high | neg vs].
    + cbn [mk_level lql_numvar lql_low lql_high Z.eqb negb level_text].
      apply put_string_then. intros out2 Hout2. apply IH; auto.
    + destruct Hp as [Hne Hvs]. 
      replace (negb (lql_numvar (mk_level H (Alts neg vs)) =? 0)) with true.
      2:{ cbn [mk_level lql_numvar]. destruct vs; [contradiction | reflexivity]. }
      rewrite mk_level_not by assumption. rewrite !bind_assoc.
      cbn [level_text]. rewrite <- !app_assoc.
      replace (if neg then ["!"] else []) with (if neg then ["!"] else @nil ascii)
        by reflexivity.
      apply (put_if_then room out1 neg "!"); [exact Hout1|]. intros out2 Hout2.
      unfold variants_in. cbn [mk_level lql_variants lql_numvar].
      rewrite length_map, Z.ltb_irrefl, Nat2Z.id.
      rewrite <- (length_map (mk_variant H) vs), firstn_all. cbn [bind].
      rewrite <- bar_text_0.
      apply lquery_out_variants_then; auto.
Qed.

Lemma dot_text_next ps : forall i k,
  0 < i -> 0 < k -> dot_text H i ps = dot_text H k ps.
Proof.
  induction ps as [|p ps IH]; intros i k Hi Hk; [reflexivity|].
  cbn [dot_text]. replace (i =? 0) with false by (symmetry; apply Z.eqb_neq; lia).
  replace (k =? 0) with false by (symmetry; apply Z.eqb_neq; lia).
  f_equal. f_equal. apply IH; lia.
Qed.

Lemma dot_text_sep p ps :
  pattern_text H (p :: ps) = level_text H p ++ dot_text H 1 ps.
Proof.
  unfold pattern_text. revert p. induction ps as [|p' ps IH]; intros p.
  - cbn. rewrite app_nil_r. reflexivity.
  - change (sep_by "." (map (level_text H) (p :: p' :: ps)))
      with (level_text H p ++ "." :: sep_by "." (map (level_text H) (p' :: ps))).
    rewrite IH. cbn [dot_text]. cbn [Z.eqb negb app].
    rewrite (dot_text_next ps (1 + 1) 1) by lia. reflexivity.
Qed.

Lemma dot_text_0 ps : dot_text H 0 ps = pattern_text H ps.
Proof.
  destruct ps as [|p ps]; [reflexivity|]. rewrite dot_text_sep. cbn [dot_text].
  cbn [Z.eqb negb app]. reflexivity.
Qed.

Lemma levels_of_mk r ps :
  lq_levels r = map (mk_level H) ps -> lq_numlevel r = Z.of_nat (List.length ps) ->
  levels_of r = Ok (map (mk_level H) ps).
Proof.
  intros El En. unfold levels_of. rewrite El, En, length_map, Z.ltb_irrefl, Nat2Z.id.
  rewrite <- (length_map (mk_level H) ps), firstn_all. reflexivity.
Qed.

(** X14: for the record of the levels [ps], whose names are characters of
    the encoding, [lquery_out] returns the text of the levels if the
    buffer of line 660 has room for it and its NUL, and stores behind the
    buffer if not. *)
Theorem lquery_out_text r ps :
  lq_levels r = map (mk_level H) ps -> lq_numlevel r = Z.of_nat (List.length ps) ->
  Forall (level_chars H) ps ->
  0 <= lquery_out_size (map (mk_level H) ps) 1 ->
  lquery_out H r
  = if lquery_out_size (map (mk_level H) ps) 1
       <? Z.of_nat (List.length (pattern_text H ps)) + 1
    then Undefined OutOfBounds
    else Ok (pattern_text H ps).
Proof.
  intros El En Hps Hsize. unfold lquery_out. rewrite (levels_of_mk r ps El En).
  cbn [bind]. rewrite lquery_out_loop_then by (auto; cbn; lia).
  unfold put_string. rewrite dot_text_0. cbn [List.length app]. rewrite Z.add_0_l.
  reflexivity.
Qed.

End LqueryOutText.

(** *** The room that the text takes *)

Lemma print_digits_length fuel : forall n acc k,
  0 <= n < 10 ^ Z.of_nat (S k) ->
  (List.length (print_digits fuel n acc) <= S k + List.length acc)%nat.
Proof.
  induction fuel as [|fuel IH]; intros n acc k Hn; cbn [print_digits]; [lia|].
  destruct (n <? 10) eqn:E; [cbn [List.length]; lia|].
  apply Z.ltb_ge in E. destruct k as [|k]; [cbn in Hn; lia|].
  etransitivity; [apply (IH (n / 10) _ k)|cbn [List.length]; lia].
  rewrite Nat2Z.inj_succ, Z.pow_succ_r in Hn by lia.
  split; [apply Z.div_pos; lia|]. apply Z.div_lt_upper_bound; lia.
Qed.

Lemma print_int_length z :
  0 <= z <= 65535 -> (List.length (print_int z) <= 5)%nat.
Proof.
  intros Hz. unfold print_int.
  replace (z <? 0) with false by (symmetry; apply Z.ltb_ge; lia).
  pose proof (print_digits_length (S (Z.to_nat (Z.log2 (Z.abs z)))) z [] 4) as Hl.
  cbn [List.length] in Hl. rewrite Nat.add_0_r in Hl. apply Hl.
  change (10 ^ Z.of_nat 5) with 100000. lia.
Qed.

Lemma quantifier_text_length low high :
  0 <= low <= 65535 -> 0 <= high <= 65535 ->
  (List.length (quantifier_text low high) <= 14)%nat.
Proof.
  intros Hl Hh. pose proof (print_int_length low Hl). pose proof (print_int_length high Hh).
  unfold quantifier_text.
  repeat match goal with |- context [if ?b then _ else _] => destruct b end;
    cbn [List.length]; rewrite ?length_app; cbn [List.length];
    rewrite ?length_app; cbn [List.length]; lia.
Qed.

Section LqueryOutRoom.

Variable H : host.
Hypothesis Hok : host_ok H.
Hypothesis Halign : aligned_host H.

Lemma flags_text_length flag : (List.length (flags_text H flag) <= 3)%nat.
Proof.
  unfold flags_text.
  destruct (has_flag flag (LVAR_SUBLEXEME H)), (has_flag flag (LVAR_INCASE H)),
    (has_flag flag (LVAR_ANYEND H)); cbn; lia.
Qed.

Lemma bar_text_length vs : forall j,
  (List.length (bar_text H j vs)
   <= 4 * List.length vs
      + list_sum (map (fun v => List.length (List.concat (fst v))) vs)
      + level_escapes (Alts false vs))%nat.
Proof.
  induction vs as [|v vs IH]; intros j; [cbn; lia|].
  cbn [bar_text level_escapes map list_sum fold_right List.length].
  specialize (IH (j + 1)). cbn [level_escapes] in IH.
  fold (list_sum (map (fun v0 : list text * Z => List.length (List.concat (fst v0))) vs)).
  fold (list_sum (map (fun v0 : list text * Z =>
                         escapes_of (escape_chars ["\"; " "; "."; "|"] (fst v0))) vs)).
  rewrite !length_app. unfold variant_text. rewrite length_app, render_length,
    escape_chars_name.
  pose proof (flags_text_length (snd v)).
  assert (List.length (if negb (Z.eqb j 0) then ["|"] else []) <= 1)%nat
    by (destruct (negb (Z.eqb j 0)); cbn; lia).
  unfold list_sum, text in *. lia.
Qed.

Lemma mk_level_totallen vs : forall a,
  a + Z.of_nat (List.length vs) * LVAR_HDRSIZE H
    + Z.of_nat (list_sum (map (fun v => List.length (List.concat (fst v))) vs))
  <= fold_left (fun t v => t + MAXALIGN H (LVAR_HDRSIZE H + lvar_len v))
       (map (mk_variant H) vs) a.
Proof.
  induction vs as [|v vs IH]; intros a; cbn [map fold_left list_sum fold_right List.length].
  - lia.
  - specialize (IH (a + MAXALIGN H (LVAR_HDRSIZE H + lvar_len (mk_variant H v)))).
    pose proof (MAXALIGN_ge H (LVAR_HDRSIZE H + lvar_len (mk_variant H v)) Halign) as Hm.
    cbn [mk_variant lvar_len] in *. unfold list_sum, text in *. nia.
Qed.

Lemma lquery_out_size_ge ps : forall i a,
  Forall (level_fits H) ps ->
  Z.of_nat (List.length (dot_text H i ps)) + a
  <= lquery_out_size (map (mk_level H) ps) a.
Proof.
  induction ps as [|p ps IH]; intros i a Hps; cbn [map lquery_out_size dot_text List.length].
  - lia.
  - apply Forall_cons_iff in Hps as [[Hc Hp] Hps]. rewrite !length_app.
    assert (List.length (if negb (Z.eqb i 0) then ["."] else []) <= 1)%nat as Hdot
      by (destruct (negb (Z.eqb i 0)); cbn; lia).
    destruct p as [low high | neg vs].
    + destruct Hp as [Hl Hh]. pose proof (quantifier_text_length low high Hl Hh).
      cbn [mk_level lql_numvar Z.eqb negb level_text].
      specialize (IH (i + 1) (a + 1 + (2 * 11 + 4)) Hps). lia.
    + destruct Hc as [Hne Hvs].
      replace (negb (lql_numvar (mk_level H (Alts neg vs)) =? 0)) with true.
      2:{ cbn [mk_level lql_numvar]. destruct vs; [contradiction | reflexivity]. }
      cbn [mk_level lql_numvar lql_totallen level_text].
      specialize (IH (i + 1)
        (a + 1 + (1 + Z.of_nat (List.length vs) * 4
                  + fold_left (fun t v => t + MAXALIGN H (LVAR_HDRSIZE H + lvar_len v))
                      (map (mk_variant H) vs) (LQL_HDRSIZE H))) Hps).
      pose proof (mk_level_totallen vs (LQL_HDRSIZE H)) as Ht.
      rewrite length_app, <- bar_text_0.
      pose proof (bar_text_length vs 0) as Hb.
      assert (List.length (if neg then ["!"] else []) <= 1)%nat
        by (destruct neg; cbn; lia).
      cbn [level_escapes] in *. unfold list_sum, text in *. nia.
Qed.

(** X15: [lquery_out] returns the text of the levels [ps], and stores nothing
    behind its buffer, where the limits of the quantifiers are numbers of
    16 bits and no level takes more backslashes than the headers of the
    level and of its variants have bytes. *)
Theorem lquery_out_fits r ps :
  lq_levels r = map (mk_level H) ps -> lq_numlevel r = Z.of_nat (List.length ps) ->
  Forall (level_fits H) ps ->
  lquery_out H r = Ok (pattern_text H ps).
Proof.
  intros El En Hps. pose proof (lquery_out_size_ge ps 0 1 Hps) as Hsize.
  assert (Forall (level_chars H) ps) as Hc
    by (eapply Forall_impl; [|exact Hps]; intros p [Hp _]; exact Hp).
  unfold lquery_out. rewrite (levels_of_mk H r ps El En). cbn [bind].
  rewrite (lquery_out_loop_then H Hok) by (auto; cbn; lia).
  unfold put_string. cbn [List.length app].
  replace (_ <? _) with false by (symmetry; apply Z.ltb_ge; lia).
  rewrite dot_text_0. reflexivity.
Qed.

End LqueryOutRoom.

(** The pattern of one name of forty dots: 81 bytes are stored in the 71
    that line 660 allocates. *)
Lemma lquery_out_text_witness :
  exists r, lquery_in pg_host (List.concat (repeat (txt "\.") 40)) = Ok r /\
    lquery_out_alloc r = Ok 71 /\
    lquery_out pg_host r = Undefined OutOfBounds.
Proof.
  eexists. split; [vm_compute; reflexivity|]. split; [vm_compute; reflexivity|].
  rewrite (lquery_out_text pg_host pg_host_ok _ [Alts false [(repeat ["."] 40, 0)]]).
  - vm_compute. reflexivity.
  - vm_compute. reflexivity.
  - reflexivity.
  - repeat constructor; try discriminate; vm_compute; try lia; reflexivity.
  - vm_compute. discriminate.
Defined.

(** The pattern [a b.!c@|d\|e.*{2,}]. *)
Lemma lquery_out_fits_witness :
  exists r, lquery_in pg_host (txt "a\ b.!c@|d\|e.*{2,}") = Ok r /\
    lquery_out pg_host r = Ok (txt "a\ b.!c@|d\|e.*{2,}").
Proof.
  eexists. split; [vm_compute; reflexivity|].
  apply (lquery_out_fits pg_host pg_host_ok pg_host_aligned _
           [Alts false [([["a"]; [" "]; ["b"]], 0)];
            Alts true [([["c"]], 2); ([["d"]; ["|"]; ["e"]], 0)];
            Star 2 65535]).
  - vm_compute. reflexivity.
  - reflexivity.
  - repeat constructor; try discriminate; vm_compute; try lia; try reflexivity;
      discriminate.
Defined.

(** ** The patterns that lquery_in reads back *)

(** *** The digits that sprintf writes *)

Lemma digit_char_spec d :
  0 <= d <= 9 ->
  isdigit (digit_char d) = true /\ Z.of_nat (nat_of_ascii (digit_char d)) - 48 = d.
Proof.
  intros Hd.
  assert (d = 0 \/ d = 1 \/ d = 2 \/ d = 3 \/ d = 4 \/ d = 5 \/ d = 6 \/ d = 7 \/
          d = 8 \/ d = 9) as Hc by lia.
  repeat (destruct Hc as [-> | Hc]; [split; reflexivity|]). subst. split; reflexivity.
Qed.

Lemma print_digits_isdigit fuel : forall n acc,
  0 <= n -> Forall (fun c => isdigit c = true) acc ->
  Forall (fun c => isdigit c = true) (print_digits fuel n acc).
Proof.
  induction fuel as [|fuel IH]; intros n acc Hn Hacc; cbn [print_digits]; [exact Hacc|].
  assert (0 <= n mod 10 <= 9) as Hm by (pose proof (Z.mod_pos_bound n 10); lia).
  destruct (digit_char_spec _ Hm) as [Hd _].
  destruct (n <? 10); [constructor; assumption|].
  apply IH; [apply Z.div_pos; lia | constructor; assumption].
Qed.

Lemma print_digits_value fuel : forall n acc,
  0 <= n < 10 ^ Z.of_nat fuel ->
  fold_left (fun a c => 10 * a + (Z.of_nat (nat_of_ascii c) - 48)) (print_digits fuel n acc) 0
  = fold_left (fun a c => 10 * a + (Z.of_nat (nat_of_ascii c) - 48)) acc n.
Proof.
  induction fuel as [|fuel IH]; intros n acc Hn.
  - change (10 ^ Z.of_nat 0) with 1 in Hn. assert (n = 0) as -> by lia. reflexivity.
  - cbn [print_digits].
    assert (0 <= n mod 10 <= 9) as Hm by (pose proof (Z.mod_pos_bound n 10); lia).
    destruct (digit_char_spec _ Hm) as [_ Hv].
    destruct (n <? 10) eqn:E.
    + apply Z.ltb_lt in E. cbn [fold_left]. rewrite Hv, Z.mod_small by lia.
      f_equal.
    + apply Z.ltb_ge in E. rewrite IH.
      * cbn [fold_left]. rewrite Hv. f_equal.
        pose proof (Z.div_mod n 10). lia.
      * rewrite Nat2Z.inj_succ, Z.pow_succ_r in Hn by lia.
        split; [apply Z.div_pos; lia | apply Z.div_lt_upper_bound; lia].
Qed.

Lemma print_digits_nonempty fuel n acc : print_digits (S fuel) n acc <> [].
Proof.
  revert n acc. induction fuel as [|fuel IH]; intros n acc; cbn [print_digits].
  - destruct (n <? 10); discriminate.
  - destruct (n <? 10); [discriminate|]. apply IH.
Qed.

Lemma print_int_digits n :
  0 <= n -> digits (print_int n) /\ decimal (print_int n) = n.
Proof.
  intros Hn. unfold print_int, digits, decimal.
  replace (n <? 0) with false by (symmetry; apply Z.ltb_ge; lia).
  rewrite Z.abs_eq by lia. split; [split|].
  - apply print_digits_nonempty.
  - apply print_digits_isdigit; [lia | constructor].
  - rewrite print_digits_value; [reflexivity|]. split; [lia|].
    rewrite Nat2Z.inj_succ, Z2Nat.id by apply Z.log2_nonneg.
    destruct (Z.eq_dec n 0) as [->|Hne]; [cbn; lia|].
    pose proof (Z.log2_spec n ltac:(lia)) as [_ Hlt].
    eapply Z.lt_le_trans; [exact Hlt|].
    apply Z.pow_le_mono_l. pose proof (Z.log2_nonneg n). lia.
Qed.

Section LqueryRunSteps.

Variable H : host.
Hypothesis Hok : host_ok H.

Lemma qruns_to_refl buf numOR st : qruns_to H buf numOR st st.
Proof.
  split; [intros fuel Hf; exists fuel; auto|].
  exists []. split; [constructor|]. split; [reflexivity | cbn; lia].
Qed.

Lemma qruns_to_trans buf numOR st1 st2 st3 :
  qruns_to H buf numOR st1 st2 -> qruns_to H buf numOR st2 st3 ->
  qruns_to H buf numOR st1 st3.
Proof.
  intros [H12 (cs1 & Hc1 & Hs1 & Hp1)] [H23 (cs2 & Hc2 & Hs2 & Hp2)]. split.
  - intros fuel Hf. destruct (H12 fuel Hf) as (f2 & Hf2 & ->).
    destruct (H23 f2 Hf2) as (f3 & Hf3 & ->). exists f3. auto.
  - exists (cs1 ++ cs2). split; [apply Forall_app; auto|]. split.
    + rewrite concat_app, <- app_assoc, <- Hs2. exact Hs1.
    + rewrite length_app. lia.
Qed.

Lemma qruns_to_eq buf numOR st st1 st2 :
  qruns_to H buf numOR st st1 -> st1 = st2 -> qruns_to H buf numOR st st2.
Proof. intros Hr <-. exact Hr. Qed.

Lemma qruns_to_step buf numOR st st' c rest :
  skipn (qs_ptr st) buf = c ++ rest -> wf_char H c ->
  lquery_in_step H buf numOR st = Ok st' -> qruns_to H buf numOR st st'.
Proof.
  intros Hs Hc Hstep.
  destruct (wf_char_skipn H Hok buf (qs_ptr st) c rest Hs Hc) as [Hle Hlt].
  destruct (lquery_in_step_ptr H buf numOR st st' Hstep) as [Hptr Hq].
  pose proof (mblen_pos H Hok (deref (skipn (qs_ptr st) buf))) as Hpos.
  fold (pg_mblen H (skipn (qs_ptr st) buf)) in Hpos. split.
  - intros fuel Hf. destruct fuel as [|fuel]; [lia|]. exists fuel. split; [lia|].
    cbn [lquery_in_loop].
    replace (List.length buf <? qs_ptr st)%nat with false
      by (symmetry; apply Nat.ltb_ge; lia).
    rewrite Hs, (head_not_NUL H), Hstep by assumption. reflexivity.
  - exists [c]. split; [constructor; [exact Hc | constructor]|].
    rewrite Hs, (head_mblen H) in Hptr by exact Hc. rewrite Hptr.
    rewrite (skipn_plus_app _ _ _ _ Hs). cbn [List.concat List.length].
    rewrite app_nil_r. split; [exact Hs | lia].
Qed.

Lemma nchars_concat cs : forall fuel,
  Forall (wf_char H) cs -> (List.length (List.concat cs) <= fuel)%nat ->
  nchars H fuel (List.concat cs) = List.length cs.
Proof.
  induction cs as [|c cs IH]; intros fuel Hcs Hf.
  - destruct fuel; reflexivity.
  - apply Forall_cons_iff in Hcs as [Hc Hcs]. cbn [List.concat List.length] in *.
    rewrite length_app in Hf. pose proof (wf_char_len H Hok c Hc) as Hl.
    destruct fuel as [|fuel]; [lia|]. cbn [nchars].
    rewrite (head_mblen H c _ Hc), skipn_app_exact.
    destruct (c ++ List.concat cs) eqn:E.
    + apply (f_equal (@List.length ascii)) in E. rewrite length_app in E.
      cbn [List.length] in E. lia.
    + rewrite IH by (auto; lia). reflexivity.
Qed.

(** [pos] counts the characters of the text that a run reads. *)
Lemma qruns_to_pos buf numOR st st' t rest :
  qruns_to H buf numOR st st' -> skipn (qs_ptr st) buf = t ++ rest ->
  qs_ptr st' = (qs_ptr st + List.length t)%nat ->
  qs_pos st' = qs_pos st + Z.of_nat (chars_in H t).
Proof.
  intros [_ (cs & Hcs & Hs & Hp)] Ht Hptr.
  rewrite Hptr, (skipn_plus_app _ _ _ _ Ht), Ht in Hs. apply app_inv_tail in Hs.
  rewrite Hp. unfold chars_in. rewrite Hs, nchars_concat by (auto; lia). reflexivity.
Qed.

(** *** The stores of a turn, in the states of a run *)

Lemma cur_upd_at f state dlev cur k lptr hasnot off pos esc :
  cur_upd f (lq_at state dlev cur k lptr hasnot off pos esc)
  = Ok (lq_at state dlev (f cur) k lptr hasnot off pos esc).
Proof. unfold cur_upd, lq_at. cbn. rewrite aupd_mid. reflexivity. Qed.

Lemma lptr_get_at state dlev flag done it m k hasnot off pos esc :
  lptr_get (lq_at state dlev (alts_at flag done it m) k
              (Some (List.length dlev, List.length done)) hasnot off pos esc)
  = Ok it.
Proof. unfold lptr_get, lq_at. cbn. rewrite aget_mid. cbn. apply aget_mid. Qed.

Lemma lptr_upd_at f state dlev flag done it m k hasnot off pos esc :
  lptr_upd f (lq_at state dlev (alts_at flag done it m) k
                (Some (List.length dlev, List.length done)) hasnot off pos esc)
  = Ok (lq_at state dlev (alts_at flag done (f it) m) k
          (Some (List.length dlev, List.length done)) hasnot off pos esc).
Proof.
  unfold lptr_upd, lq_at. cbn. rewrite aget_mid. cbn. rewrite aupd_mid. cbn.
  rewrite aupd_mid. reflexivity.
Qed.


(** *** The turns of the loop *)

Lemma eqb_single c a :
  wf_char H c -> (nat_of_ascii a < 128)%nat -> Ascii.eqb (deref c) a = single c a.
Proof.
  intros (Hne & Hl & Hn) Ha. unfold single.
  destruct (Ascii.eqb_spec (deref c) a) as [E|E]; [|rewrite andb_false_r; reflexivity].
  rewrite Hl. unfold pg_mblen. rewrite E, (mblen_ascii H Hok a Ha). reflexivity.
Qed.

Lemma head_single c rest a :
  wf_char H c ->
  (pg_mblen H (c ++ rest) =? 1)%nat && t_iseq (c ++ rest) a = single c a.
Proof.
  intros Hc. rewrite (head_mblen H), (head_iseq H) by assumption. reflexivity.
Qed.

Ltac qsimpl :=
  cbn [qs_ptr qs_state qs_tmpql qs_curqlevel qs_lptr qs_hasnot qs_pos qs_escaped_count
       qs_set_ptr qs_set_state qs_set_tmpql qs_set_curqlevel qs_set_lptr qs_set_hasnot
       qs_set_pos qs_set_escaped_count
       tq_flag tq_numvar tq_low tq_high tq_var
       tq_set_flag tq_set_numvar tq_set_low tq_set_high tq_set_var
       ni_start ni_len ni_flag ni_wlen set_start set_len set_flag set_wlen bind
       Z.eqb negb].

Lemma aupd_head {A} (x : A) zs f : aupd (x :: zs) 0 f = Ok (f x :: zs).
Proof. reflexivity. Qed.

Lemma aget_head {A} (x : A) zs : aget (x :: zs) 0 = Ok x.
Proof. reflexivity. Qed.

Ltac qstep Hs Hc :=
  unfold lquery_in_step, lquery_in_dispatch, t_isdigit, lq_at; cbv zeta; qsimpl;
  rewrite !Hs; rewrite ?(head_single _ _ _ Hc);
  rewrite ?(head_mblen H _ _ Hc), ?(head_iseq H _ _ _ Hc), ?(head_deref H _ _ Hc);
  repeat match goal with
         | |- context [Ascii.eqb (deref ?c) ?a] =>
             rewrite (eqb_single c a Hc) by (vm_compute; lia)
         end.

Lemma aupd_mid_next {A} (done : list A) y x zs f :
  aupd (done ++ y :: x :: zs) (S (List.length done)) f = Ok ((done ++ [y]) ++ f x :: zs).
Proof.
  replace (S (List.length done)) with (List.length (done ++ [y]))
    by (rewrite length_app; cbn; lia).
  replace (done ++ y :: x :: zs) with ((done ++ [y]) ++ x :: zs)
    by (rewrite <- app_assoc; reflexivity).
  apply aupd_mid.
Qed.

Lemma aupd_mid_snoc {A} (done : list A) y x zs f :
  aupd ((done ++ [y]) ++ x :: zs) (S (List.length done)) f
  = Ok ((done ++ [y]) ++ f x :: zs).
Proof.
  replace (S (List.length done)) with (List.length (done ++ [y]))
    by (rewrite length_app; cbn; lia).
  apply aupd_mid.
Qed.

Lemma aget_mid_snoc {A} (done : list A) y x zs :
  aget ((done ++ [y]) ++ x :: zs) (S (List.length done)) = Ok x.
Proof.
  replace (S (List.length done)) with (List.length (done ++ [y]))
    by (rewrite length_app; cbn; lia).
  apply aget_mid.
Qed.

Lemma qstate_eq st st' :
  qs_ptr st = qs_ptr st' -> qs_state st = qs_state st' ->
  qs_tmpql st = qs_tmpql st' -> qs_curqlevel st = qs_curqlevel st' ->
  qs_lptr st = qs_lptr st' -> qs_hasnot st = qs_hasnot st' ->
  qs_pos st = qs_pos st' -> qs_escaped_count st = qs_escaped_count st' ->
  st = st'.
Proof. destruct st, st'; cbn; intros; subst; reflexivity. Qed.

Ltac qdone :=
  first [ reflexivity
        | apply f_equal; apply qstate_eq; qsimpl;
          repeat f_equal; try reflexivity; rewrite ?length_app; cbn [List.length]; lia ].

(** Equal states, up to arithmetic. *)
Ltac qeq :=
  repeat first
    [ reflexivity
    | lia
    | match goal with
      | |- lq_at _ _ _ _ _ _ _ _ _ = lq_at _ _ _ _ _ _ _ _ _ => f_equal
      | |- alts_at _ _ _ _ = alts_at _ _ _ _ => f_equal
      | |- qitem _ _ _ _ = qitem _ _ _ _ => f_equal
      | |- Some _ = Some _ => f_equal
      | |- (_, _) = (_, _) => f_equal
      end ].

Ltac qconst :=
  cbn [List.length Nat.eqb];
  repeat match goal with
         | |- context [single [?x] ?a] =>
             let b := eval vm_compute in (single [x] a) in change (single [x] a) with b
         end;
  cbn [andb orb negb].

Ltac qrun :=
  unfold open_variant, set_modifier, close_variant, cur_upd, cur_get, lptr_upd, lptr_get,
    lptr_next, NEXTLEV, lq_at, alts_at, qitem; cbv zeta; qsimpl;
  rewrite ?Nat2Z.id; cbn [repeat];
  repeat progress (unfold tq_set_flag, tq_set_numvar, tq_set_low, tq_set_high,
                     tq_set_var, set_start, set_len, set_flag, set_wlen, nodeitem0;
                   qsimpl;
                   rewrite ?aupd_mid, ?aget_mid, ?aupd_head, ?aget_head,
                     ?aupd_mid_next, ?aupd_mid_snoc, ?aget_mid_snoc).

Section QSteps.

Variables (buf : text) (n : nat) (dlev : list tmp_level) (k : nat) (hasnot : bool).
Variables (off : nat) (pos : Z) (c rest : text).
Hypothesis Hs : skipn off buf = c ++ rest.
Hypothesis Hc : wf_char H c.

(** In state WAITLEVEL. *)

Lemma lquery_in_step_level_plain lptr esc :
  single c "!" = false -> single c "*" = false -> single c "\" = false ->
  single c "." = false -> single c "|" = false ->
  lquery_in_step H buf (Z.of_nat (S n))
    (lq_at LQPRS_WAITLEVEL dlev tmp_level0 k lptr hasnot off pos esc)
  = Ok (lq_at LQPRS_WAITDELIM dlev (alts_at 0 [] (qitem off 0 0 1) n) k
          (Some (List.length dlev, O)) hasnot (off + List.length c) (pos + 1) 0).
Proof.
  intros E1 E2 E3 E4 E5. qstep Hs Hc. rewrite E1, E2, E3, E4, E5. cbn [orb].
  destruct (List.length c =? 1)%nat; qrun; reflexivity.
Qed.

Lemma lquery_in_step_level_backslash lptr esc :
  single c "\" = true ->
  lquery_in_step H buf (Z.of_nat (S n))
    (lq_at LQPRS_WAITLEVEL dlev tmp_level0 k lptr hasnot off pos esc)
  = Ok (lq_at LQPRS_WAITESCAPED dlev (alts_at 0 [] (qitem off 0 0 0) n) k
          (Some (List.length dlev, O)) hasnot (off + List.length c) (pos + 1) 0).
Proof.
  intros E. apply single_true in E. subst c. qstep Hs Hc. qconst. qrun. reflexivity.
Qed.

Lemma lquery_in_step_level_not lptr esc :
  single c "!" = true ->
  lquery_in_step H buf (Z.of_nat (S n))
    (lq_at LQPRS_WAITLEVEL dlev tmp_level0 k lptr hasnot off pos esc)
  = Ok (lq_at LQPRS_WAITDELIM dlev (alts_at (LQL_NOT H) [] (qitem (S off) 0 0 1) n) k
          (Some (List.length dlev, O)) true (off + List.length c) (pos + 1) 0).
Proof.
  intros E. apply single_true in E. subst c. qstep Hs Hc. qconst. qrun. reflexivity.
Qed.

Lemma lquery_in_step_level_star lptr esc :
  single c "*" = true ->
  lquery_in_step H buf (Z.of_nat (S n))
    (lq_at LQPRS_WAITLEVEL dlev tmp_level0 k lptr hasnot off pos esc)
  = Ok (lq_at LQPRS_WAITOPEN dlev tmp_level0 k lptr hasnot (off + List.length c)
          (pos + 1) 0).
Proof.
  intros E. apply single_true in E. subst c. qstep Hs Hc. qconst. qrun. reflexivity.
Qed.

(** In state WAITVAR. *)

Lemma lquery_in_step_var_plain flag done it m esc :
  single c "\" = false -> single c "." = false -> single c "|" = false ->
  lquery_in_step H buf (Z.of_nat (S n))
    (lq_at LQPRS_WAITVAR dlev (alts_at flag done it (S m)) k
       (Some (List.length dlev, List.length done)) hasnot off pos esc)
  = Ok (lq_at LQPRS_WAITDELIM dlev (alts_at flag (done ++ [it]) (qitem off 0 0 1) m) k
          (Some (List.length dlev, List.length (done ++ [it]))) hasnot
          (off + List.length c) (pos + 1) 0).
Proof.
  intros E1 E2 E3. qstep Hs Hc. rewrite E1, E2, E3. cbn [orb]. qrun.
  rewrite uint16_succ. qdone.
Qed.

Lemma lquery_in_step_var_backslash flag done it m esc :
  single c "\" = true ->
  lquery_in_step H buf (Z.of_nat (S n))
    (lq_at LQPRS_WAITVAR dlev (alts_at flag done it (S m)) k
       (Some (List.length dlev, List.length done)) hasnot off pos esc)
  = Ok (lq_at LQPRS_WAITESCAPED dlev (alts_at flag (done ++ [it]) (qitem off 0 0 0) m) k
          (Some (List.length dlev, List.length (done ++ [it]))) hasnot
          (off + List.length c) (pos + 1) 0).
Proof.
  intros E. apply single_true in E. subst c. qstep Hs Hc. qconst. qrun.
  rewrite uint16_succ. qdone.
Qed.

(** In state WAITESCAPED. *)

Lemma lquery_in_step_escaped flag done start len iflag wlen m esc :
  lquery_in_step H buf (Z.of_nat (S n))
    (lq_at LQPRS_WAITESCAPED dlev (alts_at flag done (qitem start len iflag wlen) m) k
       (Some (List.length dlev, List.length done)) hasnot off pos esc)
  = Ok (lq_at LQPRS_WAITDELIM dlev
          (alts_at flag done (qitem start len iflag (wlen + 1)) m) k
          (Some (List.length dlev, List.length done)) hasnot
          (off + List.length c) (pos + 1) (esc + 1)).
Proof. qstep Hs Hc. qrun. qdone. Qed.

(** In state WAITDELIM. *)

Lemma lquery_in_step_delim_plain flag done start len wlen m esc :
  single c "@" = false -> single c "*" = false -> single c "%" = false ->
  single c "|" = false -> single c "." = false -> single c "\" = false ->
  lquery_in_step H buf (Z.of_nat (S n))
    (lq_at LQPRS_WAITDELIM dlev (alts_at flag done (qitem start len 0 wlen) m) k
       (Some (List.length dlev, List.length done)) hasnot off pos esc)
  = Ok (lq_at LQPRS_WAITDELIM dlev
          (alts_at flag done (qitem start len 0 (wlen + 1)) m) k
          (Some (List.length dlev, List.length done)) hasnot
          (off + List.length c) (pos + 1) esc).
Proof.
  intros E1 E2 E3 E4 E5 E6. qstep Hs Hc. rewrite E1, E2, E3, E4, E5, E6. qrun. qdone.
Qed.

Lemma lquery_in_step_delim_backslash flag done start len wlen m esc :
  single c "\" = true ->
  lquery_in_step H buf (Z.of_nat (S n))
    (lq_at LQPRS_WAITDELIM dlev (alts_at flag done (qitem start len 0 wlen) m) k
       (Some (List.length dlev, List.length done)) hasnot off pos esc)
  = Ok (lq_at LQPRS_WAITESCAPED dlev
          (alts_at flag done (qitem start len 0 wlen) m) k
          (Some (List.length dlev, List.length done)) hasnot
          (off + List.length c) (pos + 1) esc).
Proof.
  intros E. apply single_true in E. subst c. qstep Hs Hc. qconst. qrun. qdone.
Qed.

(** A modifier: [bit] is its flag. *)
Lemma lquery_in_step_delim_modifier a bit flag done start len iflag wlen m esc :
  (a = "@" /\ bit = LVAR_INCASE H) \/ (a = "*" /\ bit = LVAR_ANYEND H) \/
  (a = "%" /\ bit = LVAR_SUBLEXEME H) ->
  single c a = true -> start <> off ->
  lquery_in_step H buf (Z.of_nat (S n))
    (lq_at LQPRS_WAITDELIM dlev (alts_at flag done (qitem start len iflag wlen) m) k
       (Some (List.length dlev, List.length done)) hasnot off pos esc)
  = Ok (lq_at LQPRS_WAITDELIM dlev
          (alts_at (Z.lor flag bit) done
             (qitem start len (Z.lor iflag bit) (wlen + 1)) m) k
          (Some (List.length dlev, List.length done)) hasnot
          (off + List.length c) (pos + 1) esc).
Proof.
  intros Ha E Hne. apply single_true in E. subst c.
  apply Nat.eqb_neq in Hne.
  destruct Ha as [[-> ->] | [[-> ->] | [-> ->]]];
    qstep Hs Hc; qconst; qrun; rewrite Hne; qrun; qdone.
Qed.

Lemma lquery_in_step_delim_bar flag done start len iflag wlen m esc :
  single c "|" = true -> wlen <= 255 ->
  lquery_in_step H buf (Z.of_nat (S n))
    (lq_at LQPRS_WAITDELIM dlev (alts_at flag done (qitem start len iflag wlen) m) k
       (Some (List.length dlev, List.length done)) hasnot off pos esc)
  = Ok (lq_at LQPRS_WAITVAR dlev
          (alts_at flag done (qitem start (item_len H off start esc iflag) iflag wlen) m) k
          (Some (List.length dlev, List.length done)) hasnot
          (off + List.length c) (pos + 1) esc).
Proof.
  intros E Hw. apply single_true in E. subst c. qstep Hs Hc. qconst. qrun.
  replace (255 <? wlen) with false by (symmetry; apply Z.ltb_ge; lia). qrun. qdone.
Qed.

Lemma lquery_in_step_delim_dot flag done start len iflag wlen m esc k' :
  single c "." = true -> wlen <= 255 -> k = S k' ->
  lquery_in_step H buf (Z.of_nat (S n))
    (lq_at LQPRS_WAITDELIM dlev (alts_at flag done (qitem start len iflag wlen) m) k
       (Some (List.length dlev, List.length done)) hasnot off pos esc)
  = Ok (lq_at LQPRS_WAITLEVEL
          (dlev ++ [alts_at flag done
                      (qitem start (item_len H off start esc iflag) iflag wlen) m])
          tmp_level0 k'
          (Some (List.length dlev, List.length done)) hasnot
          (off + List.length c) (pos + 1) esc).
Proof.
  intros E Hw ->. apply single_true in E. subst c. qstep Hs Hc. qconst. qrun.
  replace (255 <? wlen) with false by (symmetry; apply Z.ltb_ge; lia). qrun.
  rewrite <- app_assoc. cbn [app repeat]. qdone.
Qed.

(** In the states of a quantifier. *)

Lemma lquery_in_step_open_brace low high lptr esc :
  single c "{" = true ->
  lquery_in_step H buf (Z.of_nat (S n))
    (lq_at LQPRS_WAITOPEN dlev (quant_level low high) k lptr hasnot off pos esc)
  = Ok (lq_at LQPRS_WAITFNUM dlev (quant_level low high) k lptr hasnot
          (off + List.length c) (pos + 1) esc).
Proof.
  intros E. apply single_true in E. subst c. qstep Hs Hc. qconst. qrun. qdone.
Qed.

Lemma lquery_in_step_open_dot low high lptr esc k' :
  single c "." = true -> k = S k' ->
  lquery_in_step H buf (Z.of_nat (S n))
    (lq_at LQPRS_WAITOPEN dlev (quant_level low high) k lptr hasnot off pos esc)
  = Ok (lq_at LQPRS_WAITLEVEL (dlev ++ [quant_level 0 65535]) tmp_level0 k' lptr hasnot
          (off + List.length c) (pos + 1) esc).
Proof.
  intros E ->. apply single_true in E. subst c. qstep Hs Hc. qconst.
  unfold quant_level. qrun. rewrite <- app_assoc. cbn [app repeat]. qdone.
Qed.

Lemma lquery_in_step_fnum_comma low high lptr esc :
  single c "," = true ->
  lquery_in_step H buf (Z.of_nat (S n))
    (lq_at LQPRS_WAITFNUM dlev (quant_level low high) k lptr hasnot off pos esc)
  = Ok (lq_at LQPRS_WAITSNUM dlev (quant_level low high) k lptr hasnot
          (off + List.length c) (pos + 1) esc).
Proof.
  intros E. apply single_true in E. subst c. qstep Hs Hc. qconst. qrun. qdone.
Qed.

Lemma lquery_in_step_fnum_digit d low high lptr esc :
  c = [d] -> isdigit d = true ->
  lquery_in_step H buf (Z.of_nat (S n))
    (lq_at LQPRS_WAITFNUM dlev (quant_level low high) k lptr hasnot off pos esc)
  = Ok (lq_at LQPRS_WAITND dlev (quant_level (uint16 (atoi H (d :: rest))) high) k lptr
          hasnot (off + List.length c) (pos + 1) esc).
Proof.
  intros -> Hd. qstep Hs Hc. unfold single. cbn [List.length Nat.eqb deref hd andb app].
  rewrite (isdigit_neq d "," Hd eq_refl), Hd. unfold quant_level. qrun. qdone.
Qed.

Lemma lquery_in_step_nd_brace low high lptr esc :
  single c "}" = true ->
  lquery_in_step H buf (Z.of_nat (S n))
    (lq_at LQPRS_WAITND dlev (quant_level low high) k lptr hasnot off pos esc)
  = Ok (lq_at LQPRS_WAITEND dlev (quant_level low low) k lptr hasnot
          (off + List.length c) (pos + 1) esc).
Proof.
  intros E. apply single_true in E. subst c. qstep Hs Hc. qconst.
  unfold quant_level. qrun. qdone.
Qed.

Lemma lquery_in_step_nd_comma low high lptr esc :
  single c "," = true ->
  lquery_in_step H buf (Z.of_nat (S n))
    (lq_at LQPRS_WAITND dlev (quant_level low high) k lptr hasnot off pos esc)
  = Ok (lq_at LQPRS_WAITSNUM dlev (quant_level low high) k lptr hasnot
          (off + List.length c) (pos + 1) esc).
Proof.
  intros E. apply single_true in E. subst c. qstep Hs Hc. qconst. qrun. qdone.
Qed.

Lemma lquery_in_step_nd_digit d low high lptr esc :
  c = [d] -> isdigit d = true ->
  lquery_in_step H buf (Z.of_nat (S n))
    (lq_at LQPRS_WAITND dlev (quant_level low high) k lptr hasnot off pos esc)
  = Ok (lq_at LQPRS_WAITND dlev (quant_level low high) k lptr hasnot
          (off + List.length c) (pos + 1) esc).
Proof.
  intros -> Hd. qstep Hs Hc. unfold single. cbn [List.length Nat.eqb deref hd andb app].
  rewrite (isdigit_neq d "}" Hd eq_refl), (isdigit_neq d "," Hd eq_refl), Hd.
  qrun. qdone.
Qed.

Lemma lquery_in_step_snum_digit d low high lptr esc :
  c = [d] -> isdigit d = true ->
  lquery_in_step H buf (Z.of_nat (S n))
    (lq_at LQPRS_WAITSNUM dlev (quant_level low high) k lptr hasnot off pos esc)
  = Ok (lq_at LQPRS_WAITCLOSE dlev (quant_level low (uint16 (atoi H (d :: rest)))) k lptr
          hasnot (off + List.length c) (pos + 1) esc).
Proof.
  intros -> Hd. qstep Hs Hc. cbn [List.length Nat.eqb deref hd andb app].
  rewrite Hd. unfold quant_level. qrun. qdone.
Qed.

Lemma lquery_in_step_snum_brace low high lptr esc :
  single c "}" = true ->
  lquery_in_step H buf (Z.of_nat (S n))
    (lq_at LQPRS_WAITSNUM dlev (quant_level low high) k lptr hasnot off pos esc)
  = Ok (lq_at LQPRS_WAITEND dlev (quant_level low 65535) k lptr hasnot
          (off + List.length c) (pos + 1) esc).
Proof.
  intros E. apply single_true in E. subst c. qstep Hs Hc. qconst.
  cbn [deref hd]. change (isdigit "}") with false. cbv iota.
  unfold quant_level. qrun. qdone.
Qed.

Lemma lquery_in_step_close_brace low high lptr esc :
  single c "}" = true ->
  lquery_in_step H buf (Z.of_nat (S n))
    (lq_at LQPRS_WAITCLOSE dlev (quant_level low high) k lptr hasnot off pos esc)
  = Ok (lq_at LQPRS_WAITEND dlev (quant_level low high) k lptr hasnot
          (off + List.length c) (pos + 1) esc).
Proof.
  intros E. apply single_true in E. subst c. qstep Hs Hc. qconst. qrun. qdone.
Qed.

Lemma lquery_in_step_close_digit d low high lptr esc :
  c = [d] -> isdigit d = true ->
  lquery_in_step H buf (Z.of_nat (S n))
    (lq_at LQPRS_WAITCLOSE dlev (quant_level low high) k lptr hasnot off pos esc)
  = Ok (lq_at LQPRS_WAITCLOSE dlev (quant_level low high) k lptr hasnot
          (off + List.length c) (pos + 1) esc).
Proof.
  intros -> Hd. qstep Hs Hc. unfold single. cbn [List.length Nat.eqb deref hd andb app].
  rewrite (isdigit_neq d "}" Hd eq_refl), Hd. qrun. qdone.
Qed.

Lemma lquery_in_step_end_dot low high lptr esc k' :
  single c "." = true -> k = S k' ->
  lquery_in_step H buf (Z.of_nat (S n))
    (lq_at LQPRS_WAITEND dlev (quant_level low high) k lptr hasnot off pos esc)
  = Ok (lq_at LQPRS_WAITLEVEL (dlev ++ [quant_level low high]) tmp_level0 k' lptr hasnot
          (off + List.length c) (pos + 1) esc).
Proof.
  intros E ->. apply single_true in E. subst c. qstep Hs Hc. qconst.
  unfold quant_level. qrun. rewrite <- app_assoc. cbn [app repeat]. qdone.
Qed.

End QSteps.

(** *** Names and modifiers *)

Section QRuns.

Variables (buf : text) (n : nat) (dlev : list tmp_level) (k : nat) (hasnot : bool).

(** The characters of a name, in state WAITDELIM. *)
Lemma qruns_units flag done start len m us :
  forall off wlen pos esc rest,
  Forall (punit_ok H) us -> skipn off buf = render us ++ rest ->
  qruns_to H buf (Z.of_nat (S n))
    (lq_at LQPRS_WAITDELIM dlev (alts_at flag done (qitem start len 0 wlen) m) k
       (Some (List.length dlev, List.length done)) hasnot off pos esc)
    (lq_at LQPRS_WAITDELIM dlev
       (alts_at flag done (qitem start len 0 (wlen + Z.of_nat (List.length us))) m) k
       (Some (List.length dlev, List.length done)) hasnot
       (off + List.length (render us))
       (pos + Z.of_nat (List.length us + escapes_of us))
       (esc + Z.of_nat (escapes_of us))).
Proof.
  induction us as [|[e c] us IH]; intros off wlen pos esc rest Hus Hs.
  - eapply qruns_to_eq; [apply qruns_to_refl|]. cbn [List.length render map List.concat escapes_of filter]. qeq.
  - apply Forall_cons_iff in Hus as [[Hc Hplain] Hus]. cbn [fst snd] in *.
    rewrite render_cons, <- app_assoc in Hs. rewrite render_cons, length_app.
    rewrite escapes_of_cons. cbn [List.length].
    destruct e; cbn [render_unit fst snd] in *.
    + change (("\" :: c) ++ render us ++ rest) with (["\"] ++ c ++ render us ++ rest) in Hs.
      pose proof (skipn_plus_app _ _ _ _ Hs) as Hs1.
      pose proof (skipn_plus_app _ _ _ _ Hs1) as Hs2.
      eapply qruns_to_trans.
      { eapply qruns_to_step; [exact Hs | apply (wf_char_backslash H Hok)|].
        eapply lquery_in_step_delim_backslash;
          [exact Hs | apply (wf_char_backslash H Hok) | apply single_refl]. }
      eapply qruns_to_trans.
      { eapply qruns_to_step; [exact Hs1 | exact Hc|].
        eapply lquery_in_step_escaped; [exact Hs1 | exact Hc]. }
      eapply qruns_to_eq; [eapply IH; eauto|].
      cbn [List.length]. qeq.
    + destruct (Hplain eq_refl) as (E1 & E2 & E3 & E4 & E5 & E6).
      pose proof (skipn_plus_app _ _ _ _ Hs) as Hs1.
      eapply qruns_to_trans.
      { eapply qruns_to_step; [exact Hs | exact Hc|].
        eapply lquery_in_step_delim_plain; eauto. }
      eapply qruns_to_eq; [eapply IH; eauto|].
      qeq.
Qed.

Lemma wf_char_byte a : a <> NUL -> (nat_of_ascii a < 128)%nat -> wf_char H [a].
Proof. apply (wf_char_ascii H Hok). Qed.

(** A modifier, if [b] says that it is there. *)
Lemma qruns_modifier (b : bool) a bit flag done start len iflag wlen m off pos esc rest :
  (a = "@" /\ bit = LVAR_INCASE H) \/ (a = "*" /\ bit = LVAR_ANYEND H) \/
  (a = "%" /\ bit = LVAR_SUBLEXEME H) ->
  skipn off buf = (if b then [a] else []) ++ rest -> (start < off)%nat ->
  qruns_to H buf (Z.of_nat (S n))
    (lq_at LQPRS_WAITDELIM dlev (alts_at flag done (qitem start len iflag wlen) m) k
       (Some (List.length dlev, List.length done)) hasnot off pos esc)
    (lq_at LQPRS_WAITDELIM dlev
       (alts_at (if b then Z.lor flag bit else flag) done
          (qitem start len (if b then Z.lor iflag bit else iflag)
             (wlen + (if b then 1 else 0))) m) k
       (Some (List.length dlev, List.length done)) hasnot
       (off + (if b then 1 else 0)) (pos + (if b then 1 else 0)) esc).
Proof.
  intros Ha Hs Hlt. destruct b.
  - assert (wf_char H [a]) as Hc
      by (destruct Ha as [[-> _] | [[-> _] | [-> _]]];
          apply wf_char_byte; try discriminate; vm_compute; lia).
    eapply qruns_to_step; [exact Hs | exact Hc|].
    change (off + 1)%nat with (off + List.length [a])%nat.
    eapply lquery_in_step_delim_modifier; eauto using single_refl. lia.
  - eapply qruns_to_eq; [apply qruns_to_refl|].
    qeq.
Qed.

(** The modifiers that [lquery_out] writes for the flags [vflag]. *)
Lemma qruns_flags vflag flag done start len iflag wlen m off pos esc rest :
  skipn off buf = flags_text H vflag ++ rest -> (start < off)%nat ->
  qruns_to H buf (Z.of_nat (S n))
    (lq_at LQPRS_WAITDELIM dlev (alts_at flag done (qitem start len iflag wlen) m) k
       (Some (List.length dlev, List.length done)) hasnot off pos esc)
    (lq_at LQPRS_WAITDELIM dlev
       (alts_at (flags_acc H flag vflag) done
          (qitem start len (flags_acc H iflag vflag)
             (wlen + Z.of_nat (List.length (flags_text H vflag)))) m) k
       (Some (List.length dlev, List.length done)) hasnot
       (off + List.length (flags_text H vflag))
       (pos + Z.of_nat (List.length (flags_text H vflag))) esc).
Proof.
  unfold flags_text, flags_acc. intros Hs Hlt. rewrite <- !app_assoc in Hs.
  pose proof (skipn_plus_app _ _ _ _ Hs) as Hs1.
  pose proof (skipn_plus_app _ _ _ _ Hs1) as Hs2.
  eapply qruns_to_trans.
  { eapply (qruns_modifier (has_flag vflag (LVAR_SUBLEXEME H)) "%");
      [right; right; split; reflexivity | exact Hs | exact Hlt]. }
  eapply qruns_to_trans.
  { eapply (qruns_modifier (has_flag vflag (LVAR_INCASE H)) "@");
      [left; split; reflexivity| |].
    - replace (off + (if has_flag vflag (LVAR_SUBLEXEME H) then 1 else 0))%nat
        with (off + List.length (if has_flag vflag (LVAR_SUBLEXEME H) then ["%"] else []))%nat
        by (destruct (has_flag vflag (LVAR_SUBLEXEME H)); reflexivity).
      exact Hs1.
    - lia. }
  eapply qruns_to_eq.
  { eapply (qruns_modifier (has_flag vflag (LVAR_ANYEND H)) "*");
      [right; left; split; reflexivity| |].
    - replace (off + (if has_flag vflag (LVAR_SUBLEXEME H) then 1 else 0)
               + (if has_flag vflag (LVAR_INCASE H) then 1 else 0))%nat
        with (off + List.length (if has_flag vflag (LVAR_SUBLEXEME H) then ["%"] else [])
              + List.length (if has_flag vflag (LVAR_INCASE H) then ["@"] else []))%nat
        by (destruct (has_flag vflag (LVAR_SUBLEXEME H)),
                     (has_flag vflag (LVAR_INCASE H)); reflexivity).
      exact Hs2.
    - lia. }
  cbv zeta. rewrite !length_app.
  destruct (has_flag vflag (LVAR_SUBLEXEME H)), (has_flag vflag (LVAR_INCASE H)),
    (has_flag vflag (LVAR_ANYEND H)); cbn [List.length];
    qeq.
Qed.

(** *** Variants *)

Lemma is_escaped_false c :
  is_escaped ["\"; " "; "."; "|"] c = false ->
  single c "\" = false /\ single c "." = false /\ single c "|" = false.
Proof.
  unfold is_escaped, single. destruct c as [|x [|y c]]; cbn [List.length Nat.eqb andb];
    auto. cbn [strchr existsb deref hd]. intros E.
  apply orb_false_iff in E as [E1 E]. apply orb_false_iff in E as [_ E].
  apply orb_false_iff in E as [E2 E]. apply orb_false_iff in E as [E3 _]. auto.
Qed.

Lemma variant_canon_units lead v :
  variant_canon H lead v ->
  Forall (punit_ok H) (escape_chars ["\"; " "; "."; "|"] (fst v)).
Proof.
  intros (_ & Hwf & Hpl & _). unfold escape_chars. apply Forall_map.
  rewrite Forall_forall in *. intros c Hin. split; [apply Hwf; exact Hin|].
  cbn [fst snd]. intros E. destruct (is_escaped_false c E) as (E1 & E2 & E3).
  destruct (Hpl c Hin) as (E4 & E5 & E6). repeat split; assumption.
Qed.

Lemma variant_canon_name_canon lead v : variant_canon H lead v -> name_canon H v.
Proof. intros (H1 & H2 & H3 & H4 & _). repeat split; assumption. Qed.

Lemma name_canon_units v :
  name_canon H v -> Forall (punit_ok H) (escape_chars ["\"; " "; "."; "|"] (fst v)).
Proof.
  intros (_ & Hwf & Hpl & _). unfold escape_chars. apply Forall_map.
  rewrite Forall_forall in *. intros c Hin. split; [apply Hwf; exact Hin|].
  cbn [fst snd]. intros E. destruct (is_escaped_false c E) as (E1 & E2 & E3).
  destruct (Hpl c Hin) as (E4 & E5 & E6). repeat split; assumption.
Qed.

Lemma render_units_length cs :
  cs <> [] -> Forall (wf_char H) cs ->
  (1 <= List.length (render (escape_chars ["\"; " "; "."; "|"] cs)))%nat.
Proof.
  intros Hne Hcs. destruct cs as [|c cs]; [contradiction|].
  apply Forall_cons_iff in Hcs as [Hc _]. pose proof (wf_char_len H Hok c Hc).
  cbn [escape_chars map]. rewrite render_cons, length_app. unfold render_unit.
  cbn [fst snd]. destruct (is_escaped _ c); cbn [List.length]; lia.
Qed.

Lemma item_len_name off start vflag us :
  (off = start + List.length (render us) + List.length (flags_text H vflag))%nat ->
  item_len H off start (Z.of_nat (escapes_of us)) vflag
  = Z.of_nat (List.length (name_of us)).
Proof.
  intros ->. unfold item_len, flags_text. rewrite render_length, !length_app.
  destruct (has_flag vflag (LVAR_SUBLEXEME H)), (has_flag vflag (LVAR_INCASE H)),
    (has_flag vflag (LVAR_ANYEND H)); cbn [List.length]; lia.
Qed.

(** The rest of a variant, from state WAITDELIM after its first characters
    [us0], which [wlen] counts: the characters [us] and the modifiers. *)
Lemma qruns_name_tail lead v us0 us flag done start wlen m off pos esc rest :
  name_canon H v ->
  escape_chars ["\"; " "; "."; "|"] (fst v) = us0 ++ us ->
  (off = start + List.length (render us0))%nat ->
  wlen = Z.of_nat (lead + List.length us0) -> esc = Z.of_nat (escapes_of us0) ->
  skipn start buf = render (us0 ++ us) ++ flags_text H (snd v) ++ rest ->
  exists pos',
    qruns_to H buf (Z.of_nat (S n))
      (lq_at LQPRS_WAITDELIM dlev (alts_at flag done (qitem start 0 0 wlen) m) k
         (Some (List.length dlev, List.length done)) hasnot off pos esc)
      (lq_at LQPRS_WAITDELIM dlev
         (alts_at (flags_acc H flag (snd v)) done
            (qitem start 0 (snd v)
               (Z.of_nat (lead + List.length (fst v)
                          + List.length (flags_text H (snd v))))) m) k
         (Some (List.length dlev, List.length done)) hasnot
         (start + List.length (variant_text H v)) pos'
         (Z.of_nat (escapes_of (escape_chars ["\"; " "; "."; "|"] (fst v))))).
Proof.
  intros Hv Eus -> -> -> Hs.
  pose proof (name_canon_units v Hv) as Hunits. rewrite Eus in Hunits.
  apply Forall_app in Hunits as [_ Hus].
  destruct Hv as (Hne & Hwf & _ & Hfl).
  pose proof (render_units_length (fst v) Hne Hwf) as Hpos. rewrite Eus in Hpos.
  assert (List.length (fst v) = List.length (us0 ++ us)) as Hl
    by (rewrite <- Eus; unfold escape_chars; rewrite length_map; reflexivity).
  rewrite length_app in Hl.
  unfold render in Hs, Hpos. rewrite map_app, concat_app in Hs, Hpos.
  fold (render us0) in Hs, Hpos. fold (render us) in Hs, Hpos.
  rewrite length_app in Hpos. rewrite <- !app_assoc in Hs.
  pose proof (skipn_plus_app _ _ _ _ Hs) as Hs1.
  pose proof (skipn_plus_app _ _ _ _ Hs1) as Hs2.
  eexists.
  eapply qruns_to_trans.
  { eapply qruns_units; [exact Hus | exact Hs1]. }
  eapply qruns_to_eq.
  { eapply qruns_flags; [exact Hs2 | lia]. }
  rewrite <- Hfl. unfold variant_text. rewrite Eus. unfold render at 3.
  rewrite map_app, concat_app. fold (render us0). fold (render us).
  rewrite !length_app. unfold escapes_of. rewrite filter_app, length_app.
  fold (escapes_of us0). fold (escapes_of us).
  qeq.
Qed.

(** The item of a variant that is read to its end. *)
Lemma open_item_canon lead v start rest :
  variant_canon H lead v -> skipn start buf = variant_text H v ++ rest ->
  open_item H buf (start + List.length (variant_text H v))
    (Z.of_nat (escapes_of (escape_chars ["\"; " "; "."; "|"] (fst v))))
    (qitem start 0 (snd v)
       (Z.of_nat (lead + List.length (fst v) + List.length (flags_text H (snd v))))) v.
Proof.
  intros (Hne & Hwf & _ & Hfl & Hlen) Hs.
  pose proof (render_units_length (fst v) Hne Hwf) as Hpos.
  unfold open_item. cbn [qitem ni_flag ni_wlen ni_start].
  split; [reflexivity|]. split; [lia|]. split.
  { unfold variant_text. rewrite length_app. lia. }
  split.
  { rewrite <- (escape_chars_name ["\"; " "; "."; "|"] (fst v)).
    apply item_len_name. unfold variant_text. rewrite length_app. lia. }
  exists (flags_text H (snd v) ++ rest). unfold variant_text in Hs.
  rewrite <- app_assoc in Hs. exact Hs.
Qed.

End QRuns.

Section QLevels.

Variables (buf : text) (n : nat) (dlev : list tmp_level) (k : nat).

Lemma escape_chars_cons c cs :
  escape_chars ["\"; " "; "."; "|"] (c :: cs)
  = [(is_escaped ["\"; " "; "."; "|"] c, c)] ++ escape_chars ["\"; " "; "."; "|"] cs.
Proof. reflexivity. Qed.

Lemma is_escaped_true c :
  is_escaped ["\"; " "; "."; "|"] c = true -> List.length c = 1%nat.
Proof. destruct c as [|x [|y c]]; cbn; auto; discriminate. Qed.

(** The first name of a level that is not negated. *)
Lemma qruns_name_level v lptr hasnot off pos esc rest :
  name_canon H v -> single (hd [] (fst v)) "!" = false ->
  skipn off buf = variant_text H v ++ rest ->
  exists pos',
    qruns_to H buf (Z.of_nat (S n))
      (lq_at LQPRS_WAITLEVEL dlev tmp_level0 k lptr hasnot off pos esc)
      (lq_at LQPRS_WAITDELIM dlev
         (alts_at (flags_acc H 0 (snd v)) []
            (qitem off 0 (snd v)
               (Z.of_nat (0 + List.length (fst v) + List.length (flags_text H (snd v)))))
            n) k
         (Some (List.length dlev, O)) hasnot
         (off + List.length (variant_text H v)) pos'
         (Z.of_nat (escapes_of (escape_chars ["\"; " "; "."; "|"] (fst v))))).
Proof.
  intros Hv Hbang Hs. pose proof Hv as (Hne & Hwf & Hpl & _).
  destruct (fst v) as [|c cs] eqn:Ecs; [contradiction|]. cbn [hd] in Hbang.
  apply Forall_cons_iff in Hwf as [Hc _]. apply Forall_cons_iff in Hpl as [(_ & Hstar & _) _].
  pose proof (escape_chars_cons c cs) as Eus. rewrite <- Ecs in Eus.
  unfold variant_text in Hs. rewrite Eus in Hs.
  pose proof Hs as Hs0. unfold render in Hs0. rewrite map_app, concat_app in Hs0.
  cbn [map List.concat] in Hs0. rewrite app_nil_r, <- !app_assoc in Hs0.
  fold (render (escape_chars ["\"; " "; "."; "|"] cs)) in Hs0.
  rewrite <- app_assoc in Hs.
  destruct (is_escaped ["\"; " "; "."; "|"] c) eqn:Ee.
  - unfold render_unit in Hs0. cbn [fst snd] in Hs0.
    change (("\" :: c) ++ ?x) with (["\"] ++ c ++ x) in Hs0.
    pose proof (skipn_plus_app _ _ _ _ Hs0) as Hs1.
    destruct (qruns_name_tail buf n dlev k hasnot 0 v [(true, c)]
                (escape_chars ["\"; " "; "."; "|"] cs) 0 [] off 1 n
                (off + 1 + List.length c) (pos + 1 + 1) 1 rest Hv Eus)
      as (pos' & Hrun); try reflexivity.
    { unfold render, render_unit. cbn [map List.concat fst snd List.length].
      rewrite app_nil_r. cbn [List.length]. lia. }
    { exact Hs. }
    exists pos'.
    eapply qruns_to_trans.
    { eapply qruns_to_step; [exact Hs0 | apply (wf_char_backslash H Hok)|].
      eapply lquery_in_step_level_backslash;
        [exact Hs0 | apply (wf_char_backslash H Hok) | apply single_refl]. }
    eapply qruns_to_trans.
    { eapply qruns_to_step; [exact Hs1 | exact Hc|].
      eapply lquery_in_step_escaped; [exact Hs1 | exact Hc]. }
    rewrite <- Ecs. exact Hrun.
  - unfold render_unit in Hs0. cbn [fst snd] in Hs0.
    destruct (is_escaped_false c Ee) as (E1 & E2 & E3).
    destruct (qruns_name_tail buf n dlev k hasnot 0 v [(false, c)]
                (escape_chars ["\"; " "; "."; "|"] cs) 0 [] off 1 n
                (off + List.length c) (pos + 1) 0 rest Hv Eus)
      as (pos' & Hrun); try reflexivity.
    { unfold render, render_unit. cbn [map List.concat fst snd List.length].
      rewrite app_nil_r. reflexivity. }
    { exact Hs. }
    exists pos'.
    eapply qruns_to_trans.
    { eapply qruns_to_step; [exact Hs0 | exact Hc|].
      eapply lquery_in_step_level_plain; eauto. }
    rewrite <- Ecs. exact Hrun.
Qed.

(** The first name of a negated level, after its [!]. *)
Lemma qruns_name_not v lptr hasnot off pos esc rest :
  name_canon H v ->
  skipn off buf = ["!"] ++ variant_text H v ++ rest ->
  exists pos',
    qruns_to H buf (Z.of_nat (S n))
      (lq_at LQPRS_WAITLEVEL dlev tmp_level0 k lptr hasnot off pos esc)
      (lq_at LQPRS_WAITDELIM dlev
         (alts_at (flags_acc H (LQL_NOT H) (snd v)) []
            (qitem (S off) 0 (snd v)
               (Z.of_nat (1 + List.length (fst v) + List.length (flags_text H (snd v)))))
            n) k
         (Some (List.length dlev, O)) true
         (off + 1 + List.length (variant_text H v)) pos'
         (Z.of_nat (escapes_of (escape_chars ["\"; " "; "."; "|"] (fst v))))).
Proof.
  intros Hv Hs. pose proof (skipn_plus_app _ _ _ _ Hs) as Hs1.
  assert (wf_char H ["!"]) as Hc by (apply wf_char_byte; [discriminate | vm_compute; lia]).
  unfold variant_text in Hs1. rewrite <- app_assoc in Hs1.
  destruct (qruns_name_tail buf n dlev k true 1 v []
              (escape_chars ["\"; " "; "."; "|"] (fst v)) (LQL_NOT H) [] (S off) 1 n
              (off + 1) (pos + 1) 0 rest Hv eq_refl)
    as (pos' & Hrun); try reflexivity.
  { cbn [render map List.concat List.length]. lia. }
  { cbn [app]. replace (S off) with (off + 1)%nat by lia. exact Hs1. }
  replace (S off + List.length (variant_text H v))%nat
    with (off + 1 + List.length (variant_text H v))%nat in Hrun by lia.
  exists pos'.
  eapply qruns_to_trans; [|exact Hrun].
  eapply qruns_to_step; [exact Hs | exact Hc|].
  eapply (lquery_in_step_level_not buf n dlev k hasnot off pos ["!"]);
    [exact Hs | exact Hc | apply single_refl].
Qed.

(** A name after a bar. *)
Lemma qruns_name_var v flag done it0 m hasnot off pos esc rest :
  name_canon H v ->
  skipn off buf = variant_text H v ++ rest ->
  exists pos',
    qruns_to H buf (Z.of_nat (S n))
      (lq_at LQPRS_WAITVAR dlev (alts_at flag done it0 (S m)) k
         (Some (List.length dlev, List.length done)) hasnot off pos esc)
      (lq_at LQPRS_WAITDELIM dlev
         (alts_at (flags_acc H flag (snd v)) (done ++ [it0])
            (qitem off 0 (snd v)
               (Z.of_nat (0 + List.length (fst v) + List.length (flags_text H (snd v)))))
            m) k
         (Some (List.length dlev, List.length (done ++ [it0]))) hasnot
         (off + List.length (variant_text H v)) pos'
         (Z.of_nat (escapes_of (escape_chars ["\"; " "; "."; "|"] (fst v))))).
Proof.
  intros Hv Hs. pose proof Hv as (Hne & Hwf & Hpl & _).
  destruct (fst v) as [|c cs] eqn:Ecs; [contradiction|].
  apply Forall_cons_iff in Hwf as [Hc _].
  pose proof (escape_chars_cons c cs) as Eus. rewrite <- Ecs in Eus.
  unfold variant_text in Hs. rewrite Eus in Hs.
  pose proof Hs as Hs0. unfold render in Hs0. rewrite map_app, concat_app in Hs0.
  cbn [map List.concat] in Hs0. rewrite app_nil_r, <- !app_assoc in Hs0.
  fold (render (escape_chars ["\"; " "; "."; "|"] cs)) in Hs0.
  rewrite <- app_assoc in Hs.
  destruct (is_escaped ["\"; " "; "."; "|"] c) eqn:Ee.
  - unfold render_unit in Hs0. cbn [fst snd] in Hs0.
    change (("\" :: c) ++ ?x) with (["\"] ++ c ++ x) in Hs0.
    pose proof (skipn_plus_app _ _ _ _ Hs0) as Hs1.
    destruct (qruns_name_tail buf n dlev k hasnot 0 v [(true, c)]
                (escape_chars ["\"; " "; "."; "|"] cs) flag (done ++ [it0]) off 1 m
                (off + 1 + List.length c) (pos + 1 + 1) 1 rest Hv Eus)
      as (pos' & Hrun); try reflexivity.
    { unfold render, render_unit. cbn [map List.concat fst snd List.length].
      rewrite app_nil_r. cbn [List.length]. lia. }
    { exact Hs. }
    exists pos'.
    eapply qruns_to_trans.
    { eapply qruns_to_step; [exact Hs0 | apply (wf_char_backslash H Hok)|].
      eapply lquery_in_step_var_backslash;
        [exact Hs0 | apply (wf_char_backslash H Hok) | apply single_refl]. }
    eapply qruns_to_trans.
    { eapply qruns_to_step; [exact Hs1 | exact Hc|].
      eapply lquery_in_step_escaped; [exact Hs1 | exact Hc]. }
    rewrite <- Ecs. exact Hrun.
  - unfold render_unit in Hs0. cbn [fst snd] in Hs0.
    destruct (is_escaped_false c Ee) as (E1 & E2 & E3).
    destruct (qruns_name_tail buf n dlev k hasnot 0 v [(false, c)]
                (escape_chars ["\"; " "; "."; "|"] cs) flag (done ++ [it0]) off 1 m
                (off + List.length c) (pos + 1) 0 rest Hv Eus)
      as (pos' & Hrun); try reflexivity.
    { unfold render, render_unit. cbn [map List.concat fst snd List.length].
      rewrite app_nil_r. reflexivity. }
    { exact Hs. }
    exists pos'.
    eapply qruns_to_trans.
    { eapply qruns_to_step; [exact Hs0 | exact Hc|].
      eapply lquery_in_step_var_plain; eauto. }
    rewrite <- Ecs. exact Hrun.
Qed.

(** The first variant of a level that is not negated. *)
Lemma qruns_variant_level v lptr hasnot off pos esc rest :
  variant_canon H 0 v -> single (hd [] (fst v)) "!" = false ->
  skipn off buf = variant_text H v ++ rest ->
  exists it pos' esc',
    qruns_to H buf (Z.of_nat (S n))
      (lq_at LQPRS_WAITLEVEL dlev tmp_level0 k lptr hasnot off pos esc)
      (lq_at LQPRS_WAITDELIM dlev (alts_at (flags_acc H 0 (snd v)) [] it n) k
         (Some (List.length dlev, O)) hasnot
         (off + List.length (variant_text H v)) pos' esc') /\
    open_item H buf (off + List.length (variant_text H v)) esc' it v.
Proof.
  intros Hv Hbang Hs.
  destruct (qruns_name_level v lptr hasnot off pos esc rest
              (variant_canon_name_canon 0 v Hv) Hbang Hs) as (pos' & Hrun).
  do 3 eexists. split; [exact Hrun|]. eapply (open_item_canon buf 0); eassumption.
Qed.

(** The first variant of a negated level, after its [!]. *)
Lemma qruns_variant_not v lptr hasnot off pos esc rest :
  variant_canon H 1 v ->
  skipn off buf = ["!"] ++ variant_text H v ++ rest ->
  exists it pos' esc',
    qruns_to H buf (Z.of_nat (S n))
      (lq_at LQPRS_WAITLEVEL dlev tmp_level0 k lptr hasnot off pos esc)
      (lq_at LQPRS_WAITDELIM dlev (alts_at (flags_acc H (LQL_NOT H) (snd v)) [] it n) k
         (Some (List.length dlev, O)) true
         (off + 1 + List.length (variant_text H v)) pos' esc') /\
    open_item H buf (off + 1 + List.length (variant_text H v)) esc' it v.
Proof.
  intros Hv Hs.
  destruct (qruns_name_not v lptr hasnot off pos esc rest
              (variant_canon_name_canon 1 v Hv) Hs) as (pos' & Hrun).
  do 3 eexists. split; [exact Hrun|].
  pose proof (skipn_plus_app _ _ _ _ Hs) as Hs1. cbn [List.length] in Hs1.
  replace (off + 1)%nat with (S off) in * by lia.
  eapply (open_item_canon buf 1); eassumption.
Qed.

(** A variant after a bar. *)
Lemma qruns_variant_var v flag done it0 m hasnot off pos esc rest :
  variant_canon H 0 v ->
  skipn off buf = variant_text H v ++ rest ->
  exists it pos' esc',
    qruns_to H buf (Z.of_nat (S n))
      (lq_at LQPRS_WAITVAR dlev (alts_at flag done it0 (S m)) k
         (Some (List.length dlev, List.length done)) hasnot off pos esc)
      (lq_at LQPRS_WAITDELIM dlev
         (alts_at (flags_acc H flag (snd v)) (done ++ [it0]) it m) k
         (Some (List.length dlev, List.length (done ++ [it0]))) hasnot
         (off + List.length (variant_text H v)) pos' esc') /\
    open_item H buf (off + List.length (variant_text H v)) esc' it v.
Proof.
  intros Hv Hs.
  destruct (qruns_name_var v flag done it0 m hasnot off pos esc rest
              (variant_canon_name_canon 0 v Hv) Hs) as (pos' & Hrun).
  do 3 eexists. split; [exact Hrun|]. eapply (open_item_canon buf 0); eassumption.
Qed.

Lemma last_cons_default {A} (x d : A) l : last (x :: l) d = last l x.
Proof.
  revert x d. induction l as [|y l IH]; intros x d; [reflexivity|].
  change (last (x :: y :: l) d) with (last (y :: l) d). rewrite (IH y d), (IH y x).
  reflexivity.
Qed.

Lemma last_in {A} (l : list A) d : l <> [] -> In (last l d) l.
Proof.
  induction l as [|x l IH]; [contradiction|]. intros _.
  destruct l as [|y l]; [left; reflexivity|].
  right. apply IH. discriminate.
Qed.

Lemma barred_cons v vs : barred H (v :: vs) = ["|"] ++ variant_text H v ++ barred H vs.
Proof. reflexivity. Qed.

Lemma open_item_closed off esc start len iflag w v :
  open_item H buf off esc (qitem start len iflag w) v ->
  item_for buf (qitem start (item_len H off start esc iflag) iflag w) v.
Proof.
  unfold open_item, item_for. cbn [qitem ni_flag ni_wlen ni_start ni_len].
  intros (-> & _ & _ & Hl & Hr). auto.
Qed.

(** The variants after the first, each behind its bar. *)
Lemma qruns_bars vs : forall vdone v0 done it flag m hasnot off pos esc rest,
  open_item H buf off esc it v0 -> Forall2 (item_for buf) done vdone ->
  Forall (variant_canon H 0) vs -> skipn off buf = barred H vs ++ rest ->
  (List.length vs <= m)%nat ->
  exists done' it' pos' esc',
    qruns_to H buf (Z.of_nat (S n))
      (lq_at LQPRS_WAITDELIM dlev (alts_at flag done it m) k
         (Some (List.length dlev, List.length done)) hasnot off pos esc)
      (lq_at LQPRS_WAITDELIM dlev
         (alts_at (vars_flag H flag vs) done' it' (m - List.length vs)) k
         (Some (List.length dlev, List.length done')) hasnot
         (off + List.length (barred H vs)) pos' esc') /\
    open_item H buf (off + List.length (barred H vs)) esc' it' (last vs v0) /\
    Forall2 (item_for buf) done' (removelast (vdone ++ v0 :: vs)).
Proof.
  induction vs as [|v vs IH];
    intros vdone v0 done it flag m hasnot off pos esc rest Hopen Hdone Hvs Hs Hm.
  - exists done, it, pos, esc. cbn [barred map List.concat List.length last vars_flag fold_left].
    rewrite Nat.add_0_r, Nat.sub_0_r. split; [apply qruns_to_refl|]. split; [exact Hopen|].
    rewrite removelast_last. exact Hdone.
  - apply Forall_cons_iff in Hvs as [Hv Hvs]. cbn [List.length] in Hm.
    destruct m as [|m]; [lia|]. rewrite barred_cons, <- !app_assoc in Hs.
    pose proof (skipn_plus_app _ _ _ _ Hs) as Hs1. cbn [List.length] in Hs1.
    pose proof (skipn_plus_app _ _ _ _ Hs1) as Hs2.
    destruct it as [start len iflag w].
    change {| ni_start := start; ni_len := len; ni_flag := iflag; ni_wlen := w |}
      with (qitem start len iflag w) in *.
    pose proof (open_item_closed _ _ _ _ _ _ _ Hopen) as Hclosed.
    pose proof Hopen as (_ & Hw & _). cbn [qitem ni_wlen] in Hw.
    assert (wf_char H ["|"]) as Hbar
      by (apply wf_char_byte; [discriminate | vm_compute; lia]).
    destruct (qruns_variant_var v flag done
                (qitem start (item_len H off start esc iflag) iflag w) m hasnot
                (off + 1) (pos + 1) esc (barred H vs ++ rest) Hv Hs1)
      as (it1 & pos1 & esc1 & Hrun1 & Hopen1).
    destruct (IH (vdone ++ [v0]) v
                (done ++ [qitem start (item_len H off start esc iflag) iflag w])
                it1 (flags_acc H flag (snd v)) m hasnot
                (off + 1 + List.length (variant_text H v))%nat pos1 esc1 rest Hopen1)
      as (done' & it' & pos' & esc' & Hrun & Hopen' & Hdone'); auto; try lia.
    { apply Forall2_app; [exact Hdone | constructor; [exact Hclosed | constructor]]. }
    exists done', it', pos', esc'. split; [|split].
    + eapply qruns_to_trans.
      { eapply qruns_to_step; [exact Hs | exact Hbar|].
        eapply (lquery_in_step_delim_bar buf n dlev k hasnot off pos ["|"]);
          [exact Hs | exact Hbar | apply single_refl | exact Hw]. }
      eapply qruns_to_trans; [exact Hrun1|].
      eapply qruns_to_eq; [exact Hrun|].
      rewrite barred_cons, !length_app. cbn [List.length vars_flag fold_left].
      replace (S m - S (List.length vs))%nat with (m - List.length vs)%nat by lia.
      qeq.
    + rewrite last_cons_default, barred_cons, !length_app. cbn [List.length].
      replace (off + (1 + (List.length (variant_text H v) + List.length (barred H vs))))%nat
        with (off + 1 + List.length (variant_text H v) + List.length (barred H vs))%nat
        by lia.
      exact Hopen'.
    + rewrite <- app_assoc in Hdone'. exact Hdone'.
Qed.

Lemma sep_by_barred v vs :
  sep_by "|" (map (variant_text H) (v :: vs)) = variant_text H v ++ barred H vs.
Proof.
  revert v. induction vs as [|v' vs IH]; intros v.
  - cbn. rewrite app_nil_r. reflexivity.
  - change (sep_by "|" (map (variant_text H) (v :: v' :: vs)))
      with (variant_text H v ++ "|" :: sep_by "|" (map (variant_text H) (v' :: vs))).
    rewrite IH. reflexivity.
Qed.

(** The variants of a level, from its start. *)
Lemma qruns_alts neg vs lptr hasnot off pos esc rest :
  level_canon H (Alts neg vs) ->
  skipn off buf = level_text H (Alts neg vs) ++ rest ->
  (List.length vs <= S n)%nat ->
  exists done it pos' esc',
    qruns_to H buf (Z.of_nat (S n))
      (lq_at LQPRS_WAITLEVEL dlev tmp_level0 k lptr hasnot off pos esc)
      (lq_at LQPRS_WAITDELIM dlev
         (alts_at (vars_flag H (if neg then LQL_NOT H else 0) vs) done it
            (S n - List.length vs)) k
         (Some (List.length dlev, List.length done)) (hasnot || neg)
         (off + List.length (level_text H (Alts neg vs))) pos' esc') /\
    open_item H buf (off + List.length (level_text H (Alts neg vs))) esc' it
      (last vs ([], 0)) /\
    Forall2 (item_for buf) done (removelast vs).
Proof.
  intros Hp Hs Hn. destruct vs as [|v vs]; [contradiction|].
  destruct Hp as (Hv & Hbang & Hvs). cbn [level_text] in Hs |- *.
  rewrite sep_by_barred in Hs |- *. cbn [List.length] in Hn.
  destruct neg.
  - rewrite <- !app_assoc in Hs.
    destruct (qruns_variant_not v lptr hasnot off pos esc (barred H vs ++ rest) Hv Hs)
      as (it1 & pos1 & esc1 & Hrun1 & Hopen1).
    destruct (qruns_bars vs [] v [] it1 (flags_acc H (LQL_NOT H) (snd v)) n true
                (off + 1 + List.length (variant_text H v)) pos1 esc1 rest Hopen1)
      as (done' & it' & pos' & esc' & Hrun & Hopen' & Hdone'); auto; try lia.
    { pose proof (skipn_plus_app _ _ _ _ Hs) as Hs1. cbn [List.length] in Hs1.
      apply (skipn_plus_app _ _ _ _ Hs1). }
    exists done', it', pos', esc'. rewrite orb_true_r. split; [|split].
    + eapply qruns_to_trans; [exact Hrun1|].
      eapply qruns_to_eq; [exact Hrun|].
      rewrite !length_app. cbn [List.length vars_flag fold_left]. qeq.
    + rewrite last_cons_default, !length_app. cbn [List.length].
      replace (off + (1 + (List.length (variant_text H v) + List.length (barred H vs))))%nat
        with (off + 1 + List.length (variant_text H v) + List.length (barred H vs))%nat
        by lia.
      exact Hopen'.
    + exact Hdone'.
  - cbn [app] in Hs. rewrite <- !app_assoc in Hs.
    destruct (qruns_variant_level v lptr hasnot off pos esc (barred H vs ++ rest) Hv
                (Hbang eq_refl) Hs)
      as (it1 & pos1 & esc1 & Hrun1 & Hopen1).
    destruct (qruns_bars vs [] v [] it1 (flags_acc H 0 (snd v)) n hasnot
                (off + List.length (variant_text H v)) pos1 esc1 rest Hopen1)
      as (done' & it' & pos' & esc' & Hrun & Hopen' & Hdone'); auto; try lia.
    { apply (skipn_plus_app _ _ _ _ Hs). }
    exists done', it', pos', esc'. rewrite orb_false_r. split; [|split].
    + eapply qruns_to_trans; [exact Hrun1|].
      eapply qruns_to_eq; [exact Hrun|].
      cbn [app]. rewrite !length_app. cbn [List.length vars_flag fold_left]. qeq.
    + rewrite last_cons_default. cbn [app]. rewrite !length_app.
      replace (off + (List.length (variant_text H v) + List.length (barred H vs)))%nat
        with (off + List.length (variant_text H v) + List.length (barred H vs))%nat
        by lia.
      exact Hopen'.
    + exact Hdone'.
Qed.

(** *** Quantifiers *)

Lemma wf_char_digit d : isdigit d = true -> wf_char H [d].
Proof.
  intros Hd. apply wf_char_byte; [apply isdigit_not_NUL | apply isdigit_ascii]; exact Hd.
Qed.

(** Digits after the first of a number. *)
Lemma qruns_digits s ds low high lptr hasnot esc : forall off pos rest,
  s = LQPRS_WAITND \/ s = LQPRS_WAITCLOSE ->
  Forall (fun c => isdigit c = true) ds -> skipn off buf = ds ++ rest ->
  qruns_to H buf (Z.of_nat (S n))
    (lq_at s dlev (quant_level low high) k lptr hasnot off pos esc)
    (lq_at s dlev (quant_level low high) k lptr hasnot (off + List.length ds)
       (pos + Z.of_nat (List.length ds)) esc).
Proof.
  induction ds as [|d ds IH]; intros off pos rest Hst Hds Hs.
  - eapply qruns_to_eq; [apply qruns_to_refl|]. cbn [List.length]. qeq.
  - apply Forall_cons_iff in Hds as [Hd Hds].
    change ((d :: ds) ++ rest) with ([d] ++ ds ++ rest) in Hs.
    pose proof (skipn_plus_app _ _ _ _ Hs) as Hs1. cbn [List.length] in Hs1.
    eapply qruns_to_trans.
    { eapply qruns_to_step; [exact Hs | apply wf_char_digit; exact Hd|].
      destruct Hst as [-> | ->].
      - eapply lquery_in_step_nd_digit;
          [exact Hs | apply wf_char_digit; exact Hd | reflexivity | exact Hd].
      - eapply lquery_in_step_close_digit;
          [exact Hs | apply wf_char_digit; exact Hd | reflexivity | exact Hd]. }
    eapply qruns_to_eq; [eapply (IH (off + 1)%nat); eauto|].
    cbn [List.length]. qeq.
Qed.

(** The low limit, from state WAITFNUM, and the high limit, from state
    WAITSNUM. *)
Lemma qruns_low ds low high lptr hasnot esc off pos rest :
  digits ds -> decimal ds <= 65535 -> isdigit (deref rest) = false ->
  skipn off buf = ds ++ rest ->
  qruns_to H buf (Z.of_nat (S n))
    (lq_at LQPRS_WAITFNUM dlev (quant_level low high) k lptr hasnot off pos esc)
    (lq_at LQPRS_WAITND dlev (quant_level (decimal ds) high) k lptr hasnot
       (off + List.length ds) (pos + Z.of_nat (List.length ds)) esc).
Proof.
  intros [Hne Hds] Hle Hr Hs. destruct ds as [|d ds]; [contradiction|].
  pose proof (atoi_digits H (d :: ds) rest Hds Hr Hle) as Ha.
  apply Forall_cons_iff in Hds as [Hd Hds].
  change ((d :: ds) ++ rest) with ([d] ++ ds ++ rest) in Hs.
  pose proof (skipn_plus_app _ _ _ _ Hs) as Hs1. cbn [List.length] in Hs1.
  eapply qruns_to_trans.
  { eapply qruns_to_step; [exact Hs | apply wf_char_digit; exact Hd|].
    eapply lquery_in_step_fnum_digit;
      [exact Hs | apply wf_char_digit; exact Hd | reflexivity | exact Hd]. }
  change (d :: ds ++ rest) with ((d :: ds) ++ rest). rewrite Ha.
  eapply qruns_to_eq.
  { eapply (qruns_digits LQPRS_WAITND ds); [left; reflexivity | exact Hds | exact Hs1]. }
  cbn [List.length]. qeq.
Qed.

Lemma qruns_high ds low high lptr hasnot esc off pos rest :
  digits ds -> decimal ds <= 65535 -> isdigit (deref rest) = false ->
  skipn off buf = ds ++ rest ->
  qruns_to H buf (Z.of_nat (S n))
    (lq_at LQPRS_WAITSNUM dlev (quant_level low high) k lptr hasnot off pos esc)
    (lq_at LQPRS_WAITCLOSE dlev (quant_level low (decimal ds)) k lptr hasnot
       (off + List.length ds) (pos + Z.of_nat (List.length ds)) esc).
Proof.
  intros [Hne Hds] Hle Hr Hs. destruct ds as [|d ds]; [contradiction|].
  pose proof (atoi_digits H (d :: ds) rest Hds Hr Hle) as Ha.
  apply Forall_cons_iff in Hds as [Hd Hds].
  change ((d :: ds) ++ rest) with ([d] ++ ds ++ rest) in Hs.
  pose proof (skipn_plus_app _ _ _ _ Hs) as Hs1. cbn [List.length] in Hs1.
  eapply qruns_to_trans.
  { eapply qruns_to_step; [exact Hs | apply wf_char_digit; exact Hd|].
    eapply lquery_in_step_snum_digit;
      [exact Hs | apply wf_char_digit; exact Hd | reflexivity | exact Hd]. }
  change (d :: ds ++ rest) with ((d :: ds) ++ rest). rewrite Ha.
  eapply qruns_to_eq.
  { eapply (qruns_digits LQPRS_WAITCLOSE ds); [right; reflexivity | exact Hds | exact Hs1]. }
  cbn [List.length]. qeq.
Qed.

Lemma wf_char_punct a :
  a = "*" \/ a = "{" \/ a = "}" \/ a = "," \/ a = "." -> wf_char H [a].
Proof.
  intros Ha. apply wf_char_byte;
    destruct Ha as [-> | [-> | [-> | [-> | ->]]]]; try discriminate; vm_compute; lia.
Qed.

(** One byte [a] of a quantifier, by the lemma [L] of its turn. *)
Ltac qbyte Hs L :=
  eapply qruns_to_trans;
  [ eapply qruns_to_step; [exact Hs | apply wf_char_punct; tauto|];
    eapply L; [exact Hs | apply wf_char_punct; tauto | apply single_refl]
  | ].

(** The star and the brace of a quantifier. *)
Lemma qruns_star_brace lptr hasnot off pos esc rest :
  skipn off buf = ["*"] ++ ["{"] ++ rest ->
  qruns_to H buf (Z.of_nat (S n))
    (lq_at LQPRS_WAITLEVEL dlev tmp_level0 k lptr hasnot off pos esc)
    (lq_at LQPRS_WAITFNUM dlev (quant_level 0 0) k lptr hasnot (off + 2) (pos + 2) 0).
Proof.
  intros Hs. pose proof (skipn_plus_app _ _ _ _ Hs) as Hs1. cbn [List.length] in Hs1.
  qbyte Hs lquery_in_step_level_star.
  change tmp_level0 with (quant_level 0 0).
  qbyte Hs1 lquery_in_step_open_brace.
  eapply qruns_to_eq; [apply qruns_to_refl|]. cbn [List.length]. qeq.
Qed.

(** The text of a quantifier, from the start of its level: the parser is
    left behind the star of the text of one star, and behind the brace of
    the others. *)
Lemma qruns_star low high lptr hasnot off pos esc rest :
  0 <= low <= high -> high <= 65535 ->
  skipn off buf = quantifier_text low high ++ rest ->
  exists pos',
    (low = 0 /\ high = 65535 /\
     qruns_to H buf (Z.of_nat (S n))
       (lq_at LQPRS_WAITLEVEL dlev tmp_level0 k lptr hasnot off pos esc)
       (lq_at LQPRS_WAITOPEN dlev tmp_level0 k lptr hasnot
          (off + List.length (quantifier_text low high)) pos' 0)) \/
    qruns_to H buf (Z.of_nat (S n))
      (lq_at LQPRS_WAITLEVEL dlev tmp_level0 k lptr hasnot off pos esc)
      (lq_at LQPRS_WAITEND dlev (quant_level low high) k lptr hasnot
         (off + List.length (quantifier_text low high)) pos' 0).
Proof.
  intros Hlh Hh Hs.
  destruct (print_int_digits low ltac:(lia)) as [Hdl Hvl].
  destruct (print_int_digits high ltac:(lia)) as [Hdh Hvh].
  unfold quantifier_text in *.
  destruct (low =? high) eqn:E1; [|destruct (low =? 0) eqn:E2;
    [destruct (high =? 65535) eqn:E3 | destruct (high =? 65535) eqn:E3]].
  - (* *{N} *)
    apply Z.eqb_eq in E1. subst high.
    assert (skipn off buf = ["*"] ++ ["{"] ++ print_int low ++ ["}"] ++ rest) as Hs'
      by (rewrite Hs; cbn [app]; repeat (rewrite <- app_assoc; cbn [app]); reflexivity).
    pose proof (skipn_plus_app _ _ _ _ Hs') as Hs1.
    pose proof (skipn_plus_app _ _ _ _ Hs1) as Hs2.
    pose proof (skipn_plus_app _ _ _ _ Hs2) as Hs3. cbn [List.length] in *.
    eexists. right.
    eapply qruns_to_trans; [apply (qruns_star_brace _ _ _ _ _ _ Hs')|].
    eapply qruns_to_trans.
    { eapply qruns_low with (rest := ["}"] ++ rest); [exact Hdl | lia | reflexivity|].
      replace (off + 2)%nat with (off + 1 + 1)%nat by lia. exact Hs2. }
    rewrite Hvl.
    replace (off + 1 + 1)%nat with (off + 2)%nat in Hs3 by lia.
    qbyte Hs3 lquery_in_step_nd_brace.
    eapply qruns_to_eq; [apply qruns_to_refl|]. cbn [List.length].
    rewrite length_app. cbn [List.length]. qeq.
  - (* * *)
    apply Z.eqb_eq in E2. apply Z.eqb_eq in E3. subst low high.
    assert (skipn off buf = ["*"] ++ rest) as Hs' by (rewrite Hs; reflexivity).
    eexists. left. split; [reflexivity|]. split; [reflexivity|].
    qbyte Hs' lquery_in_step_level_star.
    eapply qruns_to_eq; [apply qruns_to_refl|]. cbn [List.length]. qeq.
  - (* *{,M} *)
    apply Z.eqb_eq in E2. subst low.
    assert (skipn off buf = ["*"] ++ ["{"] ++ [","] ++ print_int high ++ ["}"] ++ rest)
      as Hs' by (rewrite Hs; cbn [app]; repeat (rewrite <- app_assoc; cbn [app]); reflexivity).
    pose proof (skipn_plus_app _ _ _ _ Hs') as Hs1.
    pose proof (skipn_plus_app _ _ _ _ Hs1) as Hs2.
    pose proof (skipn_plus_app _ _ _ _ Hs2) as Hs3.
    pose proof (skipn_plus_app _ _ _ _ Hs3) as Hs4. cbn [List.length] in *.
    replace (off + 1 + 1)%nat with (off + 2)%nat in * by lia.
    eexists. right.
    eapply qruns_to_trans; [apply (qruns_star_brace _ _ _ _ _ _ Hs')|].
    qbyte Hs2 lquery_in_step_fnum_comma.
    eapply qruns_to_trans.
    { eapply qruns_high with (rest := ["}"] ++ rest);
        [exact Hdh | lia | reflexivity | exact Hs3]. }
    rewrite Hvh.
    qbyte Hs4 lquery_in_step_close_brace.
    eapply qruns_to_eq; [apply qruns_to_refl|]. cbn [List.length].
    rewrite length_app. cbn [List.length]. qeq.
  - (* *{N,} *)
    apply Z.eqb_eq in E3. subst high.
    assert (skipn off buf = ["*"] ++ ["{"] ++ print_int low ++ [","] ++ ["}"] ++ rest)
      as Hs' by (rewrite Hs; cbn [app]; repeat (rewrite <- app_assoc; cbn [app]); reflexivity).
    pose proof (skipn_plus_app _ _ _ _ Hs') as Hs1.
    pose proof (skipn_plus_app _ _ _ _ Hs1) as Hs2.
    pose proof (skipn_plus_app _ _ _ _ Hs2) as Hs3.
    pose proof (skipn_plus_app _ _ _ _ Hs3) as Hs4. cbn [List.length] in *.
    replace (off + 1 + 1)%nat with (off + 2)%nat in * by lia.
    eexists. right.
    eapply qruns_to_trans; [apply (qruns_star_brace _ _ _ _ _ _ Hs')|].
    eapply qruns_to_trans.
    { eapply qruns_low with (rest := [","] ++ ["}"] ++ rest);
        [exact Hdl | lia | reflexivity | exact Hs2]. }
    rewrite Hvl.
    qbyte Hs3 lquery_in_step_nd_comma.
    qbyte Hs4 lquery_in_step_snum_brace.
    eapply qruns_to_eq; [apply qruns_to_refl|]. cbn [List.length].
    rewrite length_app. cbn [List.length]. qeq.
  - (* *{N,M} *)
    assert (skipn off buf
            = ["*"] ++ ["{"] ++ print_int low ++ [","] ++ print_int high ++ ["}"] ++ rest)
      as Hs' by (rewrite Hs; cbn [app]; repeat (rewrite <- app_assoc; cbn [app]); reflexivity).
    pose proof (skipn_plus_app _ _ _ _ Hs') as Hs1.
    pose proof (skipn_plus_app _ _ _ _ Hs1) as Hs2.
    pose proof (skipn_plus_app _ _ _ _ Hs2) as Hs3.
    pose proof (skipn_plus_app _ _ _ _ Hs3) as Hs4.
    pose proof (skipn_plus_app _ _ _ _ Hs4) as Hs5. cbn [List.length] in *.
    replace (off + 1 + 1)%nat with (off + 2)%nat in * by lia.
    eexists. right.
    eapply qruns_to_trans; [apply (qruns_star_brace _ _ _ _ _ _ Hs')|].
    eapply qruns_to_trans.
    { eapply qruns_low with (rest := [","] ++ print_int high ++ ["}"] ++ rest);
        [exact Hdl | lia | reflexivity | exact Hs2]. }
    rewrite Hvl.
    qbyte Hs3 lquery_in_step_nd_comma.
    eapply qruns_to_trans.
    { eapply qruns_high with (rest := ["}"] ++ rest);
        [exact Hdh | lia | reflexivity | exact Hs4]. }
    rewrite Hvh.
    qbyte Hs5 lquery_in_step_close_brace.
    eapply qruns_to_eq; [apply qruns_to_refl|]. cbn [List.length].
    rewrite !length_app. cbn [List.length]. rewrite !length_app. cbn [List.length]. qeq.
Qed.

(** *** The end of a level *)

Lemma flags_acc_lor f vf : vf = flags_acc H 0 vf -> flags_acc H f vf = Z.lor f vf.
Proof.
  unfold flags_acc. cbv zeta.
  destruct (has_flag vf (LVAR_SUBLEXEME H)), (has_flag vf (LVAR_INCASE H)),
    (has_flag vf (LVAR_ANYEND H)); intros E; rewrite E;
    rewrite ?Z.lor_0_l, ?Z.lor_0_r, ?Z.lor_assoc; reflexivity.
Qed.

Lemma vars_flag_lor vs : forall f,
  Forall (fun v => snd v = flags_acc H 0 (snd v)) vs ->
  vars_flag H f vs = Z.lor (fold_right (fun v acc => Z.lor (snd v) acc) 0 vs) f.
Proof.
  induction vs as [|v vs IH]; intros f Hvs; [reflexivity|].
  apply Forall_cons_iff in Hvs as [Hv Hvs].
  cbn [vars_flag fold_left fold_right]. fold (vars_flag H (flags_acc H f (snd v)) vs).
  rewrite IH, flags_acc_lor by assumption.
  rewrite (Z.lor_comm f (snd v)), Z.lor_assoc.
  rewrite (Z.lor_comm (fold_right _ 0 vs) (snd v)). reflexivity.
Qed.

Lemma level_canon_flags neg vs :
  level_canon H (Alts neg vs) ->
  vars_flag H (if neg then LQL_NOT H else 0) vs = lql_flag (mk_level H (Alts neg vs)).
Proof.
  intros Hp. cbn [mk_level lql_flag]. apply vars_flag_lor.
  destruct vs as [|v vs]; [contradiction|]. destruct Hp as ((_ & _ & _ & Hf & _) & _ & Hvs).
  constructor; [exact Hf|]. eapply Forall_impl; [|exact Hvs].
  intros v' (_ & _ & _ & Hf' & _). exact Hf'.
Qed.

Lemma alts_level_for neg vs done start len iflag w off esc m :
  level_canon H (Alts neg vs) ->
  open_item H buf off esc (qitem start len iflag w) (last vs ([], 0)) ->
  Forall2 (item_for buf) done (removelast vs) ->
  level_for H buf
    (alts_at (vars_flag H (if neg then LQL_NOT H else 0) vs) done
       (qitem start (item_len H off start esc iflag) iflag w) m)
    (Alts neg vs).
Proof.
  intros Hp Hopen Hdone. cbn [level_for].
  exists (done ++ [qitem start (item_len H off start esc iflag) iflag w]),
    (repeat nodeitem0 m).
  assert (vs <> []) as Hne by (destruct vs; [contradiction | discriminate]).
  pose proof (app_removelast_last ([], 0) Hne) as Evs.
  assert (List.length vs = List.length done + 1)%nat as Hl.
  { apply Forall2_length in Hdone. rewrite Hdone. rewrite Evs at 1.
    rewrite length_app. reflexivity. }
  split.
  - unfold alts_at. rewrite (level_canon_flags neg vs Hp). f_equal.
    + f_equal. lia.
    + rewrite <- app_assoc. reflexivity.
  - rewrite Evs. apply Forall2_app; [exact Hdone|].
    constructor; [|constructor]. apply (open_item_closed _ _ _ _ _ _ _ Hopen).
Qed.

Lemma level_text_length p : level_canon H p -> (1 <= List.length (level_text H p))%nat.
Proof.
  destruct p as [low high | neg vs]; intros Hp.
  - cbn [level_text]. unfold quantifier_text.
    repeat match goal with |- context [if ?b then _ else _] => destruct b end;
      cbn [List.length]; lia.
  - destruct vs as [|v vs]; [contradiction|]. destruct Hp as ((Hne & Hwf & _) & _).
    cbn [level_text]. rewrite sep_by_barred, !length_app. unfold variant_text.
    rewrite length_app. pose proof (render_units_length (fst v) Hne Hwf). lia.
Qed.

(** A level and the dot behind it. *)
Lemma qruns_level_dot p lptr hasnot off pos esc rest k' :
  level_canon H p -> (level_vars p <= S n)%nat -> k = S k' ->
  skipn off buf = level_text H p ++ ["."] ++ rest ->
  exists q lptr' pos' esc',
    qruns_to H buf (Z.of_nat (S n))
      (lq_at LQPRS_WAITLEVEL dlev tmp_level0 k lptr hasnot off pos esc)
      (lq_at LQPRS_WAITLEVEL (dlev ++ [q]) tmp_level0 k' lptr' (hasnot || is_neg p)
         (off + List.length (level_text H p) + 1) pos' esc') /\
    level_for H buf q p.
Proof.
  intros Hp Hn Hk Hs. pose proof (skipn_plus_app _ _ _ _ Hs) as Hs1.
  assert (wf_char H ["."]) as Hdot by (apply wf_char_punct; tauto).
  destruct p as [low high | neg vs]; cbn [level_text is_neg level_vars] in *.
  - destruct Hp as [Hlh Hh]. rewrite orb_false_r.
    destruct (qruns_star low high lptr hasnot off pos esc (["."] ++ rest) Hlh Hh Hs)
      as (pos' & [(-> & -> & Hrun) | Hrun]).
    + exists (quant_level 0 65535). do 3 eexists. split; [|reflexivity].
      eapply qruns_to_trans; [exact Hrun|].
      eapply qruns_to_step; [exact Hs1 | exact Hdot|].
      change tmp_level0 with (quant_level 0 0) at 1.
      eapply (lquery_in_step_open_dot buf n dlev k hasnot _ _ ["."]);
        [exact Hs1 | exact Hdot | apply single_refl | exact Hk].
    + exists (quant_level low high). do 3 eexists. split; [|reflexivity].
      eapply qruns_to_trans; [exact Hrun|].
      eapply qruns_to_step; [exact Hs1 | exact Hdot|].
      eapply (lquery_in_step_end_dot buf n dlev k hasnot _ _ ["."]);
        [exact Hs1 | exact Hdot | apply single_refl | exact Hk].
  - destruct (qruns_alts neg vs lptr hasnot off pos esc (["."] ++ rest) Hp Hs Hn)
      as (done & it & pos' & esc' & Hrun & Hopen & Hdone).
    destruct it as [start len iflag w].
    change {| ni_start := start; ni_len := len; ni_flag := iflag; ni_wlen := w |}
      with (qitem start len iflag w) in *.
    pose proof Hopen as (_ & Hw & _). cbn [qitem ni_wlen] in Hw.
    eexists. do 3 eexists. split.
    + eapply qruns_to_trans; [exact Hrun|].
      eapply qruns_to_step; [exact Hs1 | exact Hdot|].
      eapply (lquery_in_step_delim_dot buf n dlev k (hasnot || neg) _ _ ["."]);
        [exact Hs1 | exact Hdot | apply single_refl | exact Hw | exact Hk].
    + eapply alts_level_for; eauto.
Qed.

Lemma qruns_to_finishes numOR st st' stf :
  qruns_to H buf numOR st st' -> qfinishes H buf numOR st' stf ->
  qfinishes H buf numOR st stf.
Proof.
  intros [Hr _] Hf fuel Hfuel. destruct (Hr fuel Hfuel) as (fuel' & Hfuel' & ->).
  apply Hf. exact Hfuel'.
Qed.

Lemma qfinishes_end numOR st stf :
  (qs_ptr st <= List.length buf)%nat -> deref (skipn (qs_ptr st) buf) = NUL ->
  lquery_in_finish H st = Ok stf -> qfinishes H buf numOR st stf.
Proof.
  intros Hle Hn Hfin fuel Hf. destruct fuel as [|fuel]; [lia|].
  cbn [lquery_in_loop].
  replace (List.length buf <? qs_ptr st)%nat with false by (symmetry; apply Nat.ltb_ge; lia).
  rewrite Hn. cbn. exact Hfin.
Qed.

Lemma lquery_in_finish_open flag done start len iflag w m lptr hasnot off pos esc :
  lptr = Some (List.length dlev, List.length done) ->
  (start < off)%nat -> item_len H off start esc iflag <> 0 -> w <= 255 ->
  lquery_in_finish H
    (lq_at LQPRS_WAITDELIM dlev (alts_at flag done (qitem start len iflag w) m) k
       lptr hasnot off pos esc)
  = Ok (lq_at LQPRS_WAITDELIM dlev
          (alts_at flag done (qitem start (item_len H off start esc iflag) iflag w) m) k
          lptr hasnot off pos esc).
Proof.
  intros -> Hlt Hlen Hw. unfold lquery_in_finish, variant_len. qrun.
  replace (start =? off)%nat with false by (symmetry; apply Nat.eqb_neq; lia).
  qrun. fold (item_len H off start esc iflag).
  replace (item_len H off start esc iflag =? 0) with false
    by (symmetry; apply Z.eqb_neq; exact Hlen).
  replace (255 <? w) with false by (symmetry; apply Z.ltb_ge; lia).
  reflexivity.
Qed.

(** The last level, and the end of the text behind it. *)
Lemma qfinishes_level p lptr hasnot off pos esc tail :
  level_canon H p -> (level_vars p <= S n)%nat ->
  skipn off buf = level_text H p ++ tail -> deref tail = NUL ->
  exists q stf,
    qfinishes H buf (Z.of_nat (S n))
      (lq_at LQPRS_WAITLEVEL dlev tmp_level0 k lptr hasnot off pos esc) stf /\
    qs_tmpql stf = dlev ++ q :: repeat tmp_level0 k /\
    qs_hasnot stf = hasnot || is_neg p /\
    level_for H buf q p.
Proof.
  intros Hp Hn Hs Ht. pose proof (skipn_plus_app _ _ _ _ Hs) as Hs1.
  assert (off + List.length (level_text H p) <= List.length buf)%nat as Hle.
  { apply (skipn_app_bound buf _ tail off Hs).
    pose proof (level_text_length p Hp). destruct (level_text H p); [cbn in *; lia|].
    discriminate. }
  destruct p as [low high | neg vs]; cbn [is_neg level_vars] in *.
  - destruct Hp as [Hlh Hh]. rewrite orb_false_r. cbn [level_text] in Hs, Hs1, Hle.
    destruct (qruns_star low high lptr hasnot off pos esc tail Hlh Hh Hs)
      as (pos' & [(-> & -> & Hrun) | Hrun]).
    + exists (quant_level 0 65535). eexists. split; [|split; [|split]].
      * eapply qruns_to_finishes; [exact Hrun|].
        apply qfinishes_end; [exact Hle | unfold lq_at; cbn [qs_ptr]; rewrite Hs1; exact Ht|].
        unfold lquery_in_finish. qrun. reflexivity.
      * reflexivity.
      * reflexivity.
      * reflexivity.
    + exists (quant_level low high). eexists. split; [|split; [|split]].
      * eapply qruns_to_finishes; [exact Hrun|].
        apply qfinishes_end; [exact Hle | unfold lq_at; cbn [qs_ptr]; rewrite Hs1; exact Ht|].
        reflexivity.
      * reflexivity.
      * reflexivity.
      * reflexivity.
  - destruct (qruns_alts neg vs lptr hasnot off pos esc tail Hp Hs Hn)
      as (done & it & pos' & esc' & Hrun & Hopen & Hdone).
    destruct it as [start len iflag w].
    change {| ni_start := start; ni_len := len; ni_flag := iflag; ni_wlen := w |}
      with (qitem start len iflag w) in *.
    pose proof Hopen as (Hfl & Hw & Hlt & Hlen & _).
    cbn [qitem ni_wlen ni_flag ni_start] in Hw, Hfl, Hlt, Hlen.
    eexists. eexists. split; [|split; [|split]].
    + eapply qruns_to_finishes; [exact Hrun|].
      apply qfinishes_end; [exact Hle | unfold lq_at; cbn [qs_ptr]; rewrite Hs1; exact Ht|].
      apply lquery_in_finish_open; auto.
      rewrite Hfl, Hlen.
      assert (vs <> []) as Hne by (destruct vs; [contradiction | discriminate]).
      assert (variant_canon H 0 (last vs ([], 0)) \/ variant_canon H 1 (last vs ([], 0)))
        as Hlast.
      { destruct vs as [|v vs]; [contradiction|]. destruct Hp as (Hv & _ & Hvs).
        rewrite last_cons_default. destruct vs as [|v' vs'].
        - cbn [last]. destruct neg; auto.
        - left. rewrite Forall_forall in Hvs. apply Hvs.
          apply last_in. discriminate. }
      assert (fst (last vs ([], 0)) <> [] /\ Forall (wf_char H) (fst (last vs ([], 0))))
        as [Hn1 Hn2] by (destruct Hlast as [(? & ? & _) | (? & ? & _)]; auto).
      pose proof (render_units_length _ Hn1 Hn2) as Hr.
      rewrite render_length, escape_chars_name in Hr.
      destruct (fst (last vs ([], 0))) as [|c cs]; [contradiction|].
      apply Forall_cons_iff in Hn2 as [Hc _]. pose proof (wf_char_len H Hok c Hc).
      cbn [List.concat]. rewrite length_app. lia.
    + reflexivity.
    + reflexivity.
    + eapply alts_level_for; eauto.
Qed.

End QLevels.

(** *** The levels of a pattern *)

Lemma pattern_text_cons p p' ps :
  pattern_text H (p :: p' :: ps) = level_text H p ++ ["."] ++ pattern_text H (p' :: ps).
Proof. reflexivity. Qed.

Lemma qfinishes_pattern buf n ps :
  forall dlev k lptr hasnot off pos esc tail,
  Forall (level_canon H) ps -> Forall (fun p => (level_vars p <= S n)%nat) ps ->
  List.length ps = S k ->
  skipn off buf = pattern_text H ps ++ tail -> deref tail = NUL ->
  exists qs stf,
    qfinishes H buf (Z.of_nat (S n))
      (lq_at LQPRS_WAITLEVEL dlev tmp_level0 k lptr hasnot off pos esc) stf /\
    qs_tmpql stf = dlev ++ qs /\
    qs_hasnot stf = hasnot || existsb is_neg ps /\
    Forall2 (level_for H buf) qs ps.
Proof.
  induction ps as [|p ps IH]; intros dlev k lptr hasnot off pos esc tail Hps Hn Hk Hs Ht;
    [discriminate|].
  apply Forall_cons_iff in Hps as [Hp Hps]. apply Forall_cons_iff in Hn as [Hnp Hn].
  destruct ps as [|p' ps].
  - cbn [List.length] in Hk. assert (k = 0%nat) as -> by lia.
    destruct (qfinishes_level buf n dlev 0 p lptr hasnot off pos esc tail Hp Hnp Hs Ht)
      as (q & stf & Hfin & Htmp & Hnot & Hq).
    exists [q], stf. split; [exact Hfin|]. split; [exact Htmp|]. split.
    + rewrite Hnot. cbn [existsb]. rewrite orb_false_r. reflexivity.
    + constructor; [exact Hq | constructor].
  - cbn [List.length] in Hk. destruct k as [|k]; [lia|].
    rewrite pattern_text_cons, <- !app_assoc in Hs.
    destruct (qruns_level_dot buf n dlev (S k) p lptr hasnot off pos esc
                (pattern_text H (p' :: ps) ++ tail) k Hp Hnp eq_refl Hs)
      as (q & lptr' & pos' & esc' & Hrun & Hq).
    pose proof (skipn_plus_app _ _ _ _ Hs) as Hs1.
    pose proof (skipn_plus_app _ _ _ _ Hs1) as Hs2. cbn [List.length] in Hs2.
    destruct (IH (dlev ++ [q]) k lptr' (hasnot || is_neg p)
                (off + List.length (level_text H p) + 1)%nat pos' esc' tail Hps Hn
                ltac:(cbn [List.length]; lia) Hs2 Ht)
      as (qs & stf & Hfin & Htmp & Hnot & Hqs).
    exists (q :: qs), stf. split; [|split; [|split]].
    + eapply qruns_to_finishes; [exact Hrun | exact Hfin].
    + rewrite Htmp, <- app_assoc. reflexivity.
    + rewrite Hnot. cbn [existsb]. rewrite !orb_assoc. reflexivity.
    + constructor; assumption.
Qed.

(** *** The counts of a pattern *)

Lemma count_loop_char_ors fuel c rest escape_mode levels ORs :
  wf_char H c ->
  count_loop H (S fuel) true (c ++ rest) escape_mode levels ORs =
  if escape_mode then count_loop H fuel true rest false levels ORs
  else if single c "\" then count_loop H fuel true rest true levels ORs
  else if single c "." then count_loop H fuel true rest false (levels + 1) ORs
  else if single c "|" then count_loop H fuel true rest false levels (ORs + 1)
  else count_loop H fuel true rest false levels ORs.
Proof.
  intros Hc. pose proof (head_not_NUL H c rest Hc) as Hn.
  pose proof (head_mblen H c rest Hc) as Hm. pose proof (head_fits c rest) as Hf.
  pose proof (skipn_app_exact c rest) as Hsk.
  pose proof (head_iseq H c rest "\" Hc) as Hb. pose proof (head_iseq H c rest "." Hc) as Hd.
  pose proof (head_iseq H c rest "|" Hc) as Hbar.
  unfold single. destruct (c ++ rest) as [|x p] eqn:Ep.
  { destruct Hc as (Hne & _). destruct c; [contradiction | discriminate]. }
  cbn [count_loop]. cbn [deref hd] in Hn. rewrite Hn, Hm, Hf, Hsk, Hb, Hd, Hbar.
  rewrite andb_true_r. destruct escape_mode; [reflexivity|].
  destruct (List.length c =? 1)%nat; cbn [andb]; [|reflexivity].
  destruct (Ascii.eqb (deref c) "\"); [reflexivity|].
  destruct (Ascii.eqb (deref c) "."); [reflexivity|].
  destruct (Ascii.eqb (deref c) "|"); reflexivity.
Qed.

Lemma counts_nil : counts H [] 0 0.
Proof.
  intros fuel rest levels ORs Hf. exists fuel. cbn [app List.length] in *.
  rewrite !Z.add_0_r. split; [lia | reflexivity].
Qed.

Lemma counts_app t1 t2 d1 b1 d2 b2 :
  counts H t1 d1 b1 -> counts H t2 d2 b2 -> counts H (t1 ++ t2) (d1 + d2) (b1 + b2).
Proof.
  intros H1 H2 fuel rest levels ORs Hf. rewrite length_app in Hf. rewrite <- app_assoc.
  destruct (H1 fuel (t2 ++ rest) levels ORs) as (f1 & Hf1 & ->); [rewrite length_app; lia|].
  rewrite length_app in Hf1.
  destruct (H2 f1 rest (levels + Z.of_nat d1) (ORs + Z.of_nat b1)) as (f2 & Hf2 & ->); [lia|].
  exists f2. split; [exact Hf2|]. rewrite !Nat2Z.inj_add, !Z.add_assoc. reflexivity.
Qed.

Lemma counts_plain c :
  wf_char H c -> single c "\" = false -> single c "." = false -> single c "|" = false ->
  counts H c 0 0.
Proof.
  intros Hc E1 E2 E3 fuel rest levels ORs Hf. destruct fuel as [|fuel]; [lia|].
  rewrite count_loop_char_ors, E1, E2, E3 by exact Hc. pose proof (wf_char_len H Hok c Hc).
  exists fuel. rewrite !Z.add_0_r. split; [lia | reflexivity].
Qed.

Lemma counts_escaped c : wf_char H c -> counts H ("\" :: c) 0 0.
Proof.
  intros Hc fuel rest levels ORs Hf. cbn [List.length] in Hf.
  pose proof (wf_char_len H Hok c Hc). destruct fuel as [|[|fuel]]; try lia.
  change (("\" :: c) ++ rest) with (["\"] ++ c ++ rest).
  rewrite count_loop_char_ors by (apply wf_char_backslash; exact Hok).
  rewrite single_refl, count_loop_char_ors by exact Hc.
  exists fuel. rewrite !Z.add_0_r. split; [lia | reflexivity].
Qed.

Lemma counts_dot : counts H ["."] 1 0.
Proof.
  intros fuel rest levels ORs Hf. cbn [List.length] in Hf. destruct fuel as [|fuel]; [lia|].
  rewrite count_loop_char_ors by (apply wf_char_punct; tauto).
  exists fuel. rewrite Z.add_0_r. split; [lia | reflexivity].
Qed.

Lemma counts_bar : counts H ["|"] 0 1.
Proof.
  intros fuel rest levels ORs Hf. cbn [List.length] in Hf. destruct fuel as [|fuel]; [lia|].
  rewrite count_loop_char_ors by (apply wf_char_byte; [discriminate | vm_compute; lia]).
  exists fuel. rewrite Z.add_0_r. split; [lia | reflexivity].
Qed.

Lemma counts_render us : Forall (punit_ok H) us -> counts H (render us) 0 0.
Proof.
  induction 1 as [|[e c] us [Hc Hp] Hus IH]; [apply counts_nil|].
  rewrite render_cons. apply (counts_app _ _ 0 0 0 0); [|exact IH].
  cbn [fst snd] in *. destruct e; cbn [render_unit fst snd].
  - apply counts_escaped. exact Hc.
  - destruct (Hp eq_refl) as (_ & _ & _ & E1 & E2 & E3). apply counts_plain; assumption.
Qed.

(** Bytes of ASCII that are no backslash, dot or bar. *)
Lemma counts_bytes t :
  Forall (fun a => a <> NUL /\ (nat_of_ascii a < 128)%nat /\
                   Ascii.eqb a "\" = false /\ Ascii.eqb a "." = false /\
                   Ascii.eqb a "|" = false) t ->
  counts H t 0 0.
Proof.
  induction 1 as [|a t (Hn & Ha & E1 & E2 & E3) Ht IH]; [apply counts_nil|].
  change (a :: t) with ([a] ++ t). apply (counts_app _ _ 0 0 0 0); [|exact IH].
  apply counts_plain; [apply wf_char_byte; assumption | | |]; unfold single;
    cbn [List.length Nat.eqb andb deref hd]; assumption.
Qed.

Lemma counts_digits ds : Forall (fun c => isdigit c = true) ds -> counts H ds 0 0.
Proof.
  intros Hds. apply counts_bytes. eapply Forall_impl; [|exact Hds].
  intros a Ha. split; [apply isdigit_not_NUL; exact Ha|].
  split; [apply isdigit_ascii; exact Ha|].
  repeat split; destruct (Ascii.eqb_spec a "\"), (Ascii.eqb_spec a "."),
    (Ascii.eqb_spec a "|"); subst; try reflexivity; discriminate.
Qed.

Lemma counts_flags flag : counts H (flags_text H flag) 0 0.
Proof.
  apply counts_bytes. unfold flags_text.
  destruct (has_flag flag (LVAR_SUBLEXEME H)), (has_flag flag (LVAR_INCASE H)),
    (has_flag flag (LVAR_ANYEND H)); cbn [app];
    repeat constructor; try discriminate; vm_compute; lia.
Qed.

Lemma counts_mark a :
  a = "*" \/ a = "{" \/ a = "}" \/ a = "," \/ a = "!" -> counts H [a] 0 0.
Proof.
  intros Ha. apply counts_bytes.
  destruct Ha as [-> | [-> | [-> | [-> | ->]]]];
    repeat constructor; try discriminate; vm_compute; lia.
Qed.

Lemma counts_int z : 0 <= z -> counts H (print_int z) 0 0.
Proof. intros Hz. apply counts_digits. apply (print_int_digits z Hz). Qed.

Lemma counts_cons a t : counts H [a] 0 0 -> counts H t 0 0 -> counts H (a :: t) 0 0.
Proof. intros Ha Ht. apply (counts_app [a] t 0 0 0 0); assumption. Qed.

Lemma counts_quantifier low high :
  0 <= low -> 0 <= high -> counts H (quantifier_text low high) 0 0.
Proof.
  intros Hl Hh. unfold quantifier_text.
  repeat match goal with |- context [if ?b then _ else _] => destruct b end;
    repeat first
      [ apply counts_nil
      | apply counts_cons; [apply counts_mark; tauto|]
      | apply (counts_app _ _ 0 0 0 0); [apply counts_int; assumption|] ].
Qed.

Lemma counts_name v : name_canon H v -> counts H (variant_text H v) 0 0.
Proof.
  intros Hv. unfold variant_text. apply (counts_app _ _ 0 0 0 0).
  - apply counts_render. apply name_canon_units. exact Hv.
  - apply counts_flags.
Qed.

Lemma counts_variant lead v : variant_canon H lead v -> counts H (variant_text H v) 0 0.
Proof. intros Hv. apply counts_name. eapply variant_canon_name_canon. exact Hv. Qed.

Lemma counts_barred vs :
  Forall (variant_canon H 0) vs -> counts H (barred H vs) 0 (List.length vs).
Proof.
  induction 1 as [|v vs Hv Hvs IH]; [apply counts_nil|].
  change (barred H (v :: vs)) with (["|"] ++ variant_text H v ++ barred H vs).
  apply (counts_app _ _ 0 1 0 (List.length vs)); [apply counts_bar|].
  apply (counts_app _ _ 0 0 0 (List.length vs)); [|exact IH].
  eapply counts_variant. exact Hv.
Qed.

Lemma counts_level p :
  level_canon H p -> counts H (level_text H p) 0 (pred (level_vars p)).
Proof.
  destruct p as [low high | neg vs]; intros Hp; cbn [level_text level_vars].
  - apply counts_quantifier; cbn in Hp; lia.
  - destruct vs as [|v vs]; [contradiction|]. destruct Hp as (Hv & _ & Hvs).
    rewrite sep_by_barred. cbn [List.length pred].
    apply (counts_app _ _ 0 0 0 (List.length vs)).
    + destruct neg; [apply counts_mark; tauto | apply counts_nil].
    + apply (counts_app _ _ 0 0 0 (List.length vs));
        [eapply counts_variant; exact Hv | apply counts_barred; exact Hvs].
Qed.

Lemma counts_pattern ps :
  ps <> [] -> Forall (level_canon H) ps ->
  counts H (pattern_text H ps) (pred (List.length ps)) (pattern_bars ps).
Proof.
  intros Hne Hps. induction Hps as [|p ps Hp Hps IH]; [contradiction|].
  destruct ps as [|p' ps].
  - replace (pattern_bars [p]) with (pred (level_vars p))
      by (unfold pattern_bars, list_sum; cbn [map fold_right]; lia).
    apply (counts_level p Hp).
  - rewrite pattern_text_cons. change (pattern_bars (p :: p' :: ps))
      with (pred (level_vars p) + (0 + pattern_bars (p' :: ps)))%nat.
    change (pred (List.length (p :: p' :: ps)))
      with (0 + (1 + pred (List.length (p' :: ps))))%nat.
    apply counts_app; [apply counts_level; exact Hp|].
    apply counts_app; [apply counts_dot|]. apply IH. discriminate.
Qed.

Lemma count_pattern_levels ps tail :
  ps <> [] -> Forall (level_canon H) ps -> deref tail = NUL ->
  count_lquery_parts_ors H (pattern_text H ps ++ tail) true
  = Ok (Z.of_nat (List.length ps), Z.of_nat (S (pattern_bars ps))).
Proof.
  intros Hne Hps Ht. unfold count_lquery_parts_ors.
  destruct (counts_pattern ps Hne Hps (S (List.length (pattern_text H ps ++ tail))) tail 0 0)
    as (fuel & Hfuel & ->); [rewrite length_app; lia|].
  destruct fuel as [|fuel]; [lia|].
  assert (forall l o, count_loop H (S fuel) true tail false l o = Ok (l, o)) as ->.
  { intros l o. destruct tail as [|x tail]; [reflexivity|]. cbn in Ht. subst x. reflexivity. }
  cbn [bind]. destruct ps as [|p ps]; [contradiction|].
  f_equal. f_equal; cbn [List.length pred]; lia.
Qed.

(** X16: on the text of the levels [ps], [count_lquery_parts_ors] counts the
    levels, and one more than the bars between their variants: a dot or a
    bar of a name, after its backslash, is not counted. *)
Theorem count_lquery_parts_ors_pattern ps tail :
  ps <> [] -> Forall (level_canon H) ps -> deref tail = NUL ->
  count_lquery_parts_ors H (pattern_text H ps ++ tail) true
  = Ok (Z.of_nat (List.length ps), Z.of_nat (S (pattern_bars ps))).
Proof. exact (count_pattern_levels ps tail). Qed.

Lemma level_vars_bars ps : forall m,
  (pattern_bars ps <= m)%nat -> Forall (fun p => (level_vars p <= S m)%nat) ps.
Proof.
  induction ps as [|p ps IH]; intros m Hm; [constructor|].
  unfold pattern_bars, list_sum in *. cbn [map fold_right] in Hm.
  constructor; [lia | apply IH; lia].
Qed.

(** *** The record of a pattern *)

Section Fill.

Variable buf : text.

Lemma fold_left_add_shift {A} (f : A -> Z) l : forall t a,
  fold_left (fun t x => t + f x) l (t + a) = t + fold_left (fun t x => t + f x) l a.
Proof.
  induction l as [|x l IH]; intros t a; cbn [fold_left]; [reflexivity|].
  rewrite <- Z.add_assoc. apply IH.
Qed.

Lemma concat_length_le cs :
  Forall (wf_char H) cs -> (List.length (List.concat cs) <= 4 * List.length cs)%nat.
Proof.
  induction 1 as [|c cs Hc Hcs IH]; [cbn; lia|].
  cbn [List.concat List.length]. rewrite length_app.
  pose proof (wf_char_len H Hok c Hc). lia.
Qed.

Lemma items_size items vs :
  Forall2 (item_for buf) items vs -> forall t,
  fold_left (fun t lptr => t + MAXALIGN H (LVAR_HDRSIZE H + ni_len lptr)) items t
  = fold_left (fun t v => t + MAXALIGN H (LVAR_HDRSIZE H + lvar_len v))
      (map (mk_variant H) vs) t.
Proof.
  induction 1 as [|it v items vs (El & _) Hvs IH]; intros t; [reflexivity|].
  cbn [map fold_left mk_variant lvar_len]. rewrite El. apply IH.
Qed.

Lemma items_flags items vs :
  Forall2 (item_for buf) items vs ->
  lor_flags items = fold_right (fun v acc => Z.lor (snd v) acc) 0 vs.
Proof.
  induction 1 as [|it v items vs (_ & Ef & _) Hvs IH]; [reflexivity|].
  unfold lor_flags in *. cbn [fold_right]. rewrite Ef, IH. reflexivity.
Qed.

Lemma level_for_alts q neg vs :
  level_for H buf q (Alts neg vs) -> vs <> [] -> Z.of_nat (List.length vs) <= 65535 ->
  exists items zs,
    Forall2 (item_for buf) items vs /\
    tq_var q = Some (items ++ zs) /\
    variants_of q = Ok items /\
    firstn (Z.to_nat (tq_numvar q)) (items ++ zs) = items /\
    tq_numvar q = Z.of_nat (List.length vs) /\
    tq_flag q = lql_flag (mk_level H (Alts neg vs)) /\
    tq_low q = 0 /\ tq_high q = 0.
Proof.
  intros (items & zs & -> & Hit) Hne Hfit. exists items, zs.
  pose proof (Forall2_length Hit) as Hl.
  rewrite uint16_small by lia.
  assert (firstn (Z.to_nat (Z.of_nat (List.length vs))) (items ++ zs) = items) as Ef.
  { rewrite Nat2Z.id, <- Hl, firstn_app, firstn_all, Nat.sub_diag, firstn_O.
    apply app_nil_r. }
  repeat split; try assumption; try reflexivity.
  unfold variants_of. cbn [tq_var tq_numvar]. rewrite length_app.
  replace (_ <? _) with false by (symmetry; apply Z.ltb_ge; lia).
  rewrite Ef. reflexivity.
Qed.

Lemma variant_canon_name lead v :
  variant_canon H lead v ->
  Forall (wf_char H) (fst v) /\ (List.length (fst v) <= 255)%nat.
Proof. intros (_ & Hwf & _ & _ & Hl). split; [exact Hwf | lia]. Qed.

Lemma level_canon_sized p : level_canon H p -> level_sized H p.
Proof.
  destruct p as [low high | neg vs]; cbn [level_canon level_sized]; [lia|].
  destruct vs as [|v vs]; [contradiction|]. intros (Hv & _ & Hvs).
  split; [discriminate|].
  constructor; [eapply variant_canon_name; exact Hv|].
  eapply Forall_impl; [|exact Hvs]. intros v'. apply variant_canon_name.
Qed.

Lemma level_for_exact q p :
  level_for H buf q p -> level_sized H p -> level_held H p -> level_exact H q.
Proof.
  destruct p as [low high | neg vs]; intros Hq Hp [Hfit _].
  - cbn in Hq. subst q. left. reflexivity.
  - destruct Hp as [Hne Hnames]. cbn [level_vars] in Hfit.
    destruct (level_for_alts q neg vs Hq Hne Hfit)
      as (items & zs & Hit & Ev & _ & Ef & En & Efl & _).
    right. exists (items ++ zs), neg. split; [exact Ev|].
    pose proof (Forall2_length Hit) as Hl. rewrite length_app. split.
    + destruct vs; [contradiction|]. cbn [List.length] in *. lia.
    + rewrite Ef, Efl, (items_flags items vs Hit). reflexivity.
Qed.

Lemma lquery_in_size_levels qs ps :
  Forall2 (level_for H buf) qs ps -> Forall (level_sized H) ps ->
  Forall (level_held H) ps -> forall t,
  lquery_in_size H qs t
  = Ok (fold_left (fun t l => t + lql_totallen l) (map (mk_level H) ps) t).
Proof.
  induction 1 as [|q p qs ps Hq Hqs IH]; intros Hps Hfits t; [reflexivity|].
  apply Forall_cons_iff in Hps as [Hp Hps].
  apply Forall_cons_iff in Hfits as [[Hfit _] Hfits].
  cbn [lquery_in_size map fold_left].
  destruct p as [low high | neg vs].
  - cbn in Hq. subst q. cbn in Hp.
    cbn [quant_level tq_numvar tq_low tq_high Z.eqb negb mk_level lql_totallen].
    replace (high <? low) with false by (symmetry; apply Z.ltb_ge; lia).
    cbn [bind]. apply IH; assumption.
  - destruct Hp as [Hne Hnames]. cbn [level_vars] in Hfit.
    destruct (level_for_alts q neg vs Hq Hne Hfit)
      as (items & zs & Hit & _ & Ev & _ & En & _).
    rewrite En, Ev.
    replace (Z.of_nat (List.length vs) =? 0) with false
      by (symmetry; apply Z.eqb_neq; destruct vs; [contradiction | cbn [List.length]; lia]).
    cbn [negb bind]. rewrite (items_size items vs Hit), fold_left_add_shift.
    cbn [mk_level lql_totallen]. apply IH; assumption.
Qed.

Lemma lquery_in_fill_variants_items items vs :
  Forall2 (item_for buf) items vs ->
  Forall (fun v => Forall (wf_char H) (fst v) /\ (List.length (fst v) <= 255)%nat) vs ->
  forall t,
  lquery_in_fill_variants H buf items (uint16 t)
  = Ok (map (mk_variant H) vs,
        uint16 (fold_left (fun t v => t + MAXALIGN H (LVAR_HDRSIZE H + lvar_len v))
                  (map (mk_variant H) vs) t)).
Proof.
  induction 1 as [|it v items vs (El & Ef & rest & Es) Hvs IH]; intros Hc t; [reflexivity|].
  apply Forall_cons_iff in Hc as [[Hwf Hlen] Hc].
  cbn [lquery_in_fill_variants map fold_left]. cbv zeta.
  rewrite uint16_add, Es, El. unfold copy_unescaped.
  pose proof (concat_length_le (fst v) Hwf) as Hle.
  rewrite (copy_unescaped_loop_units H Hok).
  - cbn [bind app]. rewrite IH by exact Hc. cbn [bind].
    rewrite escape_chars_name. unfold mk_variant at 1 3. cbn [lvar_len]. rewrite Ef.
    reflexivity.
  - unfold escape_chars. apply Forall_map. eapply Forall_impl; [|exact Hwf].
    intros c Hcw. cbn [fst snd]. split; [exact Hcw|]. intros E ->. discriminate.
  - rewrite length_app. lia.
  - lia.
  - rewrite escape_chars_name. lia.
  - lia.
Qed.

Lemma lquery_in_fill_levels qs ps :
  Forall2 (level_for H buf) qs ps -> Forall (level_sized H) ps ->
  Forall (level_held H) ps ->
  forall cur wasbad firstgood, exists firstgood' last,
  lquery_in_fill H buf qs cur wasbad firstgood
  = Ok (map (mk_level H) ps, firstgood', last).
Proof.
  induction 1 as [|q p qs ps Hq Hqs IH]; intros Hps Hfits cur wasbad fg;
    [eexists; eexists; reflexivity|].
  apply Forall_cons_iff in Hps as [Hp Hps].
  apply Forall_cons_iff in Hfits as [[Hfit Hsize] Hfits].
  cbn [lquery_in_fill map].
  destruct p as [low high | neg vs].
  - cbn in Hq. subst q. cbn [quant_level tq_numvar tq_low tq_high tq_flag Z.eqb negb].
    cbn [mk_level lql_totallen] in Hsize. rewrite (uint16_small (LQL_HDRSIZE H)) by lia.
    destruct (IH Hps Hfits (cur + MAXALIGN H (LQL_HDRSIZE H)) true fg) as (fg' & last & ->).
    exists fg', last. reflexivity.
  - destruct Hp as [Hne Hnames]. cbn [level_vars] in Hfit.
    destruct (level_for_alts q neg vs Hq Hne Hfit)
      as (items & zs & Hit & _ & Ev & _ & En & Efl & El & Eh).
    rewrite En, Ev, Efl, El, Eh.
    replace (Z.of_nat (List.length vs) =? 0) with false
      by (symmetry; apply Z.eqb_neq; destruct vs; [contradiction | cbn [List.length]; lia]).
    cbn [negb bind]. rewrite (lquery_in_fill_variants_items items vs Hit).
    + cbn [bind]. cbn [mk_level lql_totallen] in Hsize. rewrite uint16_small by lia.
      match goal with |- context [lquery_in_fill H buf qs ?c ?w ?f] =>
        destruct (IH Hps Hfits c w f) as (fg' & last & ->) end.
      exists fg', last. reflexivity.
    + exact Hnames.
Qed.

End Fill.

Lemma Forall2_level_exact buf qs ps :
  Forall2 (level_for H buf) qs ps -> Forall (level_sized H) ps ->
  Forall (level_held H) ps -> Forall (level_exact H) qs.
Proof.
  induction 1 as [|q p qs ps Hq Hqs IH]; intros Hps Hfits; [constructor|].
  apply Forall_cons_iff in Hps as [Hp Hps].
  apply Forall_cons_iff in Hfits as [Hfit Hfits].
  constructor; [eapply level_for_exact; eassumption | apply IH; assumption].
Qed.

Lemma lquery_in_init_at k :
  lquery_in_init (Z.of_nat (S k))
  = lq_at LQPRS_WAITLEVEL [] tmp_level0 k None false 0 0 0.
Proof. unfold lquery_in_init, lq_at. rewrite Nat2Z.id. reflexivity. Qed.

(** The record, from the state in which the loop and the checks behind it
    leave the levels. *)
Lemma lquery_in_finished buf ps k n stf :
  count_lquery_parts_ors H buf true = Ok (Z.of_nat (S k), Z.of_nat (S n)) ->
  List.length ps = S k ->
  Z.of_nat (S k) <= Z.quot (MaxAllocSize H) (ITEMSIZE H) ->
  qfinishes H buf (Z.of_nat (S n))
    (lq_at LQPRS_WAITLEVEL [] tmp_level0 k None false 0 0 0) stf ->
  Forall2 (level_for H buf) (qs_tmpql stf) ps -> Forall (level_sized H) ps ->
  Forall (level_held H) ps ->
  qs_hasnot stf = existsb is_neg ps ->
  lquery_in H buf = Ok (lquery_stored H ps).
Proof.
  intros Ecount Hlen Hmax Hfin Hqs Hps Hfits Hnot. unfold lquery_in, lquery_in_scan.
  rewrite Ecount. cbn [bind].
  replace (_ <? _) with false by (symmetry; apply Z.ltb_ge; lia).
  rewrite lquery_in_init_at.
  specialize (Hfin (S (List.length buf)) ltac:(cbn [lq_at qs_ptr]; lia)).
  destruct (lquery_in_loop H (S (List.length buf)) buf _ _) as [s | | |];
    cbn [bind] in Hfin |- *; try discriminate.
  rewrite Hfin. cbn [bind].
  rewrite (lquery_in_size_levels buf _ ps Hqs Hps Hfits). cbn [bind].
  destruct (lquery_in_fill_levels buf _ ps Hqs Hps Hfits (LQUERY_HDRSIZE H) false 0)
    as (fg & last & Efill).
  rewrite Efill. cbn [bind].
  change 0 with (uint16 0) in Efill at 1.
  apply (lquery_in_fill_firstgood H (LQL_NOT_set H Hok)) in Efill;
    [|eapply Forall2_level_exact; eassumption].
  destruct Efill as [-> _]. rewrite Hnot, Z.add_0_l.
  unfold lquery_stored, mk_lquery. cbn [lq_vl_len lq_flag]. rewrite Hlen.
  destruct (existsb is_neg ps); reflexivity.
Qed.

Lemma Forall_level_sized ps : Forall (level_canon H) ps -> Forall (level_sized H) ps.
Proof. apply Forall_impl. apply level_canon_sized. Qed.

Lemma plain_prefix_le ls : 0 <= plain_prefix H ls <= Z.of_nat (List.length ls).
Proof.
  induction ls as [|l ls IH]; cbn [plain_prefix List.length]; [lia|].
  destruct (plain_level H l); lia.
Qed.

Lemma lquery_stored_small ps :
  Z.of_nat (List.length ps) <= 65535 -> lquery_stored H ps = mk_lquery H ps.
Proof.
  intros Hn. unfold lquery_stored, mk_lquery. cbn [lq_vl_len lq_flag].
  pose proof (plain_prefix_le (map (mk_level H) ps)) as Hp. rewrite length_map in Hp.
  rewrite !uint16_small by lia. reflexivity.
Qed.

(** The text of the levels [ps], where the fields of each level hold its
    variants and its size, whatever the number of the levels. *)
Lemma lquery_in_levels_stored ps tail :
  ps <> [] -> Forall (level_canon H) ps -> Forall (level_held H) ps ->
  deref tail = NUL ->
  Z.of_nat (List.length ps) <= Z.quot (MaxAllocSize H) (ITEMSIZE H) ->
  lquery_in H (pattern_text H ps ++ tail) = Ok (lquery_stored H ps).
Proof.
  intros Hne Hps Hfits Ht Hmax.
  destruct ps as [|p0 ps0] eqn:Eps; [contradiction|]. rewrite <- Eps in *.
  assert (List.length ps = S (List.length ps0)) as Hlen by (rewrite Eps; reflexivity).
  set (buf := pattern_text H ps ++ tail).
  destruct (qfinishes_pattern buf (pattern_bars ps) ps [] (List.length ps0) None false
              0%nat 0 0 tail Hps (level_vars_bars ps _ (Nat.le_refl _)) Hlen eq_refl Ht)
    as (qs & stf & Hfin & Htmp & Hnot & Hqs).
  cbn [app] in Htmp. rewrite <- Htmp in Hqs.
  apply (lquery_in_finished buf ps (List.length ps0) (pattern_bars ps) stf);
    [| exact Hlen | lia | exact Hfin | exact Hqs | | exact Hfits | exact Hnot].
  - unfold buf. rewrite (count_pattern_levels ps tail Hne Hps Ht), Hlen. reflexivity.
  - apply Forall_level_sized. exact Hps.
Qed.

Lemma lquery_in_levels ps tail :
  ps <> [] -> Forall (level_canon H) ps -> Forall (level_held H) ps ->
  deref tail = NUL ->
  Z.of_nat (List.length ps) <= Z.quot (MaxAllocSize H) (ITEMSIZE H) ->
  Z.of_nat (List.length ps) <= 65535 ->
  lquery_in H (pattern_text H ps ++ tail) = Ok (mk_lquery H ps).
Proof.
  intros Hne Hps Hfits Ht Hmax Hn.
  rewrite lquery_in_levels_stored by assumption.
  rewrite lquery_stored_small by exact Hn. reflexivity.
Qed.

(** X17: [lquery_in] reads the text of the levels [ps] as the record of these
    levels: where every level is a quantifier with limits in order and of
    16 bits, or variants whose names have no modifier among their
    characters and no more than 255 characters with their modifiers, and
    where the fields of 16 bits hold the number of the levels and, of each
    level, the number of its variants and its size. *)
Theorem lquery_in_pattern ps tail :
  ps <> [] -> Forall (level_canon H) ps -> Forall (level_held H) ps ->
  deref tail = NUL ->
  Z.of_nat (List.length ps) <= Z.quot (MaxAllocSize H) (ITEMSIZE H) ->
  Z.of_nat (List.length ps) <= 65535 ->
  lquery_in H (pattern_text H ps ++ tail) = Ok (mk_lquery H ps).
Proof. exact (lquery_in_levels ps tail). Qed.

(** X18: the text that [lquery_out] returns for the record of such levels is
    read by [lquery_in] as the same record. *)
Theorem lquery_out_in ps t :
  ps <> [] -> Forall (level_canon H) ps -> Forall (level_chars H) ps ->
  Forall (level_held H) ps ->
  Z.of_nat (List.length ps) <= Z.quot (MaxAllocSize H) (ITEMSIZE H) ->
  Z.of_nat (List.length ps) <= 65535 ->
  0 <= lquery_out_size (map (mk_level H) ps) 1 ->
  lquery_out H (mk_lquery H ps) = Ok t ->
  lquery_in H (t ++ [NUL]) = Ok (mk_lquery H ps).
Proof.
  intros Hne Hps Hch Hfits Hmax Hn Hsize Hout. unfold lquery_out in Hout.
  rewrite (levels_of_mk H (mk_lquery H ps) ps eq_refl eq_refl) in Hout. cbn [bind] in Hout.
  rewrite (lquery_out_loop_then H Hok) in Hout by (auto; cbn; lia).
  unfold put_string in Hout. rewrite dot_text_0 in Hout.
  destruct (_ <? _) in Hout; [discriminate|]. cbn [app] in Hout.
  injection Hout as <-. apply lquery_in_levels; auto.
Qed.

(** *** Texts that lquery_in refuses *)

Lemma count_loop_chars_ors cs tail : forall fuel escape_mode levels ORs,
  Forall (wf_char H) cs -> deref tail = NUL ->
  (List.length (List.concat cs) < fuel)%nat ->
  count_loop H fuel true (List.concat cs ++ tail) escape_mode levels ORs
  = Ok (levels + Z.of_nat (dots_in cs escape_mode),
        ORs + Z.of_nat (bars_in cs escape_mode)).
Proof.
  induction cs as [|c cs IH]; intros fuel esc levels ORs Hcs Ht Hf.
  - destruct fuel as [|fuel]; [lia|]. cbn [List.concat app dots_in bars_in].
    rewrite !Z.add_0_r. destruct tail as [|x tail]; [reflexivity|].
    cbn in Ht. subst x. reflexivity.
  - apply Forall_cons_iff in Hcs as [Hc Hcs]. cbn [List.concat] in *.
    rewrite length_app in Hf. pose proof (wf_char_len H Hok c Hc).
    destruct fuel as [|fuel]; [lia|]. rewrite <- app_assoc, count_loop_char_ors by exact Hc.
    cbn [dots_in bars_in].
    destruct esc; [rewrite IH by (auto; lia); reflexivity|].
    destruct (single c "\"); [rewrite IH by (auto; lia); reflexivity|].
    destruct (single c "."); [rewrite IH by (auto; lia); f_equal; f_equal; lia|].
    destruct (single c "|"); rewrite IH by (auto; lia); f_equal; f_equal; lia.
Qed.

(** The counts of a text [t] and of the characters [cs] behind it. *)
Lemma count_text t d b cs tail :
  counts H t d b -> Forall (wf_char H) cs -> deref tail = NUL ->
  count_lquery_parts_ors H (t ++ List.concat cs ++ tail) true
  = Ok (Z.of_nat (S (d + dots_in cs false)), Z.of_nat (S (b + bars_in cs false))).
Proof.
  intros Hcount Hcs Ht. unfold count_lquery_parts_ors.
  destruct (Hcount (S (List.length (t ++ List.concat cs ++ tail)))
              (List.concat cs ++ tail) 0 0) as (fuel & Hfuel & ->);
    [rewrite !length_app; lia|].
  rewrite length_app in Hfuel. rewrite count_loop_chars_ors by (auto; lia).
  cbn [bind]. f_equal. f_equal; lia.
Qed.

Lemma counts_dotted ps :
  Forall (level_canon H) ps -> counts H (dotted_levels H ps) (List.length ps) (pattern_bars ps).
Proof.
  induction 1 as [|p ps Hp Hps IH]; [apply counts_nil|].
  change (dotted_levels H (p :: ps)) with ((level_text H p ++ ["."]) ++ dotted_levels H ps).
  change (List.length (p :: ps)) with ((0 + 1) + List.length ps)%nat.
  replace (pattern_bars (p :: ps)) with ((pred (level_vars p) + 0) + pattern_bars ps)%nat
    by (unfold pattern_bars, list_sum; cbn [map fold_right]; lia).
  apply counts_app; [|exact IH].
  apply counts_app; [apply counts_level; exact Hp | apply counts_dot].
Qed.

Lemma pattern_text_dotted ps p ps' :
  pattern_text H (ps ++ p :: ps') = dotted_levels H ps ++ pattern_text H (p :: ps').
Proof.
  induction ps as [|p0 ps IH]; [reflexivity|].
  change ((p0 :: ps) ++ p :: ps') with (p0 :: (ps ++ p :: ps')).
  destruct (ps ++ p :: ps') as [|p1 l] eqn:E; [destruct ps; discriminate|].
  rewrite pattern_text_cons, IH.
  change (dotted_levels H (p0 :: ps)) with ((level_text H p0 ++ ["."]) ++ dotted_levels H ps).
  rewrite <- !app_assoc. reflexivity.
Qed.

(** The levels in front of the place where a text goes wrong. *)
Lemma qruns_dotted buf n ps : forall dlev k lptr hasnot off pos esc rest,
  Forall (level_canon H) ps -> Forall (fun p => (level_vars p <= S n)%nat) ps ->
  skipn off buf = dotted_levels H ps ++ rest ->
  exists qs lptr' pos' esc',
    qruns_to H buf (Z.of_nat (S n))
      (lq_at LQPRS_WAITLEVEL dlev tmp_level0 (List.length ps + k) lptr hasnot off pos esc)
      (lq_at LQPRS_WAITLEVEL (dlev ++ qs) tmp_level0 k lptr'
         (hasnot || existsb is_neg ps) (off + List.length (dotted_levels H ps)) pos' esc') /\
    Forall2 (level_for H buf) qs ps.
Proof.
  induction ps as [|p ps IH]; intros dlev k lptr hasnot off pos esc rest Hps Hn Hs.
  - exists [], lptr, pos, esc. cbn [dotted_levels map List.concat List.length existsb Nat.add].
    rewrite app_nil_r, Nat.add_0_r, orb_false_r. split; [apply qruns_to_refl | constructor].
  - apply Forall_cons_iff in Hps as [Hp Hps]. apply Forall_cons_iff in Hn as [Hnp Hn].
    change (dotted_levels H (p :: ps)) with ((level_text H p ++ ["."]) ++ dotted_levels H ps) in Hs |- *.
    rewrite <- !app_assoc in Hs.
    destruct (qruns_level_dot buf n dlev (List.length (p :: ps) + k) p lptr hasnot off pos
                esc (dotted_levels H ps ++ rest) (List.length ps + k) Hp Hnp eq_refl Hs)
      as (q & lptr1 & pos1 & esc1 & Hrun1 & Hq).
    pose proof (skipn_plus_app _ _ _ _ Hs) as Hs1.
    pose proof (skipn_plus_app _ _ _ _ Hs1) as Hs2. cbn [List.length] in Hs2.
    destruct (IH (dlev ++ [q]) k lptr1 (hasnot || is_neg p)
                (off + List.length (level_text H p) + 1)%nat pos1 esc1 rest Hps Hn Hs2)
      as (qs & lptr' & pos' & esc' & Hrun & Hqs).
    exists (q :: qs), lptr', pos', esc'. split; [|constructor; assumption].
    eapply qruns_to_trans; [exact Hrun1|]. eapply qruns_to_eq; [exact Hrun|].
    rewrite <- app_assoc, !length_app. cbn [app List.length existsb].
    rewrite orb_assoc. qeq.
Qed.

Lemma qraises_step buf numOR st c rest e :
  skipn (qs_ptr st) buf = c ++ rest -> wf_char H c ->
  lquery_in_step H buf numOR st = Raise e -> qraises H buf numOR st e.
Proof.
  intros Hs Hc Hstep fuel Hf.
  destruct (wf_char_skipn H Hok buf (qs_ptr st) c rest Hs Hc) as [Hle Hlt].
  destruct fuel as [|fuel]; [lia|]. cbn [lquery_in_loop].
  replace (List.length buf <? qs_ptr st)%nat with false by (symmetry; apply Nat.ltb_ge; lia).
  rewrite Hs, (head_not_NUL H), Hstep by assumption. reflexivity.
Qed.

Lemma qraises_end buf numOR st e :
  (qs_ptr st <= List.length buf)%nat -> deref (skipn (qs_ptr st) buf) = NUL ->
  lquery_in_finish H st = Raise e -> qraises H buf numOR st e.
Proof.
  intros Hle Hn Hfin fuel Hf. destruct fuel as [|fuel]; [lia|].
  cbn [lquery_in_loop].
  replace (List.length buf <? qs_ptr st)%nat with false by (symmetry; apply Nat.ltb_ge; lia).
  rewrite Hn. cbn. exact Hfin.
Qed.

Lemma qruns_to_raises buf numOR st st' e :
  qruns_to H buf numOR st st' -> qraises H buf numOR st' e -> qraises H buf numOR st e.
Proof.
  intros [Hr _] Hf fuel Hfuel. destruct (Hr fuel Hfuel) as (fuel' & Hfuel' & ->).
  apply Hf. exact Hfuel'.
Qed.

Lemma lquery_in_Raise_at buf k n e :
  count_lquery_parts_ors H buf true = Ok (Z.of_nat (S k), Z.of_nat (S n)) ->
  Z.of_nat (S k) <= Z.quot (MaxAllocSize H) (ITEMSIZE H) ->
  qraises H buf (Z.of_nat (S n))
    (lq_at LQPRS_WAITLEVEL [] tmp_level0 k None false 0 0 0) e ->
  lquery_in H buf = Raise e.
Proof.
  intros Ecount Hmax Hr. unfold lquery_in, lquery_in_scan. rewrite Ecount. cbn [bind].
  replace (_ <? _) with false by (symmetry; apply Z.ltb_ge; lia).
  rewrite lquery_in_init_at.
  specialize (Hr (S (List.length buf)) ltac:(cbn [lq_at qs_ptr]; lia)).
  destruct (lquery_in_loop H (S (List.length buf)) buf _ _) as [s | | |];
    cbn [bind] in Hr |- *; try discriminate.
  - rewrite Hr. reflexivity.
  - injection Hr as ->. reflexivity.
Qed.

(** The text [dotted_levels ps ++ rest], read up to [rest]. *)
Lemma qruns_prefix ps rest k n :
  Forall (level_canon H) ps -> (pattern_bars ps <= n)%nat ->
  exists qs lptr esc,
    qruns_to H (dotted_levels H ps ++ rest) (Z.of_nat (S n))
      (lq_at LQPRS_WAITLEVEL [] tmp_level0 (List.length ps + k) None false 0 0 0)
      (lq_at LQPRS_WAITLEVEL qs tmp_level0 k lptr (existsb is_neg ps)
         (List.length (dotted_levels H ps)) (Z.of_nat (chars_in H (dotted_levels H ps))) esc) /\
    Forall2 (level_for H (dotted_levels H ps ++ rest)) qs ps.
Proof.
  intros Hps Hn.
  destruct (qruns_dotted (dotted_levels H ps ++ rest) n ps [] k None false 0%nat 0 0 rest Hps
              (level_vars_bars ps n Hn) eq_refl)
    as (qs & lptr & pos' & esc & Hrun & Hqs).
  exists qs, lptr, esc. split; [|exact Hqs].
  pose proof (qruns_to_pos _ _ _ _ (dotted_levels H ps) rest Hrun eq_refl eq_refl) as Hpos.
  cbn [lq_at qs_pos] in Hpos. cbn [app orb Nat.add Z.add] in Hrun, Hpos. subst pos'.
  exact Hrun.
Qed.

Lemma count_text_end t d b tail :
  counts H t d b -> deref tail = NUL ->
  count_lquery_parts_ors H (t ++ tail) true = Ok (Z.of_nat (S d), Z.of_nat (S b)).
Proof.
  intros Hcount Ht. pose proof (count_text t d b [] tail Hcount (Forall_nil _) Ht) as E.
  cbn [List.concat app dots_in bars_in] in E. rewrite !Nat.add_0_r in E. exact E.
Qed.

Lemma wf_char_mark a : a = "!" \/ a = "|" \/ a = "\" -> wf_char H [a].
Proof.
  intros Ha. apply wf_char_byte; destruct Ha as [-> | [-> | ->]];
    try discriminate; vm_compute; lia.
Qed.

Section QRaiseSteps.

Variables (buf : text) (n : nat) (dlev : list tmp_level) (k : nat) (hasnot : bool).
Variables (off : nat) (pos : Z) (c rest : text).
Hypothesis Hs : skipn off buf = c ++ rest.
Hypothesis Hc : wf_char H c.

Lemma lquery_in_step_level_delim lptr esc :
  c = ["."] \/ c = ["|"] ->
  lquery_in_step H buf (Z.of_nat (S n))
    (lq_at LQPRS_WAITLEVEL dlev tmp_level0 k lptr hasnot off pos esc)
  = Raise (SyntaxErrorAt pos).
Proof. intros [E | E]; subst c; qstep Hs Hc; qconst; qrun; reflexivity. Qed.

Lemma lquery_in_step_var_delim flag done it m esc :
  c = ["."] \/ c = ["|"] ->
  lquery_in_step H buf (Z.of_nat (S n))
    (lq_at LQPRS_WAITVAR dlev (alts_at flag done it (S m)) k
       (Some (List.length dlev, List.length done)) hasnot off pos esc)
  = Raise (SyntaxErrorAt pos).
Proof. intros [E | E]; subst c; qstep Hs Hc; qconst; qrun; reflexivity. Qed.

Lemma lquery_in_step_delim_long flag done start len iflag wlen m esc :
  c = ["."] \/ c = ["|"] -> 255 < wlen ->
  lquery_in_step H buf (Z.of_nat (S n))
    (lq_at LQPRS_WAITDELIM dlev (alts_at flag done (qitem start len iflag wlen) m) k
       (Some (List.length dlev, List.length done)) hasnot off pos esc)
  = Raise (NameTooLong wlen pos).
Proof.
  intros [E | E] Hw; subst c; qstep Hs Hc; qconst; qrun;
    (replace (255 <? wlen) with true by (symmetry; apply Z.ltb_lt; lia)); reflexivity.
Qed.

Lemma lquery_in_step_delim_flagged flag done start len iflag wlen m esc :
  single c "@" = false -> single c "*" = false -> single c "%" = false ->
  single c "|" = false -> single c "." = false -> iflag <> 0 ->
  lquery_in_step H buf (Z.of_nat (S n))
    (lq_at LQPRS_WAITDELIM dlev (alts_at flag done (qitem start len iflag wlen) m) k
       (Some (List.length dlev, List.length done)) hasnot off pos esc)
  = Raise (SyntaxErrorAt pos).
Proof.
  intros E1 E2 E3 E4 E5 Hf. qstep Hs Hc. rewrite E1, E2, E3, E4, E5.
  replace (iflag =? 0) with false by (symmetry; apply Z.eqb_neq; exact Hf).
  destruct (single c "\"); qrun;
    replace (iflag =? 0) with false by (symmetry; apply Z.eqb_neq; exact Hf);
    reflexivity.
Qed.

Lemma lquery_in_step_open_other lptr esc :
  single c "{" = false -> single c "." = false ->
  lquery_in_step H buf (Z.of_nat (S n))
    (lq_at LQPRS_WAITOPEN dlev tmp_level0 k lptr hasnot off pos esc)
  = Raise (SyntaxErrorAt pos).
Proof. intros E1 E2. qstep Hs Hc. rewrite E1, E2. qrun. reflexivity. Qed.

End QRaiseSteps.

Lemma lquery_in_finish_long dlev flag done start len iflag w m k hasnot off pos esc :
  (start < off)%nat -> item_len H off start esc iflag <> 0 -> 255 < w ->
  lquery_in_finish H
    (lq_at LQPRS_WAITDELIM dlev (alts_at flag done (qitem start len iflag w) m) k
       (Some (List.length dlev, List.length done)) hasnot off pos esc)
  = Raise (NameTooLong w pos).
Proof.
  intros Hlt Hlen Hw. unfold lquery_in_finish, variant_len. qrun.
  replace (start =? off)%nat with false by (symmetry; apply Nat.eqb_neq; lia).
  qrun. fold (item_len H off start esc iflag).
  replace (item_len H off start esc iflag =? 0) with false
    by (symmetry; apply Z.eqb_neq; exact Hlen).
  replace (255 <? w) with true by (symmetry; apply Z.ltb_lt; lia).
  reflexivity.
Qed.

(** A name of more than 255 characters, read to its end, and the end of
    the text, a dot or a bar behind it. *)
Lemma qraises_long buf n dlev flag done start iflag w m k hasnot off pos esc cs tail :
  (start < off <= List.length buf)%nat -> item_len H off start esc iflag <> 0 ->
  255 < w -> skipn off buf = List.concat cs ++ tail -> deref tail = NUL ->
  match cs with [] => True | c :: _ => c = ["."] \/ c = ["|"] end ->
  qraises H buf (Z.of_nat (S n))
    (lq_at LQPRS_WAITDELIM dlev (alts_at flag done (qitem start 0 iflag w) m) k
       (Some (List.length dlev, List.length done)) hasnot off pos esc)
    (NameTooLong w pos).
Proof.
  intros [Hlt Hle] Hlen Hw Hs Ht Hcs. destruct cs as [|c cs].
  - cbn [List.concat app] in Hs. apply qraises_end; cbn [lq_at qs_ptr].
    + exact Hle.
    + rewrite Hs. exact Ht.
    + apply lquery_in_finish_long; assumption.
  - cbn [List.concat] in Hs. rewrite <- app_assoc in Hs.
    assert (wf_char H c) as Hwf
      by (destruct Hcs as [-> | ->]; [apply wf_char_punct | apply wf_char_mark]; tauto).
    eapply qraises_step with (c := c); [exact Hs | exact Hwf |].
    eapply lquery_in_step_delim_long; [exact Hs | exact Hwf | exact Hcs | exact Hw].
Qed.

(** *** More levels than can be allocated *)

(** X19: a text with more levels than [MaxAllocSize / ITEMSIZE] raises the
    error of the limit, before a character of it is read: the levels are
    the dots that no backslash escapes, and one. *)
Theorem lquery_in_too_many_levels cs tail :
  Forall (wf_char H) cs -> deref tail = NUL ->
  Z.quot (MaxAllocSize H) (ITEMSIZE H) < Z.of_nat (dots_in cs false) + 1 ->
  lquery_in H (List.concat cs ++ tail)
  = Raise (TooManyLevels (Z.of_nat (dots_in cs false) + 1)
             (Z.quot (MaxAllocSize H) (ITEMSIZE H))).
Proof.
  intros Hcs Ht Hlim. unfold lquery_in, lquery_in_scan.
  pose proof (count_text [] 0 0 cs tail (counts_nil) Hcs Ht) as E.
  cbn [app Nat.add] in E. rewrite E. cbn [bind].
  replace (_ <? _) with true by (symmetry; apply Z.ltb_lt; lia).
  cbn [bind]. f_equal. f_equal. lia.
Qed.

(** *** A dot or a bar where a name starts *)

(** The variants of the level [Alts neg vs] and the bar behind them, after
    the levels [ps]: the state in front of the next variant. *)
Lemma qruns_bar ps neg vs rest k n :
  Forall (level_canon H) ps -> level_canon H (Alts neg vs) ->
  (pattern_bars ps + List.length vs <= n)%nat ->
  exists qs flag done it m lptr hasnot esc,
    qruns_to H (dotted_levels H ps ++ level_text H (Alts neg vs) ++ ["|"] ++ rest)
      (Z.of_nat (S n))
      (lq_at LQPRS_WAITLEVEL [] tmp_level0 (List.length ps + k) None false 0 0 0)
      (lq_at LQPRS_WAITVAR qs (alts_at flag done it (S m)) k lptr hasnot
         (List.length (dotted_levels H ps ++ level_text H (Alts neg vs) ++ ["|"]))
         (Z.of_nat (chars_in H (dotted_levels H ps ++ level_text H (Alts neg vs) ++ ["|"]))) esc) /\
    lptr = Some (List.length qs, List.length done).
Proof.
  intros Hps Hp Hn. set (p := Alts neg vs) in *.
  set (buf := dotted_levels H ps ++ level_text H p ++ ["|"] ++ rest).
  destruct (qruns_prefix ps (level_text H p ++ ["|"] ++ rest) k n Hps ltac:(lia))
    as (qs & lptr & esc & Hrun & _). fold buf in Hrun.
  assert (skipn (List.length (dotted_levels H ps)) buf = level_text H p ++ ["|"] ++ rest) as Hs
    by apply skipn_app_exact.
  destruct (qruns_alts buf n qs k neg vs lptr (existsb is_neg ps)
              (List.length (dotted_levels H ps)) (Z.of_nat (chars_in H (dotted_levels H ps))) esc
              (["|"] ++ rest) Hp Hs ltac:(lia))
    as (done & it & pos1 & esc1 & Hrun1 & Hopen & _).
  fold p in Hrun1, Hopen. pose proof (skipn_plus_app _ _ _ _ Hs) as Hs1.
  destruct it as [start len iflag w]. destruct Hopen as (_ & Hw & _).
  cbn [ni_wlen] in Hw.
  change {| ni_start := start; ni_len := len; ni_flag := iflag; ni_wlen := w |}
    with (qitem start len iflag w) in Hrun1.
  assert (wf_char H ["|"]) as Hbar by (apply wf_char_mark; tauto).
  pose proof (lquery_in_step_delim_bar buf n qs k (existsb is_neg ps || neg)
                (List.length (dotted_levels H ps) + List.length (level_text H p))
                pos1 ["|"] rest Hs1 Hbar
                (vars_flag H (if neg then LQL_NOT H else 0) vs) done start len iflag w
                (S n - List.length vs) esc1 (single_refl "|") Hw) as Hstep.
  assert (qruns_to H buf (Z.of_nat (S n))
            (lq_at LQPRS_WAITLEVEL [] tmp_level0 (List.length ps + k) None false 0 0 0)
            (lq_at LQPRS_WAITVAR qs
               (alts_at (vars_flag H (if neg then LQL_NOT H else 0) vs) done
                  (qitem start
                     (item_len H (List.length (dotted_levels H ps) + List.length (level_text H p))
                        start esc1 iflag) iflag w)
                  (S (n - List.length vs))) k
               (Some (List.length qs, List.length done)) (existsb is_neg ps || neg)
               (List.length (dotted_levels H ps ++ level_text H p ++ ["|"])) (pos1 + 1) esc1))
    as Hall.
  { eapply qruns_to_trans; [exact Hrun|]. eapply qruns_to_trans; [exact Hrun1|].
    eapply qruns_to_eq.
    { eapply qruns_to_step; [exact Hs1 | exact Hbar | exact Hstep]. }
    rewrite !length_app. cbn [List.length].
    replace (S n - List.length vs)%nat with (S (n - List.length vs)) by lia. qeq. }
  pose proof (qruns_to_pos buf _ _ _ (dotted_levels H ps ++ level_text H p ++ ["|"]) rest Hall)
    as Hpos.
  cbn [lq_at qs_pos qs_ptr] in Hpos. rewrite Z.add_0_l in Hpos.
  rewrite <- Hpos; [|unfold buf; rewrite <- !app_assoc; reflexivity | reflexivity].
  do 8 eexists. split; [exact Hall | reflexivity].
Qed.

(** X20: after levels that end in a dot, and after the bar that ends a variant,
    a dot or a bar is a syntax error at its position, the number of
    characters in front of it. *)
Theorem lquery_in_empty_name ps c cs tail :
  Forall (level_canon H) ps -> c = ["."] \/ c = ["|"] ->
  Forall (wf_char H) cs -> deref tail = NUL ->
  Z.of_nat (S (List.length ps + dots_in (c :: cs) false))
  <= Z.quot (MaxAllocSize H) (ITEMSIZE H) ->
  lquery_in H (dotted_levels H ps ++ c ++ List.concat cs ++ tail)
  = Raise (SyntaxErrorAt (Z.of_nat (chars_in H (dotted_levels H ps)))) /\
  forall neg vs, level_canon H (Alts neg vs) ->
    lquery_in H (dotted_levels H ps ++ level_text H (Alts neg vs) ++ ["|"] ++ c
                 ++ List.concat cs ++ tail)
    = Raise (SyntaxErrorAt
               (Z.of_nat (chars_in H (dotted_levels H ps ++ level_text H (Alts neg vs) ++ ["|"])))).
Proof.
  intros Hps Hc Hcs Ht Hlim.
  assert (wf_char H c) as Hwf
    by (destruct Hc as [-> | ->]; [apply wf_char_punct | apply wf_char_mark]; tauto).
  split.
  - pose proof (count_text (dotted_levels H ps) _ _ (c :: cs) tail (counts_dotted ps Hps)
                  (Forall_cons _ Hwf Hcs) Ht) as Ecount.
    cbn [List.concat] in Ecount. rewrite <- app_assoc in Ecount.
    eapply lquery_in_Raise_at; [exact Ecount | exact Hlim |].
    destruct (qruns_prefix ps (c ++ List.concat cs ++ tail) (dots_in (c :: cs) false)
                (pattern_bars ps + bars_in (c :: cs) false) Hps ltac:(lia))
      as (qs & lptr & esc & Hrun & _).
    eapply qruns_to_raises; [exact Hrun|].
    eapply qraises_step with (c := c); [apply skipn_app_exact | exact Hwf |].
    eapply lquery_in_step_level_delim; [apply skipn_app_exact | exact Hwf | exact Hc].
  - intros neg vs Hp.
    assert (vs <> []) as Hne by (destruct vs; [contradiction | discriminate]).
    assert (1 <= List.length vs)%nat as Hl by (destruct vs; [contradiction | cbn; lia]).
    pose proof (count_text (dotted_levels H ps ++ level_text H (Alts neg vs) ++ ["|"]) _ _
                  (c :: cs) tail
                  (counts_app _ _ _ _ _ _ (counts_dotted ps Hps)
                     (counts_app _ _ _ _ _ _ (counts_level _ Hp) counts_bar))
                  (Forall_cons _ Hwf Hcs) Ht) as Ecount.
    cbn [List.concat level_vars] in Ecount. rewrite <- !app_assoc in Ecount.
    replace (S (List.length ps + (0 + 0) + dots_in (c :: cs) false))
      with (S (List.length ps + dots_in (c :: cs) false)) in Ecount by lia.
    eapply lquery_in_Raise_at; [exact Ecount | exact Hlim |].
    destruct (qruns_bar ps neg vs (c ++ List.concat cs ++ tail) (dots_in (c :: cs) false)
                (pattern_bars ps + (pred (List.length vs) + 1) + bars_in (c :: cs) false)
                Hps Hp ltac:(lia))
      as (qs & flag & done & it & m & lptr & hasnot & esc & Hrun & ->).
    eapply qruns_to_raises; [exact Hrun|].
    assert (skipn (List.length (dotted_levels H ps ++ level_text H (Alts neg vs) ++ ["|"]))
              (dotted_levels H ps ++ level_text H (Alts neg vs) ++ ["|"] ++ c
               ++ List.concat cs ++ tail) = c ++ List.concat cs ++ tail) as Hs.
    { rewrite <- (skipn_app_exact (dotted_levels H ps ++ level_text H (Alts neg vs) ++ ["|"])
                    (c ++ List.concat cs ++ tail)) at 2.
      rewrite <- !app_assoc. reflexivity. }
    eapply qraises_step with (c := c); [exact Hs | exact Hwf |].
    eapply lquery_in_step_var_delim; [exact Hs | exact Hwf | exact Hc].
Qed.

(** *** The end of the text where a name is to come *)

(** X21: a text that is empty or ends after the dot of a level, after the bar of
    a variant, or after a [!] or a backslash where a level starts, is a
    syntax error: unexpected end of line. *)
Theorem lquery_in_unexpected_end ps tail :
  Forall (level_canon H) ps -> deref tail = NUL ->
  Z.of_nat (S (List.length ps)) <= Z.quot (MaxAllocSize H) (ITEMSIZE H) ->
  lquery_in H (dotted_levels H ps ++ tail) = Raise UnexpectedEnd /\
  lquery_in H (dotted_levels H ps ++ ["!"] ++ tail) = Raise UnexpectedEnd /\
  lquery_in H (dotted_levels H ps ++ ["\"] ++ tail) = Raise UnexpectedEnd /\
  forall neg vs, level_canon H (Alts neg vs) ->
    lquery_in H (dotted_levels H ps ++ level_text H (Alts neg vs) ++ ["|"] ++ tail)
    = Raise UnexpectedEnd.
Proof.
  intros Hps Ht Hlim.
  assert (Z.of_nat (S (List.length ps + 0)) <= Z.quot (MaxAllocSize H) (ITEMSIZE H))
    as Hlim0 by (rewrite Nat.add_0_r; exact Hlim).
  split; [|split; [|split]].
  - pose proof (count_text_end _ _ _ tail (counts_dotted ps Hps) Ht) as Ecount.
    rewrite <- (Nat.add_0_r (List.length ps)) in Ecount.
    eapply lquery_in_Raise_at; [exact Ecount | exact Hlim0 |].
    destruct (qruns_prefix ps tail 0 (pattern_bars ps) Hps (Nat.le_refl _))
      as (qs & lptr & esc & Hrun & _).
    eapply qruns_to_raises; [exact Hrun|].
    apply qraises_end; cbn [lq_at qs_ptr].
    + rewrite length_app. lia.
    + rewrite skipn_app_exact. exact Ht.
    + reflexivity.
  - pose proof (count_text_end _ _ _ tail
                  (counts_app _ _ _ _ _ _ (counts_dotted ps Hps)
                     (counts_mark "!" ltac:(tauto))) Ht) as Ecount.
    rewrite <- app_assoc, !Nat.add_0_r in Ecount.
    rewrite <- (Nat.add_0_r (List.length ps)) in Ecount.
    eapply lquery_in_Raise_at; [exact Ecount | exact Hlim0 |].
    destruct (qruns_prefix ps (["!"] ++ tail) 0 (pattern_bars ps) Hps (Nat.le_refl _))
      as (qs & lptr & esc & Hrun & _).
    set (buf := dotted_levels H ps ++ ["!"] ++ tail) in *.
    assert (skipn (List.length (dotted_levels H ps)) buf = ["!"] ++ tail) as Hs
      by apply skipn_app_exact.
    assert (wf_char H ["!"]) as Hc by (apply wf_char_mark; tauto).
    eapply qruns_to_raises; [exact Hrun|]. eapply qruns_to_raises.
    { eapply qruns_to_step; [exact Hs | exact Hc |].
      eapply lquery_in_step_level_not; [exact Hs | exact Hc | apply single_refl]. }
    pose proof (skipn_plus_app _ _ _ _ Hs) as Hs1.
    apply qraises_end; cbn [lq_at qs_ptr].
    + unfold buf. rewrite !length_app. cbn [List.length]. lia.
    + rewrite Hs1. exact Ht.
    + unfold lquery_in_finish. qrun. cbn [List.length].
      replace (S (List.length (dotted_levels H ps)) =? List.length (dotted_levels H ps) + 1)%nat
        with true by (symmetry; apply Nat.eqb_eq; lia).
      reflexivity.
  - pose proof (count_text (dotted_levels H ps) _ _ [["\"]] tail (counts_dotted ps Hps)
                  (Forall_cons _ (wf_char_backslash H Hok) (Forall_nil _)) Ht) as Ecount.
    cbn [List.concat dots_in bars_in] in Ecount. rewrite single_refl in Ecount.
    cbn [dots_in bars_in app] in Ecount. rewrite (Nat.add_0_r (pattern_bars ps)) in Ecount.
    eapply lquery_in_Raise_at; [exact Ecount | exact Hlim0 |].
    destruct (qruns_prefix ps (["\"] ++ tail) 0 (pattern_bars ps) Hps (Nat.le_refl _))
      as (qs & lptr & esc & Hrun & _).
    set (buf := dotted_levels H ps ++ ["\"] ++ tail) in *.
    assert (skipn (List.length (dotted_levels H ps)) buf = ["\"] ++ tail) as Hs
      by apply skipn_app_exact.
    eapply qruns_to_raises; [exact Hrun|]. eapply qruns_to_raises.
    { eapply qruns_to_step; [exact Hs | apply (wf_char_backslash H Hok) |].
      eapply lquery_in_step_level_backslash;
        [exact Hs | apply (wf_char_backslash H Hok) | apply single_refl]. }
    pose proof (skipn_plus_app _ _ _ _ Hs) as Hs1.
    apply qraises_end; cbn [lq_at qs_ptr].
    + unfold buf. rewrite !length_app. cbn [List.length]. lia.
    + rewrite Hs1. exact Ht.
    + reflexivity.
  - intros neg vs Hp.
    assert (1 <= List.length vs)%nat as Hl by (destruct vs; [contradiction | cbn; lia]).
    pose proof (count_text_end _ _ _ tail
                  (counts_app _ _ _ _ _ _ (counts_dotted ps Hps)
                     (counts_app _ _ _ _ _ _ (counts_level _ Hp) counts_bar)) Ht) as Ecount.
    cbn [level_vars] in Ecount. rewrite <- !app_assoc in Ecount.
    replace (S (List.length ps + (0 + 0))) with (S (List.length ps + 0)) in Ecount by lia.
    eapply lquery_in_Raise_at; [exact Ecount | exact Hlim0 |].
    destruct (qruns_bar ps neg vs tail 0
                (pattern_bars ps + (pred (List.length vs) + 1)) Hps Hp ltac:(lia))
      as (qs & flag & done & it & m & lptr & hasnot & esc & Hrun & ->).
    eapply qruns_to_raises; [exact Hrun|].
    apply qraises_end; cbn [lq_at qs_ptr].
    + rewrite !length_app. cbn [List.length]. lia.
    + replace (dotted_levels H ps ++ level_text H (Alts neg vs) ++ ["|"] ++ tail)
        with ((dotted_levels H ps ++ level_text H (Alts neg vs) ++ ["|"]) ++ tail)
        by (rewrite <- !app_assoc; reflexivity).
      rewrite skipn_app_exact. exact Ht.
    + reflexivity.
Qed.

(** *** A negated level without a name *)

Lemma level_for_not_empty buf off m :
  level_for H buf
    (alts_at (LQL_NOT H) [] (qitem off (item_len H off off 0 0) 0 1) m)
    (Alts true [([], 0)]).
Proof.
  cbn [level_for]. exists [qitem off (item_len H off off 0 0) 0 1], (repeat nodeitem0 m).
  split; [reflexivity|]. constructor; [|constructor].
  unfold item_for, item_len. cbn [qitem ni_len ni_flag ni_start fst snd List.concat List.length].
  split; [cbn; lia|]. split; [reflexivity|]. exists (skipn off buf). reflexivity.
Qed.

(** X22: a [!] in front of a dot is read as a negated level with one variant,
    whose name is empty: in the text of the levels [ps], the level
    [Alts true [([], 0)]], and the levels [ps'], of which there is one at
    least, where the fields of 16 bits hold the number of the levels and,
    of each level, the number of its variants and its size. *)
Theorem lquery_in_not_empty ps ps' tail :
  Forall (level_canon H) ps -> Forall (level_canon H) ps' -> ps' <> [] ->
  Forall (level_held H) (ps ++ Alts true [([], 0)] :: ps') ->
  deref tail = NUL ->
  Z.of_nat (S (List.length ps + List.length ps'))
  <= Z.quot (MaxAllocSize H) (ITEMSIZE H) ->
  Z.of_nat (S (List.length ps + List.length ps')) <= 65535 ->
  lquery_in H (pattern_text H (ps ++ Alts true [([], 0)] :: ps') ++ tail)
  = Ok (mk_lquery H (ps ++ Alts true [([], 0)] :: ps')).
Proof.
  intros Hps Hps' Hne Hheld Ht Hlim Hn. set (p0 := Alts true [([], 0)]) in *.
  rewrite <- (lquery_stored_small (ps ++ p0 :: ps'))
    by (rewrite length_app; cbn [List.length]; lia).
  destruct ps' as [|p1 ps1] eqn:Eps'; [contradiction|]. rewrite <- Eps' in *.
  assert (List.length ps' = S (List.length ps1)) as Hlen' by (rewrite Eps'; reflexivity).
  assert (pattern_text H (ps ++ p0 :: ps')
          = dotted_levels H ps ++ ["!"] ++ ["."] ++ pattern_text H ps') as Etext.
  { rewrite pattern_text_dotted, Eps', pattern_text_cons. reflexivity. }
  rewrite Etext, <- !app_assoc.
  set (buf := dotted_levels H ps ++ ["!"] ++ ["."] ++ pattern_text H ps' ++ tail).
  set (n := (pattern_bars ps + pattern_bars ps')%nat).
  assert (count_lquery_parts_ors H buf true
          = Ok (Z.of_nat (S (List.length ps + List.length ps')), Z.of_nat (S n))) as Ecount.
  { pose proof (count_text_end _ _ _ tail
                  (counts_app _ _ _ _ _ _ (counts_dotted ps Hps)
                     (counts_app _ _ _ _ _ _ (counts_mark "!" ltac:(tauto))
                        (counts_app _ _ _ _ _ _ counts_dot
                           (counts_pattern ps' Hne Hps')))) Ht) as E.
    rewrite <- !app_assoc in E. fold buf in E. rewrite E. unfold n. rewrite Hlen'.
    apply f_equal. apply f_equal2; apply f_equal; cbn [pred]; lia. }
  destruct (qruns_prefix ps (["!"] ++ ["."] ++ pattern_text H ps' ++ tail)
              (List.length ps') n Hps ltac:(unfold n; lia))
    as (qs & lptr & esc & Hrun & Hqs). fold buf in Hrun, Hqs.
  assert (skipn (List.length (dotted_levels H ps)) buf
          = ["!"] ++ ["."] ++ pattern_text H ps' ++ tail) as Hs by apply skipn_app_exact.
  pose proof (skipn_plus_app _ _ _ _ Hs) as Hs1.
  pose proof (skipn_plus_app _ _ _ _ Hs1) as Hs2. cbn [List.length] in Hs1, Hs2.
  assert (wf_char H ["!"]) as Hbang by (apply wf_char_mark; tauto).
  assert (wf_char H ["."]) as Hdot by (apply wf_char_punct; tauto).
  set (off := List.length (dotted_levels H ps)) in *.
  set (pos := Z.of_nat (chars_in H (dotted_levels H ps))) in *.
  pose proof (lquery_in_step_level_not buf n qs (List.length ps') (existsb is_neg ps)
                off pos ["!"] _ Hs Hbang lptr esc (single_refl "!")) as Hstep1.
  pose proof (lquery_in_step_delim_dot buf n qs (List.length ps') true
                (off + 1) (pos + 1) ["."] _ Hs1 Hdot (LQL_NOT H) [] (S off) 0 0 1 n 0
                (List.length ps1) (single_refl ".") ltac:(lia) Hlen') as Hstep2.
  cbn [List.length] in Hstep1, Hstep2.
  destruct (qfinishes_pattern buf n ps'
              (qs ++ [alts_at (LQL_NOT H) []
                        (qitem (S off) (item_len H (off + 1) (S off) 0 0) 0 1) n])
              (List.length ps1) (Some (List.length qs, 0%nat)) true (off + 1 + 1)%nat
              (pos + 1 + 1) 0 tail Hps'
              (level_vars_bars ps' n ltac:(unfold n; lia)) Hlen' Hs2 Ht)
    as (qs2 & stf & Hfin & Htmp & Hnot & Hqs2).
  assert (qfinishes H buf (Z.of_nat (S n))
            (lq_at LQPRS_WAITLEVEL [] tmp_level0 (List.length ps + List.length ps') None
               false 0 0 0) stf) as Hall.
  { eapply qruns_to_finishes; [exact Hrun|].
    eapply qruns_to_finishes; [eapply qruns_to_step; [exact Hs | exact Hbang | exact Hstep1]|].
    eapply qruns_to_finishes; [eapply qruns_to_step; [exact Hs1 | exact Hdot | exact Hstep2]|].
    exact Hfin. }
  apply (lquery_in_finished buf (ps ++ p0 :: ps') (List.length ps + List.length ps') n stf);
    [exact Ecount | | exact Hlim | exact Hall | | | exact Hheld |].
  - rewrite length_app. cbn [List.length]. lia.
  - rewrite Htmp, <- app_assoc. apply Forall2_app; [exact Hqs|].
    constructor; [|exact Hqs2].
    replace (off + 1)%nat with (S off) by lia. apply level_for_not_empty.
  - apply Forall_app. split; [apply Forall_level_sized; exact Hps|].
    constructor; [|apply Forall_level_sized; exact Hps'].
    split; [discriminate|]. repeat constructor.
  - rewrite Hnot, existsb_app. cbn [existsb is_neg p0 orb]. rewrite orb_true_r. reflexivity.
Qed.

(** *** A name of more than 255 characters *)

Lemma qraises_name buf n dlev flag done start lead v m k hasnot off pos cs tail :
  name_canon H v ->
  (255 < lead + List.length (fst v) + List.length (flags_text H (snd v)))%nat ->
  off = (start + List.length (variant_text H v))%nat ->
  skipn start buf = variant_text H v ++ List.concat cs ++ tail -> deref tail = NUL ->
  match cs with [] => True | c :: _ => c = ["."] \/ c = ["|"] end ->
  qraises H buf (Z.of_nat (S n))
    (lq_at LQPRS_WAITDELIM dlev
       (alts_at flag done
          (qitem start 0 (snd v)
             (Z.of_nat (lead + List.length (fst v) + List.length (flags_text H (snd v)))))
          m) k
       (Some (List.length dlev, List.length done)) hasnot off pos
       (Z.of_nat (escapes_of (escape_chars ["\"; " "; "."; "|"] (fst v)))))
    (NameTooLong
       (Z.of_nat (lead + List.length (fst v) + List.length (flags_text H (snd v)))) pos).
Proof.
  intros (Hne & Hwf & _ & _) Hlong -> Hs Ht Hcs.
  pose proof (render_units_length (fst v) Hne Hwf) as Hpos.
  assert (variant_text H v <> []) as Hvne.
  { unfold variant_text. intros E. apply (f_equal (@List.length ascii)) in E.
    rewrite length_app in E. cbn [List.length] in E. lia. }
  pose proof (skipn_app_bound _ _ _ _ Hs Hvne) as Hb.
  apply qraises_long with (cs := cs) (tail := tail); auto.
  - split; [|exact Hb]. unfold variant_text. rewrite length_app. lia.
  - rewrite (item_len_name _ _ _ (escape_chars ["\"; " "; "."; "|"] (fst v)))
      by (unfold variant_text; rewrite length_app; lia).
    rewrite escape_chars_name. destruct (fst v) as [|c cs0]; [contradiction|].
    apply Forall_cons_iff in Hwf as [Hc _]. pose proof (wf_char_len H Hok c Hc).
    cbn [List.concat]. rewrite length_app. lia.
  - lia.
  - apply (skipn_plus_app _ _ _ _ Hs).
Qed.

(** X23: a name that has more than 255 characters, counting its modifiers and
    the [!] in front of it, raises the error of a name too long at the end
    of the text, at a dot and at a bar; the error reports that number and
    the position behind the name.  First the first name of a level, then
    a name behind a bar. *)
Theorem lquery_in_name_too_long ps v cs tail :
  Forall (level_canon H) ps -> name_canon H v ->
  Forall (wf_char H) cs ->
  match cs with [] => True | c :: _ => c = ["."] \/ c = ["|"] end ->
  deref tail = NUL ->
  Z.of_nat (S (List.length ps + dots_in cs false))
  <= Z.quot (MaxAllocSize H) (ITEMSIZE H) ->
  (forall neg : bool,
     (neg = false -> single (hd [] (fst v)) "!" = false) ->
     (255 < (if neg then 1 else 0) + List.length (fst v)
            + List.length (flags_text H (snd v)))%nat ->
     lquery_in H (dotted_levels H ps ++ (if neg then ["!"] else []) ++ variant_text H v
                  ++ List.concat cs ++ tail)
     = Raise (NameTooLong
                (Z.of_nat ((if neg then 1 else 0) + List.length (fst v)
                           + List.length (flags_text H (snd v))))
                (Z.of_nat (chars_in H (dotted_levels H ps ++ (if neg then ["!"] else [])
                                       ++ variant_text H v))))) /\
  (forall neg vs, level_canon H (Alts neg vs) ->
     (255 < 0 + List.length (fst v) + List.length (flags_text H (snd v)))%nat ->
     lquery_in H (dotted_levels H ps ++ level_text H (Alts neg vs) ++ ["|"] ++ variant_text H v
                  ++ List.concat cs ++ tail)
     = Raise (NameTooLong
                (Z.of_nat (0 + List.length (fst v) + List.length (flags_text H (snd v))))
                (Z.of_nat (chars_in H (dotted_levels H ps ++ level_text H (Alts neg vs) ++ ["|"]
                                       ++ variant_text H v))))).
Proof.
  intros Hps Hv Hcs Hshape Ht Hlim. split.
  - intros neg Hbang Hlong.
    set (bang := if neg then ["!"] else []) in *.
    set (t := dotted_levels H ps ++ bang ++ variant_text H v).
    assert (counts H bang 0 0) as Hcb
      by (unfold bang; destruct neg; [apply counts_mark; tauto | apply counts_nil]).
    pose proof (count_text t _ _ cs tail
                  (counts_app _ _ _ _ _ _ (counts_dotted ps Hps)
                     (counts_app _ _ _ _ _ _ Hcb (counts_name v Hv))) Hcs Ht) as Ecount.
    unfold t in Ecount. rewrite <- !app_assoc in Ecount.
    replace (S (List.length ps + (0 + 0) + dots_in cs false))
      with (S (List.length ps + dots_in cs false)) in Ecount by lia.
    eapply lquery_in_Raise_at; [exact Ecount | exact Hlim |].
    set (n := (pattern_bars ps + (0 + 0) + bars_in cs false)%nat).
    set (rest := List.concat cs ++ tail).
    destruct (qruns_prefix ps (bang ++ variant_text H v ++ rest) (dots_in cs false) n Hps
                ltac:(unfold n; lia)) as (qs & lptr & esc & Hrun & _).
    set (buf := dotted_levels H ps ++ bang ++ variant_text H v ++ rest) in *.
    assert (skipn (List.length (dotted_levels H ps)) buf = bang ++ variant_text H v ++ rest) as Hs
      by apply skipn_app_exact.
    pose proof (skipn_plus_app _ _ _ _ Hs) as Hs1.
    assert (buf = t ++ rest) as Ebuf by (unfold buf, t; rewrite <- !app_assoc; reflexivity).
    destruct neg; unfold bang in *; cbn [List.length app] in *.
    + destruct (qruns_name_not buf n qs (dots_in cs false) v lptr (existsb is_neg ps)
                  (List.length (dotted_levels H ps)) (Z.of_nat (chars_in H (dotted_levels H ps))) esc
                  rest Hv Hs) as (pos' & Hrun1).
      pose proof (qruns_to_trans _ _ _ _ _ Hrun Hrun1) as Hall.
      pose proof (qruns_to_pos buf _ _ _ t rest Hall Ebuf) as Hpos.
      cbn [lq_at qs_pos qs_ptr] in Hpos. rewrite Z.add_0_l in Hpos.
      rewrite <- Hpos by (unfold t; rewrite !length_app; cbn [List.length]; lia).
      eapply qruns_to_raises; [exact Hall|].
      apply qraises_name with (done := @nil nodeitem) (lead := 1%nat) (cs := cs) (tail := tail);
        auto.
      * lia.
      * replace (S (List.length (dotted_levels H ps))) with (List.length (dotted_levels H ps) + 1)%nat
          by lia.
        exact Hs1.
    + destruct (qruns_name_level buf n qs (dots_in cs false) v lptr (existsb is_neg ps)
                  (List.length (dotted_levels H ps)) (Z.of_nat (chars_in H (dotted_levels H ps))) esc
                  rest Hv (Hbang eq_refl) Hs) as (pos' & Hrun1).
      pose proof (qruns_to_trans _ _ _ _ _ Hrun Hrun1) as Hall.
      pose proof (qruns_to_pos buf _ _ _ t rest Hall Ebuf) as Hpos.
      cbn [lq_at qs_pos qs_ptr] in Hpos. rewrite Z.add_0_l in Hpos.
      rewrite <- Hpos by (unfold t; rewrite !length_app; cbn [List.length]; lia).
      eapply qruns_to_raises; [exact Hall|].
      apply qraises_name with (done := @nil nodeitem) (lead := 0%nat) (cs := cs) (tail := tail);
        auto.
  - intros neg vs Hp Hlong.
    assert (1 <= List.length vs)%nat as Hl by (destruct vs; [contradiction | cbn; lia]).
    set (t0 := dotted_levels H ps ++ level_text H (Alts neg vs) ++ ["|"]).
    set (t := t0 ++ variant_text H v).
    pose proof (count_text t _ _ cs tail
                  (counts_app _ _ _ _ _ _
                     (counts_app _ _ _ _ _ _ (counts_dotted ps Hps)
                        (counts_app _ _ _ _ _ _ (counts_level _ Hp) counts_bar))
                     (counts_name v Hv)) Hcs Ht) as Ecount.
    cbn [level_vars] in Ecount. unfold t, t0 in Ecount. rewrite <- !app_assoc in Ecount.
    replace (S (List.length ps + (0 + 0) + 0 + dots_in cs false))
      with (S (List.length ps + dots_in cs false)) in Ecount by lia.
    eapply lquery_in_Raise_at; [exact Ecount | exact Hlim |].
    set (n := (pattern_bars ps + (pred (List.length vs) + 1) + 0 + bars_in cs false)%nat).
    set (rest := List.concat cs ++ tail).
    destruct (qruns_bar ps neg vs (variant_text H v ++ rest) (dots_in cs false) n Hps Hp
                ltac:(unfold n; lia))
      as (qs & flag & done & it & m & lptr & hasnot & esc & Hrun & ->).
    fold t0 in Hrun.
    set (buf := dotted_levels H ps ++ level_text H (Alts neg vs) ++ ["|"] ++ variant_text H v
                ++ rest) in *.
    assert (buf = t0 ++ variant_text H v ++ rest) as Ebuf0
      by (unfold buf, t0; rewrite <- !app_assoc; reflexivity).
    assert (skipn (List.length t0) buf = variant_text H v ++ rest) as Hs
      by (rewrite Ebuf0; apply skipn_app_exact).
    assert (buf = t ++ rest) as Ebuf by (unfold t; rewrite <- app_assoc; exact Ebuf0).
    destruct (qruns_name_var buf n qs (dots_in cs false) v flag done it m hasnot
                (List.length t0) (Z.of_nat (chars_in H t0)) esc rest Hv Hs)
      as (pos' & Hrun1).
    pose proof (qruns_to_trans _ _ _ _ _ Hrun Hrun1) as Hall.
    pose proof (qruns_to_pos buf _ _ _ t rest Hall Ebuf) as Hpos.
    cbn [lq_at qs_pos qs_ptr] in Hpos. rewrite Z.add_0_l in Hpos.
    unfold t0 in t. unfold t in Hpos. rewrite <- !app_assoc in Hpos.
    rewrite <- Hpos by (unfold t0; rewrite !length_app; cbn [List.length]; lia).
    eapply qruns_to_raises; [exact Hall|].
    apply qraises_name with (lead := 0%nat) (cs := cs) (tail := tail); auto.
Qed.

(** *** A character behind a modifier, and behind a star *)

(** X24: behind the modifiers of the first name of a level only a modifier, a
    bar, a dot or the end of the text may come: another character is a
    syntax error at its position. *)
Theorem lquery_in_after_modifier ps neg v c cs tail :
  Forall (level_canon H) ps -> name_canon H v ->
  (neg = false -> single (hd [] (fst v)) "!" = false) -> snd v <> 0 ->
  wf_char H c ->
  single c "@" = false -> single c "*" = false -> single c "%" = false ->
  single c "|" = false -> single c "." = false ->
  Forall (wf_char H) cs -> deref tail = NUL ->
  Z.of_nat (S (List.length ps + dots_in (c :: cs) false))
  <= Z.quot (MaxAllocSize H) (ITEMSIZE H) ->
  lquery_in H (dotted_levels H ps ++ (if neg then ["!"] else []) ++ variant_text H v ++ c
               ++ List.concat cs ++ tail)
  = Raise (SyntaxErrorAt
             (Z.of_nat (chars_in H (dotted_levels H ps ++ (if neg then ["!"] else [])
                                    ++ variant_text H v)))).
Proof.
  intros Hps Hv Hbang Hflag Hc E1 E2 E3 E4 E5 Hcs Ht Hlim.
  set (bang := if neg then ["!"] else []) in *.
  set (t := dotted_levels H ps ++ bang ++ variant_text H v).
  assert (counts H bang 0 0) as Hcb
    by (unfold bang; destruct neg; [apply counts_mark; tauto | apply counts_nil]).
  pose proof (count_text t _ _ (c :: cs) tail
                (counts_app _ _ _ _ _ _ (counts_dotted ps Hps)
                   (counts_app _ _ _ _ _ _ Hcb (counts_name v Hv)))
                (Forall_cons _ Hc Hcs) Ht) as Ecount.
  unfold t in Ecount. cbn [List.concat] in Ecount. rewrite <- !app_assoc in Ecount.
  replace (S (List.length ps + (0 + 0) + dots_in (c :: cs) false))
    with (S (List.length ps + dots_in (c :: cs) false)) in Ecount by lia.
  eapply lquery_in_Raise_at; [exact Ecount | exact Hlim |].
  set (n := (pattern_bars ps + (0 + 0) + bars_in (c :: cs) false)%nat).
  set (k := dots_in (c :: cs) false).
  set (rest := c ++ List.concat cs ++ tail).
  destruct (qruns_prefix ps (bang ++ variant_text H v ++ rest) k n Hps
              ltac:(unfold n; lia)) as (qs & lptr & esc & Hrun & _).
  set (buf := dotted_levels H ps ++ bang ++ variant_text H v ++ rest) in *.
  assert (skipn (List.length (dotted_levels H ps)) buf = bang ++ variant_text H v ++ rest) as Hs
    by apply skipn_app_exact.
  assert (buf = t ++ rest) as Ebuf by (unfold buf, t; rewrite <- !app_assoc; reflexivity).
  assert (skipn (List.length t) buf = c ++ List.concat cs ++ tail) as Hs2
    by (rewrite Ebuf; apply skipn_app_exact).
  assert (exists flag start w esc2,
            qruns_to H buf (Z.of_nat (S n))
              (lq_at LQPRS_WAITLEVEL [] tmp_level0 (List.length ps + k) None false 0 0 0)
              (lq_at LQPRS_WAITDELIM qs (alts_at flag [] (qitem start 0 (snd v) w) n) k
                 (Some (List.length qs, O)) (existsb is_neg ps || neg) (List.length t)
                 (Z.of_nat (chars_in H t)) esc2)) as (flag & start & w & esc2 & Hall).
  { destruct neg; unfold bang in *; cbn [List.length app] in *.
    - destruct (qruns_name_not buf n qs k v lptr (existsb is_neg ps)
                  (List.length (dotted_levels H ps)) (Z.of_nat (chars_in H (dotted_levels H ps))) esc
                  rest Hv Hs) as (pos' & Hrun1).
      pose proof (qruns_to_trans _ _ _ _ _ Hrun Hrun1) as Hall.
      pose proof (qruns_to_pos buf _ _ _ t rest Hall Ebuf) as Hpos.
      cbn [lq_at qs_pos qs_ptr] in Hpos. rewrite Z.add_0_l in Hpos.
      rewrite <- Hpos by (unfold t; rewrite !length_app; cbn [List.length]; lia).
      do 4 eexists. eapply qruns_to_eq; [exact Hall|].
      unfold t. rewrite !length_app, orb_true_r. cbn [List.length]. qeq.
    - destruct (qruns_name_level buf n qs k v lptr (existsb is_neg ps)
                  (List.length (dotted_levels H ps)) (Z.of_nat (chars_in H (dotted_levels H ps))) esc
                  rest Hv (Hbang eq_refl) Hs) as (pos' & Hrun1).
      pose proof (qruns_to_trans _ _ _ _ _ Hrun Hrun1) as Hall.
      pose proof (qruns_to_pos buf _ _ _ t rest Hall Ebuf) as Hpos.
      cbn [lq_at qs_pos qs_ptr] in Hpos. rewrite Z.add_0_l in Hpos.
      rewrite <- Hpos by (unfold t; rewrite !length_app; cbn [List.length]; lia).
      do 4 eexists. eapply qruns_to_eq; [exact Hall|].
      unfold t. rewrite !length_app, orb_false_r. cbn [List.length]. qeq. }
  eapply qruns_to_raises; [exact Hall|].
  eapply qraises_step with (c := c); [exact Hs2 | exact Hc |].
  eapply (lquery_in_step_delim_flagged buf n qs k _ (List.length t) _ c _ Hs2 Hc
            flag [] start 0 (snd v) w n esc2); assumption.
Qed.

(** X25: behind the star that starts a level only a brace, a dot or the end of
    the text may come: another character is a syntax error at its
    position. *)
Theorem lquery_in_after_star ps c cs tail :
  Forall (level_canon H) ps -> wf_char H c ->
  single c "{" = false -> single c "." = false ->
  Forall (wf_char H) cs -> deref tail = NUL ->
  Z.of_nat (S (List.length ps + dots_in (c :: cs) false))
  <= Z.quot (MaxAllocSize H) (ITEMSIZE H) ->
  lquery_in H (dotted_levels H ps ++ ["*"] ++ c ++ List.concat cs ++ tail)
  = Raise (SyntaxErrorAt (Z.of_nat (chars_in H (dotted_levels H ps ++ ["*"])))).
Proof.
  intros Hps Hc E1 E2 Hcs Ht Hlim.
  set (t := dotted_levels H ps ++ ["*"]).
  pose proof (count_text t _ _ (c :: cs) tail
                (counts_app _ _ _ _ _ _ (counts_dotted ps Hps)
                   (counts_mark "*" ltac:(tauto)))
                (Forall_cons _ Hc Hcs) Ht) as Ecount.
  unfold t in Ecount. cbn [List.concat] in Ecount. rewrite <- !app_assoc in Ecount.
  replace (S (List.length ps + 0 + dots_in (c :: cs) false))
    with (S (List.length ps + dots_in (c :: cs) false)) in Ecount by lia.
  eapply lquery_in_Raise_at; [exact Ecount | exact Hlim |].
  set (n := (pattern_bars ps + 0 + bars_in (c :: cs) false)%nat).
  set (k := dots_in (c :: cs) false).
  set (rest := c ++ List.concat cs ++ tail).
  destruct (qruns_prefix ps (["*"] ++ rest) k n Hps ltac:(unfold n; lia))
    as (qs & lptr & esc & Hrun & _).
  set (buf := dotted_levels H ps ++ ["*"] ++ rest) in *.
  assert (skipn (List.length (dotted_levels H ps)) buf = ["*"] ++ rest) as Hs
    by apply skipn_app_exact.
  pose proof (skipn_plus_app _ _ _ _ Hs) as Hs1.
  assert (wf_char H ["*"]) as Hstar by (apply wf_char_punct; tauto).
  assert (buf = t ++ rest) as Ebuf by (unfold buf, t; rewrite <- !app_assoc; reflexivity).
  pose proof (lquery_in_step_level_star buf n qs k (existsb is_neg ps)
                (List.length (dotted_levels H ps)) (Z.of_nat (chars_in H (dotted_levels H ps))) ["*"] rest
                Hs Hstar lptr esc (single_refl "*")) as Hstep.
  assert (qruns_to H buf (Z.of_nat (S n))
            (lq_at LQPRS_WAITLEVEL [] tmp_level0 (List.length ps + k) None false 0 0 0)
            (lq_at LQPRS_WAITOPEN qs tmp_level0 k lptr (existsb is_neg ps)
               (List.length (dotted_levels H ps) + List.length ["*"])
               (Z.of_nat (chars_in H (dotted_levels H ps)) + 1) 0)) as Hall.
  { eapply qruns_to_trans; [exact Hrun|].
    eapply qruns_to_step; [exact Hs | exact Hstar | exact Hstep]. }
  pose proof (qruns_to_pos buf _ _ _ t rest Hall Ebuf) as Hpos.
  cbn [lq_at qs_pos qs_ptr] in Hpos. rewrite Z.add_0_l in Hpos.
  rewrite <- Hpos by (unfold t; rewrite !length_app; reflexivity).
  eapply qruns_to_raises; [exact Hall|].
  eapply qraises_step with (c := c); [exact Hs1 | exact Hc |].
  eapply lquery_in_step_open_other; [exact Hs1 | exact Hc | exact E1 | exact E2].
Qed.

End LqueryRunSteps.

(** ** The count of the plain levels in front *)






(** The pattern [a b.!c@|d\|e.*{2,}]. *)
Lemma count_lquery_parts_ors_pattern_witness :
  count_lquery_parts_ors pg_host (txt "a\ b.!c@|d\|e.*{2,}") true = Ok (3, 2).
Proof.
  apply (count_lquery_parts_ors_pattern pg_host pg_host_ok
           [Alts false [([["a"]; [" "]; ["b"]], 0)];
            Alts true [([["c"]], LVAR_INCASE pg_host); ([["d"]; ["|"]; ["e"]], 0)];
            Star 2 65535] []).
  - discriminate.
  - repeat constructor; try discriminate; vm_compute; try lia; try reflexivity.
  - reflexivity.
Defined.

Lemma lquery_in_pattern_witness :
  lquery_in pg_host (txt "a\ b.!c@|d\|e.*{2,}")
  = Ok (mk_lquery pg_host
          [Alts false [([["a"]; [" "]; ["b"]], 0)];
           Alts true [([["c"]], LVAR_INCASE pg_host); ([["d"]; ["|"]; ["e"]], 0)];
           Star 2 65535]).
Proof.
  apply (lquery_in_pattern pg_host pg_host_ok
           [Alts false [([["a"]; [" "]; ["b"]], 0)];
            Alts true [([["c"]], LVAR_INCASE pg_host); ([["d"]; ["|"]; ["e"]], 0)];
            Star 2 65535] []).
  - discriminate.
  - repeat constructor; try discriminate; vm_compute; try lia; try reflexivity.
  - repeat constructor; vm_compute; discriminate.
  - reflexivity.
  - vm_compute. discriminate.
  - vm_compute. discriminate.
Defined.

Lemma lquery_out_in_witness :
  lquery_out pg_host
    (mk_lquery pg_host
       [Alts false [([["a"]; [" "]; ["b"]], 0)];
        Alts true [([["c"]], LVAR_INCASE pg_host); ([["d"]; ["|"]; ["e"]], 0)];
        Star 2 65535])
  = Ok (txt "a\ b.!c@|d\|e.*{2,}") /\
  lquery_in pg_host (txt "a\ b.!c@|d\|e.*{2,}" ++ [NUL])
  = Ok (mk_lquery pg_host
          [Alts false [([["a"]; [" "]; ["b"]], 0)];
           Alts true [([["c"]], LVAR_INCASE pg_host); ([["d"]; ["|"]; ["e"]], 0)];
           Star 2 65535]).
Proof.
  split; [vm_compute; reflexivity|].
  apply (lquery_out_in pg_host pg_host_ok
           [Alts false [([["a"]; [" "]; ["b"]], 0)];
            Alts true [([["c"]], LVAR_INCASE pg_host); ([["d"]; ["|"]; ["e"]], 0)];
            Star 2 65535]).
  - discriminate.
  - repeat constructor; try discriminate; vm_compute; try lia; try reflexivity.
  - repeat constructor; try discriminate; vm_compute; try lia; try reflexivity.
  - repeat constructor; vm_compute; discriminate.
  - vm_compute. discriminate.
  - vm_compute. discriminate.
  - vm_compute. discriminate.
  - vm_compute. reflexivity.
Defined.

Lemma lquery_in_too_many_levels_witness :
  lquery_in small_host (txt "a.b.c") = Raise (TooManyLevels 3 2).
Proof.
  apply (lquery_in_too_many_levels small_host small_host_ok
           [["a"]; ["."]; ["b"]; ["."]; ["c"]] []).
  - repeat constructor; try discriminate; vm_compute; lia.
  - reflexivity.
  - vm_compute. reflexivity.
Defined.

(** The texts [a..b] and [a.c|.b]. *)
Lemma lquery_in_empty_name_witness :
  lquery_in pg_host (txt "a..b") = Raise (SyntaxErrorAt 2) /\
  lquery_in pg_host (txt "a.c|.b") = Raise (SyntaxErrorAt 4).
Proof.
  assert (Forall (level_canon pg_host) [Alts false [([["a"]], 0)]]) as Hps
    by (repeat constructor; try discriminate; vm_compute; try lia; try reflexivity).
  assert (level_canon pg_host (Alts false [([["c"]], 0)])) as Hp
    by (repeat constructor; try discriminate; vm_compute; try lia; try reflexivity).
  assert (Forall (wf_char pg_host) [["b"]]) as Hcs
    by (repeat constructor; try discriminate; vm_compute; lia).
  destruct (lquery_in_empty_name pg_host pg_host_ok [Alts false [([["a"]], 0)]] ["."]
              [["b"]] [] Hps (or_introl eq_refl) Hcs eq_refl
              ltac:(vm_compute; discriminate)) as [E1 E2].
  split; [exact E1 | exact (E2 false [([["c"]], 0)] Hp)].
Defined.

(** The texts [a.], [a.!], [a.\] and [a.b|]. *)
Lemma lquery_in_unexpected_end_witness :
  lquery_in pg_host (txt "a.") = Raise UnexpectedEnd /\
  lquery_in pg_host (txt "a.!") = Raise UnexpectedEnd /\
  lquery_in pg_host (txt "a.\") = Raise UnexpectedEnd /\
  lquery_in pg_host (txt "a.b|") = Raise UnexpectedEnd.
Proof.
  assert (Forall (level_canon pg_host) [Alts false [([["a"]], 0)]]) as Hps
    by (repeat constructor; try discriminate; vm_compute; try lia; try reflexivity).
  assert (level_canon pg_host (Alts false [([["b"]], 0)])) as Hp
    by (repeat constructor; try discriminate; vm_compute; try lia; try reflexivity).
  destruct (lquery_in_unexpected_end pg_host pg_host_ok [Alts false [([["a"]], 0)]] []
              Hps eq_refl ltac:(vm_compute; discriminate)) as (E1 & E2 & E3 & E4).
  split; [exact E1|]. split; [exact E2|]. split; [exact E3|].
  exact (E4 false [([["b"]], 0)] Hp).
Defined.

(** The text [a.!.b]. *)
Lemma lquery_in_not_empty_witness :
  lquery_in pg_host (txt "a.!.b")
  = Ok (mk_lquery pg_host
          [Alts false [([["a"]], 0)]; Alts true [([], 0)]; Alts false [([["b"]], 0)]]).
Proof.
  apply (lquery_in_not_empty pg_host pg_host_ok [Alts false [([["a"]], 0)]]
           [Alts false [([["b"]], 0)]] []).
  - repeat constructor; try discriminate; vm_compute; try lia; try reflexivity.
  - repeat constructor; try discriminate; vm_compute; try lia; try reflexivity.
  - discriminate.
  - repeat constructor; vm_compute; discriminate.
  - reflexivity.
  - vm_compute. discriminate.
  - vm_compute. discriminate.
Defined.

(** A name of 254 characters with two modifiers, as the first name of a
    level and behind a bar. *)
Lemma lquery_in_name_too_long_witness :
  lquery_in pg_host (repeat "b" 254 ++ txt "@*.c") = Raise (NameTooLong 256 256) /\
  lquery_in pg_host (txt "a|" ++ repeat "b" 254 ++ txt "@*.c")
  = Raise (NameTooLong 256 258).
Proof.
  assert (name_canon pg_host (repeat ["b"] 254, 3)) as Hv.
  { split; [discriminate|]. split; [|split; [|reflexivity]].
    - apply Forall_forall. intros c Hc. apply repeat_spec in Hc. subst c.
      repeat split; try discriminate.
    - apply Forall_forall. intros c Hc. apply repeat_spec in Hc. subst c.
      repeat split. }
  assert (level_canon pg_host (Alts false [([["a"]], 0)])) as Hp
    by (repeat constructor; try discriminate; vm_compute; try lia; try reflexivity).
  assert (Forall (wf_char pg_host) [["."]; ["c"]]) as Hcs
    by (repeat constructor; try discriminate; vm_compute; lia).
  destruct (lquery_in_name_too_long pg_host pg_host_ok [] (repeat ["b"] 254, 3)
              [["."]; ["c"]] [] (Forall_nil _) Hv Hcs (or_introl eq_refl) eq_refl
              ltac:(vm_compute; discriminate)) as [E1 E2].
  split.
  - exact (E1 false ltac:(reflexivity) ltac:(vm_compute; lia)).
  - exact (E2 false [([["a"]], 0)] Hp ltac:(vm_compute; lia)).
Defined.

(** The text [a@b]. *)
Lemma lquery_in_after_modifier_witness :
  lquery_in pg_host (txt "a@b") = Raise (SyntaxErrorAt 2).
Proof.
  apply (lquery_in_after_modifier pg_host pg_host_ok [] false ([["a"]], 2) ["b"] [] []);
    try reflexivity; try discriminate; try (constructor; fail).
  - repeat constructor; try discriminate; vm_compute; try lia; try reflexivity.
  - repeat constructor; try discriminate; vm_compute; lia.
Defined.

(** The text [a.*b]. *)
Lemma lquery_in_after_star_witness :
  lquery_in pg_host (txt "a.*b") = Raise (SyntaxErrorAt 3).
Proof.
  apply (lquery_in_after_star pg_host pg_host_ok [Alts false [([["a"]], 0)]] ["b"] [] []);
    try reflexivity; try (constructor; fail).
  - repeat constructor; try discriminate; vm_compute; try lia; try reflexivity.
  - repeat constructor; try discriminate; vm_compute; lia.
  - vm_compute. discriminate.
Defined.
